(* ===== verification/_CoqProject ===== *)
-Q . S2P
Prelude.v
Text.v
BitMap.v
NList.v
Machine.v
Mult.v
Mips.v
Interrupt.v
Disk.v
SynchDisk.v
FileHdr.v
OpenFile.v
Directory.v
FileSys.v
Console.v
ConsoleTest.v
Network.v
Thread.v
Synch.v
KernelInv.v
KernelProps.v
Dispatch.v
Progs.v
SynchList.v
FDList.v
AddrSpace.v
Coff2Noff.v
Coff2Flat.v
Disasm.v
Interp.v
Paging.v
Host.v
Swap.v
Process.v
Children.v
Exception.v
Executable.v
PagingProps.v
FsTest.v
Startup.v
ExceptionProps.v
Bytes.v
Userland.v
VirtMem.v
Args.v
UserMem.v
UserProgs.v
UserProgsProps.v
