(* ===== verification/Prelude.v ===== *)
(** * A verification development for NachOS (with the multiprogramming project)

    Nachos is a small operating system that runs on a simulated MIPS workstation
    in one UNIX process.  This library models the configuration the makefile of
    filesys/ builds (threads, user programs, demand paging, the real file system;
    32-bit little-endian host) and proves what makes its parts correct.  The
    sources are under src/; a definition has the name it has there.

    ** The program and the files

    The simulated hardware.
    - Machine.v: machine/machine.{h,cc}, machine/translate.{h,cc} and DelayedLoad:
      registers, physical memory, page table or TLB, Translate, ReadMem, WriteMem,
      RaiseException.  The kernel is behind the class [Kernel].
    - Mult.v, Mips.v: machine/mipssim.{h,cc}: Decode, OneInstruction (a group of
      cases of the switch per definition), Run.
    - Interrupt.v: machine/interrupt.{h,cc}, stats.{h,cc}, timer.{h,cc}: simulated
      time, the interrupt level, the pending interrupts.  The handlers are behind
      the class [Hardware].
    - Disk.v: machine/disk.{h,cc} and the file calls of sysdep.cc.
    - Console.v: machine/console.{h,cc} and userprog/synchconsole.{h,cc}.
      ConsoleTest.v: the console tests of userprog/progtest.cc.
    - Network.v: machine/network.{h,cc}.

    The kernel.
    - NList.v: threads/list.{h,cc}, on a heap of cells.
    - Thread.v, Synch.v: threads/thread.{h,cc}, scheduler.{h,cc}, synch.{h,cc} and
      the globals of system.cc, with the invariant in KernelInv.v and the
      properties in KernelProps.v and Dispatch.v.
    - Progs.v, SynchList.v: threads/synchlist.{h,cc}, as programs of kernel calls
      with steps of their own in between.
    - Children.v: the child records of thread.cc, and the search of Join.
    - Startup.v: threads/main.cc, the flags of system.cc, DebugIsEnabled of
      utility.cc; runs of the program one after another on one disk.

    The file system.
    - SynchDisk.v: filesys/synchdisk.{h,cc}.  The class [SectorStore], an array of
      sectors, is all the rest relies on.
    - BitMap.v: userprog/bitmap.{h,cc}.  FileHdr.v, OpenFile.v, Directory.v,
      FileSys.v: the files of these names under filesys/.
    - FsTest.v: filesys/fstest.cc.
    - Host.v: the file calls of machine/sysdep.cc, on UNIX as a class [Host] with
      laws, and the stub of the file system in filesys/{openfile,filesys}.h, which
      the makefile of userprog/ chooses.

    User programs.
    - FDList.v: userprog/fd_list.h and the part of addrspace.cc that implements it.
    - AddrSpace.v: userprog/addrspace.{h,cc} and bin/noff.h, with lemmas in
      Paging.v and Swap.v and properties in PagingProps.v.  The file system is
      behind the class [FileStore]; Executable.v shows Nachos' own implements it,
      Host.v the stub.
    - VirtMem.v: the memory of a program as it sees it, an array of bytes.  Args.v:
      the kernel's accesses to it, and the arguments of a new program.  UserMem.v:
      the program's own, and the instructions that make them.
    - Exception.v, ExceptionProps.v: userprog/exception.cc and the numbers of
      syscall.h.
    - Process.v: StartProcess and the time slices of userprog/progtest.cc.
    - Bytes.v, Userland.v: all of it together.  The file system only ever returns
      and stores bytes (the class [ByteStore]), and the handlers of Exception.v are
      a kernel of the machine that satisfies its contract.

    - UserProgs.v: the programs of test/, as trees of system calls, with their
      properties in UserProgsProps.v on any kernel that keeps the promises of
      syscall.h (the class [Terminal]; the console Read of exception.cc does not).

    The tools of bin/, which run on the host.
    - Coff2Noff.v: coff2noff.c and coff.h, which make the executables.
      Coff2Flat.v: coff2flat.c.
    - Disasm.v: the tables and printing of d.c, out.c, opstrings.c, instr.h and encode.h, against the trace
      of mipssim.
    - Interp.v: execute.c and int.h, the second MIPS interpreter, and how main.c
      and disasm.c load sections.

    Text.v has the strings that sprintf and printf make; it is used by the file
    system and the kernel too.  This file holds what they all share: the result monad, 32- and 64-bit integers as
    Z with their wrap-around written out, arrays as lists indexed by Z, byte
    orders, runs of sequences of operations, the tactics and hint databases.

    ** How it is modelled

    State is a record, an operation a function from state to a result [Ok] or a
    fault [Err]: a failed ASSERT (which aborts the simulator), an access outside an
    array, a dereference of NULL, a trap of the host, or, in SynchDisk.v, a wait for
    a thread that the model of one call leaves out.  What C++ leaves undefined
    without any of these (memory that [new] returns, uninitialised locals and
    members) is a parameter (new_char, new_words, garbage, ...), and the theorems
    hold for all its values.  Interactions: the machine calls the kernel
    ([Kernel]), time calls the devices ([Hardware]), the file system calls the disk
    ([SectorStore]), the address space and the system calls call the file system
    ([FileStore], [FileOps]); each class has a class of laws where the clients need
    them, and an instance that is proved to satisfy them.

    Printing.  Text is a list of characters.  FileSystem::Open, the commands of
    fstest.cc and main return what they print; what a user program and the kernel
    under it print (Write to the console, the messages of exception.cc, addrspace.cc
    and progtest.cc, the line of Open) goes to [stdout] of [vmem].  What was printed
    before a fault is lost with the rest of the state.

    Threads.  A thread is the list of kernel calls it still has to make, and a run
    of the kernel is a sequence of steps of [kstep]: a call of the current thread,
    a device interrupt, the end of a time slice, a turn of the loop of Sleep.  A
    call runs with interrupts off, so it is one step, up to where it sleeps.
    std::priority_queue does not say which of several most urgent threads it
    returns; that choice is a parameter.  The page table and the memory of the
    machine are also those of the address space of the current program, so the
    handlers of Exception.v read and write them in the machine.  Thread operations
    that a system call ends in (Finish, P, Fork, Halt) are its [outcome].  SynchDisk.v
    is what one thread sees that no other disturbs: it takes the lock, sleeps until
    the interrupt of the disk that its request has scheduled, and releases the lock.

    ** Bounds

    Loops are structural where the code counts.  The others have fuel:
    [check_loop] gets one more than the number of pending interrupts, and
    OneTick_correct shows it enough; the cells of NList.v, one more than the
    length of the list; [join_loop], the number of records (children_correct);
    [copy_loop] and [print_file], more than the length of the file (Copy_Print);
    [broadcast_loop], the length of the queue (Broadcast_wakes_all);
    [store_page] and [write_out] wait for another thread to free a frame or the
    disk, and take the number of times they try.  The loops of main and Initialize
    get the number of arguments (main_round_trip), [print_file] in Startup.v one
    more than the largest file, the tabs of Text.v as many blanks as a line has.
    [printd] gets [depth], which printd_correct shows enough, [read_line] one more
    than the buffer has bytes.  [Run] executes as many instructions as it is told,
    and the shell and fromcons read as many lines and characters: the code of these
    never returns.

    ** What the theorems show

    - The file system stays consistent through every history (FileSys.v), Create,
      Remove, Open, reading and writing do exactly what they should to the map
      from names to contents, a copied file prints as it was (FsTest.v), and the
      layers below refine a set (BitMap.v), a map with a bound (Directory.v), an
      array of sectors (Disk.v, SynchDisk.v).
    - Every thread is in one place, no wakeup is lost, locks change hands only in
      the ways they should, Broadcast wakes everybody (KernelProps.v); a sleeping
      thread gives the CPU to a most urgent one, and the registers of a program
      are its own (Dispatch.v); a parent finds exactly its children (Children.v).
    - Whatever file is started as a program, and whatever it does, the machine, its
      page table and the table of open files stay well-formed, on any disk
      (Userland.v).
    - Running any user code is memory-safe (Mips.v), address translation is total,
      exact and isolates pages (Machine.v), decoding, delay slots and the
      multiplier follow the MIPS definition (Mips.v, Mult.v).
    - A program does not notice demand paging: on the paged machine it runs, round
      by round, as on one with all its pages in memory, but for at most one fault
      for each page (UserMem.v); a fault brings in the right bytes (ExceptionProps.v).
      Every system call returns
      one instruction on, and bad arguments are refused or, as recorded, abort.
      Pages are written to and read from the disk unchanged, but evicting one
      fails (PagingProps.v).  The converter makes what the loader reads
      (Coff2Noff.v), and the descriptor list is a table (FDList.v).
    - Two programs that share the frames of the machine each have a memory of their
      own, and the kernel's accesses act on the two as on two arrays; through these
      createStackArgs hands a new program the vector of its arguments (Args.v).
    - The programs of test/: printing a number ends and prints it, the shell runs
      what is typed, fromcons and the console tests echo it, and sort does not sort
      (UserProgsProps.v, ConsoleTest.v).  The accesses of Disk.v to its file are
      those of sysdep.cc on UNIX, and the stub keeps files (Host.v).
    - Each run of the program does to the files what its command line says, on what
      the run before left on the disk (restart_refines); a command line that is
      printed from commands is read back as them (Startup.v).  A program starts on
      a machine on which running is safe (Process.v).  A synchronised list is a
      monitor: its threads never spoil the list, and hand on every item once
      (SynchList.v).
    - The two interpreters agree but on the instructions listed with the theorem
      (Interp.v), and the disassembler prints the operands the simulator decodes
      but for the ones listed (Disasm.v).  coff2flat puts the sections at their
      addresses when there is no gap between them (Coff2Flat.v).
    - Time charges the right mode and fires what is due, in order (Interrupt.v);
      the console and the network keep what they carry in order and lose nothing
      they did not say they lost (Console.v, Network.v).
    Several theorems state what the code does where it differs from what it means
    to do; the comment of each says so.

    ** What the theorems are not about

    The comment of each theorem says what it assumes.  In short: files of at most
    MaxFileSize bytes, since Allocate does not refuse larger ones (fs_history_consistent,
    Create_correct, Copy_Print, restart_refines), and no writes through files that
    were removed; programs that load_page loads whole, which leaves out those whose
    initialised data is cut short by addrspace.cc:645, with enough free frames for
    their pages, since evicting a page fails (paging_transparent,
    spaces_refine_arrays, createStackArgs_correct); executables with a whole header
    and sizes below 2^28 (StartProcess_correct); and a terminal as syscall.h promises
    it (the programs of test/).  A fault that Run_safe and user_programs_safe allow is
    one that the instruction, the kernel or the clock makes in a state that the run
    has reached, and is of a kind the instruction can make.

    ** Not modelled

    The output of DEBUG, Cleanup, the order in which Initialize constructs the other
    global objects (their constructors are in their files), the calls of the host
    that are not about files (sysdep.cc: sockets, polling, signals, random numbers),
    the assembly of the context switch, thread stacks and the memory they use,
    destructors that only free memory, threadtest.cc, the compiled code of the
    programs of test/, the system calls, statistics and histograms of the
    interpreter of bin/ and the object file library its loaders use.
    Two models are not put together: the thread system (Thread.v, Synch.v) and the
    kernel a user program runs on (Userland.v), where the switch to other threads
    is the parameter [dispatch]. *)

From Stdlib Require Export ZArith Lia Bool.
From stdpp Require Export base numbers gmap fin_sets sorting tactics list.
#[global] Open Scope Z_scope.

(** ** Faults and results

    [ASSERT] (threads/utility.h) prints a message and aborts the simulator; an
    access outside an allocated array, a read through a null pointer and the
    x86 trap on [INT_MIN / -1] are undefined in C++.  A modelled operation that
    does one of these returns [Err]. *)

Inductive fault :=
  | AssertFailed    (* ASSERT(condition) was false: Abort() *)
  | OutOfBounds     (* an array access outside the allocation *)
  | NullDeref       (* a dereference of NULL *)
  | DivideTrap      (* the host's trap on INT_MIN / -1 *)
  | Waits           (* the thread sleeps until somebody the model leaves out wakes it *)
  | OutOfFuel.      (* the bound of a modelled loop was too small *)

Inductive res (A : Type) :=
  | Ok (a : A)
  | Err (f : fault).
Arguments Ok {A} a.
Arguments Err {A} f.

#[export] Instance fault_eq_dec : EqDecision fault.
Proof. solve_decision. Defined.

#[export] Instance res_ret : MRet res := fun A a => Ok a.
#[export] Instance res_bind : MBind res := fun A B f m =>
  match m with Ok a => f a | Err e => Err e end.

(** [holds Q E r]: the result of [r] satisfies [Q], its fault [E]. *)
Definition holds {A} (Q : A -> Prop) (E : fault -> Prop) (r : res A) : Prop :=
  match r with Ok a => Q a | Err f => E f end.

Lemma holds_bind {A B} (P : A -> Prop) (Q : B -> Prop) E (r : res A) (f : A -> res B) :
  holds P E r -> (forall a, P a -> holds Q E (f a)) -> holds Q E (r ≫= f).
Proof. destruct r; simpl; auto. Qed.

Lemma holds_ret {A} (Q : A -> Prop) E (a : A) : Q a -> holds Q E (mret a).
Proof. done. Qed.

Lemma holds_mono {A} (P Q : A -> Prop) (E F : fault -> Prop) (r : res A) :
  holds P E r -> (forall a, P a -> Q a) -> (forall f, E f -> F f) -> holds Q F r.
Proof. destruct r; simpl; auto. Qed.

(** [ASSERT(b)] *)
Definition ASSERT (b : bool) : res unit := if b then Ok tt else Err AssertFailed.

Lemma bind_Ok {A B} (a : A) (f : A -> res B) : (Ok a ≫= f) = f a.
Proof. reflexivity. Qed.

Lemma Ok_inj {A} (a b : A) : Ok a = Ok b -> a = b.
Proof. congruence. Qed.

Lemma bind_inv {A B} (m : res A) (f : A -> res B) (b : B) :
  (m ≫= f) = Ok b -> exists a, m = Ok a /\ f a = Ok b.
Proof. destruct m as [a|e]; [intros H; by exists a | discriminate]. Qed.

Lemma ASSERT_true (b : bool) : b = true -> ASSERT b = Ok tt.
Proof. by intros ->. Qed.

Lemma ASSERT_inv (b : bool) u : ASSERT b = Ok u -> b = true.
Proof. by destruct b. Qed.

(** ** Machine integers

    The build is [-m32] on a little-endian host (Makefile.common): [int] and
    [unsigned] have 32 bits and wrap, [char] is a signed byte, [/] and [%] on
    [int] truncate ([Z.quot], [Z.rem]). *)

Definition u32 (z : Z) : Z := z mod 2 ^ 32.
Definition s32 (z : Z) : Z := (z + 2 ^ 31) mod 2 ^ 32 - 2 ^ 31.
Definition u16 (z : Z) : Z := z mod 2 ^ 16.
Definition u8 (z : Z) : Z := z mod 2 ^ 8.
Definition s8 (z : Z) : Z := (z + 2 ^ 7) mod 2 ^ 8 - 2 ^ 7.

Definition is_u32 (z : Z) : Prop := 0 <= z < 2 ^ 32.
Definition is_s32 (z : Z) : Prop := - 2 ^ 31 <= z < 2 ^ 31.
Definition is_u8 (z : Z) : Prop := 0 <= z < 2 ^ 8.

(** Unfold the machine integers down to linear arithmetic with [mod]. *)
Ltac word_lia :=
  unfold s32, u32, s8, u8, u16, is_s32, is_u32, is_u8 in *;
  change (2 ^ 64) with 18446744073709551616 in *;
  change (2 ^ 32) with 4294967296 in *; change (2 ^ 31) with 2147483648 in *;
  change (2 ^ 16) with 65536 in *; change (2 ^ 8) with 256 in *;
  change (2 ^ 7) with 128 in *;
  Z.div_mod_to_equations; lia.

Lemma u32_range z : is_u32 (u32 z).
Proof. word_lia. Qed.
Lemma s32_range z : is_s32 (s32 z).
Proof. word_lia. Qed.
Lemma u8_range z : is_u8 (u8 z).
Proof. word_lia. Qed.
Lemma u32_id z : is_u32 z -> u32 z = z.
Proof. word_lia. Qed.
Lemma s32_id z : is_s32 z -> s32 z = z.
Proof. word_lia. Qed.
Lemma u8_id z : is_u8 z -> u8 z = z.
Proof. word_lia. Qed.
Lemma s32_u32 z : s32 (u32 z) = s32 z.
Proof. word_lia. Qed.
Lemma u32_s32 z : u32 (s32 z) = u32 z.
Proof. word_lia. Qed.
Lemma u32_u32 z : u32 (u32 z) = u32 z.
Proof. word_lia. Qed.
Lemma s32_s32 z : s32 (s32 z) = s32 z.
Proof. word_lia. Qed.
Lemma is_s32_0 : is_s32 0.
Proof. word_lia. Qed.

Create HintDb word.
Create Rewrite HintDb word.
Create Rewrite HintDb arrays.
#[export] Hint Resolve u32_range s32_range u8_range is_s32_0 : word.
#[export] Hint Rewrite s32_u32 u32_s32 u32_u32 s32_s32 : word.

(** Bitwise operators keep the range of their operands. *)

Lemma u32_testbit z i :
  Z.testbit (u32 z) i = (Z.testbit z i && (i <? 32))%bool.
Proof.
  unfold u32. destruct (Z.ltb_spec i 32).
  - rewrite andb_true_r. destruct (Z.leb_spec 0 i).
    + by rewrite Z.mod_pow2_bits_low.
    + by rewrite !Z.testbit_neg_r by lia.
  - rewrite andb_false_r. by rewrite Z.mod_pow2_bits_high by lia.
Qed.

Lemma is_u32_testbit z :
  is_u32 z <-> 0 <= z /\ (forall i, 32 <= i -> Z.testbit z i = false).
Proof.
  split.
  - intros H. split; [word_lia |]. intros i Hi.
    rewrite <- (u32_id z H), u32_testbit.
    destruct (Z.ltb_spec i 32); [lia | apply andb_false_r].
  - intros [H0 H]. assert (z = u32 z) as ->; [|apply u32_range].
    apply Z.bits_inj'. intros i Hi. rewrite u32_testbit.
    destruct (Z.ltb_spec i 32); [by rewrite andb_true_r |].
    by rewrite andb_false_r, H.
Qed.

Lemma is_u32_land a b : is_u32 a -> 0 <= b -> is_u32 (Z.land a b).
Proof.
  rewrite !is_u32_testbit. intros [Ha Ha'] Hb. split; [apply Z.land_nonneg; lia|].
  intros i Hi. by rewrite Z.land_spec, Ha'.
Qed.

Lemma is_u32_lor a b : is_u32 a -> is_u32 b -> is_u32 (Z.lor a b).
Proof.
  rewrite !is_u32_testbit. intros [Ha Ha'] [Hb Hb']. split; [apply Z.lor_nonneg; lia|].
  intros i Hi. by rewrite Z.lor_spec, Ha', Hb'.
Qed.

Lemma u32_shiftl_1 k : 0 <= k < 32 -> is_u32 (Z.shiftl 1 k).
Proof.
  intros Hk. rewrite Z.shiftl_1_l. split; [apply Z.pow_nonneg; lia |].
  apply Z.pow_lt_mono_r; lia.
Qed.

Lemma testbit_shiftl_1 k i : 0 <= k -> Z.testbit (Z.shiftl 1 k) i = (i =? k).
Proof.
  intros Hk. rewrite Z.shiftl_1_l. destruct (Z.eqb_spec i k) as [->|Hne].
  - by apply Z.pow2_bits_true.
  - by apply Z.pow2_bits_false.
Qed.

#[export] Hint Resolve is_u32_land is_u32_lor u32_shiftl_1 : word.

(** A signed word is determined by its 31 low bits and its sign. *)
Lemma is_s32_shiftr z : is_s32 z <-> Z.shiftr z 31 = 0 \/ Z.shiftr z 31 = -1.
Proof. rewrite Z.shiftr_div_pow2 by lia. word_lia. Qed.

Lemma is_s32_lxor a b : is_s32 a -> is_s32 b -> is_s32 (Z.lxor a b).
Proof. rewrite !is_s32_shiftr, Z.shiftr_lxor. intros [-> | ->] [-> | ->]; auto. Qed.
Lemma is_s32_lor a b : is_s32 a -> is_s32 b -> is_s32 (Z.lor a b).
Proof. rewrite !is_s32_shiftr, Z.shiftr_lor. intros [-> | ->] [-> | ->]; auto. Qed.
Lemma is_s32_land a b : is_s32 a -> is_s32 b -> is_s32 (Z.land a b).
Proof. rewrite !is_s32_shiftr, Z.shiftr_land. intros [-> | ->] [-> | ->]; auto. Qed.
Lemma is_s32_lnot a : is_s32 a -> is_s32 (Z.lnot a).
Proof. unfold Z.lnot. word_lia. Qed.
Lemma is_s32_shiftr_n a n : is_s32 a -> 0 <= n -> is_s32 (Z.shiftr a n).
Proof.
  rewrite !is_s32_shiftr, Z.shiftr_shiftr by lia. intros H Hn.
  rewrite Z.add_comm, <- Z.shiftr_shiftr by lia. destruct H as [-> | ->].
  - left. apply Z.shiftr_0_l.
  - right. rewrite Z.shiftr_div_pow2 by lia.
    assert (0 < 2 ^ n) by (apply Z.pow_pos_nonneg; lia).
    symmetry. apply Z.div_unique with (2 ^ n - 1); lia.
Qed.

#[export] Hint Resolve is_s32_lxor is_s32_lor is_s32_land is_s32_lnot is_s32_shiftr_n : word.

(** The test of one bit, and of the top bit. *)
Lemma land_pow2_test x n : 0 <= n -> negb (Z.land x (2 ^ n) =? 0) = Z.testbit x n.
Proof.
  intros Hn.
  assert (Z.land x (2 ^ n) = if Z.testbit x n then 2 ^ n else 0) as ->.
  { apply Z.bits_inj'. intros i Hi. rewrite Z.land_spec.
    destruct (Z.eqb_spec i n) as [->|Hne].
    - rewrite Z.pow2_bits_true, andb_true_r by lia.
      destruct (Z.testbit x n); [by rewrite Z.pow2_bits_true|by rewrite Z.bits_0].
    - rewrite Z.pow2_bits_false, andb_false_r by lia.
      destruct (Z.testbit x n); [by rewrite Z.pow2_bits_false by lia|by rewrite Z.bits_0]. }
  assert (0 < 2 ^ n) by (apply Z.pow_pos_nonneg; lia).
  destruct (Z.testbit x n); [|done]. by destruct (Z.eqb_spec (2 ^ n) 0); [lia|].
Qed.

Lemma testbit_top x n : 0 <= n -> 0 <= x < 2 ^ (n + 1) -> Z.testbit x n = (2 ^ n <=? x).
Proof.
  intros Hn Hx. assert (0 < 2 ^ n) by (apply Z.pow_pos_nonneg; lia).
  rewrite Z.pow_add_r in Hx by lia. change (2 ^ 1) with 2 in Hx.
  rewrite Z.testbit_eqb by lia. pose proof (Z.div_mod x (2 ^ n) ltac:(lia)).
  pose proof (Z.mod_pos_bound x (2 ^ n) ltac:(lia)).
  destruct (Z.leb_spec (2 ^ n) x).
  - replace (x / 2 ^ n) with 1; [done|]. nia.
  - by rewrite Z.div_small by lia.
Qed.

(** [|] of numbers without a common bit is [+]. *)
Lemma lor_add_high x y n :
  0 <= n -> 0 <= x < 2 ^ n -> Z.lor x (Z.shiftl y n) = x + Z.shiftl y n.
Proof.
  intros Hn Hx. assert (Z.land x (Z.shiftl y n) = 0) as H0.
  { apply Z.bits_inj'. intros i Hi. rewrite Z.land_spec, Z.bits_0.
    destruct (Z.ltb_spec i n).
    - by rewrite Z.shiftl_spec_low, andb_false_r.
    - by rewrite <- (Z.mod_small x (2 ^ n)), Z.mod_pow2_bits_high by lia. }
  rewrite Z.add_nocarry_lxor, Z.lxor_lor; done.
Qed.

(** [divRoundUp] and [divRoundDown] of threads/utility.h. *)

Definition divRoundDown (n s : Z) : Z := Z.quot n s.
Definition divRoundUp (n s : Z) : Z := Z.quot n s + (if Z.rem n s >? 0 then 1 else 0).

Lemma divRoundUp_spec n s :
  0 <= n -> 0 < s -> (divRoundUp n s - 1) * s < n <= divRoundUp n s * s.
Proof.
  intros Hn Hs. unfold divRoundUp.
  pose proof (Z.quot_rem' n s). pose proof (Z.rem_bound_pos n s Hn Hs).
  destruct (Z.gtb_spec (Z.rem n s) 0); nia.
Qed.

Lemma divRoundUp_nonneg n s : 0 <= n -> 0 < s -> 0 <= divRoundUp n s.
Proof. intros Hn Hs. pose proof (divRoundUp_spec n s Hn Hs). nia. Qed.

(** ** Arrays

    A C array is a list; the index is an [int].  [zget] and [zset] are the
    checked accesses. *)

Definition znth {A} (l : list A) (i : Z) : option A :=
  if 0 <=? i then l !! Z.to_nat i else None.

Definition zget {A} (l : list A) (i : Z) : res A :=
  match znth l i with Some x => Ok x | None => Err OutOfBounds end.

Definition zset {A} (l : list A) (i : Z) (x : A) : res (list A) :=
  if (0 <=? i) && (i <? Z.of_nat (length l))
  then Ok (<[Z.to_nat i := x]> l) else Err OutOfBounds.

(** The length of an array as an [int]. *)
Definition zlen {A} (l : list A) : Z := Z.of_nat (length l).

Declare Scope nachos_scope.
Delimit Scope nachos_scope with nachos.
Notation "l .[ i ]" := (zget l i) (at level 1, format "l .[ i ]") : nachos_scope.
Notation "l .[ i := x ]" := (zset l i x)
  (at level 1, format "l .[ i := x ]") : nachos_scope.
#[global] Open Scope nachos_scope.

Section arrays.
Context {A : Type}.
Implicit Types (l : list A) (x y : A) (i j : Z).

Lemma zlen_nonneg l : 0 <= zlen l.
Proof. unfold zlen. lia. Qed.

Lemma znth_Some_range l i x : znth l i = Some x -> 0 <= i < zlen l.
Proof.
  unfold znth, zlen. destruct (Z.leb_spec 0 i); [|done].
  intros H'%lookup_lt_Some. lia.
Qed.

Lemma znth_in_range l i : 0 <= i < zlen l -> exists x, znth l i = Some x.
Proof.
  unfold znth, zlen. intros Hi. destruct (Z.leb_spec 0 i); [|lia].
  destruct (lookup_lt_is_Some_2 l (Z.to_nat i)) as [x Hx]; [lia | eauto].
Qed.

Lemma znth_out l i : ~ 0 <= i < zlen l -> znth l i = None.
Proof.
  intros Hi. destruct (znth l i) as [x|] eqn:E; [|done].
  apply znth_Some_range in E. contradiction.
Qed.

Lemma zget_Ok l i x : l.[i] = Ok x <-> znth l i = Some x.
Proof. unfold zget. destruct (znth l i); split; congruence. Qed.

Lemma zget_in_range l i : 0 <= i < zlen l -> exists x, l.[i] = Ok x.
Proof. intros [x Hx]%znth_in_range. exists x. by apply zget_Ok. Qed.

Lemma zset_Ok l i x : 0 <= i < zlen l -> l.[i := x] = Ok (<[Z.to_nat i := x]> l).
Proof.
  unfold zset, zlen. intros Hi.
  destruct (Z.leb_spec 0 i), (Z.ltb_spec i (Z.of_nat (length l))); try lia. done.
Qed.

Lemma zset_inv l i x l' :
  l.[i := x] = Ok l' -> 0 <= i < zlen l /\ l' = <[Z.to_nat i := x]> l.
Proof.
  unfold zset, zlen.
  destruct (Z.leb_spec 0 i), (Z.ltb_spec i (Z.of_nat (length l))); simpl;
    intros ?; simplify_eq; split; try done; lia.
Qed.

Lemma zlen_insert l n x : zlen (<[n := x]> l) = zlen l.
Proof. unfold zlen. by rewrite length_insert. Qed.

Lemma zlen_zset l i x l' : l.[i := x] = Ok l' -> zlen l' = zlen l.
Proof. intros [_ ->]%zset_inv. apply zlen_insert. Qed.

Lemma znth_insert_eq l i x :
  0 <= i < zlen l -> znth (<[Z.to_nat i := x]> l) i = Some x.
Proof.
  intros Hi. unfold znth, zlen in *. destruct (Z.leb_spec 0 i); [|lia].
  apply list_lookup_insert_eq. lia.
Qed.

Lemma znth_insert_ne l i j x :
  0 <= i -> i <> j -> znth (<[Z.to_nat i := x]> l) j = znth l j.
Proof.
  intros Hi Hij. unfold znth. destruct (Z.leb_spec 0 j); [|done].
  apply list_lookup_insert_ne. lia.
Qed.

Lemma Forall_znth (P : A -> Prop) l i x : Forall P l -> znth l i = Some x -> P x.
Proof.
  unfold znth. intros HF. destruct (0 <=? i); [|done].
  intros H. by eapply Forall_lookup_1.
Qed.

Lemma Forall_zset (P : A -> Prop) l i x l' :
  Forall P l -> P x -> l.[i := x] = Ok l' -> Forall P l'.
Proof. intros HF HP [_ ->]%zset_inv. by apply Forall_insert. Qed.
End arrays.

#[export] Hint Rewrite @zlen_insert : arrays.

(** ** Blocks of bytes

    [bcopy] and the transfers of memory, disk sectors and files move blocks;
    [zread] and [zwrite] are the checked block accesses. *)

Section blocks.
Context {A : Type}.
Implicit Types (l bs : list A) (off n i : Z).

Definition zread l off n : res (list A) :=
  if (0 <=? off) && (0 <=? n) && (off + n <=? zlen l)
  then Ok (take (Z.to_nat n) (drop (Z.to_nat off) l)) else Err OutOfBounds.

Definition zwrite l off bs : res (list A) :=
  if (0 <=? off) && (off + zlen bs <=? zlen l)
  then Ok (take (Z.to_nat off) l ++ bs ++ drop (Z.to_nat (off + zlen bs)) l)
  else Err OutOfBounds.

Lemma zread_inv l off n bs :
  zread l off n = Ok bs ->
  0 <= off /\ 0 <= n /\ off + n <= zlen l /\
  bs = take (Z.to_nat n) (drop (Z.to_nat off) l).
Proof.
  unfold zread. destruct (Z.leb_spec 0 off), (Z.leb_spec 0 n), (Z.leb_spec (off + n) (zlen l));
    simpl; intros ?; simplify_eq; done.
Qed.

Lemma zread_Ok l off n :
  0 <= off -> 0 <= n -> off + n <= zlen l ->
  zread l off n = Ok (take (Z.to_nat n) (drop (Z.to_nat off) l)).
Proof.
  intros. unfold zread.
  destruct (Z.leb_spec 0 off), (Z.leb_spec 0 n), (Z.leb_spec (off + n) (zlen l)); done || lia.
Qed.

Lemma zwrite_inv l off bs l' :
  zwrite l off bs = Ok l' ->
  0 <= off /\ off + zlen bs <= zlen l /\
  l' = take (Z.to_nat off) l ++ bs ++ drop (Z.to_nat (off + zlen bs)) l.
Proof.
  unfold zwrite. destruct (Z.leb_spec 0 off), (Z.leb_spec (off + zlen bs) (zlen l));
    simpl; intros ?; simplify_eq; done.
Qed.

Lemma zwrite_Ok l off bs :
  0 <= off -> off + zlen bs <= zlen l ->
  zwrite l off bs =
    Ok (take (Z.to_nat off) l ++ bs ++ drop (Z.to_nat (off + zlen bs)) l).
Proof.
  intros. unfold zwrite.
  destruct (Z.leb_spec 0 off), (Z.leb_spec (off + zlen bs) (zlen l)); done || lia.
Qed.

Lemma zlen_app l bs : zlen (l ++ bs) = zlen l + zlen bs.
Proof. unfold zlen. rewrite length_app. lia. Qed.

Lemma zlen_zread l off n bs : zread l off n = Ok bs -> zlen bs = n.
Proof.
  intros (? & ? & ? & ->)%zread_inv. unfold zlen in *.
  rewrite length_take, length_drop. lia.
Qed.

Lemma zlen_zwrite l off bs l' : zwrite l off bs = Ok l' -> zlen l' = zlen l.
Proof.
  intros (? & ? & ->)%zwrite_inv. unfold zlen in *.
  rewrite !length_app, length_take, length_drop. lia.
Qed.

Lemma znth_lookup l i : 0 <= i -> znth l i = l !! Z.to_nat i.
Proof. intros. unfold znth. destruct (Z.leb_spec 0 i); [done|lia]. Qed.

Lemma list_eq_znth l1 l2 :
  zlen l1 = zlen l2 -> (forall i, 0 <= i < zlen l1 -> znth l1 i = znth l2 i) -> l1 = l2.
Proof.
  intros Hlen H. apply list_eq_same_length with (length l1); unfold zlen in *; [lia|done|].
  intros i x y Hi Hx Hy. specialize (H (Z.of_nat i)).
  rewrite !znth_lookup, Nat2Z.id in H by lia. specialize (H ltac:(lia)). congruence.
Qed.

Lemma znth_zread l off n bs i :
  zread l off n = Ok bs -> 0 <= i < n -> znth bs i = znth l (off + i).
Proof.
  intros (? & ? & ? & ->)%zread_inv Hi. rewrite !znth_lookup by lia.
  rewrite lookup_take_lt, lookup_drop by lia. f_equal. lia.
Qed.

Lemma znth_zwrite l off bs l' i :
  zwrite l off bs = Ok l' ->
  znth l' i = if (off <=? i) && (i <? off + zlen bs) then znth bs (i - off) else znth l i.
Proof.
  intros (Hoff & Hlen & ->)%zwrite_inv.
  destruct (Z.leb_spec 0 i) as [Hi|Hi].
  2:{ unfold znth. destruct (Z.leb_spec 0 i); [lia|].
      destruct (Z.leb_spec off i); [lia|done]. }
  rewrite (znth_lookup _ i), (znth_lookup l i) by lia. unfold zlen in *.
  destruct (Z.leb_spec off i); simpl.
  - rewrite lookup_app_r by (rewrite length_take; lia). rewrite length_take.
    destruct (Z.ltb_spec i (off + Z.of_nat (length bs))).
    + rewrite lookup_app_l by lia. rewrite znth_lookup by lia. f_equal. lia.
    + rewrite lookup_app_r by lia. rewrite lookup_drop. f_equal. lia.
  - rewrite lookup_app_l by (rewrite length_take; lia). rewrite lookup_take_lt by lia. done.
Qed.

(** Reading back the block just written. *)
Lemma zread_zwrite_same l off bs l' :
  zwrite l off bs = Ok l' -> zread l' off (zlen bs) = Ok bs.
Proof.
  intros H. pose proof (zlen_zwrite _ _ _ _ H) as Hl'.
  pose proof (zwrite_inv _ _ _ _ H) as (Hoff & Hlen & _).
  pose proof (zlen_nonneg bs).
  rewrite zread_Ok by lia. f_equal. apply list_eq_znth.
  - unfold zlen in *. rewrite length_take, length_drop. lia.
  - intros i Hi. assert (i < zlen bs) by (unfold zlen in *; rewrite length_take in Hi; lia).
    rewrite znth_lookup by lia. rewrite lookup_take_lt, lookup_drop by (unfold zlen in *; lia).
    replace (Z.to_nat off + Z.to_nat i)%nat with (Z.to_nat (off + i)) by lia.
    rewrite <- znth_lookup by lia. rewrite (znth_zwrite _ _ _ _ _ H).
    destruct (Z.leb_spec off (off + i)), (Z.ltb_spec (off + i) (off + zlen bs)); try lia.
    simpl. f_equal. lia.
Qed.

(** A write does not change a disjoint block. *)
Lemma zread_zwrite_disjoint l off bs l' off' n :
  zwrite l off bs = Ok l' -> off' + n <= off \/ off + zlen bs <= off' ->
  zread l' off' n = zread l off' n.
Proof.
  intros H Hdisj. pose proof (zlen_zwrite _ _ _ _ H) as Hl'.
  destruct (zread l off' n) as [b|e] eqn:E.
  - pose proof (zread_inv _ _ _ _ E) as (? & ? & ? & _).
    destruct (zread l' off' n) as [b'|e'] eqn:E'.
    + f_equal. apply list_eq_znth.
      * by rewrite (zlen_zread _ _ _ _ E), (zlen_zread _ _ _ _ E').
      * intros i Hi. rewrite (zlen_zread _ _ _ _ E') in Hi.
        rewrite (znth_zread _ _ _ _ _ E'), (znth_zread _ _ _ _ _ E) by lia.
        rewrite (znth_zwrite _ _ _ _ _ H).
        destruct (Z.leb_spec off (off' + i)), (Z.ltb_spec (off' + i) (off + zlen bs));
          simpl; done || lia.
    + exfalso. rewrite zread_Ok in E' by lia. done.
  - unfold zread in *. rewrite Hl'. by destruct (_ && _).
Qed.

(** A write, characterised index by index. *)
Lemma zwrite_intro l off bs l' :
  0 <= off -> off + zlen bs <= zlen l -> zlen l' = zlen l ->
  (forall i, 0 <= i < zlen l ->
    znth l' i = if (off <=? i) && (i <? off + zlen bs) then znth bs (i - off) else znth l i) ->
  zwrite l off bs = Ok l'.
Proof.
  intros Hoff Hle Hlen Hz. pose proof (zwrite_Ok l off bs Hoff Hle) as E.
  rewrite E. f_equal. pose proof (zlen_zwrite _ _ _ _ E) as Hl.
  apply list_eq_znth; [congruence|]. intros i Hi.
  rewrite (znth_zwrite _ _ _ _ _ E). symmetry. apply Hz. congruence.
Qed.

(** Two adjacent writes. *)
Lemma zwrite_app l off b1 b2 l1 l2 :
  zwrite l off b1 = Ok l1 -> zwrite l1 (off + zlen b1) b2 = Ok l2 ->
  zwrite l off (b1 ++ b2) = Ok l2.
Proof.
  intros H1 H2. pose proof (zwrite_inv _ _ _ _ H1) as (? & ? & _).
  pose proof (zwrite_inv _ _ _ _ H2) as (? & ? & _).
  pose proof (zlen_zwrite _ _ _ _ H1). pose proof (zlen_zwrite _ _ _ _ H2).
  pose proof (zlen_nonneg b1). pose proof (zlen_nonneg b2).
  apply zwrite_intro; rewrite ?zlen_app; try lia. intros i Hi.
  rewrite (znth_zwrite _ _ _ _ _ H2), (znth_zwrite _ _ _ _ _ H1).
  destruct (Z.leb_spec off i), (Z.ltb_spec i (off + zlen b1)),
    (Z.leb_spec (off + zlen b1) i), (Z.ltb_spec i (off + zlen b1 + zlen b2)),
    (Z.ltb_spec i (off + (zlen b1 + zlen b2))); simpl; try lia; try done.
  - rewrite !znth_lookup by lia. rewrite lookup_app_l by (unfold zlen in *; lia). done.
  - rewrite !znth_lookup by lia. rewrite lookup_app_r by (unfold zlen in *; lia).
    f_equal. unfold zlen. lia.
Qed.

Lemma znth_take l n i : i < n -> znth (take (Z.to_nat n) l) i = znth l i.
Proof.
  intros Hi. unfold znth. destruct (Z.leb_spec 0 i); [|done]. apply lookup_take_lt. lia.
Qed.

Lemma znth_take_drop l off n i :
  0 <= off -> 0 <= i < n -> znth (take (Z.to_nat n) (drop (Z.to_nat off) l)) i = znth l (off + i).
Proof.
  intros Ho Hi. rewrite znth_take, !znth_lookup, lookup_drop by lia. f_equal. lia.
Qed.

Lemma zlen_take l n : 0 <= n <= zlen l -> zlen (take (Z.to_nat n) l) = n.
Proof. unfold zlen. rewrite length_take. lia. Qed.

Lemma zlen_drop l n : 0 <= n <= zlen l -> zlen (drop (Z.to_nat n) l) = zlen l - n.
Proof. unfold zlen. rewrite length_drop. lia. Qed.

Lemma zset_zwrite l i x l' : l.[i := x] = Ok l' -> zwrite l i [x] = Ok l'.
Proof.
  intros [Hi ->]%zset_inv. rewrite zwrite_Ok by (change (zlen [x]) with 1; lia). f_equal.
  unfold zlen in Hi. rewrite insert_take_drop by lia. do 3 f_equal. change (zlen [x]) with 1. lia.
Qed.

Lemma Forall_zwrite (P : A -> Prop) l off bs l' :
  Forall P l -> Forall P bs -> zwrite l off bs = Ok l' -> Forall P l'.
Proof.
  intros Hl Hbs (_ & _ & ->)%zwrite_inv. rewrite !Forall_app.
  auto using Forall_take, Forall_drop.
Qed.

Lemma Forall_zread (P : A -> Prop) l off n bs :
  Forall P l -> zread l off n = Ok bs -> Forall P bs.
Proof. intros Hl (_ & _ & _ & ->)%zread_inv. auto using Forall_take, Forall_drop. Qed.
End blocks.

(** ** Little-endian words *)

Fixpoint le_bytes (n : nat) (v : Z) : list Z :=
  match n with O => [] | S n => u8 v :: le_bytes n (Z.shiftr v 8) end.

Fixpoint le_value (bs : list Z) : Z :=
  match bs with [] => 0 | b :: bs => b + 256 * le_value bs end.

Lemma length_le_bytes n v : length (le_bytes n v) = n.
Proof. revert v. induction n; intros v; simpl; auto. Qed.

Lemma zlen_le_bytes n v : zlen (le_bytes n v) = Z.of_nat n.
Proof. unfold zlen. by rewrite length_le_bytes. Qed.

Lemma le_bytes_u8 n v : Forall is_u8 (le_bytes n v).
Proof. revert v. induction n; intros v; simpl; constructor; auto with word. Qed.

Lemma le_value_bytes n v : le_value (le_bytes n v) = v mod 2 ^ (8 * Z.of_nat n).
Proof.
  revert v. induction n as [|n IH]; intros v; simpl le_bytes; simpl le_value.
  - by rewrite Z.mod_1_r.
  - rewrite IH, Z.shiftr_div_pow2 by lia. unfold u8.
    replace (8 * Z.of_nat (S n)) with (8 + 8 * Z.of_nat n) by lia.
    rewrite Z.pow_add_r by lia. change (2 ^ 8) with 256.
    assert (0 < 2 ^ (8 * Z.of_nat n)) by (apply Z.pow_pos_nonneg; lia).
    rewrite Z.rem_mul_r by lia. done.
Qed.

Lemma le_value_range bs : Forall is_u8 bs -> 0 <= le_value bs < 2 ^ (8 * zlen bs).
Proof.
  unfold zlen. induction 1 as [|b bs Hb HF IH]; cbn [le_value length]; [done|].
  replace (8 * Z.of_nat (S (length bs))) with (8 + 8 * Z.of_nat (length bs)) by lia.
  rewrite Z.pow_add_r by lia. change (2 ^ 8) with 256. unfold is_u8 in Hb.
  change (2 ^ 8) with 256 in Hb. lia.
Qed.

Lemma le_bytes_value bs : Forall is_u8 bs -> le_bytes (length bs) (le_value bs) = bs.
Proof.
  induction 1 as [|b bs Hb HF IH]; simpl; [done|]. f_equal.
  - word_lia.
  - rewrite Z.shiftr_div_pow2 by lia. change (2 ^ 8) with 256.
    replace ((b + 256 * le_value bs) / 256) with (le_value bs) by word_lia. done.
Qed.

(** ** Sequences of calls

    [run_ops] performs a list of calls and collects their results; a step-wise
    simulation of one state by another extends to sequences. *)

Section run_ops.
Context {O R : Type}.

Fixpoint run_ops {S} (step : S -> O -> res (R * S)) (s : S) (os : list O)
    : res (list R * S) :=
  match os with
  | [] => mret ([], s)
  | o :: os =>
      '(r, s') ← step s o;
      '(rs, s'') ← run_ops step s' os;
      mret (r :: rs, s'')
  end.

(** [step2] simulates [step1]: same result, or same fault. *)
Definition simulates {S1 S2} (sim : S1 -> S2 -> Prop)
    (r1 : res (R * S1)) (r2 : res (R * S2)) : Prop :=
  match r1 with
  | Ok (r, s1) => exists s2, r2 = Ok (r, s2) /\ sim s1 s2
  | Err e => r2 = Err e
  end.

Lemma run_ops_refines {S1 S2} (sim : S1 -> S2 -> Prop) step1 step2 os :
  (forall s1 s2 o, sim s1 s2 -> simulates sim (step1 s1 o) (step2 s2 o)) ->
  forall s1 s2, sim s1 s2 ->
    match run_ops step1 s1 os with
    | Ok (rs, s1') => exists s2', run_ops step2 s2 os = Ok (rs, s2') /\ sim s1' s2'
    | Err e => run_ops step2 s2 os = Err e
    end.
Proof.
  intros Hstep. induction os as [|o os IH]; intros s1 s2 Hs; simpl; [by exists s2|].
  specialize (Hstep s1 s2 o Hs). unfold simulates in Hstep.
  destruct (step1 s1 o) as [[r s1']|e]; [|by rewrite Hstep].
  destruct Hstep as (s2' & -> & Hs'). rewrite !bind_Ok. specialize (IH s1' s2' Hs').
  destruct (run_ops step1 s1' os) as [[rs s1'']|e]; [|by rewrite IH].
  destruct IH as (s2'' & -> & Hs''). by exists s2''.
Qed.
End run_ops.

(** ** Proof automation *)

(** Invert a chain of monadic binds that returned [Ok]. *)
Ltac inv_res :=
  repeat match goal with
  | H : Ok _ = Ok _ |- _ => injection H as H; subst
  | H : Err _ = Ok _ |- _ => discriminate H
  | H : Ok _ = Err _ |- _ => discriminate H
  | H : (_, _) = (_, _) |- _ => injection H as H; subst
  | H : mret _ = Ok _ |- _ => unfold mret, res_ret in H
  | H : mbind _ _ = Ok _ |- _ =>
      let a := fresh "v" in let E := fresh "E" in
      apply bind_inv in H as (a & E & H)
  | H : ASSERT _ = Ok _ |- _ => apply ASSERT_inv in H
  | p : unit |- _ => destruct p
  | H : (_ && _)%bool = true |- _ => apply andb_prop in H as [? ?]
  end.

(** Reflect the integer tests of the code in the context. *)
Ltac reflect_Z :=
  repeat match goal with
  | H : (_ <? _) = true |- _ => apply Z.ltb_lt in H
  | H : (_ <? _) = false |- _ => apply Z.ltb_ge in H
  | H : (_ <=? _) = true |- _ => apply Z.leb_le in H
  | H : (_ <=? _) = false |- _ => apply Z.leb_gt in H
  | H : (_ =? _) = true |- _ => apply Z.eqb_eq in H
  | H : (_ =? _) = false |- _ => apply Z.eqb_neq in H
  | H : (_ >=? _) = _ |- _ => rewrite Z.geb_leb in H
  | H : (_ >? _) = _ |- _ => rewrite Z.gtb_ltb in H
  end.
