(* ===== verification/Text.v ===== *)
(** * Text: the output of printf

    The conversions of the C library that the kernel, the programs of bin/ and the
    trace of mipssim.cc use: %s, %c, %d, %x and %08x. *)

From Stdlib Require Export Ascii String.
From S2P Require Import Prelude.

Infix "+++" := String.append (at level 60, right associativity) : nachos_scope.

(** The characters of a literal. *)
Fixpoint chars (s : string) : list Z :=
  match s with
  | EmptyString => []
  | String c s => Z.of_nat (nat_of_ascii c) :: chars s
  end.

Arguments chars s%_string_scope.

(** A line of output. *)
Definition put_line (s : string) : list Z := chars s ++ [10].

Arguments put_line s%_string_scope.

(** [printf("... %s\n", name)]: a message about a name and a newline. *)
Definition says (msg : string) (name : list Z) : list Z := chars msg ++ name ++ [10].

Arguments says msg%_string_scope name.

(** The character of a digit, below 16. *)
Definition digit (d : Z) : ascii := ascii_of_nat (Z.to_nat (if d <? 10 then 48 + d else 87 + d)).

(** The [n] last digits of [z] in [base], and those of a number without leading
    zeros. *)
Fixpoint digits (n : nat) (base z : Z) : string :=
  match n with
  | O => EmptyString
  | S n => digits n base (z / base) +++ String (digit (z mod base)) EmptyString
  end.
Fixpoint numeral (fuel : nat) (base z : Z) : string :=
  match fuel with
  | O => EmptyString
  | S fuel =>
      if z <? base then String (digit z) EmptyString
      else numeral fuel base (z / base) +++ String (digit (z mod base)) EmptyString
  end.

(** Arguments of printf, on an [int] or [unsigned] (%x prints the bits), a string
    or a character. *)
Inductive varg := AInt (z : Z) | AStr (s : string) | AChr (c : Z).

Definition fmt_x (z : Z) : string := numeral 8 16 (u32 z).
Definition fmt_08x (z : Z) : string := digits 8 16 (u32 z).
Definition fmt_d (z : Z) : string :=
  if z <? 0 then String "-" (numeral 10 10 (- z)) else numeral 10 10 z.
Definition fmt_c (c : Z) : string := String (ascii_of_nat (Z.to_nat (u8 c))) EmptyString.

Fixpoint sprintf (f : string) (args : list varg) : string :=
  match f with
  | EmptyString => EmptyString
  | String "%" (String "d" f) =>
      match args with AInt z :: args => fmt_d z +++ sprintf f args | _ => EmptyString end
  | String "%" (String "x" f) =>
      match args with AInt z :: args => fmt_x z +++ sprintf f args | _ => EmptyString end
  | String "%" (String "0" (String "8" (String "x" f))) =>
      match args with AInt z :: args => fmt_08x z +++ sprintf f args | _ => EmptyString end
  | String "%" (String "s" f) =>
      match args with AStr s :: args => s +++ sprintf f args | _ => EmptyString end
  | String "%" (String "c" f) =>
      match args with AChr c :: args => fmt_c c +++ sprintf f args | _ => EmptyString end
  | String c f => String c (sprintf f args)
  end.

#[global] Arguments fmt_x : simpl never.
#[global] Arguments fmt_08x : simpl never.
#[global] Arguments fmt_d : simpl never.

Definition tab : string := String (ascii_of_nat 9) EmptyString.
Definition newline : string := String (ascii_of_nat 10) EmptyString.

Lemma append_assoc a b c : (a +++ b) +++ c = a +++ (b +++ c).
Proof. induction a as [|x a IH]; [done|]. exact (f_equal (String x) IH). Qed.

Lemma append_nil a : a +++ EmptyString = a.
Proof. induction a as [|x a IH]; [done|]. exact (f_equal (String x) IH). Qed.

Lemma length_append a b : String.length (a +++ b) = (String.length a + String.length b)%nat.
Proof. induction a as [|x a IH]; [done|]. exact (f_equal S IH). Qed.

(** ** Numbers read back *)

Definition digit_value (c : ascii) : Z :=
  let n := Z.of_nat (nat_of_ascii c) in if n <? 58 then n - 48 else n - 87.

Fixpoint read_number (base acc : Z) (s : string) : Z :=
  match s with
  | EmptyString => acc
  | String c s => read_number base (acc * base + digit_value c) s
  end.

Lemma digit_value_digit d : 0 <= d < 16 -> digit_value (digit d) = d.
Proof.
  intros Hd. assert (d ∈ seqZ 0 16) as Hin by (apply elem_of_seqZ; lia).
  revert Hin. generalize d. apply Forall_forall. by repeat constructor.
Qed.

Lemma read_number_app base acc a b :
  read_number base acc (a +++ b) = read_number base (read_number base acc a) b.
Proof. revert acc. induction a as [|c a IH]; intros acc; simpl; [done|apply IH]. Qed.

Lemma read_numeral base : 2 <= base <= 16 -> forall fuel z,
  0 <= z < base ^ Z.of_nat fuel -> read_number base 0 (numeral fuel base z) = z.
Proof.
  intros Hb. induction fuel as [|fuel IH]; intros z Hz; [simpl in Hz; simpl; lia|].
  cbn [numeral]. destruct (Z.ltb_spec z base).
  - simpl. rewrite digit_value_digit by lia. lia.
  - rewrite read_number_app, IH.
    + simpl. pose proof (Z.mod_pos_bound z base ltac:(lia)). rewrite digit_value_digit by lia.
      pose proof (Z.div_mod z base ltac:(lia)). lia.
    + split; [apply Z.div_pos; lia|]. apply Z.div_lt_upper_bound; [lia|].
      rewrite Nat2Z.inj_succ, Z.pow_succ_r in Hz by lia. lia.
Qed.

Lemma read_digits base : 2 <= base <= 16 -> forall n z,
  0 <= z -> read_number base 0 (digits n base z) = z mod base ^ Z.of_nat n.
Proof.
  intros Hb. induction n as [|n IH]; intros z Hz; [simpl; by rewrite Z.mod_1_r|].
  cbn [digits]. rewrite read_number_app, IH by (apply Z.div_pos; lia). simpl.
  pose proof (Z.mod_pos_bound z base ltac:(lia)). rewrite digit_value_digit by lia.
  rewrite Nat2Z.inj_succ, Z.pow_succ_r by lia.
  rewrite (Z.rem_mul_r z base (base ^ Z.of_nat n)) by lia. lia.
Qed.

(** What %x and %08x print is the number. *)
Lemma read_fmt_x z : is_u32 z -> read_number 16 0 (fmt_x z) = z.
Proof. intros Hz. unfold fmt_x. rewrite u32_id by done. apply read_numeral; [lia|exact Hz]. Qed.
Lemma read_fmt_08x z : is_u32 z -> read_number 16 0 (fmt_08x z) = z.
Proof.
  intros Hz. unfold fmt_08x. rewrite u32_id, read_digits by (done || lia || apply Hz).
  apply Z.mod_small. exact Hz.
Qed.
