(* ===== verification/BitMap.v ===== *)
(** * BitMap: userprog/bitmap.h and userprog/bitmap.cc

    An array of [numBits] bits stored in 32-bit words.  The operations are
    translated on the words; [bit] reads one bit and [marked] is the abstract
    set of the bits that are on, against which every operation is specified.
    The disk sectors of the file system (FileSys.v), the swap sectors
    (AddrSpace.v) and the descriptors of a process (FDList.v) are allocated
    from bitmaps. *)

From S2P Require Import Prelude.

Definition BitsInByte : Z := 8.
Definition BitsInWord : Z := 32.

Record BitMap := mkBitMap {
  numBits : Z;        (* number of bits in the bitmap *)
  numWords : Z;       (* divRoundUp(numBits, BitsInWord) *)
  map : list Z        (* bit storage, unsigned words *)
}.

Definition set_map (b : BitMap) (m : list Z) : BitMap :=
  mkBitMap (numBits b) (numWords b) m.

(** [which >= 0 && which < numBits], the ASSERT of Mark, Clear and Test. *)
Definition in_range (b : BitMap) (which : Z) : bool :=
  (which >=? 0) && (which <? numBits b).

(** [1 << (which % BitsInWord)], as the unsigned word it is combined with. *)
Definition bit_mask (which : Z) : Z := u32 (Z.shiftl 1 (Z.rem which BitsInWord)).

Definition Mark (b : BitMap) (which : Z) : res BitMap :=
  _ ← ASSERT (in_range b which);
  w ← (map b).[Z.quot which BitsInWord];
  m ← (map b).[Z.quot which BitsInWord := Z.lor w (bit_mask which)];
  mret (set_map b m).

Definition Clear (b : BitMap) (which : Z) : res BitMap :=
  _ ← ASSERT (in_range b which);
  w ← (map b).[Z.quot which BitsInWord];
  m ← (map b).[Z.quot which BitsInWord := Z.land w (u32 (Z.lnot (bit_mask which)))];
  mret (set_map b m).

Definition Test (b : BitMap) (which : Z) : res bool :=
  _ ← ASSERT (in_range b which);
  w ← (map b).[Z.quot which BitsInWord];
  mret (negb (Z.land w (bit_mask which) =? 0)).

(** The loop [for (i = 0; i < numBits; i++) Clear(i)] of the constructor. *)
Fixpoint clear_loop (n : nat) (i : Z) (b : BitMap) : res BitMap :=
  match n with
  | O => mret b
  | S n => b' ← Clear b i; clear_loop n (i + 1) b'
  end.

(** [mem] is what [new unsigned int[numWords]] returns: it is not initialised. *)
Definition new_BitMap (mem : list Z) (nitems : Z) : res BitMap :=
  clear_loop (Z.to_nat nitems) 0
    (mkBitMap nitems (divRoundUp nitems BitsInWord) mem).

Fixpoint find_loop (n : nat) (i : Z) (b : BitMap) : res (Z * BitMap) :=
  match n with
  | O => mret (-1, b)
  | S n =>
      t ← Test b i;
      if negb t then b' ← Mark b i; mret (i, b') else find_loop n (i + 1) b
  end.

Definition Find (b : BitMap) : res (Z * BitMap) :=
  find_loop (Z.to_nat (numBits b)) 0 b.

Fixpoint numclear_loop (n : nat) (i : Z) (b : BitMap) (count : Z) : res Z :=
  match n with
  | O => mret count
  | S n =>
      t ← Test b i;
      numclear_loop n (i + 1) b (if negb t then count + 1 else count)
  end.

Definition NumClear (b : BitMap) : res Z :=
  numclear_loop (Z.to_nat (numBits b)) 0 b 0.

(** The numbers [Print] writes, in order. *)
Fixpoint print_loop (n : nat) (i : Z) (b : BitMap) : res (list Z) :=
  match n with
  | O => mret []
  | S n =>
      t ← Test b i;
      out ← print_loop n (i + 1) b;
      mret (if (t : bool) then i :: out else out)
  end.

Definition Print (b : BitMap) : res (list Z) := print_loop (Z.to_nat (numBits b)) 0 b.

(** ** The abstract view *)

(** One bit of the storage. *)
Definition bit (b : BitMap) (i : Z) : bool :=
  match znth (map b) (Z.quot i BitsInWord) with
  | Some w => Z.testbit w (Z.rem i BitsInWord)
  | None => false
  end.

Record wf (b : BitMap) : Prop := {
  wf_bits : 0 <= numBits b;
  wf_numWords : numWords b = divRoundUp (numBits b) BitsInWord;
  wf_words : zlen (map b) = numWords b;
  wf_range : Forall is_u32 (map b)
}.

(** The set of the bits that are on. *)
Definition marked (b : BitMap) : gset Z :=
  list_to_set (filter (fun i => bit b i = true) (seqZ 0 (numBits b))).

Definition valid_bit (b : BitMap) (i : Z) : Prop := 0 <= i < numBits b.

Lemma in_range_true b i : in_range b i = true <-> valid_bit b i.
Proof. unfold in_range, valid_bit. rewrite andb_true_iff. lia. Qed.

Lemma elem_of_marked b i : i ∈ marked b <-> valid_bit b i /\ bit b i = true.
Proof.
  unfold marked, valid_bit.
  rewrite elem_of_list_to_set, list_elem_of_filter, elem_of_seqZ. intuition lia.
Qed.

Section index.
Context (b : BitMap) (Hb : wf b).

Lemma word_index i : valid_bit b i -> 0 <= Z.quot i BitsInWord < zlen (map b).
Proof.
  intros Hi. rewrite (wf_words _ Hb), (wf_numWords _ Hb).
  unfold valid_bit, BitsInWord in *.
  pose proof (divRoundUp_spec (numBits b) 32). rewrite Z.quot_div_nonneg by lia.
  pose proof (wf_bits _ Hb). split; [apply Z.div_pos; lia|].
  apply Z.div_lt_upper_bound; lia.
Qed.

Lemma bit_index i : valid_bit b i -> 0 <= Z.rem i BitsInWord < 32.
Proof. intros Hi. apply Z.rem_bound_pos; unfold valid_bit, BitsInWord in *; lia. Qed.

Lemma word_of i :
  valid_bit b i ->
  exists w, (map b).[Z.quot i BitsInWord] = Ok w /\ is_u32 w /\
            bit b i = Z.testbit w (Z.rem i BitsInWord).
Proof.
  intros Hi. destruct (zget_in_range _ _ (word_index i Hi)) as [w Hw].
  exists w. split; [done|]. apply zget_Ok in Hw. split.
  - exact (Forall_znth _ _ _ _ (wf_range _ Hb) Hw).
  - unfold bit. by rewrite Hw.
Qed.

Lemma bit_mask_eq i : valid_bit b i -> bit_mask i = Z.shiftl 1 (Z.rem i BitsInWord).
Proof. intros Hi. apply u32_id, u32_shiftl_1, bit_index, Hi. Qed.

(** Writing word [i / 32] so that its bit [i % 32] is [v] and the others stay. *)
Lemma set_bit_spec i w w' v :
  valid_bit b i -> (map b).[Z.quot i BitsInWord] = Ok w -> is_u32 w' ->
  (forall k, 0 <= k < 32 ->
     Z.testbit w' k = if k =? Z.rem i BitsInWord then v else Z.testbit w k) ->
  let b' := set_map b (<[Z.to_nat (Z.quot i BitsInWord) := w']> (map b)) in
  wf b' /\ (forall j, valid_bit b j -> bit b' j = if j =? i then v else bit b j).
Proof.
  intros Hi Hw Hw' Hk b'. pose proof (word_index i Hi) as Hq. split.
  - destruct Hb as [? ? Hlen HF]. subst b'.
    split; simpl; rewrite ?zlen_insert; auto. by apply Forall_insert.
  - intros j Hj. pose proof (bit_index j Hj). pose proof (bit_index i Hi).
    apply zget_Ok in Hw. unfold bit, b'; simpl.
    pose proof (Z.quot_rem' i BitsInWord). pose proof (Z.quot_rem' j BitsInWord).
    destruct (decide (Z.quot i BitsInWord = Z.quot j BitsInWord)) as [E|E].
    + rewrite <- E, znth_insert_eq, Hw, Hk by done.
      destruct (Z.eqb_spec j i), (Z.eqb_spec (Z.rem j BitsInWord) (Z.rem i BitsInWord));
        congruence || lia.
    + rewrite znth_insert_ne by lia. by destruct (Z.eqb_spec j i); [subst|].
Qed.
End index.

(** ** One bit: Test, Mark, Clear *)

Lemma Test_spec b i : wf b -> valid_bit b i -> Test b i = Ok (bit b i).
Proof.
  intros Hb Hi. unfold Test. rewrite ASSERT_true by by apply in_range_true.
  destruct (word_of b Hb i Hi) as (w & Hw & Hu & Hbit).
  rewrite bind_Ok, Hw, bind_Ok, Hbit, (bit_mask_eq b i Hi).
  pose proof (bit_index b i Hi) as Hr. unfold mret, res_ret. f_equal.
  destruct (Z.testbit w (Z.rem i BitsInWord)) eqn:E.
  - apply negb_true_iff, Z.eqb_neq. intros H0.
    apply (f_equal (fun z => Z.testbit z (Z.rem i BitsInWord))) in H0.
    rewrite Z.land_spec, E, testbit_shiftl_1, Z.eqb_refl, Z.bits_0 in H0 by lia. done.
  - apply negb_false_iff, Z.eqb_eq, Z.bits_inj'. intros k Hk.
    rewrite Z.land_spec, testbit_shiftl_1, Z.bits_0 by lia.
    destruct (Z.eqb_spec k (Z.rem i BitsInWord)) as [->|]; by rewrite ?E, ?andb_false_r.
Qed.

(** [b'] is [b] with bit [i] set to [v]. *)
Definition updates (b : BitMap) (i : Z) (v : bool) (b' : BitMap) : Prop :=
  wf b' /\ numBits b' = numBits b /\
  forall j, valid_bit b j -> bit b' j = if j =? i then v else bit b j.

Lemma Mark_updates b i :
  wf b -> valid_bit b i -> exists b', Mark b i = Ok b' /\ updates b i true b'.
Proof.
  intros Hb Hi. unfold Mark. rewrite ASSERT_true by by apply in_range_true.
  destruct (word_of b Hb i Hi) as (w & Hw & Hu & _).
  pose proof (bit_index b i Hi) as Hr.
  rewrite bind_Ok, Hw, bind_Ok, zset_Ok by by apply word_index.
  rewrite bind_Ok, (bit_mask_eq b i Hi). eexists; split; [reflexivity|].
  unfold updates. edestruct set_bit_spec with (w' := Z.lor w (Z.shiftl 1 (Z.rem i BitsInWord)))
    (v := true) as [? ?]; eauto with word.
  intros k Hk. rewrite Z.lor_spec, testbit_shiftl_1 by lia.
  destruct (k =? _); by rewrite ?orb_true_r, ?orb_false_r.
Qed.

Lemma Clear_updates b i :
  wf b -> valid_bit b i -> exists b', Clear b i = Ok b' /\ updates b i false b'.
Proof.
  intros Hb Hi. unfold Clear. rewrite ASSERT_true by by apply in_range_true.
  destruct (word_of b Hb i Hi) as (w & Hw & Hu & _).
  pose proof (bit_index b i Hi) as Hr.
  rewrite bind_Ok, Hw, bind_Ok, zset_Ok by by apply word_index.
  rewrite bind_Ok, (bit_mask_eq b i Hi). eexists; split; [reflexivity|].
  unfold updates. edestruct set_bit_spec
    with (w' := Z.land w (u32 (Z.lnot (Z.shiftl 1 (Z.rem i BitsInWord))))) (v := false)
    as [? ?]; eauto with word.
  - apply is_u32_land; [done | apply u32_range].
  - intros k Hk. rewrite Z.land_spec, u32_testbit, Z.lnot_spec, testbit_shiftl_1 by lia.
    destruct (k =? _), (Z.ltb_spec k 32); try lia; by rewrite ?andb_true_r, ?andb_false_r.
Qed.

Lemma marked_updates b i b' :
  valid_bit b i -> updates b i true b' -> marked b' = {[i]} ∪ marked b.
Proof.
  intros Hi (_ & Hn & Hbit). apply set_eq. intros j.
  rewrite elem_of_union, elem_of_singleton, !elem_of_marked. unfold valid_bit in *.
  rewrite Hn. split.
  - intros [Hj E]. rewrite Hbit in E by done. destruct (Z.eqb_spec j i); auto.
  - intros [->|[Hj E]]; (split; [done|]); rewrite Hbit by done.
    + by rewrite Z.eqb_refl.
    + by destruct (j =? i).
Qed.

Lemma unmarked_updates b i b' :
  updates b i false b' -> marked b' = marked b ∖ {[i]}.
Proof.
  intros (_ & Hn & Hbit). apply set_eq. intros j.
  rewrite elem_of_difference, elem_of_singleton, !elem_of_marked. unfold valid_bit in *.
  rewrite Hn. split.
  - intros [Hj E]. rewrite Hbit in E by done. destruct (Z.eqb_spec j i); done.
  - intros [[Hj E] Hne]. split; [done|]. rewrite Hbit by done.
    by destruct (Z.eqb_spec j i).
Qed.

(** ** The loops *)

Lemma updates_wf b i v b' : updates b i v b' -> wf b'.
Proof. by intros [? _]. Qed.

Lemma updates_numBits b i v b' : updates b i v b' -> numBits b' = numBits b.
Proof. by intros (_ & ? & _). Qed.

Lemma clear_loop_spec n : forall i b,
  wf b -> 0 <= i -> i + Z.of_nat n = numBits b ->
  (forall j, valid_bit b j -> j < i -> bit b j = false) ->
  exists b', clear_loop n i b = Ok b' /\ wf b' /\ numBits b' = numBits b /\
             forall j, valid_bit b j -> bit b' j = false.
Proof.
  induction n as [|n IH]; intros i b Hb Hi Hn Hlow; simpl.
  - exists b. repeat split; try done; try apply Hb.
    intros j Hj. apply Hlow; [done|]. unfold valid_bit in Hj. lia.
  - destruct (Clear_updates b i Hb) as (b1 & -> & Hb1 & Hn1 & Hbit);
      [unfold valid_bit; lia|]. rewrite bind_Ok.
    destruct (IH (i + 1) b1 Hb1) as (b' & E & ? & ? & Hall); [lia|lia| |].
    + intros j Hj Hlt. unfold valid_bit in *. rewrite Hn1 in Hj.
      rewrite Hbit by done. destruct (Z.eqb_spec j i); [done|]. apply Hlow; [done|lia].
    + exists b'. unfold valid_bit in *. rewrite Hn1 in *. auto.
Qed.

Lemma new_BitMap_spec mem nitems :
  0 <= nitems -> zlen mem = divRoundUp nitems BitsInWord -> Forall is_u32 mem ->
  exists b, new_BitMap mem nitems = Ok b /\ wf b /\ numBits b = nitems /\ marked b = ∅.
Proof.
  intros Hn Hlen Hmem. unfold new_BitMap.
  set (b0 := mkBitMap _ _ _). assert (wf b0) as Hb0 by (split; simpl; auto).
  edestruct (clear_loop_spec (Z.to_nat nitems) 0 b0 Hb0) as (b & E & Hb & Hnb & Hall);
    simpl; [lia|lia|unfold valid_bit; intros; lia|].
  exists b. split_and!; try done. apply set_eq. intros j. rewrite elem_of_marked.
  unfold valid_bit in *. rewrite Hnb. split; [|set_solver].
  intros [Hj Hbit]. by rewrite Hall in Hbit.
Qed.

Lemma find_loop_spec b : wf b -> forall n i,
  0 <= i -> i + Z.of_nat n = numBits b ->
  (forall j, 0 <= j < i -> bit b j = true) ->
  (exists r b', find_loop n i b = Ok (r, b') /\ valid_bit b r /\ bit b r = false /\
     (forall j, 0 <= j < r -> bit b j = true) /\ updates b r true b') \/
  (find_loop n i b = Ok (-1, b) /\ forall j, valid_bit b j -> bit b j = true).
Proof.
  intros Hb. induction n as [|n IH]; intros i Hi Hn Hlow; simpl.
  - right. split; [done|]. intros j Hj. apply Hlow. unfold valid_bit in Hj. lia.
  - assert (valid_bit b i) as Hv by (unfold valid_bit; lia).
    rewrite Test_spec, bind_Ok by done. destruct (bit b i) eqn:E; simpl.
    + apply IH; [lia|lia|]. intros j Hj. destruct (decide (j = i)) as [->|]; [done|].
      apply Hlow. lia.
    + left. destruct (Mark_updates b i Hb Hv) as (b' & -> & Hu).
      exists i, b'. by rewrite bind_Ok.
Qed.

Lemma Find_spec b :
  wf b ->
  (exists r b', Find b = Ok (r, b') /\ valid_bit b r /\ bit b r = false /\
     (forall j, 0 <= j < r -> bit b j = true) /\ updates b r true b') \/
  (Find b = Ok (-1, b) /\ forall j, valid_bit b j -> bit b j = true).
Proof.
  intros Hb. pose proof (wf_bits b Hb). apply find_loop_spec; [done|lia|lia|lia].
Qed.

Lemma numclear_loop_spec b : wf b -> forall n i c,
  0 <= i -> i + Z.of_nat n = numBits b ->
  numclear_loop n i b c =
    Ok (c + Z.of_nat (length (filter (fun j => bit b j = false) (seqZ i (Z.of_nat n))))).
Proof.
  intros Hb. induction n as [|n IH]; intros i c Hi Hn; simpl.
  - unfold mret, res_ret. f_equal. lia.
  - rewrite Test_spec, bind_Ok, IH by (done || lia || (unfold valid_bit; lia)).
    rewrite (seqZ_cons i) by lia. rewrite filter_cons.
    replace (Z.pred (Z.of_nat (S n))) with (Z.of_nat n) by lia.
    replace (Z.succ i) with (i + 1) by lia.
    destruct (bit b i); destruct (decide _); try done; simpl; f_equal; lia.
Qed.

Lemma length_filter_bit b (l : list Z) :
  (length (filter (fun j => bit b j = false) l) +
   length (filter (fun j => bit b j = true) l) = length l)%nat.
Proof.
  induction l as [|x l IH]; [done|]. rewrite !filter_cons.
  destruct (bit b x); destruct (decide _), (decide _); try done; simpl; lia.
Qed.

Lemma NumClear_spec b :
  wf b -> NumClear b = Ok (numBits b - Z.of_nat (size (marked b))).
Proof.
  intros Hb. unfold NumClear. pose proof (wf_bits b Hb).
  rewrite numclear_loop_spec by (done || lia).
  rewrite Z2Nat.id by lia. f_equal. unfold marked. rewrite size_list_to_set.
  - pose proof (length_filter_bit b (seqZ 0 (numBits b))). rewrite length_seqZ in *. lia.
  - apply list.NoDup_filter, NoDup_seqZ.
Qed.

Lemma Print_spec b :
  wf b -> Print b = Ok (filter (fun i => bit b i = true) (seqZ 0 (numBits b))).
Proof.
  intros Hb. unfold Print. pose proof (wf_bits b Hb) as H0.
  assert (forall n i, 0 <= i -> i + Z.of_nat n = numBits b ->
    print_loop n i b = Ok (filter (fun i => bit b i = true) (seqZ i (Z.of_nat n)))) as Hgen.
  { induction n as [|n IH]; intros i Hi Hn; simpl; [done|].
    rewrite Test_spec, bind_Ok, IH by (done || lia || (unfold valid_bit; lia)).
    rewrite (seqZ_cons i) by lia. rewrite filter_cons.
    replace (Z.pred (Z.of_nat (S n))) with (Z.of_nat n) by lia.
    replace (Z.succ i) with (i + 1) by lia.
    destruct (bit b i); destruct (decide _); done. }
  rewrite Hgen by lia. by rewrite Z2Nat.id.
Qed.

Create HintDb bitmap.
#[export] Hint Resolve updates_wf updates_numBits : bitmap.

(** ** Set-level summary of the operations, the interface the clients use *)

Lemma Test_marked b i :
  wf b -> valid_bit b i -> Test b i = Ok (bool_decide (i ∈ marked b)).
Proof.
  intros Hb Hi. rewrite Test_spec by done. f_equal.
  destruct (bit b i) eqn:E; symmetry; [apply bool_decide_eq_true|apply bool_decide_eq_false];
    rewrite elem_of_marked; [by split|]. rewrite E. by intros [_ ?].
Qed.

Lemma Mark_marked b i :
  wf b -> valid_bit b i -> exists b', Mark b i = Ok b' /\ wf b' /\
    numBits b' = numBits b /\ marked b' = {[i]} ∪ marked b.
Proof.
  intros Hb Hi. destruct (Mark_updates b i Hb Hi) as (b' & E & Hu). exists b'.
  split_and!; eauto using updates_wf, updates_numBits, marked_updates.
Qed.

Lemma Clear_marked b i :
  wf b -> valid_bit b i -> exists b', Clear b i = Ok b' /\ wf b' /\
    numBits b' = numBits b /\ marked b' = marked b ∖ {[i]}.
Proof.
  intros Hb Hi. destruct (Clear_updates b i Hb Hi) as (b' & E & Hu). exists b'.
  split_and!; eauto using updates_wf, updates_numBits, unmarked_updates.
Qed.

(** Every valid bit is in [marked] when the map is full. *)
Lemma marked_full b :
  wf b -> (forall j, valid_bit b j -> bit b j = true) ->
  Z.of_nat (size (marked b)) = numBits b.
Proof.
  intros Hb Hall. pose proof (wf_bits b Hb).
  assert (marked b = list_to_set (seqZ 0 (numBits b))) as ->.
  { apply set_eq. intros j. rewrite elem_of_marked, elem_of_list_to_set, elem_of_seqZ.
    unfold valid_bit in *. split; [intros [? _]; lia|].
    intros Hj. split; [lia|]. apply Hall. lia. }
  rewrite size_list_to_set by apply NoDup_seqZ. rewrite length_seqZ. lia.
Qed.

(** [Find] allocates the smallest clear bit, and fails only when none is left. *)
Lemma Find_marked b :
  wf b ->
  (exists r b', Find b = Ok (r, b') /\ valid_bit b r /\ (r ∉ marked b) /\
     (forall j, 0 <= j < r -> j ∈ marked b) /\ wf b' /\ numBits b' = numBits b /\
     marked b' = {[r]} ∪ marked b) \/
  (Find b = Ok (-1, b) /\ Z.of_nat (size (marked b)) = numBits b).
Proof.
  intros Hb. destruct (Find_spec b Hb) as [(r & b' & E & Hr & Hbit & Hlow & Hu)|[E Hall]].
  - left. exists r, b'. split_and!; eauto using updates_wf, updates_numBits, marked_updates.
    + rewrite elem_of_marked. rewrite Hbit. by intros [_ ?].
    + intros j Hj. apply elem_of_marked. unfold valid_bit in *. split; [lia|]. auto.
  - right. split; [done|]. by apply marked_full.
Qed.

Lemma size_marked_le b : wf b -> Z.of_nat (size (marked b)) <= numBits b.
Proof.
  intros Hb. pose proof (wf_bits b Hb). unfold marked.
  rewrite size_list_to_set by apply list.NoDup_filter, NoDup_seqZ.
  pose proof (length_filter_bit b (seqZ 0 (numBits b))). rewrite length_seqZ in *. lia.
Qed.

(** ** Refinement of a set of allocated numbers

    [spec_op] is what the header promises: a set of marked numbers below [n],
    with [Find] allocating the least free number.  Any sequence of calls on a
    bitmap returns what the specification returns, aborts exactly when the
    specification rejects an index, and stays well formed. *)

Inductive op := OpMark (i : Z) | OpClear (i : Z) | OpTest (i : Z) | OpFind | OpNumClear.

Definition run_op (b : BitMap) (o : op) : res (Z * BitMap) :=
  match o with
  | OpMark i => b' ← Mark b i; mret (0, b')
  | OpClear i => b' ← Clear b i; mret (0, b')
  | OpTest i => t ← Test b i; mret (Z.b2z t, b)
  | OpFind => Find b
  | OpNumClear => c ← NumClear b; mret (c, b)
  end.

Definition spec_find (n : Z) (s : gset Z) : Z :=
  match filter (fun i => i ∉ s) (seqZ 0 n) with i :: _ => i | [] => -1 end.

Definition spec_op (n : Z) (s : gset Z) (o : op) : res (Z * gset Z) :=
  let valid i := ASSERT ((0 <=? i) && (i <? n)) in
  match o with
  | OpMark i => _ ← valid i; mret (0, ({[i]} ∪ s))
  | OpClear i => _ ← valid i; mret (0, (s ∖ {[i]}))
  | OpTest i => _ ← valid i; mret (Z.b2z (bool_decide (i ∈ s)), s)
  | OpFind => let i := spec_find n s in
      mret (i, if i =? -1 then s else {[i]} ∪ s)
  | OpNumClear => mret (n - Z.of_nat (size s), s)
  end.

Definition abstracts (n : Z) (b : BitMap) (s : gset Z) : Prop :=
  wf b /\ numBits b = n /\ marked b = s.

Lemma in_range_false b i : ~ valid_bit b i -> in_range b i = false.
Proof. rewrite <- in_range_true. by destruct (in_range b i). Qed.

Lemma out_of_range_aborts b i :
  ~ valid_bit b i ->
  Mark b i = Err AssertFailed /\ Clear b i = Err AssertFailed /\ Test b i = Err AssertFailed.
Proof. intros H. unfold Mark, Clear, Test. by rewrite (in_range_false b i H). Qed.

Lemma seqZ_head_filter (P : Z -> Prop) `{!forall x, Decision (P x)} n r :
  0 <= r < n -> P r -> (forall j, 0 <= j < r -> ~ P j) ->
  exists t, filter P (seqZ 0 n) = r :: t.
Proof.
  intros Hr HP Hlow. pose proof (seqZ_app 0 r (n - r)) as E.
  replace (r + (n - r)) with n in E by lia. rewrite E by lia.
  rewrite list.filter_app, (seqZ_cons (0 + r)), filter_cons by lia.
  replace (filter P (seqZ 0 r)) with (@nil Z).
  - rewrite decide_True by done. simpl. eauto.
  - symmetry. apply elem_of_nil_inv. intros j.
    rewrite list_elem_of_filter, elem_of_seqZ. intros [Hj Hin]. apply (Hlow j); [lia|done].
Qed.

Lemma spec_find_free n s r :
  0 <= r < n -> r ∉ s -> (forall j, 0 <= j < r -> j ∈ s) -> spec_find n s = r.
Proof.
  intros Hr Hs Hlow. unfold spec_find.
  destruct (seqZ_head_filter (fun i => i ∉ s) n r Hr Hs) as [t ->]; [|done].
  intros j Hj Hn. by apply Hn, Hlow.
Qed.

Lemma spec_find_full n b :
  wf b -> numBits b = n -> (forall j, valid_bit b j -> bit b j = true) ->
  spec_find n (marked b) = -1.
Proof.
  intros Hb Hn Hall. unfold spec_find.
  destruct (filter _ _) as [|x t] eqn:E; [done|exfalso].
  assert (x ∈ filter (fun i => i ∉ marked b) (seqZ 0 n)) as Hx
    by (rewrite E; apply list_elem_of_here).
  apply list_elem_of_filter in Hx as [Hx Hin]. apply Hx, elem_of_marked.
  apply elem_of_seqZ in Hin. unfold valid_bit in *. split; [lia|]. apply Hall. lia.
Qed.

Lemma bitmap_op_refines n b s o :
  abstracts n b s ->
  match run_op b o with
  | Ok (r, b') => exists s', spec_op n s o = Ok (r, s') /\ abstracts n b' s'
  | Err e => spec_op n s o = Err e
  end.
Proof.
  intros (Hb & <- & <-).
  assert (forall i, ((0 <=? i) && (i <? numBits b))%bool = in_range b i) as Hir.
  { intros i. unfold in_range. by rewrite Z.geb_leb. }
  destruct o as [i|i|i| |]; cbn [run_op spec_op]; rewrite ?Hir.
  1-3: destruct (decide (valid_bit b i)) as [Hi|Hi];
    [ rewrite (ASSERT_true (in_range b i)) by (by apply in_range_true)
    | destruct (out_of_range_aborts b i Hi) as (E1 & E2 & E3);
      rewrite ?E1, ?E2, ?E3, (in_range_false b i Hi); done ].
  - destruct (Mark_marked b i Hb Hi) as (b' & -> & ? & ? & ?).
    eexists; split; [reflexivity|by split_and!].
  - destruct (Clear_marked b i Hb Hi) as (b' & -> & ? & ? & ?).
    eexists; split; [reflexivity|by split_and!].
  - rewrite Test_marked by done. eexists; split; [reflexivity|by split_and!].
  - destruct (Find_spec b Hb) as [(r & b' & -> & Hr & Hbit & Hlow & Hu)|[-> Hall]].
    + rewrite (spec_find_free _ _ r).
      * unfold valid_bit in Hr. destruct (Z.eqb_spec r (-1)); [lia|].
        eexists; split; [reflexivity|]. split_and!; eauto using updates_wf, updates_numBits.
        by apply marked_updates.
      * exact Hr.
      * rewrite elem_of_marked, Hbit. by intros [_ ?].
      * intros j Hj. apply elem_of_marked. unfold valid_bit in *. split; [lia|]. auto.
    + rewrite (spec_find_full _ b) by done. eexists; split; [reflexivity|by split_and!].
  - rewrite NumClear_spec by done. eexists; split; [reflexivity|by split_and!].
Qed.

(** C28: a bitmap is a faithful implementation of a set of marked numbers: every
    sequence of Mark, Clear, Test, Find and NumClear calls returns the values
    of the set specification (Find: the least free number, or -1), aborts
    exactly where it rejects an index, and leaves a well-formed bitmap whose
    marked set is the specification's. *)
Theorem BitMap_refines_set n b s os :
  abstracts n b s ->
  match run_ops run_op b os with
  | Ok (rs, b') => exists s', run_ops (spec_op n) s os = Ok (rs, s') /\ abstracts n b' s'
  | Err e => run_ops (spec_op n) s os = Err e
  end.
Proof.
  revert b s. apply run_ops_refines. intros b s o. apply bitmap_op_refines.
Qed.

(** Three allocations from a map whose storage held garbage. *)
Definition sample : BitMap :=
  match new_BitMap [4294967295; 12345] 40 with Ok b => b | Err _ => mkBitMap 0 0 [] end.

Lemma sample_abstracts : abstracts 40 sample ∅.
Proof.
  destruct (new_BitMap_spec [4294967295; 12345] 40) as (b & E & Hb & Hn & Hm);
    [lia|reflexivity|repeat constructor; word_lia|].
  unfold sample. rewrite E. by split_and!.
Qed.

Lemma BitMap_refines_set_witness :
  exists s', run_ops (spec_op 40) ∅ [OpMark 0; OpFind; OpMark 33; OpFind; OpNumClear]
    = Ok ([0; 1; 0; 2; 36], s').
Proof.
  pose proof (BitMap_refines_set 40 sample ∅
    [OpMark 0; OpFind; OpMark 33; OpFind; OpNumClear] sample_abstracts) as H.
  assert (exists b, run_ops run_op sample [OpMark 0; OpFind; OpMark 33; OpFind; OpNumClear]
    = Ok ([0; 1; 0; 2; 36], b)) as [b E] by (eexists; vm_compute; reflexivity).
  rewrite E in H. destruct H as (s' & E' & _). by exists s'.
Defined.
