(* ===== verification/NList.v ===== *)
(** * List: threads/list.h and threads/list.cc

    The singly linked list of [void *] items used for every queue of the
    kernel.  The operations are translated on a heap of [ListElement] cells
    with [first] and [last] pointers; [represents] relates the cells to the
    sequence of (key, item) pairs they hold, and each operation is shown to
    refine the operation on sequences that the other components use for their
    queues ([l_append], [l_prepend], [l_insert], [l_remove]). *)

From S2P Require Import Prelude.

(** ** The cells *)

Abbreviation addr := positive (only parsing).

Record ListElement := mkElement {
  item : Z;             (* void *, 0 is NULL *)
  key : Z;              (* long long unsigned *)
  next : option addr
}.

Record List := mkList { first : option addr; last : option addr }.

Abbreviation heap := (gmap positive ListElement).

Definition load (h : heap) (p : option addr) : res ListElement :=
  match p with
  | Some a => match h !! a with Some e => Ok e | None => Err OutOfBounds end
  | None => Err NullDeref
  end.

(** [p->next = n] *)
Definition store_next (h : heap) (p : option addr) (n : option addr) : res heap :=
  e ← load h p;
  match p with
  | Some a => mret (<[a := mkElement (item e) (key e) n]> h)
  | None => Err NullDeref
  end.

#[global] Arguments load : simpl never.
#[global] Arguments store_next : simpl never.

(** [new ListElement(itemPtr, sortKey)] at an address that is not allocated. *)
Definition new_ListElement (h : heap) (itemPtr sortKey : Z) : addr * heap :=
  let a := fresh (dom h) in (a, <[a := mkElement itemPtr sortKey None]> h).

Definition new_List : List := mkList None None.

Definition IsEmpty (l : List) : bool :=
  match first l with None => true | Some _ => false end.

Definition Append (h : heap) (l : List) (it : Z) : res (heap * List) :=
  let '(element, h) := new_ListElement h it 0 in
  if IsEmpty l then mret (h, mkList (Some element) (Some element))
  else h ← store_next h (last l) (Some element);
       mret (h, mkList (first l) (Some element)).

Definition Prepend (h : heap) (l : List) (it : Z) : res (heap * List) :=
  let '(element, h) := new_ListElement h it 0 in
  if IsEmpty l then mret (h, mkList (Some element) (Some element))
  else h ← store_next h (Some element) (first l);
       mret (h, mkList (Some element) (last l)).

(** The loop [for (ptr = first; ptr->next != NULL; ptr = ptr->next)]: [Some h]
    when the element was linked before a larger one, [None] when the loop ended. *)
Fixpoint insert_loop (fuel : nat) (h : heap) (ptr : option addr)
    (element : addr) (sortKey : Z) : res (option heap) :=
  match fuel with
  | O => Err OutOfFuel
  | S fuel =>
      e ← load h ptr;
      match next e with
      | None => mret None
      | Some n =>
          en ← load h (Some n);
          if sortKey <? key en then
            h ← store_next h (Some element) (next e);
            h ← store_next h ptr (Some element);
            mret (Some h)
          else insert_loop fuel h (Some n) element sortKey
      end
  end.

Definition SortedInsert (h : heap) (l : List) (it sortKey : Z) : res (heap * List) :=
  let '(element, h) := new_ListElement h it sortKey in
  if IsEmpty l then mret (h, mkList (Some element) (Some element))
  else
    f ← load h (first l);
    if sortKey <? key f then
      h ← store_next h (Some element) (first l);
      mret (h, mkList (Some element) (last l))
    else
      r ← insert_loop (size h) h (first l) element sortKey;
      match r with
      | Some h => mret (h, l)
      | None =>
          h ← store_next h (last l) (Some element);
          mret (h, mkList (first l) (Some element))
      end.

(** The item removed (0 for NULL) and the value stored in [*keyPtr], if any. *)
Definition SortedRemove (h : heap) (l : List) : res (Z * option Z * (heap * List)) :=
  match first l with
  | None => mret (0, None, (h, l))
  | Some a =>
      element ← load h (Some a);
      let l' := if bool_decide (first l = last l) then mkList None None
                else mkList (next element) (last l) in
      mret (item element, Some (key element), (delete a h, l'))
  end.

(** [SortedRemove(NULL)] *)
Definition Remove (h : heap) (l : List) : res (Z * (heap * List)) :=
  '(thing, _, s) ← SortedRemove h l; mret (thing, s).

(** The items [func] is applied to, in order. *)
Fixpoint mapcar_loop (fuel : nat) (h : heap) (ptr : option addr) : res (list Z) :=
  match fuel with
  | O => Err OutOfFuel
  | S fuel =>
      match ptr with
      | None => mret []
      | Some _ =>
          e ← load h ptr;
          rest ← mapcar_loop fuel h (next e);
          mret (item e :: rest)
      end
  end.

Definition Mapcar (h : heap) (l : List) : res (list Z) :=
  mapcar_loop (S (size h)) h (first l).

(** [while (Remove() != NULL);] *)
Fixpoint destroy_loop (fuel : nat) (h : heap) (l : List) : res (heap * List) :=
  match fuel with
  | O => Err OutOfFuel
  | S fuel =>
      '(thing, (h, l)) ← Remove h l;
      if thing =? 0 then mret (h, l) else destroy_loop fuel h l
  end.

Definition delete_List (h : heap) (l : List) : res (heap * List) :=
  destroy_loop (S (size h)) h l.

(** ** Sequences: the specification *)

Section sequences.
Context {A : Type}.
Implicit Types l : list (Z * A).

Definition l_append l (it : A) : list (Z * A) := l ++ [(0, it)].
Definition l_prepend l (it : A) : list (Z * A) := (0, it) :: l.

(** In front of the first larger key, hence behind the equal ones. *)
Fixpoint l_insert l (it : A) (k : Z) : list (Z * A) :=
  match l with
  | [] => [(k, it)]
  | (k', it') :: l' =>
      if k <? k' then (k, it) :: l else (k', it') :: l_insert l' it k
  end.

Definition l_remove l : option (Z * A) * list (Z * A) :=
  match l with [] => (None, []) | x :: l' => (Some x, l') end.

Definition sorted l : Prop := StronglySorted (fun x y => x.1 <= y.1) l.

Lemma elem_of_l_insert l it k x : x ∈ l_insert l it k <-> x = (k, it) \/ x ∈ l.
Proof.
  induction l as [|[k' it'] l IH]; simpl; [set_solver|].
  destruct (k <? k'); rewrite !elem_of_cons, ?IH, ?elem_of_cons; tauto.
Qed.

Lemma l_insert_Permutation l it k : l_insert l it k ≡ₚ (k, it) :: l.
Proof.
  induction l as [|[k' it'] l IH]; simpl; [done|].
  destruct (k <? k'); [done|]. rewrite IH. apply Permutation_swap.
Qed.

Lemma l_insert_sorted l it k : sorted l -> sorted (l_insert l it k).
Proof.
  unfold sorted. induction 1 as [|[k' it'] l Hl IH HF]; simpl.
  - repeat constructor.
  - destruct (Z.ltb_spec k k').
    + constructor; [by constructor|]. constructor; [simpl; lia|].
      rewrite Forall_forall in *. intros x Hx. specialize (HF x Hx). simpl in *. lia.
    + constructor; [done|]. apply Forall_forall. intros x.
      rewrite elem_of_l_insert. intros [->|Hx]; [simpl; lia|].
      by rewrite Forall_forall in HF; apply HF.
Qed.

Lemma length_l_insert l it k : length (l_insert l it k) = S (length l).
Proof. by rewrite (l_insert_Permutation l it k). Qed.
End sequences.

(** ** Representation *)

(** The pointer to the head of [ps], or [q] at the end. *)
Definition head_or (ps : list addr) (q : option addr) : option addr :=
  match ps with [] => q | p :: _ => Some p end.

(** The cells at [ps] are linked in order, hold the pairs [es], and the last one
    points to [q]. *)
Fixpoint lseg (h : heap) (ps : list addr) (es : list (Z * Z)) (q : option addr) : Prop :=
  match ps, es with
  | [], [] => True
  | p :: ps, (k, it) :: es =>
      h !! p = Some (mkElement it k (head_or ps q)) /\ lseg h ps es q
  | _, _ => False
  end.

Record represents (h : heap) (l : List) (ps : list addr) (es : list (Z * Z)) : Prop := {
  rep_nodup : NoDup ps;
  rep_lseg : lseg h ps es None;
  rep_first : first l = head ps;
  rep_last : last l = list.last ps
}.

Lemma lseg_dom h ps es q p : lseg h ps es q -> p ∈ ps -> p ∈ dom h.
Proof.
  revert es. induction ps as [|p' ps IH]; intros [|[k it] es] Hc Hp; simpl in Hc;
    try done; [by apply elem_of_nil in Hp|].
  destruct Hc as [Hq Hc]. apply elem_of_cons in Hp as [->|Hp]; [|eauto].
  apply elem_of_dom. eauto.
Qed.

(** A segment only depends on its own cells. *)
Lemma lseg_frame h h' ps es q :
  (forall p, p ∈ ps -> h' !! p = h !! p) -> lseg h ps es q -> lseg h' ps es q.
Proof.
  revert es. induction ps as [|p ps IH]; intros [|[k it] es] Heq Hc; simpl in *; try done.
  destruct Hc as [Hq Hc]. split; [rewrite Heq; [done|apply elem_of_cons; auto]|].
  apply IH; [|done]. intros p' Hp'. apply Heq, elem_of_cons. auto.
Qed.

Lemma lseg_insert h ps es q p e : p ∉ ps -> lseg h ps es q -> lseg (<[p := e]> h) ps es q.
Proof.
  intros Hp. apply lseg_frame. intros p' Hp'. apply lookup_insert_ne. by intros ->.
Qed.

Lemma lseg_length h ps es q : lseg h ps es q -> length ps = length es.
Proof.
  revert es. induction ps as [|p ps IH]; intros [|[k it] es] Hc; simpl in *; try done.
  destruct Hc. f_equal. auto.
Qed.

(** Linking one more cell behind a non-empty segment. *)
Lemma lseg_snoc h ps p es a it k e :
  NoDup (ps ++ [p]) -> a ∉ ps ++ [p] -> lseg h (ps ++ [p]) es None ->
  h !! p = Some e -> h !! a = Some (mkElement it k None) ->
  lseg (<[p := mkElement (item e) (key e) (Some a)]> h) ((ps ++ [p]) ++ [a])
       (es ++ [(k, it)]) None.
Proof.
  revert es. induction ps as [|p0 ps IH]; intros [|[k0 it0] es] Hnd Ha Hc Hp Hna;
    simpl in *; try done.
  - destruct Hc as [Hp' Hc]. destruct es; [|done]. simplify_eq. simpl.
    rewrite lookup_insert_eq, lookup_insert_ne by set_solver. done.
  - destruct Hc as [Hp0 Hc]. apply NoDup_cons in Hnd as [Hnin Hnd]. split.
    + rewrite lookup_insert_ne by set_solver. rewrite Hp0. by destruct ps.
    + apply IH; set_solver.
Qed.

Lemma lseg_size h ps es q : NoDup ps -> lseg h ps es q -> (length ps <= size h)%nat.
Proof.
  intros Hnd Hc. rewrite <- size_dom, <- (size_list_to_set (C:=gset addr)) by done.
  apply subseteq_size. intros p. rewrite elem_of_list_to_set. by apply lseg_dom with (1:=Hc).
Qed.

(** What an operation may do to the rest of the heap: nothing. *)
Definition frame (h h' : heap) (ps : list addr) : Prop :=
  forall p, p ∈ dom h -> p ∉ ps -> h' !! p = h !! p.

(** The cells of the result are cells of the argument or new ones. *)
Definition grows (h : heap) (ps ps' : list addr) : Prop :=
  forall p, p ∈ ps' -> p ∈ ps \/ p ∉ dom h.

Lemma frame_represents h h' ps l' ps' es' :
  frame h h' ps -> represents h l' ps' es' -> (forall p, p ∈ ps' -> p ∉ ps) ->
  represents h' l' ps' es'.
Proof.
  intros Hf [Hnd Hc Hfi Hla] Hdisj. split; try done.
  apply (lseg_frame h); [|done]. intros p Hp. apply Hf; [|auto].
  eapply lseg_dom; eauto.
Qed.

Lemma load_Some h a e : h !! a = Some e -> load h (Some a) = Ok e.
Proof. intros H. unfold load. by rewrite H. Qed.

Lemma store_next_Ok h a e n :
  h !! a = Some e ->
  store_next h (Some a) n = Ok (<[a := mkElement (item e) (key e) n]> h).
Proof. intros H. unfold store_next. by rewrite (load_Some h a e H). Qed.

Lemma represents_nil h l es : represents h l [] es -> IsEmpty l = true /\ es = [].
Proof. intros [_ Hc Hf _]. unfold IsEmpty. rewrite Hf. by destruct es. Qed.

Lemma represents_cons h l p ps es : represents h l (p :: ps) es -> IsEmpty l = false.
Proof. intros [_ _ Hf _]. unfold IsEmpty. by rewrite Hf. Qed.

Lemma new_List_represents h : represents h new_List [] [].
Proof. split; simpl; try done. constructor. Qed.

(** ** Each operation refines its sequence operation *)

Section operations.
Context (h : heap) (l : List) (ps : list addr) (es : list (Z * Z)).
Context (Hrep : represents h l ps es).

Context (a : addr) (Hfresh : a ∉ dom h).

Lemma fresh_not_in : a ∉ ps.
Proof.
  intros Hin. apply Hfresh. eapply lseg_dom; [apply Hrep|exact Hin].
Qed.

Lemma fresh_frame e : frame h (<[a := e]> h) ps.
Proof.
  intros p Hp _. apply lookup_insert_ne. by intros ->.
Qed.

Lemma new_lseg e : lseg (<[a := e]> h) ps es None.
Proof. apply lseg_insert; [apply fresh_not_in|apply Hrep]. Qed.

(** The first element of an empty list. *)
Lemma singleton_represents it k :
  ps = [] -> represents (<[a := mkElement it k None]> h) (mkList (Some a) (Some a)) [a] [(k, it)].
Proof.
  intros _. split; simpl; try done; [apply NoDup_singleton|].
  by rewrite lookup_insert_eq.
Qed.

(** Linking the new cell at the end. *)
Lemma link_last it k :
  ps <> [] ->
  exists h', store_next (<[a := mkElement it k None]> h) (last l) (Some a) = Ok h' /\
    represents h' (mkList (first l) (Some a)) (ps ++ [a]) (es ++ [(k, it)]) /\
    frame h h' ps.
Proof.
  intros Hne. destruct (exists_last Hne) as (ps0 & p & E).
  pose proof fresh_not_in as Ha. pose proof (new_lseg (mkElement it k None)) as Hc.
  pose proof (rep_nodup _ _ _ _ Hrep) as Hnd. rewrite (rep_last _ _ _ _ Hrep).
  rewrite (rep_first _ _ _ _ Hrep).
  assert (is_Some ((<[a := mkElement it k None]> h) !! p)) as [e Hp].
  { apply elem_of_dom. eapply lseg_dom; [exact Hc|]. rewrite E. set_solver. }
  rewrite E in *. rewrite last_snoc, (store_next_Ok _ _ _ _ Hp).
  eexists; split; [reflexivity|split].
  - split; simpl; rewrite ?last_snoc; try done.
    + apply NoDup_app. split_and!; [done| |apply NoDup_singleton]. set_solver.
    + apply lseg_snoc; try done. by rewrite lookup_insert_eq.
    + by destruct ps0.
  - intros p' Hp' Hnin. rewrite lookup_insert_ne by set_solver.
    by apply fresh_frame; [|rewrite E].
Qed.

(** Linking the new cell in front. *)
Lemma link_first it k :
  ps <> [] ->
  exists h', store_next (<[a := mkElement it k None]> h) (Some a) (first l) = Ok h' /\
    represents h' (mkList (Some a) (last l)) (a :: ps) ((k, it) :: es) /\ frame h h' ps.
Proof.
  intros Hne. rewrite (store_next_Ok _ _ (mkElement it k None)) by apply lookup_insert_eq.
  rewrite insert_insert_eq. eexists; split; [reflexivity|]. split; [|apply fresh_frame].
  split; simpl; try done.
  - constructor; [apply fresh_not_in|apply Hrep].
  - rewrite lookup_insert_eq, (rep_first _ _ _ _ Hrep). split; [by destruct ps|].
    apply new_lseg.
  - rewrite (rep_last _ _ _ _ Hrep). by destruct ps.
Qed.

End operations.

Section append_prepend.
Context (h : heap) (l : List) (ps : list addr) (es : list (Z * Z)).
Context (Hrep : represents h l ps es).

Lemma Append_refines it :
  exists h' l' ps', Append h l it = Ok (h', l') /\
    represents h' l' ps' (l_append es it) /\ frame h h' ps /\ grows h ps ps'.
Proof.
  unfold Append, new_ListElement. pose proof (is_fresh (dom h)) as Hf.
  generalize dependent (fresh (dom h)). intros a Hf.
  destruct (decide (ps = [])) as [E|E].
  - rewrite E in Hrep. destruct (represents_nil _ _ _ Hrep) as [-> ->].
    eexists _, _, [a]. split; [reflexivity|]. rewrite E.
    split_and!; [by eapply singleton_represents|by eapply fresh_frame|].
    intros x Hx. set_solver.
  - destruct (link_last _ _ _ _ Hrep a Hf it 0 E) as (h' & E' & ? & ?).
    rewrite E'. destruct ps as [|p ps0]; [done|].
    rewrite (represents_cons _ _ _ _ _ Hrep). eexists h', _, _. split; [reflexivity|].
    split_and!; [done|done|]. intros x Hx. set_solver.
Qed.

Lemma Prepend_refines it :
  exists h' l' ps', Prepend h l it = Ok (h', l') /\
    represents h' l' ps' (l_prepend es it) /\ frame h h' ps /\ grows h ps ps'.
Proof.
  unfold Prepend, new_ListElement. pose proof (is_fresh (dom h)) as Hf.
  generalize dependent (fresh (dom h)). intros a Hf.
  destruct (decide (ps = [])) as [E|E].
  - rewrite E in Hrep. destruct (represents_nil _ _ _ Hrep) as [-> ->].
    eexists _, _, [a]. split; [reflexivity|]. rewrite E.
    split_and!; [by eapply singleton_represents|by eapply fresh_frame|].
    intros x Hx. set_solver.
  - destruct (link_first _ _ _ _ Hrep a Hf it 0 E) as (h' & E' & ? & ?).
    rewrite E'. destruct ps as [|p ps0]; [done|].
    rewrite (represents_cons _ _ _ _ _ Hrep). eexists h', _, _. split; [reflexivity|].
    split_and!; [done|done|]. intros x Hx. set_solver.
Qed.
End append_prepend.

(** The search loop of SortedInsert, from a cell whose key is not larger. *)
Lemma insert_loop_refines a it sk ps2 : forall fuel h p k0 it0 es2,
  (length ps2 < fuel)%nat -> NoDup (p :: ps2) -> a ∉ p :: ps2 ->
  lseg h (p :: ps2) ((k0, it0) :: es2) None -> h !! a = Some (mkElement it sk None) ->
  (insert_loop fuel h (Some p) a sk = Ok None /\ l_insert es2 it sk = es2 ++ [(sk, it)]) \/
  (exists h' ps', insert_loop fuel h (Some p) a sk = Ok (Some h') /\
     lseg h' (p :: ps') ((k0, it0) :: l_insert es2 it sk) None /\
     ps' ≡ₚ a :: ps2 /\ list.last (p :: ps') = list.last (p :: ps2) /\
     forall x, x ∉ a :: p :: ps2 -> h' !! x = h !! x).
Proof.
  induction ps2 as [|n ps2 IH]; intros [|fuel] h p k0 it0 es2 Hfuel Hnd Ha Hc Hna;
    simpl in Hfuel; try lia; destruct Hc as [Hp Hc]; cbn [insert_loop];
    rewrite (load_Some _ _ _ Hp), bind_Ok; simpl.
  - left. by destruct es2.
  - destruct es2 as [|[k1 it1] es2]; [done|]. pose proof Hc as Hc'. destruct Hc' as [Hn _].
    apply NoDup_cons in Hnd as [Hp' Hnd].
    cbn [l_insert]. rewrite (load_Some _ _ _ Hn), bind_Ok. simpl. destruct (sk <? k1) eqn:Ek.
    + right. rewrite (store_next_Ok _ _ _ _ Hna), bind_Ok.
      assert (a <> p) as Hap by set_solver.
      rewrite (store_next_Ok _ p (mkElement it0 k0 (Some n))), bind_Ok
        by (by rewrite lookup_insert_ne).
      eexists _, (a :: n :: ps2). split; [reflexivity|]. simpl. split_and!.
      * by rewrite lookup_insert_eq.
      * by rewrite lookup_insert_ne, lookup_insert_eq by done.
      * rewrite !lookup_insert_ne by set_solver. done.
      * apply lseg_insert, lseg_insert; [set_solver|set_solver|apply Hc].
      * done.
      * done.
      * intros x Hx. rewrite !lookup_insert_ne by set_solver. done.
    + destruct (IH fuel h n k1 it1 es2) as [[E1 E2]|(h' & ps' & E1 & Hc' & Hperm & Hlast & Hf)];
        try done; [lia|set_solver| |].
      * left. rewrite E1, E2. done.
      * right. exists h', (n :: ps'). rewrite E1.
        split; [done|split; [|split; [|split; [exact Hlast|]]]].
        -- split; [|exact Hc']. rewrite Hf by set_solver. done.
        -- rewrite Hperm. apply Permutation_swap.
        -- intros x Hx. apply Hf. set_solver.
Qed.

Lemma SortedInsert_refines h l ps es it sk :
  represents h l ps es ->
  exists h' l' ps', SortedInsert h l it sk = Ok (h', l') /\
    represents h' l' ps' (l_insert es it sk) /\ frame h h' ps /\ grows h ps ps'.
Proof.
  intros Hrep. unfold SortedInsert, new_ListElement. pose proof (is_fresh (dom h)) as Hf.
  generalize dependent (fresh (dom h)). intros a Hf.
  destruct (decide (ps = [])) as [E|E].
  { rewrite E in Hrep. destruct (represents_nil _ _ _ Hrep) as [-> ->].
    eexists _, _, [a]. split; [reflexivity|]. rewrite E.
    split_and!; [by eapply singleton_represents|by eapply fresh_frame|].
    intros x Hx. set_solver. }
  destruct (link_last _ _ _ _ Hrep a Hf it sk E) as (hl & El & Hl & Hfl).
  destruct (link_first _ _ _ _ Hrep a Hf it sk E) as (hf & Ef & Hfst & Hff).
  pose proof (new_lseg _ _ _ _ Hrep a Hf (mkElement it sk None)) as Hc.
  pose proof (fresh_not_in _ _ _ _ Hrep a Hf) as Ha.
  pose proof (rep_nodup _ _ _ _ Hrep) as Hnd.
  destruct ps as [|p ps2]; [done|]. rewrite (represents_cons _ _ _ _ _ Hrep).
  pose proof (rep_first _ _ _ _ Hrep) as Hfirst. simpl in Hfirst.
  destruct es as [|[k0 it0] es2]; [by destruct Hc|]. pose proof Hc as [Hp _].
  rewrite Hfirst in *. rewrite (load_Some _ _ _ Hp), bind_Ok. simpl key. cbn [l_insert].
  destruct (sk <? k0) eqn:Ek.
  { rewrite Ef. eexists hf, _, _. split; [reflexivity|]. split_and!; [done|done|].
    intros x Hx. set_solver. }
  destruct (insert_loop_refines a it sk ps2 (size (<[a:=mkElement it sk None]> h))
    (<[a:=mkElement it sk None]> h) p k0 it0 es2) as [[-> E2]|(h' & ps' & -> & Hc' & Hperm & Hlast & Hfr)];
    try done.
  - pose proof (lseg_size _ _ _ _ Hnd Hc) as Hs. simpl in Hs. lia.
  - apply lookup_insert_eq.
  - rewrite bind_Ok, El, E2. eexists hl, _, _. split; [reflexivity|]. split_and!; [done|done|].
    intros x Hx. set_solver.
  - rewrite bind_Ok. eexists h', l, (p :: ps'). split; [reflexivity|]. split_and!.
    + split; try done; [|by rewrite Hlast; apply Hrep].
      apply NoDup_cons in Hnd as [Hp' Hnd]. constructor; rewrite Hperm; [set_solver|].
      constructor; set_solver.
    + intros x Hx Hnin. rewrite Hfr; [|set_solver]. apply lookup_insert_ne. by intros ->.
    + intros x. rewrite elem_of_cons, Hperm. set_solver.
Qed.

(** [SortedRemove] frees the first cell and returns its item and key. *)
Lemma SortedRemove_refines h l ps es :
  represents h l ps es ->
  exists h' l' ps', represents h' l' ps' (l_remove es).2 /\ frame h h' ps /\
    grows h ps ps' /\
    SortedRemove h l = Ok (match (l_remove es).1 with
                           | Some (k, it) => (it, Some k, (h', l'))
                           | None => (0, None, (h', l')) end).
Proof.
  intros Hrep. unfold SortedRemove. rewrite (rep_first _ _ _ _ Hrep).
  destruct ps as [|p ps].
  - destruct (represents_nil _ _ _ Hrep) as [_ ->]. exists h, l, []. split_and!; try done.
    intros x Hx. by left.
  - pose proof (rep_lseg _ _ _ _ Hrep) as Hc. pose proof (rep_nodup _ _ _ _ Hrep) as Hnd.
    pose proof (rep_last _ _ _ _ Hrep) as Hlast. apply NoDup_cons in Hnd as [Hp' Hnd].
    destruct es as [|[k it] es]; [by destruct Hc|]. destruct Hc as [Hp Hc].
    cbn [hd_error]. rewrite (load_Some _ _ _ Hp), bind_Ok. simpl.
    eexists (delete p h), _, ps. split_and!; [|intros x _ Hx; apply lookup_delete_ne; set_solver
      |intros x Hx; set_solver|reflexivity].
    assert (bool_decide (Some p = last l) = bool_decide (ps = [])) as ->.
    { apply bool_decide_ext. rewrite Hlast. destruct ps as [|q ps]; [done|].
      split; [|done]. intros Heq. exfalso. apply Hp'.
      rewrite last_cons_cons in Heq. symmetry in Heq. by apply last_Some_elem_of in Heq. }
    assert (lseg (delete p h) ps es None) as Hc'.
    { apply (lseg_frame h); [|done]. intros x Hx. apply lookup_delete_ne. by intros ->. }
    case_bool_decide as Hnil.
    + subst ps. by split.
    + split; simpl; try done; by destruct ps.
Qed.

Lemma mapcar_loop_spec h ps : forall fuel es q,
  (length ps < fuel)%nat -> q = None -> lseg h ps es q ->
  mapcar_loop fuel h (head_or ps q) = Ok es.*2.
Proof.
  induction ps as [|p ps IH]; intros [|fuel] [|[k it] es] q Hfuel -> Hc;
    simpl in Hfuel; try lia; try done.
  destruct Hc as [Hp Hc]. cbn [mapcar_loop head_or].
  rewrite (load_Some _ _ _ Hp), bind_Ok. simpl next. by rewrite (IH fuel es) by (done || lia).
Qed.

(** [Mapcar] applies the function to every item, in list order. *)
Lemma Mapcar_refines h l ps es : represents h l ps es -> Mapcar h l = Ok es.*2.
Proof.
  intros [Hnd Hc Hf _]. unfold Mapcar. rewrite Hf.
  replace (head ps) with (head_or ps None) by by destruct ps.
  apply mapcar_loop_spec; [|done|done]. pose proof (lseg_size _ _ _ _ Hnd Hc). lia.
Qed.

(** ** Refinement of sequences *)

Inductive op :=
  | OpAppend (it : Z) | OpPrepend (it : Z) | OpRemove
  | OpSortedInsert (it k : Z) | OpSortedRemove | OpIsEmpty | OpMapcar.

(** What a call returns: the item or flag, the key stored through the pointer,
    and the items a function was applied to. *)
Definition result : Type := Z * option Z * list Z.

Definition run_op (s : heap * List) (o : op) : res (result * (heap * List)) :=
  let '(h, l) := s in
  match o with
  | OpAppend it => s ← Append h l it; mret ((0, None, []), s)
  | OpPrepend it => s ← Prepend h l it; mret ((0, None, []), s)
  | OpRemove => '(thing, s) ← Remove h l; mret ((thing, None, []), s)
  | OpSortedInsert it k => s ← SortedInsert h l it k; mret ((0, None, []), s)
  | OpSortedRemove => '(thing, k, s) ← SortedRemove h l; mret ((thing, k, []), s)
  | OpIsEmpty => mret ((Z.b2z (IsEmpty l), None, []), (h, l))
  | OpMapcar => its ← Mapcar h l; mret ((0, None, its), (h, l))
  end.

Definition spec_op (s : list (Z * Z)) (o : op) : res (result * list (Z * Z)) :=
  match o with
  | OpAppend it => mret ((0, None, []), l_append s it)
  | OpPrepend it => mret ((0, None, []), l_prepend s it)
  | OpRemove =>
      mret ((match (l_remove s).1 with Some (_, it) => it | None => 0 end, None, []),
            (l_remove s).2)
  | OpSortedInsert it k => mret ((0, None, []), l_insert s it k)
  | OpSortedRemove =>
      mret (match (l_remove s).1 with
            | Some (k, it) => (it, Some k, []) | None => (0, None, []) end, (l_remove s).2)
  | OpIsEmpty => mret ((Z.b2z (bool_decide (s = [])), None, []), s)
  | OpMapcar => mret ((0, None, s.*2), s)
  end.

(** The list all_represent [es], and every other list [(l', ps', es')] of [others] that
    shares no cell with it is still represented. *)
Definition all_represent (others : list (List * list addr * list (Z * Z)))
    (s : heap * List) (es : list (Z * Z)) : Prop :=
  exists ps, represents s.1 s.2 ps es /\
    forall l' ps' es', (l', ps', es') ∈ others ->
      represents s.1 l' ps' es' /\ forall p, p ∈ ps' -> p ∉ ps.

Lemma all_represent_step others h l ps es h' l' ps' es' :
  represents h l ps es ->
  (forall l' ps' es', (l', ps', es') ∈ others ->
     represents h l' ps' es' /\ forall p, p ∈ ps' -> p ∉ ps) ->
  represents h' l' ps' es' -> frame h h' ps -> grows h ps ps' ->
  all_represent others (h', l') es'.
Proof.
  intros Hrep Hoth Hrep' Hf Hg. exists ps'. split; [done|].
  intros lo po eo Hin. destruct (Hoth _ _ _ Hin) as [Ho Hd]. split.
  - eapply frame_represents; eauto.
  - intros p Hp Hp'. destruct (Hg p Hp') as [H|H]; [by eapply Hd|].
    apply H. eapply lseg_dom; [apply Ho|done].
Qed.

Lemma list_op_refines others s es o :
  all_represent others s es -> simulates (all_represent others) (run_op s o) (spec_op es o).
Proof.
  destruct s as [h l]. intros (ps & Hrep & Hoth). simpl in Hrep, Hoth.
  destruct o as [it|it| |it k| | |]; cbn [run_op spec_op].
  - destruct (Append_refines h l ps es Hrep it) as (h' & l' & ps' & -> & ? & ? & ?).
    eexists; split; [reflexivity|]. by apply (all_represent_step others h l ps es h' l' ps').
  - destruct (Prepend_refines h l ps es Hrep it) as (h' & l' & ps' & -> & ? & ? & ?).
    eexists; split; [reflexivity|]. by apply (all_represent_step others h l ps es h' l' ps').
  - unfold Remove.
    destruct (SortedRemove_refines h l ps es Hrep) as (h' & l' & ps' & ? & ? & ? & ->).
    destruct (l_remove es).1 as [[k it]|]; (eexists; split; [reflexivity|]);
      by apply (all_represent_step others h l ps es h' l' ps').
  - destruct (SortedInsert_refines h l ps es it k Hrep) as (h' & l' & ps' & -> & ? & ? & ?).
    eexists; split; [reflexivity|]. by apply (all_represent_step others h l ps es h' l' ps').
  - destruct (SortedRemove_refines h l ps es Hrep) as (h' & l' & ps' & ? & ? & ? & ->).
    destruct (l_remove es).1 as [[k it]|]; (eexists; split; [reflexivity|]);
      by apply (all_represent_step others h l ps es h' l' ps').
  - exists es. split; [|by exists ps]. repeat f_equal. destruct ps as [|p ps].
    + destruct (represents_nil _ _ _ Hrep) as [-> ->]. done.
    + rewrite (represents_cons _ _ _ _ _ Hrep).
      destruct es; [by destruct (rep_lseg _ _ _ _ Hrep)|done].
  - rewrite (Mapcar_refines _ _ _ _ Hrep). exists es. split; [done|]. by exists ps.
Qed.

(** C29: the linked list of cells implements a sequence of (key, item) pairs:
    any sequence of Append, Prepend, Remove, SortedInsert, SortedRemove,
    IsEmpty and Mapcar calls returns what the sequence operations return, never
    dereferences a null or freed cell, and leaves every other list of the heap
    that shares no cell with it unchanged. *)
Theorem List_refines_sequence others s es os :
  all_represent others s es ->
  exists rs s', run_ops run_op s os = Ok (rs, s') /\
    exists es', run_ops spec_op es os = Ok (rs, es') /\ all_represent others s' es'.
Proof.
  intros Hs.
  pose proof (run_ops_refines (all_represent others) run_op spec_op os
    (fun s1 s2 o => list_op_refines others s1 s2 o) s es Hs) as H.
  assert (forall es, exists r, run_ops spec_op es os = Ok r) as Htot.
  { clear. induction os as [|o os IH]; intros es0; simpl; [eauto|].
    assert (exists r es1, spec_op es0 o = Ok (r, es1)) as (r & es1 & ->)
      by (destruct o; eexists _, _; reflexivity).
    rewrite bind_Ok. destruct (IH es1) as [[rs es2] ->]. eauto. }
  destruct (run_ops run_op s os) as [[rs s']|e]; [eauto|].
  destruct (Htot es) as [r E]. congruence.
Qed.

Lemma List_refines_sequence_witness :
  exists s', run_ops run_op (∅, new_List)
    [OpSortedInsert 7 30; OpSortedInsert 8 10; OpSortedInsert 9 30; OpSortedRemove; OpMapcar]
    = Ok ([(0, None, []); (0, None, []); (0, None, []); (8, Some 10, []);
           (0, None, [7; 9])], s').
Proof.
  assert (all_represent [] (∅, new_List) []) as H0.
  { exists []. split; [apply new_List_represents|]. intros l' ps' es' Hin.
    by apply elem_of_nil in Hin. }
  destruct (List_refines_sequence [] (∅, new_List) []
    [OpSortedInsert 7 30; OpSortedInsert 8 10; OpSortedInsert 9 30; OpSortedRemove; OpMapcar]
    H0) as (rs & s' & E & es' & E' & _).
  exists s'. rewrite E. vm_compute in E'. injection E' as <- _. reflexivity.
Defined.

(** The destructor frees every cell of a list without NULL items; it stops at
    the first NULL item, because [Remove] returns the item. *)
Lemma delete_List_frees h l ps es :
  represents h l ps es -> Forall (fun e => e.2 <> 0) es ->
  exists h' l', delete_List h l = Ok (h', l') /\ represents h' l' [] [] /\ frame h h' ps.
Proof.
  intros Hrep HF. unfold delete_List.
  pose proof (lseg_size _ _ _ _ (rep_nodup _ _ _ _ Hrep) (rep_lseg _ _ _ _ Hrep)) as Hs.
  pose proof (lseg_length _ _ _ _ (rep_lseg _ _ _ _ Hrep)) as Hlen.
  assert (length es < S (size h))%nat as Hfuel by lia. clear Hs Hlen.
  generalize dependent (S (size h)). intros fuel.
  revert h l ps es Hrep HF. induction fuel as [|fuel IH]; intros h l ps es Hrep HF Hfuel; [lia|].
  simpl. unfold Remove.
  destruct (SortedRemove_refines h l ps es Hrep) as (h1 & l1 & ps1 & Hrep1 & Hf1 & Hg1 & ->).
  destruct es as [|[k it] es]; simpl in *.
  - exists h1, l1. split; [done|]. split; [|done].
    destruct ps1; [done|]. by destruct (rep_lseg _ _ _ _ Hrep1).
  - apply Forall_cons in HF as [Hit HF]. simpl in Hit.
    destruct (Z.eqb_spec it 0) as [|_]; [done|].
    destruct (IH h1 l1 ps1 es Hrep1 HF) as (h' & l' & -> & Hr & Hf); [lia|].
    exists h', l'. split_and!; try done. intros p Hp Hnin.
    rewrite <- (Hf1 p Hp Hnin). apply Hf.
    + apply elem_of_dom. rewrite (Hf1 p Hp Hnin). by apply elem_of_dom.
    + intros Hp1. by destruct (Hg1 p Hp1).
Qed.
