(* ===== verification/Machine.v ===== *)
(** * Machine: machine/machine.h, machine/machine.cc, machine/translate.h,
    machine/translate.cc and Machine::DelayedLoad of machine/mipssim.cc

    The simulated workstation: the CPU registers, the physical memory and the
    address translation (linear page table or TLB).  The kernel that handles
    the exceptions is reached through the interface [Kernel]. *)

From S2P Require Import Prelude.

(** ** Constants of disk.h and machine.h *)

Definition SectorSize : Z := 128.
Definition PageSize : Z := SectorSize.
Definition NumPhysPages : Z := 32.
Definition MemorySize : Z := NumPhysPages * PageSize.
Definition TLBSize : Z := 4.

Inductive ExceptionType :=
  | NoException | SyscallException | PageFaultException | ReadOnlyException
  | BusErrorException | AddressErrorException | OverflowException
  | IllegalInstrException.

#[export] Instance ExceptionType_eq_dec : EqDecision ExceptionType.
Proof. solve_decision. Defined.

Definition StackReg : Z := 29.
Definition RetAddrReg : Z := 31.
Definition NumGPRegs : Z := 32.
Definition HiReg : Z := 32.
Definition LoReg : Z := 33.
Definition PCReg : Z := 34.
Definition NextPCReg : Z := 35.
Definition PrevPCReg : Z := 36.
Definition LoadReg : Z := 37.
Definition LoadValueReg : Z := 38.
Definition BadVAddrReg : Z := 39.
Definition NumTotalRegs : Z := 40.

Record TranslationEntry := mkEntry {
  virtualPage : Z;
  physicalPage : Z;
  valid : bool;
  readOnly : bool;
  use : bool;
  dirty : bool
}.

Record Machine := mkMachine {
  mainMemory : list Z;                          (* MemorySize bytes *)
  registers : list Z;                           (* NumTotalRegs ints *)
  tlb : option (list TranslationEntry);         (* None is NULL *)
  pageTable : option (list TranslationEntry);   (* None is NULL *)
  pageTableSize : Z;
  singleStep : bool;
  runUntilTime : Z
}.

Definition set_mainMemory (m : Machine) (x : list Z) : Machine :=
  mkMachine x (registers m) (tlb m) (pageTable m) (pageTableSize m)
    (singleStep m) (runUntilTime m).
Definition set_registers (m : Machine) (x : list Z) : Machine :=
  mkMachine (mainMemory m) x (tlb m) (pageTable m) (pageTableSize m)
    (singleStep m) (runUntilTime m).
Definition set_tlb (m : Machine) (x : option (list TranslationEntry)) : Machine :=
  mkMachine (mainMemory m) (registers m) x (pageTable m) (pageTableSize m)
    (singleStep m) (runUntilTime m).
Definition set_pageTable (m : Machine) (x : option (list TranslationEntry)) : Machine :=
  mkMachine (mainMemory m) (registers m) (tlb m) x (pageTableSize m)
    (singleStep m) (runUntilTime m).

(** [Machine::Machine(debug)], compiled without USE_TLB; [pageTableSize] and
    [runUntilTime] are not initialised and keep what the allocation held. *)
Definition new_Machine (pts rut : Z) (debug : bool) : Machine :=
  mkMachine (replicate (Z.to_nat MemorySize) 0) (replicate (Z.to_nat NumTotalRegs) 0)
    None None pts debug rut.

(** The union of CheckEndian, on the little-endian host. *)
Definition CheckEndian : res unit := ASSERT (le_value [1; 2; 3; 4] =? 0x04030201).

Definition ReadRegister (m : Machine) (num : Z) : res Z :=
  _ ← ASSERT ((num >=? 0) && (num <? NumTotalRegs));
  (registers m).[num].

Definition WriteRegister (m : Machine) (num value : Z) : res Machine :=
  _ ← ASSERT ((num >=? 0) && (num <? NumTotalRegs));
  r ← (registers m).[num := value];
  mret (set_registers m r).

(** An access to [registers] without the check, as the simulator does it. *)
Definition reg (m : Machine) (num : Z) : res Z := (registers m).[num].
Definition set_reg (m : Machine) (num value : Z) : res Machine :=
  r ← (registers m).[num := value]; mret (set_registers m r).

Definition DelayedLoad (m : Machine) (nextReg nextValue : Z) : res Machine :=
  lr ← reg m LoadReg;
  lv ← reg m LoadValueReg;
  m ← set_reg m lr lv;
  m ← set_reg m LoadReg nextReg;
  m ← set_reg m LoadValueReg nextValue;
  set_reg m 0 0.

(** The register values DumpState prints, in order. *)
Definition DumpState (m : Machine) : res (list Z) :=
  mapM (reg m) (seqZ 0 NumGPRegs ++
    [HiReg; LoReg; PCReg; NextPCReg; PrevPCReg; LoadReg; LoadValueReg]).

(** The debugger on one line of input: [num] is what sscanf found, [c] the first
    character. *)
Definition Debugger (m : Machine) (num : option Z) (c : Z) : Machine :=
  match num with
  | Some n =>
      mkMachine (mainMemory m) (registers m) (tlb m) (pageTable m) (pageTableSize m)
        (singleStep m) n
  | None =>
      mkMachine (mainMemory m) (registers m) (tlb m) (pageTable m) (pageTableSize m)
        (if c =? 99 then false else singleStep m) 0
  end.

(** ** Translation *)

(** Word and short conversions: no-ops on a little-endian host. *)
Definition WordToHost (word : Z) : Z := word.
Definition ShortToHost (shortword : Z) : Z := shortword.
Definition WordToMachine (word : Z) : Z := WordToHost word.
Definition ShortToMachine (shortword : Z) : Z := ShortToHost shortword.

Definition is_null {A} (p : option A) : bool := match p with None => true | _ => false end.

(** [((size == 4) && (virtAddr & 0x3)) || ((size == 2) && (virtAddr & 0x1))] *)
Definition misaligned (virtAddr size : Z) : bool :=
  ((size =? 4) && negb (Z.land virtAddr 3 =? 0))
  || ((size =? 2) && negb (Z.land virtAddr 1 =? 0)).

(** The TLB search [for (i = 0; i < TLBSize; i++)]: the index found. *)
Fixpoint tlb_search (n : nat) (i : Z) (t : list TranslationEntry) (vpn : Z)
    : res (option Z) :=
  match n with
  | O => mret None
  | S n =>
      e ← t.[i];
      if valid e && (u32 (virtualPage e) =? vpn) then mret (Some i)
      else tlb_search n (i + 1) t vpn
  end.

(** The entry translating [vpn], with its index, or the exception. *)
Definition find_entry (m : Machine) (vpn : Z)
    : res (ExceptionType + Z * TranslationEntry) :=
  match tlb m, pageTable m with
  | None, Some pt =>
      if vpn >=? pageTableSize m then mret (inl AddressErrorException)
      else
        e ← pt.[vpn];
        if negb (valid e) then mret (inl PageFaultException) else mret (inr (vpn, e))
  | Some t, _ =>
      r ← tlb_search (Z.to_nat TLBSize) 0 t vpn;
      match r with
      | None => mret (inl PageFaultException)
      | Some i => e ← t.[i]; mret (inr (i, e))
      end
  | None, None => Err NullDeref
  end.

(** [*entry = e] in the table in use. *)
Definition set_entry (m : Machine) (i : Z) (e : TranslationEntry) : res Machine :=
  match tlb m, pageTable m with
  | Some t, _ => t ← t.[i := e]; mret (set_tlb m (Some t))
  | None, Some pt => pt ← pt.[i := e]; mret (set_pageTable m (Some pt))
  | None, None => Err NullDeref
  end.

(** The use and dirty bits set by a successful translation. *)
Definition touch (e : TranslationEntry) (writing : bool) : TranslationEntry :=
  mkEntry (virtualPage e) (physicalPage e) (valid e) (readOnly e) true
    (if writing then true else dirty e).

(** The exception, and [*physAddr] when it is [NoException]. *)
Definition Translate (m : Machine) (virtAddr size : Z) (writing : bool)
    : res (ExceptionType * Z * Machine) :=
  if misaligned virtAddr size then mret (AddressErrorException, 0, m)
  else
    _ ← ASSERT (is_null (tlb m) || is_null (pageTable m));
    _ ← ASSERT (negb (is_null (tlb m)) || negb (is_null (pageTable m)));
    let vpn := Z.div (u32 virtAddr) PageSize in
    let offset := Z.modulo (u32 virtAddr) PageSize in
    r ← find_entry m vpn;
    match r with
    | inl ex => mret (ex, 0, m)
    | inr (i, entry) =>
        if readOnly entry && writing then mret (ReadOnlyException, 0, m)
        else
          let pageFrame := u32 (physicalPage entry) in
          if pageFrame >=? NumPhysPages then mret (BusErrorException, 0, m)
          else
            m ← set_entry m i (touch entry writing);
            let physAddr := s32 (pageFrame * PageSize + offset) in
            _ ← ASSERT ((physAddr >=? 0) && (physAddr + size <=? MemorySize));
            mret (NoException, physAddr, m)
    end.

(** ** Exceptions and memory accesses *)

Inductive MachineStatus := IdleMode | SystemMode | UserMode.

(** What the machine needs of the kernel: [interrupt->setStatus], and
    [ExceptionHandler], which may change the machine and the kernel. *)
Class Kernel (K : Type) := {
  setStatus : MachineStatus -> K -> K;
  ExceptionHandler : ExceptionType -> Machine -> K -> res (Machine * K)
}.

Section memory.
Context {K : Type} `{Kernel K}.

Definition RaiseException (which : ExceptionType) (badVAddr : Z) (m : Machine) (k : K)
    : res (Machine * K) :=
  m ← set_reg m BadVAddrReg badVAddr;
  m ← DelayedLoad m 0 0;
  '(m, k) ← ExceptionHandler which m (setStatus SystemMode k);
  mret (m, setStatus UserMode k).

(** [None] when the routine returned FALSE, after raising the exception. *)
Definition ReadMem (addr size : Z) (m : Machine) (k : K)
    : res (option Z * (Machine * K)) :=
  '(exception, physicalAddress, m) ← Translate m addr size false;
  if decide (exception = NoException) then
    if size =? 1 then
      b ← (mainMemory m).[physicalAddress];
      mret (Some (s8 b), (m, k))
    else if size =? 2 then
      bs ← zread (mainMemory m) physicalAddress 2;
      mret (Some (ShortToHost (u16 (le_value bs))), (m, k))
    else if size =? 4 then
      bs ← zread (mainMemory m) physicalAddress 4;
      mret (Some (s32 (WordToHost (le_value bs))), (m, k))
    else Err AssertFailed
  else
    s ← RaiseException exception addr m k;
    mret (None, s).

(** [false] when the routine returned FALSE. *)
Definition WriteMem (addr size value : Z) (m : Machine) (k : K)
    : res (bool * (Machine * K)) :=
  '(exception, physicalAddress, m) ← Translate m addr size true;
  if decide (exception = NoException) then
    if size =? 1 then
      mem ← (mainMemory m).[physicalAddress := Z.land value 255];
      mret (true, (set_mainMemory m mem, k))
    else if size =? 2 then
      mem ← zwrite (mainMemory m) physicalAddress
              (le_bytes 2 (ShortToMachine (u16 (Z.land value 65535))));
      mret (true, (set_mainMemory m mem, k))
    else if size =? 4 then
      mem ← zwrite (mainMemory m) physicalAddress
              (le_bytes 4 (WordToMachine (u32 value)));
      mret (true, (set_mainMemory m mem, k))
    else Err AssertFailed
  else
    s ← RaiseException exception addr m k;
    mret (false, s).
End memory.

(** ** Well-formed machines *)

Definition wf_entry (e : TranslationEntry) : Prop :=
  is_s32 (virtualPage e) /\ is_s32 (physicalPage e).

(** Exactly one of the page table and the TLB is installed, and it is as long
    as the machine believes. *)
Definition wf_tables (m : Machine) : Prop :=
  match tlb m, pageTable m with
  | None, Some pt => Forall wf_entry pt /\ 0 <= pageTableSize m <= zlen pt
  | Some t, None => Forall wf_entry t /\ TLBSize <= zlen t
  | _, _ => False
  end.

(** The physical memory and the registers; a delayed load always targets a
    general register. *)
Record wf_core (m : Machine) : Prop := {
  wf_memory : zlen (mainMemory m) = MemorySize;
  wf_bytes : Forall is_u8 (mainMemory m);
  wf_regs : zlen (registers m) = NumTotalRegs;
  wf_ints : Forall is_s32 (registers m);
  wf_load : exists lr, reg m LoadReg = Ok lr /\ 0 <= lr < NumGPRegs
}.

(** In the course of an instruction, and between instructions. *)
Definition wf_machine (m : Machine) : Prop := wf_core m /\ wf_tables m.
Definition wf_cpu (m : Machine) : Prop := wf_machine m /\ reg m 0 = Ok 0.

Lemma new_Machine_wf pts rut debug : wf_core (new_Machine pts rut debug).
Proof.
  split; try reflexivity.
  - apply Forall_replicate. word_lia.
  - apply Forall_replicate. word_lia.
  - exists 0. split; [reflexivity|unfold NumGPRegs; lia].
Qed.

(** ** Registers *)

Lemma reg_get m i : wf_core m -> 0 <= i < NumTotalRegs -> exists v, reg m i = Ok v /\ is_s32 v.
Proof.
  intros H Hi. unfold reg. rewrite <- (wf_regs _ H) in Hi.
  destruct (zget_in_range _ _ Hi) as [v Hv]. exists v. split; [done|].
  apply zget_Ok in Hv. exact (Forall_znth _ _ _ _ (wf_ints _ H) Hv).
Qed.

Lemma set_reg_get m i v m' j :
  set_reg m i v = Ok m' -> reg m' j = if j =? i then Ok v else reg m j.
Proof.
  unfold set_reg, reg. intros H. inv_res. apply zset_inv in E as [Hi ->].
  destruct (Z.eqb_spec j i) as [->|Hne]; simpl.
  - apply zget_Ok. by apply znth_insert_eq.
  - unfold zget. by rewrite znth_insert_ne by lia.
Qed.

Lemma set_reg_frame m i v m' :
  set_reg m i v = Ok m' -> mainMemory m' = mainMemory m /\ tlb m' = tlb m /\
    pageTable m' = pageTable m /\ pageTableSize m' = pageTableSize m /\
    zlen (registers m') = zlen (registers m).
Proof.
  unfold set_reg. intros H. inv_res. split_and!; try done. by eapply zlen_zset.
Qed.

(** Writing a register keeps the machine well-formed, as long as LoadReg names
    a general register. *)
Lemma set_reg_wf m i v :
  wf_machine m -> 0 <= i < NumTotalRegs -> is_s32 v ->
  (i = LoadReg -> 0 <= v < NumGPRegs) ->
  exists m', set_reg m i v = Ok m' /\ wf_machine m'.
Proof.
  intros [Hc Ht] Hi Hv Hl. unfold set_reg.
  pose proof (wf_regs _ Hc) as Hlen.
  rewrite zset_Ok, bind_Ok by lia. eexists; split; [reflexivity|]. split; [|exact Ht].
  split; simpl; try apply Hc.
  - rewrite zlen_insert. apply Hc.
  - apply Forall_insert; [apply Hc|done].
  - destruct (wf_load _ Hc) as (lr & Elr & Hlr). unfold reg in *. simpl.
    destruct (decide (i = LoadReg)) as [->|Hne].
    + exists v. split; [|auto]. apply zget_Ok, znth_insert_eq. by rewrite Hlen.
    + exists lr. split; [|done]. unfold zget in *. by rewrite znth_insert_ne by lia.
Qed.

(** The machine [m'] differs from [m] only in use and dirty bits. *)
Definition same_entry (e e' : TranslationEntry) : Prop :=
  virtualPage e = virtualPage e' /\ physicalPage e = physicalPage e' /\
  valid e = valid e' /\ readOnly e = readOnly e'.

Definition same_table (t t' : option (list TranslationEntry)) : Prop :=
  match t, t' with
  | None, None => True
  | Some l, Some l' => Forall2 same_entry l l'
  | _, _ => False
  end.

Record same_mapping (m m' : Machine) : Prop := {
  same_mem : mainMemory m' = mainMemory m;
  same_regs : registers m' = registers m;
  same_size : pageTableSize m' = pageTableSize m;
  same_tlb : same_table (tlb m) (tlb m');
  same_pt : same_table (pageTable m) (pageTable m');
  same_step : singleStep m' = singleStep m /\ runUntilTime m' = runUntilTime m
}.

#[export] Instance same_entry_refl : Reflexive same_entry.
Proof. intros e. by repeat split. Qed.

#[export] Instance same_table_refl : Reflexive same_table.
Proof. intros [l|]; simpl; [|done]. apply Forall2_same_length_lookup_2; [done|].
  intros i x y Hx Hy. simplify_eq. reflexivity.
Qed.

#[export] Instance same_mapping_refl : Reflexive same_mapping.
Proof. intros m. by split. Qed.

Lemma same_entry_touch e w : same_entry e (touch e w).
Proof. by repeat split. Qed.

Lemma same_table_insert (l : list TranslationEntry) i e w :
  znth l i = Some e -> Forall2 same_entry l (<[Z.to_nat i := touch e w]> l).
Proof.
  intros Hi. apply Forall2_same_length_lookup_2; [by rewrite length_insert|].
  intros j x y Hx Hy. pose proof (znth_Some_range _ _ _ Hi).
  destruct (decide (j = Z.to_nat i)) as [->|Hne].
  - rewrite list_lookup_insert_eq in Hy by (unfold zlen in *; lia).
    rewrite znth_lookup in Hi by lia. simplify_eq. apply same_entry_touch.
  - rewrite list_lookup_insert_ne in Hy by done. simplify_eq. reflexivity.
Qed.

(** ** The mapping and its exceptions *)

(** Entry [e] at index [i] of the installed table is the one used for [vpn]. *)
Definition maps (m : Machine) (vpn i : Z) (e : TranslationEntry) : Prop :=
  valid e = true /\
  match tlb m, pageTable m with
  | None, Some pt => i = vpn /\ vpn < pageTableSize m /\ znth pt vpn = Some e
  | Some t, _ => 0 <= i < TLBSize /\ znth t i = Some e /\ u32 (virtualPage e) = vpn /\
      forall j e', 0 <= j < i -> znth t j = Some e' ->
        valid e' && (u32 (virtualPage e') =? vpn) = false
  | None, None => False
  end.

(** No entry of the installed table translates [vpn]. *)
Definition unmapped (m : Machine) (vpn : Z) : Prop :=
  match tlb m, pageTable m with
  | None, Some pt => exists e, znth pt vpn = Some e /\ valid e = false
  | Some t, _ => forall j e', 0 <= j < TLBSize -> znth t j = Some e' ->
        valid e' && (u32 (virtualPage e') =? vpn) = false
  | None, None => False
  end.

Lemma tlb_search_spec t vpn : forall n i,
  0 <= i -> i + Z.of_nat n <= zlen t ->
  (exists r e, tlb_search n i t vpn = Ok (Some r) /\ i <= r < i + Z.of_nat n /\
     znth t r = Some e /\ valid e && (u32 (virtualPage e) =? vpn) = true /\
     forall j e', i <= j < r -> znth t j = Some e' ->
       valid e' && (u32 (virtualPage e') =? vpn) = false) \/
  (tlb_search n i t vpn = Ok None /\
   forall j e', i <= j < i + Z.of_nat n -> znth t j = Some e' ->
       valid e' && (u32 (virtualPage e') =? vpn) = false).
Proof.
  induction n as [|n IH]; intros i Hi Hn; simpl tlb_search.
  - right. split; [done|]. intros; lia.
  - destruct (zget_in_range t i ltac:(lia)) as [e He]. rewrite He, bind_Ok.
    apply zget_Ok in He. destruct (valid e && (u32 (virtualPage e) =? vpn)) eqn:E.
    + left. exists i, e. split_and!; done || lia || (intros; lia).
    + assert (forall j e', i <= j < i + 1 -> znth t j = Some e' ->
        valid e' && (u32 (virtualPage e') =? vpn) = false) as Hcur.
      { intros j e' Hj. replace j with i by lia. intros ?. by simplify_eq. }
      destruct (IH (i + 1)) as [(r & e' & -> & Hr & He' & Hm & Hlow)|[-> Hlow]]; try lia.
      * left. exists r, e'. split_and!; try done; try lia. intros j e'' Hj.
        destruct (decide (j < i + 1)); [apply Hcur|apply Hlow]; lia.
      * right. split; [done|]. intros j e' Hj.
        destruct (decide (j < i + 1)); [apply Hcur|apply Hlow]; lia.
Qed.

(** [find_entry] finds the mapping, or tells why there is none. *)
Lemma find_entry_spec m vpn :
  wf_tables m -> 0 <= vpn ->
  (exists i e, find_entry m vpn = Ok (inr (i, e)) /\ maps m vpn i e /\ wf_entry e) \/
  (find_entry m vpn = Ok (inl PageFaultException) /\ unmapped m vpn /\ ~ (tlb m = None /\ pageTableSize m <= vpn)) \/
  (find_entry m vpn = Ok (inl AddressErrorException) /\ tlb m = None /\ pageTableSize m <= vpn).
Proof.
  unfold wf_tables, find_entry, maps, unmapped. intros Hwf Hvpn.
  destruct (tlb m) as [t|] eqn:Et, (pageTable m) as [pt|] eqn:Ep; try done; destruct Hwf as [HF Hlen].
  - destruct (tlb_search_spec t vpn (Z.to_nat TLBSize) 0) as
      [(r & e & -> & Hr & He & Hm & Hlow)|[-> Hlow]];
      [done|by change (0 + Z.of_nat (Z.to_nat TLBSize)) with TLBSize| |].
    + left. rewrite bind_Ok. exists r, e. rewrite (proj2 (zget_Ok _ _ _) He), bind_Ok.
      apply andb_true_iff in Hm as [Hv Hm]. apply Z.eqb_eq in Hm.
      split_and!; try done; try lia. exact (Forall_znth _ _ _ _ HF He).
    + right. left. split; [done|]. split; [exact Hlow|]. by intros [? _].
  - rewrite Z.geb_leb. destruct (Z.leb_spec (pageTableSize m) vpn); [by auto|].
    destruct (zget_in_range pt vpn ltac:(lia)) as [e He]. rewrite He, bind_Ok.
    apply zget_Ok in He. destruct (valid e) eqn:Ev; simpl.
    + left. exists vpn, e. split_and!; try done. exact (Forall_znth _ _ _ _ HF He).
    + right. left. split; [done|]. split; [eauto|]. intros [_ ?]. lia.
Qed.

(** Setting the use and dirty bits of the entry found. *)
Lemma set_entry_touch m vpn i e w :
  maps m vpn i e -> exists m', set_entry m i (touch e w) = Ok m' /\ same_mapping m m' /\
    maps m' vpn i (touch e w) /\ (wf_tables m -> wf_tables m').
Proof.
  unfold maps, set_entry, wf_tables. intros [Hv Hm].
  destruct (tlb m) as [t|] eqn:Et.
  - destruct Hm as (Hi & He & Hvp & Hlow). pose proof (znth_Some_range _ _ _ He) as Hr.
    rewrite zset_Ok, bind_Ok by done. eexists; split; [reflexivity|].
    split; [|split].
    + split; simpl; rewrite ?Et; try done; by apply same_table_insert.
    + simpl. split; [done|]. split_and!; try done; try lia.
      * by apply znth_insert_eq.
      * intros j e' Hj. rewrite znth_insert_ne by lia. by apply Hlow.
    + simpl. destruct (pageTable m); [done|]. intros [HF Hlen]. rewrite zlen_insert.
      split; [|done]. apply Forall_insert; [done|]. exact (Forall_znth _ _ _ _ HF He).
  - destruct (pageTable m) as [pt|] eqn:Ep; [|done]. destruct Hm as (-> & Hlt & He).
    pose proof (znth_Some_range _ _ _ He) as Hr.
    rewrite zset_Ok, bind_Ok by done. eexists; split; [reflexivity|].
    split; [|split].
    + split; simpl; rewrite ?Et, ?Ep; try done. by apply same_table_insert.
    + simpl. rewrite Et. split_and!; try done. by apply znth_insert_eq.
    + simpl. rewrite Et. intros [HF Hlen]. rewrite zlen_insert.
      split; [|done]. apply Forall_insert; [done|]. exact (Forall_znth _ _ _ _ HF He).
Qed.

(** The mapping is a function. *)
Lemma maps_find m vpn i e : maps m vpn i e -> wf_tables m -> 0 <= vpn ->
  find_entry m vpn = Ok (inr (i, e)).
Proof.
  intros Hm Hwf Hvpn.
  destruct (find_entry_spec m vpn Hwf Hvpn) as
    [(i' & e' & E & Hm' & _)|[(E & Hu & _)|(E & Ht & Hlt)]]; rewrite E.
  - unfold maps in *. destruct Hm as [Hv Hm], Hm' as [Hv' Hm'].
    destruct (tlb m) as [t|], (pageTable m) as [pt|]; try done.
    1-2: destruct Hm as (Hi & He & Hvp & Hlow), Hm' as (Hi' & He' & Hvp' & Hlow');
      destruct (Z.lt_trichotomy i i') as [Hlt|[->|Hlt]]; [|by simplify_eq|];
      [specialize (Hlow' i e ltac:(lia) He); by rewrite Hv, Hvp, Z.eqb_refl in Hlow'
      |specialize (Hlow i' e' ltac:(lia) He'); by rewrite Hv', Hvp', Z.eqb_refl in Hlow].
    destruct Hm as (-> & _ & He), Hm' as (-> & _ & He'). by simplify_eq.
  - exfalso. unfold maps, unmapped in *. destruct Hm as [Hv Hm].
    destruct (tlb m) as [t|].
    + destruct Hm as (Hi & He & Hvp & _). specialize (Hu i e Hi He).
      by rewrite Hv, Hvp, Z.eqb_refl in Hu.
    + destruct (pageTable m) as [pt|]; [|done]. destruct Hu as (e' & He' & Hv').
      destruct Hm as (_ & _ & He). simplify_eq. congruence.
  - exfalso. unfold maps in Hm. rewrite Ht in Hm. destruct Hm as [_ Hm].
    destruct (pageTable m); [|done]. lia.
Qed.

(** ** Translate *)

Definition access_size (size : Z) : Prop := size = 1 \/ size = 2 \/ size = 4.

Lemma aligned_end size va :
  access_size size -> misaligned va size = false ->
  (u32 va) mod PageSize + size <= PageSize.
Proof.
  unfold misaligned, PageSize, SectorSize. intros Hs Ha.
  apply orb_false_iff in Ha as [H4 H2].
  assert (forall k, 0 <= k -> Z.land va (Z.ones k) = va mod 2 ^ k) as Hl by apply Z.land_ones.
  destruct Hs as [->|[->| ->]]; simpl in H4, H2.
  - unfold u32. change (2^32) with 4294967296. Z.div_mod_to_equations; lia.
  - apply negb_false_iff, Z.eqb_eq in H2. change 1 with (Z.ones 1) in H2.
    rewrite Hl in H2 by lia. change (2 ^ 1) with 2 in H2. word_lia.
  - apply negb_false_iff, Z.eqb_eq in H4. change 3 with (Z.ones 2) in H4.
    rewrite Hl in H4 by lia. change (2 ^ 2) with 4 in H4. word_lia.
Qed.

(** The physical address of offset [va mod PageSize] of a frame. *)
Definition phys (e : TranslationEntry) (va : Z) : Z :=
  physicalPage e * PageSize + u32 va mod PageSize.

Definition vpn_of (va : Z) : Z := u32 va / PageSize.

Lemma vpn_nonneg va : 0 <= vpn_of va.
Proof.
  unfold vpn_of, PageSize, SectorSize. apply Z.div_pos; [apply u32_range|lia].
Qed.

Lemma pageFrame_ok e :
  wf_entry e -> (u32 (physicalPage e) >=? NumPhysPages) = false ->
  0 <= physicalPage e < NumPhysPages /\ u32 (physicalPage e) = physicalPage e.
Proof. unfold wf_entry, NumPhysPages. rewrite Z.geb_leb, Z.leb_gt. word_lia. Qed.

(** The decisions of Translate for a given mapping. *)
Lemma Translate_mapped m va size w i e :
  wf_tables m -> access_size size -> misaligned va size = false ->
  maps m (vpn_of va) i e -> wf_entry e ->
  Translate m va size w =
    if readOnly e && w then Ok (ReadOnlyException, 0, m)
    else if negb ((0 <=? physicalPage e) && (physicalPage e <? NumPhysPages))
         then Ok (BusErrorException, 0, m)
         else m' ← set_entry m i (touch e w); Ok (NoException, phys e va, m').
Proof.
  intros Hwf Hs Ha Hm He. unfold Translate. rewrite Ha.
  assert (is_null (tlb m) || is_null (pageTable m) = true /\
          negb (is_null (tlb m)) || negb (is_null (pageTable m)) = true) as [-> ->].
  { unfold wf_tables in Hwf. by destruct (tlb m), (pageTable m). }
  simpl ASSERT. rewrite !bind_Ok. fold (vpn_of va).
  rewrite (maps_find _ _ _ _ Hm Hwf (vpn_nonneg va)), bind_Ok.
  destruct (readOnly e && w); [done|].
  destruct (u32 (physicalPage e) >=? NumPhysPages) eqn:Ef.
  - assert (~ 0 <= physicalPage e < NumPhysPages) as Hn.
    { unfold NumPhysPages in *. rewrite Z.geb_leb, Z.leb_le in Ef. word_lia. }
    destruct (Z.leb_spec 0 (physicalPage e)), (Z.ltb_spec (physicalPage e) NumPhysPages);
      simpl; done || lia.
  - destruct (pageFrame_ok e He Ef) as [Hp ->].
    destruct (Z.leb_spec 0 (physicalPage e)), (Z.ltb_spec (physicalPage e) NumPhysPages);
      simpl; try lia.
    destruct (set_entry_touch m _ i e w Hm) as (m' & -> & _). rewrite !bind_Ok.
    fold (phys e va). pose proof (aligned_end size va Hs Ha) as Hend.
    assert (0 <= phys e va /\ phys e va + size <= MemorySize /\ is_s32 (phys e va)) as (H1 & H2 & H3).
    { unfold phys, MemorySize, NumPhysPages, PageSize, SectorSize, is_s32 in *.
      pose proof (Z.mod_pos_bound (u32 va) 128 ltac:(lia)). lia || (change (2^31) with 2147483648; lia). }
    rewrite (s32_id _ H3), ASSERT_true; [done|].
    rewrite Z.geb_leb. apply andb_true_iff; split; apply Z.leb_le; done.
Qed.

Lemma Translate_cases m va size w :
  wf_tables m -> access_size size ->
  exists ex pa m', Translate m va size w = Ok (ex, pa, m') /\ same_mapping m m' /\
    match ex with
    | NoException => misaligned va size = false /\ 0 <= pa /\ pa + size <= MemorySize /\
        exists i e, maps m (vpn_of va) i e /\ maps m' (vpn_of va) i (touch e w) /\
          wf_entry e /\ readOnly e && w = false /\
          0 <= physicalPage e < NumPhysPages /\ pa = phys e va
    | AddressErrorException => m' = m /\
        (misaligned va size = true \/ tlb m = None /\ pageTableSize m <= vpn_of va)
    | PageFaultException => m' = m /\ misaligned va size = false /\
        ~ (tlb m = None /\ pageTableSize m <= vpn_of va) /\ unmapped m (vpn_of va)
    | ReadOnlyException => m' = m /\ misaligned va size = false /\ w = true /\
        exists i e, maps m (vpn_of va) i e /\ readOnly e = true
    | BusErrorException => m' = m /\ misaligned va size = false /\
        exists i e, maps m (vpn_of va) i e /\ readOnly e && w = false /\ ~ 0 <= physicalPage e < NumPhysPages
    | _ => False
    end.
Proof.
  intros Hwf Hs. destruct (misaligned va size) eqn:Ha.
  { exists AddressErrorException, 0, m. unfold Translate. rewrite Ha.
    split_and!; [done|reflexivity|done|by left]. }
  destruct (find_entry_spec m (vpn_of va) Hwf (vpn_nonneg va))
    as [(i & e & E & Hm & He)|Hno].
  - rewrite (Translate_mapped m va size w i e) by done.
    destruct (readOnly e && w) eqn:Ero.
    { apply andb_true_iff in Ero as [? ->]. exists ReadOnlyException, 0, m.
      split_and!; [done|reflexivity|done|done|done|eauto]. }
    destruct (Z.leb_spec 0 (physicalPage e)), (Z.ltb_spec (physicalPage e) NumPhysPages); simpl.
    2-4: exists BusErrorException, 0, m; split_and!; [done|reflexivity|done|done|];
      exists i, e; split; [done|split; [done|lia]].
    destruct (set_entry_touch m _ i e w Hm) as (m' & -> & Hsame & Hm' & _).
    rewrite bind_Ok. exists NoException, (phys e va), m'. split_and!; try done.
    + unfold phys, PageSize, SectorSize. pose proof (Z.mod_pos_bound (u32 va) 128). lia.
    + pose proof (aligned_end size va Hs Ha).
      unfold phys, MemorySize, NumPhysPages, PageSize, SectorSize in *. lia.
    + exists i, e. split_and!; try done; lia.
  - unfold Translate. rewrite Ha.
    assert (is_null (tlb m) || is_null (pageTable m) = true /\
            negb (is_null (tlb m)) || negb (is_null (pageTable m)) = true) as [-> ->].
    { unfold wf_tables in Hwf. by destruct (tlb m), (pageTable m). }
    simpl ASSERT. rewrite !bind_Ok. fold (vpn_of va).
    destruct Hno as [[-> Hu]|(-> & Ht & Hle)]; rewrite bind_Ok.
    + exists PageFaultException, 0, m. destruct Hu as [Hu Hin]. split_and!; [done|reflexivity|done|done|done|done].
    + exists AddressErrorException, 0, m. split_and!; [done|reflexivity|done|by right].
Qed.

(** The exception an access deserves, as the page tables are: the first that
    applies, in the order of the tests. *)
Definition deserves (m : Machine) (va size : Z) (w : bool) (ex : ExceptionType) : Prop :=
  let beyond := tlb m = None /\ pageTableSize m <= vpn_of va in
  let mapped_to P := misaligned va size = false /\ ~ beyond /\ exists i e, maps m (vpn_of va) i e /\ P e in
  match ex with
  | AddressErrorException => misaligned va size = true \/ beyond
  | PageFaultException => misaligned va size = false /\ ~ beyond /\ unmapped m (vpn_of va)
  | ReadOnlyException => mapped_to (fun e => readOnly e = true /\ w = true)
  | BusErrorException => mapped_to (fun e => readOnly e && w = false /\ ~ 0 <= physicalPage e < NumPhysPages)
  | NoException => mapped_to (fun e => readOnly e && w = false /\ 0 <= physicalPage e < NumPhysPages)
  | _ => False
  end.

Lemma maps_within m vpn i e : maps m vpn i e -> ~ (tlb m = None /\ pageTableSize m <= vpn).
Proof. intros [_ Hm] [Ht Hle]. rewrite Ht in Hm. destruct (pageTable m); [lia|done]. Qed.

Lemma maps_mapped m vpn i e : maps m vpn i e -> ~ unmapped m vpn.
Proof.
  unfold maps, unmapped. intros [Hv Hm] Hu. destruct (tlb m) as [t|], (pageTable m) as [pt|]; try done.
  1-2: destruct Hm as (Hi & He & Hvp & _); specialize (Hu i e Hi He); by rewrite Hv, Hvp, Z.eqb_refl in Hu.
  destruct Hu as (e' & He' & Hv'), Hm as (_ & _ & He). simplify_eq. congruence.
Qed.

(** An access deserves one exception. *)
Lemma deserves_inj m va size w ex ex' :
  wf_tables m -> deserves m va size w ex -> deserves m va size w ex' -> ex = ex'.
Proof.
  intros Hwf H1 H2. pose proof (vpn_nonneg va) as Hvpn.
  assert (forall i e i' e', maps m (vpn_of va) i e -> maps m (vpn_of va) i' e' -> e = e') as Hfun.
  { intros i e i' e' Ha Hb. pose proof (maps_find _ _ _ _ Ha Hwf Hvpn). pose proof (maps_find _ _ _ _ Hb Hwf Hvpn). congruence. }
  unfold deserves in *. cbv zeta in *.
  destruct ex, ex'; try done; destruct_and?;
    repeat match goal with
    | X : exists _, _ |- _ => destruct X as [? X]
    | X : _ /\ _ |- _ => destruct X
    | A : maps m _ _ ?e, B : maps m _ _ ?e' |- _ => assert_fails (unify e e'); pose proof (Hfun _ _ _ _ A B); subst
    | A : maps m _ _ _, B : unmapped m _ |- _ => by destruct (maps_mapped _ _ _ _ A)
    | X : _ \/ _ |- _ => destruct X
    end; try tauto; try congruence; match goal with A : readOnly ?e = true, B : readOnly ?e && _ = false |- _ => by subst; rewrite A in B end.
Qed.

(** C12: address translation is total and memory-safe.  With exactly one
    translation table installed and an access of 1, 2 or 4 bytes, Translate
    never trips an ASSERT; it reports an address error exactly for a misaligned
    access or a page beyond the page table; of the other accesses, a page fault
    exactly when no valid entry maps the page, a read-only error exactly for a
    write to a page mapped read-only, a bus error exactly when the frame does not
    exist and the access is not such a write, and no error exactly when none of
    these applies.  In the last case the physical range lies inside physical memory,
    in the mapped frame and at the same offset.  Only use and dirty bits change, and
    on an error nothing does. *)
Theorem Translate_correct m va size w :
  wf_tables m -> access_size size ->
  exists ex pa m', Translate m va size w = Ok (ex, pa, m') /\ same_mapping m m' /\
    (forall ex', ex = ex' <-> deserves m va size w ex') /\
    if bool_decide (ex = NoException) then
      0 <= pa /\ pa + size <= MemorySize /\
      exists i e, maps m (vpn_of va) i e /\ maps m' (vpn_of va) i (touch e w) /\
        readOnly e && w = false /\ pa / PageSize = physicalPage e /\
        pa mod PageSize = u32 va mod PageSize
    else m' = m.
Proof.
  intros Hwf Hs. destruct (Translate_cases m va size w Hwf Hs) as (ex & pa & m' & E & Hsame & Hex).
  exists ex, pa, m'. split; [done|]. split; [done|]. split.
  - assert (deserves m va size w ex) as Hd.
    { unfold deserves. cbv zeta. destruct ex; try done.
      - destruct Hex as (Ha & _ & _ & i & e & Hm & _ & _ & Hro & Hp & _). split; [done|].
        split; [by eapply maps_within|by exists i, e].
      - destruct Hex as (_ & Ha & Hn & Hu). by split.
      - destruct Hex as (_ & Ha & Hw & i & e & Hm & Hro). split; [done|]. split; [by eapply maps_within|by exists i, e].
      - destruct Hex as (_ & Ha & i & e & Hm & Hro & Hp). split; [done|]. split; [by eapply maps_within|by exists i, e].
      - apply Hex. }
    intros ex'. split; [by intros <-|]. intros Hd'. by eapply deserves_inj.
  - destruct (bool_decide_reflect (ex = NoException)) as [->|Hne]; [|destruct ex; try done; apply Hex].
    destruct Hex as (_ & ? & ? & i & e & ? & ? & _ & ? & Hp & ->). split_and!; try done.
    exists i, e. split_and!; try done; unfold phys, PageSize, SectorSize; word_lia.
Qed.

(** A machine with a two-page table: page 0 in frame 3, page 1 not present. *)
Definition two_pages : Machine :=
  set_pageTable (new_Machine 2 0 false)
    (Some [mkEntry 0 3 true false false false; mkEntry 1 (-1) false false false false]).

Lemma two_pages_tables : wf_tables two_pages.
Proof. split; [repeat constructor; simpl; word_lia|vm_compute; split; congruence]. Qed.

Lemma Translate_correct_witness :
  wf_tables two_pages /\ access_size 4 /\
  exists m', Translate two_pages 20 4 true = Ok (NoException, 404, m') /\
    same_mapping two_pages m'.
Proof.
  split; [apply two_pages_tables|]. split; [by right; right|].
  destruct (Translate_correct two_pages 20 4 true two_pages_tables
    ltac:(by right; right)) as (ex & pa & m' & E & Hsame & _).
  exists m'. split; [|done]. rewrite E. vm_compute in E. by injection E as <- <- _.
Defined.

(** ** Memory accesses *)

Lemma same_table_wf (l l' : list TranslationEntry) :
  Forall2 same_entry l l' -> Forall wf_entry l -> Forall wf_entry l' /\ zlen l' = zlen l.
Proof.
  intros H2 HF. split; [|unfold zlen; by rewrite (Forall2_length _ _ _ H2)].
  induction H2 as [|e e' l l' (Hv & Hp & _) H2 IH]; [done|].
  apply Forall_cons in HF as [[H0 H1] HF]. constructor; [|auto].
  split; congruence.
Qed.

Lemma same_mapping_wf m m' : same_mapping m m' -> wf_tables m -> wf_tables m'.
Proof.
  intros [_ _ Hsz Ht Hp _]. unfold wf_tables, same_table in *.
  destruct (tlb m) as [t|], (tlb m') as [t'|], (pageTable m) as [p|], (pageTable m') as [p'|];
    try done; intros [HF Hlen].
  - destruct (same_table_wf _ _ Ht HF) as [? ->]. done.
  - destruct (same_table_wf _ _ Hp HF) as [? ->]. by rewrite Hsz.
Qed.

(** The value an access of [size] bytes yields for a stored [int]. *)
Definition truncate (size v : Z) : Z :=
  if size =? 1 then s8 v else if size =? 2 then u16 v else s32 v.

(** The bytes an access of [size] bytes stores for [v]. *)
Definition bytes_of (size v : Z) : list Z := le_bytes (Z.to_nat size) v.

Lemma le_bytes_mod n v : le_bytes n (v mod 2 ^ (8 * Z.of_nat n)) = le_bytes n v.
Proof.
  rewrite <- le_value_bytes. rewrite <- (length_le_bytes n v) at 1.
  apply le_bytes_value, le_bytes_u8.
Qed.

Section memory_props.
Context {K : Type} `{Kernel K}.
Implicit Types (m : Machine) (k : K).

(** A translated read returns the little-endian value at the physical address. *)
Lemma ReadMem_translated va size m k pa m' bs :
  access_size size -> Translate m va size false = Ok (NoException, pa, m') ->
  same_mapping m m' -> zread (mainMemory m) pa size = Ok bs -> Forall is_u8 bs ->
  ReadMem va size m k = Ok (Some (truncate size (le_value bs)), (m', k)).
Proof.
  intros Hs HT Hsame Hbs HF. unfold ReadMem. rewrite HT, bind_Ok.
  rewrite decide_True by done. rewrite (same_mem _ _ Hsame).
  unfold truncate, WordToHost, ShortToHost.
  destruct Hs as [->|[->| ->]]; simpl.
  - pose proof (zlen_zread _ _ _ _ Hbs) as Hl. destruct bs as [|b [|b' bs]];
      [done| |unfold zlen in Hl; simpl in Hl; lia].
    pose proof (znth_zread _ _ _ _ 0 Hbs ltac:(lia)) as Hb. rewrite Z.add_0_r in Hb.
    symmetry in Hb. rewrite (proj2 (zget_Ok _ _ b)) by (by rewrite Hb).
    rewrite bind_Ok. simpl. do 4 f_equal. lia.
  - rewrite Hbs, bind_Ok. done.
  - rewrite Hbs, bind_Ok. done.
Qed.

(** A translated write stores the bytes of the value and changes nothing else. *)
Lemma WriteMem_translated va size v m k pa m' :
  access_size size -> Translate m va size true = Ok (NoException, pa, m') ->
  same_mapping m m' -> 0 <= pa -> pa + size <= zlen (mainMemory m) ->
  exists mem, zwrite (mainMemory m) pa (bytes_of size v) = Ok mem /\
    WriteMem va size v m k = Ok (true, (set_mainMemory m' mem, k)).
Proof.
  intros Hs HT Hsame Hpa Hend. unfold WriteMem. rewrite HT, bind_Ok.
  rewrite decide_True by done. rewrite (same_mem _ _ Hsame).
  unfold bytes_of, WordToMachine, WordToHost, ShortToMachine, ShortToHost.
  assert (Z.land v 255 = u8 v) as Hl8 by (change 255 with (Z.ones 8); by rewrite Z.land_ones).
  assert (Z.land v 65535 = u16 v) as Hl16
    by (change 65535 with (Z.ones 16); by rewrite Z.land_ones).
  rewrite zwrite_Ok; [|done|rewrite zlen_le_bytes; destruct Hs as [->|[->| ->]]; lia].
  eexists; split; [reflexivity|]. destruct Hs as [->|[->| ->]]; simpl Z.eqb; cbv iota.
  - rewrite zset_Ok, bind_Ok by lia. rewrite Hl8. unfold mret, res_ret. do 4 f_equal.
    unfold zlen in *. simpl. rewrite insert_take_drop by lia.
    do 3 f_equal. lia.
  - rewrite Hl16. replace (u16 (u16 v)) with (v mod 2 ^ (8 * Z.of_nat 2))
      by (change (8 * Z.of_nat 2) with 16; word_lia).
    rewrite le_bytes_mod. rewrite zwrite_Ok; [done|done|rewrite zlen_le_bytes; lia].
  - change (u32 v) with (v mod 2 ^ (8 * Z.of_nat 4)). rewrite le_bytes_mod.
    rewrite zwrite_Ok; [done|done|rewrite zlen_le_bytes; lia].
Qed.

Lemma truncate_mod size v :
  access_size size -> truncate size (v mod 2 ^ (8 * size)) = truncate size v.
Proof. intros [->|[->| ->]]; unfold truncate; simpl Z.eqb; cbv iota;
  [change (8 * 1) with 8|change (8 * 2) with 16|change (8 * 4) with 32]; word_lia.
Qed.

(** The translation of a second access through the same entry. *)
Lemma Translate_again m m' va size w i e :
  wf_tables m' -> access_size size -> misaligned va size = false ->
  maps m' (vpn_of va) i (touch e w) -> wf_entry e ->
  0 <= physicalPage e < NumPhysPages ->
  exists m'', Translate m' va size false = Ok (NoException, phys e va, m'') /\
    same_mapping m' m''.
Proof.
  intros Hwf Hs Ha Hm He Hp.
  rewrite (Translate_mapped m' va size false i (touch e w)) by done.
  rewrite andb_false_r. simpl.
  destruct (Z.leb_spec 0 (physicalPage e)), (Z.ltb_spec (physicalPage e) NumPhysPages);
    simpl; try lia.
  destruct (set_entry_touch m' _ i (touch e w) false Hm) as (m'' & -> & Hsame & _).
  rewrite bind_Ok. by exists m''.
Qed.
End memory_props.

Lemma set_mainMemory_tables m mem : wf_tables (set_mainMemory m mem) <-> wf_tables m.
Proof. done. Qed.

Lemma maps_wf_entry m vpn i e : wf_tables m -> 0 <= vpn -> maps m vpn i e -> wf_entry e.
Proof.
  intros Hwf Hvpn Hm. pose proof (maps_find _ _ _ _ Hm Hwf Hvpn) as E.
  destruct (find_entry_spec m vpn Hwf Hvpn) as [(i' & e' & E' & _ & He)|[[E' _]|[E' _]]];
    congruence.
Qed.

Lemma phys_range e va size :
  0 <= physicalPage e < NumPhysPages -> access_size size -> misaligned va size = false ->
  0 <= phys e va /\ phys e va + size <= MemorySize.
Proof.
  intros Hp Hs Ha. pose proof (aligned_end size va Hs Ha).
  unfold phys, MemorySize, NumPhysPages, PageSize, SectorSize in *.
  pose proof (Z.mod_pos_bound (u32 va) 128 ltac:(lia)). lia.
Qed.

(** An aligned WriteMem of 1, 2 or 4 bytes to a writable page in memory
    succeeds and is read back by ReadMem at the same address and size,
    truncated to the width of the access (sign-extended for bytes and words,
    zero-extended for shorts); it changes only the bytes of the translated
    physical range, no register and not the kernel. *)
Theorem WriteMem_ReadMem {K} `{Kernel K} (m : Machine) (k : K) va size v i e :
  wf_tables m -> zlen (mainMemory m) = MemorySize -> access_size size ->
  misaligned va size = false -> maps m (vpn_of va) i e -> readOnly e = false ->
  0 <= physicalPage e < NumPhysPages ->
  exists m1 m2, WriteMem va size v m k = Ok (true, (m1, k)) /\
    ReadMem va size m1 k = Ok (Some (truncate size v), (m2, k)) /\
    registers m1 = registers m /\ registers m2 = registers m /\
    mainMemory m2 = mainMemory m1 /\
    forall p, ~ phys e va <= p < phys e va + size ->
      znth (mainMemory m1) p = znth (mainMemory m) p.
Proof.
  intros Hwf Hlen Hs Ha Hm Hro Hp.
  pose proof (maps_wf_entry _ _ _ _ Hwf (vpn_nonneg va) Hm) as He.
  destruct (phys_range e va size Hp Hs Ha) as [Hpa Hend]. rewrite <- Hlen in Hend.
  pose proof (Translate_mapped m va size true i e Hwf Hs Ha Hm He) as HT.
  rewrite Hro in HT. simpl in HT.
  destruct (Z.leb_spec 0 (physicalPage e)), (Z.ltb_spec (physicalPage e) NumPhysPages);
    simpl in HT; try lia.
  destruct (set_entry_touch m _ i e true Hm) as (m' & Es & Hsame & Hm' & _).
  rewrite Es, bind_Ok in HT.
  destruct (WriteMem_translated va size v m k _ _ Hs HT Hsame Hpa Hend) as (mem & Emem & HW).
  set (m1 := set_mainMemory m' mem).
  assert (wf_tables m1) as Hwf1 by (apply set_mainMemory_tables; by eapply same_mapping_wf).
  destruct (Translate_again m m1 va size true i e Hwf1 Hs Ha Hm' He Hp) as (m2 & HT2 & Hsame2).
  assert (zlen (bytes_of size v) = size) as Hbl.
  { unfold bytes_of. rewrite zlen_le_bytes. destruct Hs as [->|[->| ->]]; done. }
  exists m1, m2. split; [done|]. split.
  { rewrite (ReadMem_translated va size m1 k (phys e va) m2 (bytes_of size v)); try done.
    - unfold bytes_of. rewrite le_value_bytes.
      replace (8 * Z.of_nat (Z.to_nat size)) with (8 * size)
        by (destruct Hs as [->|[->| ->]]; done).
      by rewrite truncate_mod.
    - rewrite <- Hbl at 1. by apply zread_zwrite_same in Emem.
    - apply le_bytes_u8. }
  split_and!.
  - apply (same_regs _ _ Hsame).
  - rewrite (same_regs _ _ Hsame2). apply (same_regs _ _ Hsame).
  - apply (same_mem _ _ Hsame2).
  - intros p Hn. simpl. rewrite (znth_zwrite _ _ _ _ _ Emem), Hbl.
    destruct (Z.leb_spec (phys e va) p), (Z.ltb_spec p (phys e va + size)); simpl; done || lia.
Qed.

(** ** What the machine promises and what it needs

    The contract of a kernel: from a well-formed machine, its handler returns a
    well-formed machine and keeps its own invariant, or faults as [kernel_fault]
    allows. *)
Class KernelContract (K : Type) `{Kernel K} := {
  kernel_inv : K -> Prop;
  kernel_fault : fault -> Prop;
  setStatus_inv : forall s k, kernel_inv k -> kernel_inv (setStatus s k);
  ExceptionHandler_ok : forall which m k, wf_cpu m -> kernel_inv k ->
    holds (fun '(m', k') => wf_cpu m' /\ kernel_inv k') kernel_fault
      (ExceptionHandler which m k)
}.

Lemma same_mapping_machine m m' : same_mapping m m' -> wf_machine m -> wf_machine m'.
Proof.
  intros Hs [Hc Ht]. split; [|by eapply same_mapping_wf].
  destruct Hs as [Hm Hr _ _ _ _], Hc. split; unfold reg in *; rewrite ?Hm, ?Hr; try done.
Qed.

Lemma set_mainMemory_machine m off bs mem :
  wf_machine m -> Forall is_u8 bs -> zwrite (mainMemory m) off bs = Ok mem ->
  wf_machine (set_mainMemory m mem).
Proof.
  intros [[] Ht] Hbs E. split; [|done]. split; simpl; try done.
  - by rewrite (zlen_zwrite _ _ _ _ E).
  - eapply Forall_zwrite; [|exact Hbs|exact E]. done.
Qed.

(** The delayed load keeps register 0 zero. *)
Lemma DelayedLoad_wf m nr nv :
  wf_machine m -> 0 <= nr < NumGPRegs -> is_s32 nv ->
  exists m', DelayedLoad m nr nv = Ok m' /\ wf_cpu m'.
Proof.
  intros Hwf Hr Hv. pose proof (proj1 Hwf) as Hc. unfold DelayedLoad.
  assert (NumGPRegs <= NumTotalRegs) by done.
  destruct (wf_load _ Hc) as (lr & -> & Hlr). rewrite bind_Ok.
  destruct (reg_get m LoadValueReg Hc ltac:(done)) as (lv & -> & Hlv). rewrite bind_Ok.
  destruct (set_reg_wf m lr lv) as (m1 & -> & H1); [done|lia|done|unfold NumGPRegs, LoadReg in *; lia|].
  rewrite bind_Ok.
  destruct (set_reg_wf m1 LoadReg nr) as (m2 & -> & H2);
    [done|done|unfold NumGPRegs in *; word_lia|done|].
  rewrite bind_Ok.
  destruct (set_reg_wf m2 LoadValueReg nv) as (m3 & -> & H3); [done|done|done|done|].
  rewrite bind_Ok.
  destruct (set_reg_wf m3 0 0) as (m4 & E & H4); [done|done|word_lia|done|].
  exists m4. split; [done|]. split; [done|]. by rewrite (set_reg_get _ _ _ _ 0 E).
Qed.

Section machine_contract.
Context {K : Type} `{KernelContract K}.
Implicit Types (m : Machine) (k : K).

Lemma RaiseException_ok which bad m k :
  wf_machine m -> is_s32 bad -> kernel_inv k ->
  holds (fun '(m', k') => wf_cpu m' /\ kernel_inv k') kernel_fault
    (RaiseException which bad m k).
Proof.
  intros Hm Hb Hk. unfold RaiseException.
  destruct (set_reg_wf m BadVAddrReg bad) as (m1 & -> & H1); [done|done|done|done|].
  rewrite bind_Ok.
  destruct (DelayedLoad_wf m1 0 0) as (m2 & -> & H2); [done|done|word_lia|].
  rewrite bind_Ok. eapply holds_bind.
  - apply ExceptionHandler_ok; [done|by apply setStatus_inv].
  - intros [m3 k3] [H3 Hk3]. split; [done|by apply setStatus_inv].
Qed.

Lemma ReadMem_ok va size m k :
  wf_machine m -> access_size size -> is_s32 va -> kernel_inv k ->
  holds (fun '(r, (m', k')) => kernel_inv k' /\
      match r with
      | Some v => wf_machine m' /\ is_s32 v /\ registers m' = registers m
      | None => wf_cpu m'
      end) kernel_fault (ReadMem va size m k).
Proof.
  intros Hm Hs Hva Hk. destruct (Translate_cases m va size false (proj2 Hm) Hs)
    as (ex & pa & m' & E & Hsame & Hex).
  pose proof (same_mapping_machine _ _ Hsame Hm) as Hm'.
  destruct (decide (ex = NoException)) as [->|Hne].
  - destruct Hex as (_ & Hpa & Hend & _).
    rewrite <- (wf_memory _ (proj1 Hm)) in Hend.
    assert (0 <= size) by (destruct Hs as [->|[->| ->]]; lia).
    pose proof (zread_Ok (mainMemory m) pa size Hpa ltac:(lia) Hend) as Hr.
    pose proof (Forall_zread _ _ _ _ _ (wf_bytes _ (proj1 Hm)) Hr) as HF.
    rewrite (ReadMem_translated va size m k pa m' _ Hs E Hsame Hr HF).
    split; [done|]. split; [done|]. split; [|apply (same_regs _ _ Hsame)].
    unfold truncate. destruct Hs as [->|[->| ->]]; simpl Z.eqb; cbv iota; word_lia.
  - unfold ReadMem. rewrite E, bind_Ok, decide_False by done.
    eapply holds_bind; [by apply RaiseException_ok|].
    intros [m1 k1] [H1 Hk1]. by split.
Qed.

Lemma WriteMem_ok va size v m k :
  wf_machine m -> access_size size -> is_s32 va -> kernel_inv k ->
  holds (fun '(ok, (m', k')) => kernel_inv k' /\
      if (ok : bool) then wf_machine m' /\ registers m' = registers m else wf_cpu m')
    kernel_fault (WriteMem va size v m k).
Proof.
  intros Hm Hs Hva Hk. destruct (Translate_cases m va size true (proj2 Hm) Hs)
    as (ex & pa & m' & E & Hsame & Hex).
  pose proof (same_mapping_machine _ _ Hsame Hm) as Hm'.
  destruct (decide (ex = NoException)) as [->|Hne].
  - destruct Hex as (_ & Hpa & Hend & _).
    rewrite <- (wf_memory _ (proj1 Hm)) in Hend.
    destruct (WriteMem_translated va size v m k pa m' Hs E Hsame Hpa Hend) as (mem & Ew & ->).
    rewrite <- (same_mem _ _ Hsame) in Ew. split; [done|]. split.
    + eapply set_mainMemory_machine; [done|apply le_bytes_u8|exact Ew].
    + apply (same_regs _ _ Hsame).
  - unfold WriteMem. rewrite E, bind_Ok, decide_False by done.
    eapply holds_bind; [by apply RaiseException_ok|].
    intros [m1 k1] [H1 Hk1]. by split.
Qed.
End machine_contract.

(** A kernel that does nothing, for concrete runs. *)
Definition null_kernel : Kernel unit :=
  {| setStatus := fun _ k => k; ExceptionHandler := fun _ m k => Ok (m, k) |}.

Lemma WriteMem_ReadMem_witness :
  exists m1 m2, @WriteMem unit null_kernel 20 4 (-2) two_pages tt = Ok (true, (m1, tt)) /\
    @ReadMem unit null_kernel 20 4 m1 tt = Ok (Some (-2), (m2, tt)).
Proof.
  destruct (@WriteMem_ReadMem unit null_kernel two_pages tt 20 4 (-2) 0
    (mkEntry 0 3 true false false false) two_pages_tables ltac:(reflexivity)
    ltac:(by right; right) ltac:(reflexivity) ltac:(by vm_compute)
    ltac:(reflexivity) ltac:(vm_compute; split; congruence))
    as (m1 & m2 & E1 & E2 & _).
  exists m1, m2. split; [exact E1|exact E2].
Defined.

(** C13: page-level isolation.  When the page table gives different frames to
    different pages, two translated accesses through different pages touch
    disjoint physical ranges. *)
Theorem Translate_isolation m va1 size1 w1 va2 size2 w2 pa1 pa2 m1 m2 :
  wf_tables m -> access_size size1 -> access_size size2 ->
  (forall v1 i1 e1 v2 i2 e2, maps m v1 i1 e1 -> maps m v2 i2 e2 -> v1 <> v2 ->
     physicalPage e1 <> physicalPage e2) ->
  vpn_of va1 <> vpn_of va2 ->
  Translate m va1 size1 w1 = Ok (NoException, pa1, m1) ->
  Translate m va2 size2 w2 = Ok (NoException, pa2, m2) ->
  pa1 + size1 <= pa2 \/ pa2 + size2 <= pa1.
Proof.
  intros Hwf Hs1 Hs2 Hinj Hne E1 E2.
  destruct (Translate_cases m va1 size1 w1 Hwf Hs1) as (ex1 & q1 & n1 & F1 & _ & H1).
  destruct (Translate_cases m va2 size2 w2 Hwf Hs2) as (ex2 & q2 & n2 & F2 & _ & H2).
  rewrite E1 in F1. rewrite E2 in F2. injection F1 as <- <- <-. injection F2 as <- <- <-.
  destruct H1 as (Ha1 & _ & _ & i1 & e1 & Hm1 & _ & _ & _ & Hp1 & ->).
  destruct H2 as (Ha2 & _ & _ & i2 & e2 & Hm2 & _ & _ & _ & Hp2 & ->).
  specialize (Hinj _ _ _ _ _ _ Hm1 Hm2 Hne).
  pose proof (aligned_end _ _ Hs1 Ha1). pose proof (aligned_end _ _ Hs2 Ha2).
  unfold phys, PageSize, SectorSize in *.
  pose proof (Z.mod_pos_bound (u32 va1) 128 ltac:(lia)).
  pose proof (Z.mod_pos_bound (u32 va2) 128 ltac:(lia)). lia.
Qed.

(** Two pages, in frames 3 and 1. *)
Definition two_frames : Machine :=
  set_pageTable (new_Machine 2 0 false)
    (Some [mkEntry 0 3 true false false false; mkEntry 1 1 true false false false]).

Lemma Translate_isolation_witness :
  exists m1 m2, Translate two_frames 20 4 true = Ok (NoException, 404, m1) /\
    Translate two_frames 130 2 false = Ok (NoException, 130, m2) /\
    (404 + 4 <= 130 \/ 130 + 2 <= 404).
Proof.
  eexists _, _. split; [vm_compute; reflexivity|]. split; [vm_compute; reflexivity|].
  eapply (Translate_isolation two_frames 20 4 true 130 2 false 404 130).
  - split; [repeat constructor; simpl; word_lia|vm_compute; split; congruence].
  - by right; right.
  - by right; left.
  - intros v1 i1 e1 v2 i2 e2 (_ & _ & L1 & H1) (_ & _ & L2 & H2) Hne. simpl in *.
    pose proof (znth_Some_range _ _ _ H1) as R1. pose proof (znth_Some_range _ _ _ H2) as R2.
    unfold zlen in *; simpl in *.
    assert (v1 = 0 /\ v2 = 1 \/ v1 = 1 /\ v2 = 0) as [[-> ->]|[-> ->]] by lia;
      injection H1 as <-; injection H2 as <-; done.
  - done.
  - vm_compute; reflexivity.
  - vm_compute; reflexivity.
Defined.
