(* ===== verification/Mult.v ===== *)
(** * Mult: the multiplier of machine/mipssim.cc

    [Mult] computes the 64-bit product of two 32-bit words by shift and add, on
    pairs of 32-bit words.  It is shown equal to the product. *)

From S2P Require Import Prelude.

(** The body of [for (int i = 0; i < 32; i++)]; [a] is an [int] (the shift is
    arithmetic), the other four are [unsigned]. *)
Fixpoint mult_loop (n : nat) (a bLo bHi lo hi : Z) : Z * Z :=
  match n with
  | O => (hi, lo)
  | S n =>
      let next lo hi :=
        let bHi := u32 (Z.shiftl bHi 1) in
        let bHi := if negb (Z.land bLo 0x80000000 =? 0) then Z.lor bHi 1 else bHi in
        let bLo := u32 (Z.shiftl bLo 1) in
        mult_loop n (Z.shiftr a 1) bLo bHi lo hi in
      if negb (Z.land a 1 =? 0) then
        let lo := u32 (lo + bLo) in
        let hi := if lo <? bLo then u32 (hi + 1) else hi in
        let hi := u32 (hi + bHi) in
        if Z.land (u32 a) 0xfffffffe =? 0 then (hi, lo) else next lo hi
      else next lo hi
  end.

(** The values stored in [*hiPtr] and [*loPtr]. *)
Definition Mult (a b : Z) (signedArith : bool) : Z * Z :=
  if (a =? 0) || (b =? 0) then (0, 0)
  else
    let negative := false in
    let '(negative, a) :=
      if signedArith && (a <? 0) then (negb negative, s32 (- a)) else (negative, a) in
    let '(negative, b) :=
      if signedArith && (b <? 0) then (negb negative, s32 (- b)) else (negative, b) in
    let '(hi, lo) := mult_loop 32 a (u32 b) 0 0 0 in
    let '(hi, lo) :=
      if (negative : bool) then
        let hi := u32 (Z.lnot hi) in
        let lo := u32 (Z.lnot lo) in
        let lo := u32 (lo + 1) in
        let hi := if lo =? 0 then u32 (hi + 1) else hi in
        (hi, lo)
      else (hi, lo) in
    (s32 hi, s32 lo).

(** ** Correctness *)

(** The 64-bit value of a pair of words. *)
Definition dword (hi lo : Z) : Z := lo + 2 ^ 32 * hi.

(** Congruence modulo 2^64, with the quotient. *)
Definition eq64 (x y : Z) : Prop := exists k, x = y + k * 2 ^ 64.

Lemma eq64_mod x y : eq64 x y <-> x mod 2 ^ 64 = y mod 2 ^ 64.
Proof.
  split.
  - intros [k ->]. by rewrite Z.mod_add.
  - intros H. exists (x / 2 ^ 64 - y / 2 ^ 64).
    rewrite (Z.div_mod x (2 ^ 64)) at 1 by done. rewrite (Z.div_mod y (2 ^ 64)) at 1 by done.
    rewrite H. ring.
Qed.

Lemma eq64_refl x : eq64 x x.
Proof. exists 0. ring. Qed.

Lemma eq64_trans x y z : eq64 x y -> eq64 y z -> eq64 x z.
Proof. intros [k ->] [j ->]. exists (j + k). ring. Qed.

Lemma eq64_add x y x' y' : eq64 x x' -> eq64 y y' -> eq64 (x + y) (x' + y').
Proof. intros [k ->] [j ->]. exists (k + j). ring. Qed.

Lemma eq64_mul_r x x' y : eq64 x x' -> eq64 (x * y) (x' * y).
Proof. intros [k ->]. exists (k * y). ring. Qed.

Lemma eq64_mul_l x x' y : eq64 x x' -> eq64 (y * x) (y * x').
Proof. intros [k ->]. exists (y * k). ring. Qed.

Lemma eq64_eq x y : x = y -> eq64 x y.
Proof. intros ->. apply eq64_refl. Qed.

Lemma eq64_opp x x' : eq64 x x' -> eq64 (- x) (- x').
Proof. intros [k ->]. exists (- k). ring. Qed.

(** [lo += bLo; if (lo < bLo) hi += 1; hi += bHi] adds modulo 2^64. *)
Lemma add_step lo hi bLo bHi :
  is_u32 lo -> is_u32 hi -> is_u32 bLo -> is_u32 bHi ->
  let lo' := u32 (lo + bLo) in
  let hi' := u32 ((if lo' <? bLo then u32 (hi + 1) else hi) + bHi) in
  is_u32 lo' /\ is_u32 hi' /\ eq64 (dword hi' lo') (dword hi lo + dword bHi bLo).
Proof.
  intros Hlo Hhi Hbl Hbh lo' hi'. split; [apply u32_range|]. split; [apply u32_range|].
  assert (lo' = lo + bLo - if lo' <? bLo then 2 ^ 32 else 0) as El.
  { unfold lo'. destruct (Z.ltb_spec (u32 (lo + bLo)) bLo); word_lia. }
  assert (hi' = u32 ((if lo' <? bLo then 1 else 0) + hi + bHi)) as Eh.
  { unfold hi'. destruct (lo' <? bLo); [|done]. unfold u32.
    rewrite Zplus_mod_idemp_l. f_equal. lia. }
  clearbody lo' hi'. unfold eq64, dword. rewrite Eh.
  exists (- (((if lo' <? bLo then 1 else 0) + hi + bHi) / 2 ^ 32)).
  destruct (lo' <? bLo); rewrite El; unfold u32;
    rewrite Z.mod_eq by done; ring.
Qed.

Lemma land_bit31 x : is_u32 x -> negb (Z.land x 0x80000000 =? 0) = (2 ^ 31 <=? x).
Proof.
  intros Hx. change 0x80000000 with (2 ^ 31). rewrite land_pow2_test by done.
  apply testbit_top; [done|exact Hx].
Qed.

Lemma lor_even_1 x : x mod 2 = 0 -> Z.lor x 1 = x + 1.
Proof.
  intros Hx. assert (Z.land x 1 = 0) as H0.
  { change 1 with (Z.ones 1). by rewrite Z.land_ones. }
  by rewrite Z.add_nocarry_lxor, Z.lxor_lor.
Qed.

(** The shift of the pair [bHi:bLo] doubles it modulo 2^64. *)
Lemma shift_step bLo bHi :
  is_u32 bLo -> is_u32 bHi ->
  let bHi' := u32 (Z.shiftl bHi 1) in
  let bHi' := if negb (Z.land bLo 0x80000000 =? 0) then Z.lor bHi' 1 else bHi' in
  let bLo' := u32 (Z.shiftl bLo 1) in
  is_u32 bLo' /\ is_u32 bHi' /\ eq64 (dword bHi' bLo') (2 * dword bHi bLo).
Proof.
  intros Hl Hh. cbv zeta. rewrite land_bit31, !Z.shiftl_mul_pow2 by done.
  change (2 ^ 1) with 2. split; [apply u32_range|].
  assert (Z.lor (u32 (bHi * 2)) 1 = u32 (bHi * 2) + 1) as Hor.
  { apply lor_even_1. word_lia. }
  unfold eq64, dword. destruct (Z.leb_spec (2 ^ 31) bLo).
  - rewrite Hor. split; [word_lia|]. exists (- ((bHi * 2) / 2 ^ 32)). word_lia.
  - split; [apply u32_range|]. exists (- ((bHi * 2) / 2 ^ 32)). word_lia.
Qed.

(** The test [a & 1], and the early exit [(a & 0xfffffffe) == 0]. *)
Lemma land_1 a : Z.land a 1 = a mod 2.
Proof. change 1 with (Z.ones 1). by rewrite Z.land_ones. Qed.

Lemma land_high a : Z.land a 1 <> 0 -> Z.land (u32 a) 0xfffffffe = 0 -> u32 a = 1.
Proof.
  intros H1 H0. apply Z.bits_inj'. intros i Hi.
  destruct (Z.eqb_spec i 0) as [->|Hne].
  - rewrite u32_testbit, andb_true_r, Z.bit0_odd. rewrite land_1 in H1.
    rewrite Zmod_odd in H1. by destruct (Z.odd a).
  - transitivity false; [|symmetry; change 1 with (2 ^ 0); by apply Z.pow2_bits_false].
    destruct (Z.ltb_spec i 32) as [Hlt|Hge].
    + assert (Z.testbit (Z.land (u32 a) 0xfffffffe) i = false) as Hb
        by (by rewrite H0, Z.bits_0).
      change 0xfffffffe with (Z.shiftl (Z.ones 31) 1) in Hb.
      rewrite Z.land_spec, Z.shiftl_spec, Z.ones_spec_low, andb_true_r in Hb by lia. done.
    + rewrite u32_testbit. destruct (Z.ltb_spec i 32); [lia|apply andb_false_r].
Qed.

Lemma land_high_tail a n :
  Z.land a 1 <> 0 -> Z.land (u32 a) 0xfffffffe = 0 -> (n < 32)%nat ->
  (a / 2) mod 2 ^ Z.of_nat n = 0.
Proof.
  intros H1 H0 Hn. pose proof (land_high a H1 H0) as Ha. unfold u32 in Ha.
  assert (a / 2 = (a / 2 ^ 32) * 2 ^ 31) as -> by word_lia.
  apply Z.mod_divide; [apply Z.pow_nonzero; lia|].
  exists ((a / 2 ^ 32) * 2 ^ (31 - Z.of_nat n)). rewrite <- Z.mul_assoc. f_equal.
  rewrite <- Z.pow_add_r by lia. f_equal. lia.
Qed.

Lemma mod_pow2_step a n : 0 <= n -> a mod 2 ^ (n + 1) = a mod 2 + 2 * ((a / 2) mod 2 ^ n).
Proof.
  intros Hn. rewrite Z.pow_add_r, Z.mul_comm by lia. change (2 ^ 1) with 2.
  assert (0 < 2 ^ n) by (apply Z.pow_pos_nonneg; lia). by rewrite Z.rem_mul_r by lia.
Qed.

(** After [n] rounds the pair [hi:lo] has gained the low [n] bits of [a] times
    the pair [bHi:bLo], modulo 2^64; the early exit changes nothing. *)
Lemma mult_loop_spec n : forall a bLo bHi lo hi,
  (n <= 32)%nat -> is_u32 bLo -> is_u32 bHi -> is_u32 lo -> is_u32 hi ->
  let '(hi', lo') := mult_loop n a bLo bHi lo hi in
  is_u32 hi' /\ is_u32 lo' /\
  eq64 (dword hi' lo') (dword hi lo + (a mod 2 ^ Z.of_nat n) * dword bHi bLo).
Proof.
  induction n as [|n IH]; intros a bLo bHi lo hi Hn Hbl Hbh Hlo Hhi.
  { simpl. rewrite Z.mod_1_r. split_and!; try done. apply eq64_eq. ring. }
  cbn [mult_loop]. cbv zeta.
  destruct (shift_step bLo bHi Hbl Hbh) as (Sl & Sh & Seq). cbv zeta in Sl, Sh, Seq.
  set (bHi' := if negb (Z.land bLo 0x80000000 =? 0) then _ else _) in *.
  set (bLo' := u32 (Z.shiftl bLo 1)) in *.
  pose proof (mod_pow2_step a (Z.of_nat n) ltac:(lia)) as Hmod.
  replace (Z.of_nat (S n)) with (Z.of_nat n + 1) by lia. rewrite Hmod.
  rewrite <- Z.div2_spec, Z.div2_div in *. rewrite <- land_1.
  destruct (Z.eqb_spec (Z.land a 1) 0) as [E|E]; cbn [negb].
  - specialize (IH (a / 2) bLo' bHi' lo hi ltac:(lia) Sl Sh Hlo Hhi).
    destruct (mult_loop n _ _ _ _ _) as [hi' lo']. destruct IH as (? & ? & IH).
    split_and!; try done. eapply eq64_trans; [exact IH|]. rewrite E.
    eapply eq64_trans; [apply eq64_add; [apply eq64_refl|apply eq64_mul_l, Seq]|].
    apply eq64_eq. ring.
  - destruct (add_step lo hi bLo bHi) as (Hl' & Hh' & Hadd); try done.
    set (lo' := u32 (lo + bLo)) in *. set (hi' := u32 (_ + bHi)) in *.
    assert (Z.land a 1 = 1) as E1.
    { rewrite land_1 in *. pose proof (Z.mod_pos_bound a 2 ltac:(lia)). lia. }
    destruct (Z.eqb_spec (Z.land (u32 a) 0xfffffffe) 0) as [Eh|_].
    + split_and!; try done. eapply eq64_trans; [exact Hadd|].
      rewrite E1, (land_high_tail a n E Eh) by lia. apply eq64_eq. ring.
    + specialize (IH (a / 2) bLo' bHi' lo' hi' ltac:(lia) Sl Sh Hl' Hh').
      destruct (mult_loop n _ _ _ _ _) as [hi'' lo'']. destruct IH as (? & ? & IH).
      split_and!; try done. eapply eq64_trans; [exact IH|]. rewrite E1.
      eapply eq64_trans; [apply eq64_add; [exact Hadd|apply eq64_mul_l, Seq]|].
      apply eq64_eq. ring.
Qed.

(** The two's complement of a pair of words. *)
Lemma negate_step hi lo :
  is_u32 hi -> is_u32 lo ->
  let lo' := u32 (u32 (Z.lnot lo) + 1) in
  let hi' := if lo' =? 0 then u32 (u32 (Z.lnot hi) + 1) else u32 (Z.lnot hi) in
  is_u32 hi' /\ is_u32 lo' /\ eq64 (dword hi' lo') (- dword hi lo).
Proof.
  intros Hh Hl lo' hi'. unfold eq64, dword, hi', lo', Z.lnot.
  replace (Z.pred (- hi)) with (- hi - 1) by lia.
  replace (Z.pred (- lo)) with (- lo - 1) by lia.
  destruct (Z.eqb_spec (u32 (u32 (- lo - 1) + 1)) 0).
  - split; [apply u32_range|]. split; [apply u32_range|].
    exists (if (hi =? 0) then 0 else 1). destruct (Z.eqb_spec hi 0); word_lia.
  - split; [apply u32_range|]. split; [apply u32_range|]. exists 1. word_lia.
Qed.

(** The operand as the code takes it: signed, or its bits unsigned. *)
Definition mult_operand (signedArith : bool) (v : Z) : Z :=
  if signedArith then v else u32 v.

(** The magnitude the main loop works on. *)
Definition magnitude (signedArith : bool) (v : Z) : Z :=
  if signedArith && (v <? 0) then s32 (- v) else v.

Lemma magnitude_spec s v :
  is_s32 v ->
  mult_operand s v = (if s && (v <? 0) then -1 else 1) * u32 (magnitude s v).
Proof.
  intros Hv. unfold mult_operand, magnitude.
  destruct s; simpl; [destruct (Z.ltb_spec v 0); word_lia|lia].
Qed.

Lemma dword_eq64 hi lo x :
  is_u32 hi -> is_u32 lo -> eq64 (dword hi lo) x -> dword hi lo = x mod 2 ^ 64.
Proof.
  intros Hh Hl H%eq64_mod. rewrite <- H. symmetry. apply Z.mod_small.
  unfold dword, is_u32 in *. lia.
Qed.

(** [Mult] on non-zero operands, in terms of the magnitudes and the sign. *)
Lemma Mult_unfold a b s :
  a <> 0 -> b <> 0 ->
  Mult a b s =
    (let '(hi, lo) := mult_loop 32 (magnitude s a) (u32 (magnitude s b)) 0 0 0 in
     if xorb (s && (a <? 0)) (s && (b <? 0)) then
       let lo' := u32 (u32 (Z.lnot lo) + 1) in
       (s32 (if lo' =? 0 then u32 (u32 (Z.lnot hi) + 1) else u32 (Z.lnot hi)), s32 lo')
     else (s32 hi, s32 lo)).
Proof.
  intros Ha Hb. unfold Mult, magnitude.
  destruct (Z.eqb_spec a 0), (Z.eqb_spec b 0); try done. cbn [orb].
  destruct (s && (a <? 0)), (s && (b <? 0)); cbn [negb xorb];
    destruct (mult_loop _ _ _ _ _ _) as [hi lo]; try done.
Qed.

(** C33: [Mult] stores the high and the low word of the 64-bit product of its
    operands, taken as signed integers when [signedArith] and as unsigned ones
    otherwise; both stored words are 32-bit integers. *)
Theorem Mult_correct a b signedArith :
  is_s32 a -> is_s32 b ->
  let '(hi, lo) := Mult a b signedArith in
  is_s32 hi /\ is_s32 lo /\
  dword (u32 hi) (u32 lo) =
    (mult_operand signedArith a * mult_operand signedArith b) mod 2 ^ 64.
Proof.
  intros Ha Hb. set (s := signedArith).
  destruct (Z.eqb_spec a 0) as [->|Na].
  { unfold mult_operand. destruct s; by vm_compute. }
  destruct (Z.eqb_spec b 0) as [->|Nb].
  { unfold Mult, mult_operand. rewrite orb_true_r. change (u32 0) with 0.
    destruct s; rewrite Z.mul_0_r; by vm_compute. }
  rewrite Mult_unfold, !magnitude_spec by done.
  pose proof (mult_loop_spec 32 (magnitude s a) (u32 (magnitude s b)) 0 0 0 (le_n _)
    (u32_range _) ltac:(word_lia) ltac:(word_lia) ltac:(word_lia)) as H.
  destruct (mult_loop _ _ _ _ _ _) as [hi lo]. destruct H as (Hh & Hl & H).
  assert (eq64 (dword hi lo) (u32 (magnitude s a) * u32 (magnitude s b))) as Hp.
  { eapply eq64_trans; [exact H|]. apply eq64_eq. unfold dword. change (Z.of_nat 32) with 32.
    change (magnitude s a mod 2 ^ 32) with (u32 (magnitude s a)). ring. }
  destruct (negate_step hi lo Hh Hl) as (Nh & Nl & HN). cbv zeta in Nh, Nl, HN.
  pose proof (eq64_trans _ _ _ HN (eq64_opp _ _ Hp)) as HN'.
  destruct (s && (a <? 0)), (s && (b <? 0)); cbn [xorb];
    (split; [apply s32_range|]; split; [apply s32_range|]);
    rewrite !u32_s32;
    (match goal with |- dword (u32 ?h) (u32 ?l) = _ =>
       rewrite (u32_id h), (u32_id l) by assumption end);
    (apply dword_eq64; [done|done|]);
    (eapply eq64_trans; [eassumption|apply eq64_eq; ring]).
Qed.

(** (-3) * 5 = -15, and 0xffffffff * 0xffffffff unsigned. *)
Lemma Mult_correct_witness :
  Mult (-3) 5 true = (-1, -15) /\ Mult (-1) (-1) false = (-2, 1) /\
  dword (u32 (-2)) (u32 1) = (mult_operand false (-1) * mult_operand false (-1)) mod 2 ^ 64.
Proof.
  assert (is_s32 (-1)) as H1 by word_lia.
  pose proof (Mult_correct (-1) (-1) false H1 H1) as H.
  replace (Mult (-1) (-1) false) with (-2, 1) in H |- * by (vm_compute; reflexivity).
  split; [vm_compute; reflexivity|]. split; [reflexivity|]. apply H.
Defined.
