(* ===== verification/Mips.v ===== *)
(** * Mips: machine/mipssim.h and machine/mipssim.cc

    The instruction interpreter: [Instruction::Decode], [Machine::OneInstruction]
    and [Machine::Run].  The [switch] of OneInstruction is cut into one
    definition per group of cases, in the order of the source; a group returns
    [Next] when the case ended in [break] and [Return] when it ended in
    [return].  The debug output of flag 'm' is left out. *)

From S2P Require Import Prelude Machine Mult.

(** ** mipssim.h *)

(** The OpCode values, with [SPECIAL] and [BCOND]. *)
Inductive op_code :=
  | OP_ADD | OP_ADDI | OP_ADDIU | OP_ADDU | OP_AND | OP_ANDI | OP_BEQ | OP_BGEZ
  | OP_BGEZAL | OP_BGTZ | OP_BLEZ | OP_BLTZ | OP_BLTZAL | OP_BNE | OP_DIV | OP_DIVU
  | OP_J | OP_JAL | OP_JALR | OP_JR | OP_LB | OP_LBU | OP_LH | OP_LHU | OP_LUI | OP_LW
  | OP_LWL | OP_LWR | OP_MFHI | OP_MFLO | OP_MTHI | OP_MTLO | OP_MULT | OP_MULTU
  | OP_NOR | OP_OR | OP_ORI | OP_RFE | OP_SB | OP_SH | OP_SLL | OP_SLLV | OP_SLT
  | OP_SLTI | OP_SLTIU | OP_SLTU | OP_SRA | OP_SRAV | OP_SRL | OP_SRLV | OP_SUB
  | OP_SUBU | OP_SW | OP_SWL | OP_SWR | OP_XOR | OP_XORI | OP_SYSCALL | OP_UNIMP
  | OP_RES | SPECIAL | BCOND.

#[export] Instance op_code_eq_dec : EqDecision op_code.
Proof. solve_decision. Defined.

Definition IndexToAddr (x : Z) : Z := s32 (Z.shiftl x 2).
Definition SIGN_BIT : Z := 0x80000000.
Definition R31 : Z := 31.

Inductive op_format := IFMT | JFMT | RFMT.

Definition opTable : list (op_code * op_format) := [
    (SPECIAL, RFMT); (BCOND, IFMT); (OP_J, JFMT); (OP_JAL, JFMT);
    (OP_BEQ, IFMT); (OP_BNE, IFMT); (OP_BLEZ, IFMT); (OP_BGTZ, IFMT);
    (OP_ADDI, IFMT); (OP_ADDIU, IFMT); (OP_SLTI, IFMT); (OP_SLTIU, IFMT);
    (OP_ANDI, IFMT); (OP_ORI, IFMT); (OP_XORI, IFMT); (OP_LUI, IFMT);
    (OP_UNIMP, IFMT); (OP_UNIMP, IFMT); (OP_UNIMP, IFMT); (OP_UNIMP, IFMT);
    (OP_RES, IFMT); (OP_RES, IFMT); (OP_RES, IFMT); (OP_RES, IFMT);
    (OP_RES, IFMT); (OP_RES, IFMT); (OP_RES, IFMT); (OP_RES, IFMT);
    (OP_RES, IFMT); (OP_RES, IFMT); (OP_RES, IFMT); (OP_RES, IFMT);
    (OP_LB, IFMT); (OP_LH, IFMT); (OP_LWL, IFMT); (OP_LW, IFMT);
    (OP_LBU, IFMT); (OP_LHU, IFMT); (OP_LWR, IFMT); (OP_RES, IFMT);
    (OP_SB, IFMT); (OP_SH, IFMT); (OP_SWL, IFMT); (OP_SW, IFMT);
    (OP_RES, IFMT); (OP_RES, IFMT); (OP_SWR, IFMT); (OP_RES, IFMT);
    (OP_UNIMP, IFMT); (OP_UNIMP, IFMT); (OP_UNIMP, IFMT); (OP_UNIMP, IFMT);
    (OP_RES, IFMT); (OP_RES, IFMT); (OP_RES, IFMT); (OP_RES, IFMT);
    (OP_UNIMP, IFMT); (OP_UNIMP, IFMT); (OP_UNIMP, IFMT); (OP_UNIMP, IFMT);
    (OP_RES, IFMT); (OP_RES, IFMT); (OP_RES, IFMT); (OP_RES, IFMT) ].

Definition specialTable : list op_code := [
    OP_SLL; OP_RES; OP_SRL; OP_SRA; OP_SLLV; OP_RES; OP_SRLV; OP_SRAV;
    OP_JR; OP_JALR; OP_RES; OP_RES; OP_SYSCALL; OP_UNIMP; OP_RES; OP_RES;
    OP_MFHI; OP_MTHI; OP_MFLO; OP_MTLO; OP_RES; OP_RES; OP_RES; OP_RES;
    OP_MULT; OP_MULTU; OP_DIV; OP_DIVU; OP_RES; OP_RES; OP_RES; OP_RES;
    OP_ADD; OP_ADDU; OP_SUB; OP_SUBU; OP_AND; OP_OR; OP_XOR; OP_NOR;
    OP_RES; OP_RES; OP_SLT; OP_SLTU; OP_RES; OP_RES; OP_RES; OP_RES;
    OP_RES; OP_RES; OP_RES; OP_RES; OP_RES; OP_RES; OP_RES; OP_RES;
    OP_RES; OP_RES; OP_RES; OP_RES; OP_RES; OP_RES; OP_RES; OP_RES ].

(** ** Decode *)

Record Instruction := mkInstruction {
  value : Z;                 (* unsigned int *)
  opCode : op_code;
  rs : Z; rt : Z; rd : Z;    (* unsigned char *)
  extra : Z                  (* int *)
}.

Definition Decode (value : Z) : res Instruction :=
  let rs := Z.land (Z.shiftr value 21) 0x1f in
  let rt := Z.land (Z.shiftr value 16) 0x1f in
  let rd := Z.land (Z.shiftr value 11) 0x1f in
  '(opCode, format) ← opTable.[Z.land (Z.shiftr value 26) 0x3f];
  let extra :=
    match format with
    | IFMT =>
        let extra := Z.land value 0xffff in
        if negb (Z.land extra 0x8000 =? 0) then s32 (Z.lor extra 0xffff0000) else extra
    | RFMT => Z.land (Z.shiftr value 6) 0x1f
    | JFMT => Z.land value 0x3ffffff
    end in
  opCode ←
    match opCode with
    | SPECIAL => specialTable.[Z.land value 0x3f]
    | BCOND =>
        let i := Z.land value 0x1f0000 in
        mret (if i =? 0 then OP_BLTZ
              else if i =? 0x10000 then OP_BGEZ
              else if i =? 0x100000 then OP_BLTZAL
              else if i =? 0x110000 then OP_BGEZAL
              else OP_UNIMP)
    | _ => mret opCode
    end;
  mret (mkInstruction value opCode rs rt rd extra).

(** ** OneInstruction *)

(** [break] with [pcAfter], [nextLoadReg] and [nextLoadValue], or [return]. *)
Inductive flow :=
  | Next (pcAfter nextLoadReg nextLoadValue : Z)
  | Return.

(** [x & SIGN_BIT], for an [int] [x]. *)
Definition sign_bit (x : Z) : bool := negb (Z.land (u32 x) SIGN_BIT =? 0).

Section execute.
Context {K : Type} `{Kernel K}.

Definition step_result : Type := res (flow * (Machine * K)).

(** [RaiseException(which, badVAddr); return;] *)
Definition raise (which : ExceptionType) (badVAddr : Z) (m : Machine) (k : K) : step_result :=
  s ← RaiseException which badVAddr m k; mret (Return, s).

(** The end of a case that only writes registers. *)
Definition next (pcAfter : Z) (m : Machine) (k : K) : step_result :=
  mret (Next pcAfter 0 0, (m, k)).

Definition exec_add (i : Instruction) (pcAfter : Z) (m : Machine) (k : K) : step_result :=
  a ← reg m (rs i);
  match opCode i with
  | OP_ADD =>
      b ← reg m (rt i);
      let sum := s32 (a + b) in
      if negb (sign_bit (Z.lxor a b)) && sign_bit (Z.lxor a sum)
      then raise OverflowException 0 m k
      else m ← set_reg m (rd i) sum; next pcAfter m k
  | OP_ADDI =>
      let sum := s32 (a + extra i) in
      if negb (sign_bit (Z.lxor a (extra i))) && sign_bit (Z.lxor (extra i) sum)
      then raise OverflowException 0 m k
      else m ← set_reg m (rt i) sum; next pcAfter m k
  | OP_ADDIU => m ← set_reg m (rt i) (s32 (a + extra i)); next pcAfter m k
  | OP_ADDU =>
      b ← reg m (rt i);
      m ← set_reg m (rd i) (s32 (a + b)); next pcAfter m k
  | OP_AND =>
      b ← reg m (rt i);
      m ← set_reg m (rd i) (Z.land a b); next pcAfter m k
  | OP_ANDI =>
      m ← set_reg m (rt i) (Z.land a (Z.land (extra i) 0xffff)); next pcAfter m k
  | _ => Err AssertFailed
  end.

(** [pcAfter = registers[NextPCReg] + IndexToAddr(instr->extra)] when [taken]. *)
Definition branch (i : Instruction) (taken : bool) (pcAfter : Z) (m : Machine) (k : K)
    : step_result :=
  if taken then npc ← reg m NextPCReg; next (s32 (npc + IndexToAddr (extra i))) m k
  else next pcAfter m k.

(** [registers[r] = registers[NextPCReg] + 4] *)
Definition link (r : Z) (m : Machine) : res Machine :=
  npc ← reg m NextPCReg; set_reg m r (s32 (npc + 4)).

Definition exec_branch (i : Instruction) (pcAfter : Z) (m : Machine) (k : K) : step_result :=
  match opCode i with
  | OP_BEQ =>
      a ← reg m (rs i); b ← reg m (rt i); branch i (a =? b) pcAfter m k
  | OP_BGEZAL =>
      m ← link R31 m;
      a ← reg m (rs i); branch i (negb (sign_bit a)) pcAfter m k
  | OP_BGEZ => a ← reg m (rs i); branch i (negb (sign_bit a)) pcAfter m k
  | OP_BGTZ => a ← reg m (rs i); branch i (a >? 0) pcAfter m k
  | OP_BLEZ => a ← reg m (rs i); branch i (a <=? 0) pcAfter m k
  | OP_BLTZAL =>
      m ← link R31 m;
      a ← reg m (rs i); branch i (sign_bit a) pcAfter m k
  | OP_BLTZ => a ← reg m (rs i); branch i (sign_bit a) pcAfter m k
  | OP_BNE =>
      a ← reg m (rs i); b ← reg m (rt i); branch i (negb (a =? b)) pcAfter m k
  | _ => Err AssertFailed
  end.

(** [/] and [%] on [int]: the host traps on INT_MIN / -1. *)
Definition int_quot (a b : Z) : res Z :=
  if (a =? - 2 ^ 31) && (b =? -1) then Err DivideTrap else mret (Z.quot a b).
Definition int_rem (a b : Z) : res Z :=
  if (a =? - 2 ^ 31) && (b =? -1) then Err DivideTrap else mret (Z.rem a b).

Definition exec_div (i : Instruction) (pcAfter : Z) (m : Machine) (k : K) : step_result :=
  match opCode i with
  | OP_DIV =>
      b ← reg m (rt i);
      if b =? 0 then
        m ← set_reg m LoReg 0; m ← set_reg m HiReg 0; next pcAfter m k
      else
        a ← reg m (rs i);
        q ← int_quot a b; m ← set_reg m LoReg q;
        a ← reg m (rs i); b ← reg m (rt i);
        r ← int_rem a b; m ← set_reg m HiReg r;
        next pcAfter m k
  | OP_DIVU =>
      a ← reg m (rs i); b ← reg m (rt i);
      let rs := u32 a in
      let rt := u32 b in
      if rt =? 0 then
        m ← set_reg m LoReg 0; m ← set_reg m HiReg 0; next pcAfter m k
      else
        m ← set_reg m LoReg (s32 (rs / rt));
        m ← set_reg m HiReg (s32 (rs mod rt));
        next pcAfter m k
  | _ => Err AssertFailed
  end.

(** [pcAfter = (pcAfter & 0xf0000000) | IndexToAddr(instr->extra)] *)
Definition jump_target (pcAfter extra : Z) : Z :=
  s32 (Z.lor (Z.land (u32 pcAfter) 0xf0000000) (u32 (IndexToAddr extra))).

Definition exec_jump (i : Instruction) (pcAfter : Z) (m : Machine) (k : K) : step_result :=
  match opCode i with
  | OP_JAL =>
      m ← link R31 m; next (jump_target pcAfter (extra i)) m k
  | OP_J => next (jump_target pcAfter (extra i)) m k
  | OP_JALR =>
      m ← link (rd i) m; a ← reg m (rs i); next a m k
  | OP_JR => a ← reg m (rs i); next a m k
  | _ => Err AssertFailed
  end.

(** The sign or zero extension of a loaded byte or half word. *)
Definition extend_byte (signed : bool) (value : Z) : Z :=
  if negb (Z.land value 0x80 =? 0) && signed then s32 (Z.lor (u32 value) 0xffffff00)
  else Z.land value 0xff.
Definition extend_half (signed : bool) (value : Z) : Z :=
  if negb (Z.land value 0x8000 =? 0) && signed then s32 (Z.lor (u32 value) 0xffff0000)
  else Z.land value 0xffff.

(** [if (!machine->ReadMem(tmp, size, &value)) return;] and the delayed load
    of [f value] into [rt]. *)
Definition load_into (i : Instruction) (pcAfter tmp size : Z) (f : Z -> Z)
    (m : Machine) (k : K) : step_result :=
  '(r, (m, k)) ← ReadMem tmp size m k;
  match r with
  | None => mret (Return, (m, k))
  | Some value => mret (Next pcAfter (rt i) (f value), (m, k))
  end.

Definition exec_load (i : Instruction) (pcAfter : Z) (m : Machine) (k : K) : step_result :=
  match opCode i with
  | OP_LB | OP_LBU =>
      a ← reg m (rs i);
      let tmp := s32 (a + extra i) in
      load_into i pcAfter tmp 1 (extend_byte (bool_decide (opCode i = OP_LB))) m k
  | OP_LH | OP_LHU =>
      a ← reg m (rs i);
      let tmp := s32 (a + extra i) in
      if negb (Z.land tmp 1 =? 0) then raise AddressErrorException tmp m k
      else load_into i pcAfter tmp 2 (extend_half (bool_decide (opCode i = OP_LH))) m k
  | OP_LUI =>
      m ← set_reg m (rt i) (s32 (Z.shiftl (extra i) 16)); next pcAfter m k
  | OP_LW =>
      a ← reg m (rs i);
      let tmp := s32 (a + extra i) in
      if negb (Z.land tmp 3 =? 0) then raise AddressErrorException tmp m k
      else load_into i pcAfter tmp 4 (fun value => value) m k
  | _ => Err AssertFailed
  end.

(** The register a partial load merges into, with its pending value. *)
Definition merge_source (i : Instruction) (m : Machine) : res Z :=
  lr ← reg m LoadReg;
  if lr =? rt i then reg m LoadValueReg else reg m (rt i).

Definition merge_LWL (sel old value : Z) : Z :=
  if sel =? 0 then value
  else if sel =? 1 then s32 (Z.lor (Z.land old 0xff) (Z.shiftl value 8))
  else if sel =? 2 then s32 (Z.lor (Z.land old 0xffff) (Z.shiftl value 16))
  else s32 (Z.lor (Z.land old 0xffffff) (Z.shiftl value 24)).

Definition merge_LWR (sel old value : Z) : Z :=
  if sel =? 0 then
    s32 (Z.lor (Z.land (u32 old) 0xffffff00) (Z.land (Z.shiftr value 24) 0xff))
  else if sel =? 1 then
    s32 (Z.lor (Z.land (u32 old) 0xffff0000) (Z.land (Z.shiftr value 16) 0xffff))
  else if sel =? 2 then
    s32 (Z.lor (Z.land (u32 old) 0xff000000) (Z.land (Z.shiftr value 8) 0xffffff))
  else value.

Definition exec_load_partial (i : Instruction) (pcAfter : Z) (m : Machine) (k : K)
    : step_result :=
  a ← reg m (rs i);
  let tmp := s32 (a + extra i) in
  _ ← ASSERT (Z.land tmp 3 =? 0);
  '(r, (m, k)) ← ReadMem tmp 4 m k;
  match r with
  | None => mret (Return, (m, k))
  | Some value =>
      old ← merge_source i m;
      match opCode i with
      | OP_LWL => mret (Next pcAfter (rt i) (merge_LWL (Z.land tmp 3) old value), (m, k))
      | OP_LWR => mret (Next pcAfter (rt i) (merge_LWR (Z.land tmp 3) old value), (m, k))
      | _ => Err AssertFailed
      end
  end.

Definition exec_hilo (i : Instruction) (pcAfter : Z) (m : Machine) (k : K) : step_result :=
  match opCode i with
  | OP_MFHI => a ← reg m HiReg; m ← set_reg m (rd i) a; next pcAfter m k
  | OP_MFLO => a ← reg m LoReg; m ← set_reg m (rd i) a; next pcAfter m k
  | OP_MTHI => a ← reg m (rs i); m ← set_reg m HiReg a; next pcAfter m k
  | OP_MTLO => a ← reg m (rs i); m ← set_reg m LoReg a; next pcAfter m k
  | OP_MULT | OP_MULTU =>
      a ← reg m (rs i); b ← reg m (rt i);
      let '(hi, lo) := Mult a b (bool_decide (opCode i = OP_MULT)) in
      m ← set_reg m HiReg hi; m ← set_reg m LoReg lo; next pcAfter m k
  | _ => Err AssertFailed
  end.

Definition exec_logic (i : Instruction) (pcAfter : Z) (m : Machine) (k : K) : step_result :=
  match opCode i with
  | OP_NOR =>
      a ← reg m (rs i); b ← reg m (rt i);
      m ← set_reg m (rd i) (Z.lnot (Z.lor a b)); next pcAfter m k
  | OP_OR =>
      (* registers[instr->rs] | registers[instr->rs], as written *)
      a ← reg m (rs i); b ← reg m (rs i);
      m ← set_reg m (rd i) (Z.lor a b); next pcAfter m k
  | OP_ORI =>
      a ← reg m (rs i);
      m ← set_reg m (rt i) (Z.lor a (Z.land (extra i) 0xffff)); next pcAfter m k
  | _ => Err AssertFailed
  end.

(** [if (!machine->WriteMem(addr, size, v)) return; break;] *)
Definition store_value (pcAfter addr size v : Z) (m : Machine) (k : K) : step_result :=
  '(ok, (m, k)) ← WriteMem addr size v m k;
  mret ((if (ok : bool) then Next pcAfter 0 0 else Return), (m, k)).

Definition exec_store (i : Instruction) (pcAfter : Z) (m : Machine) (k : K) : step_result :=
  match opCode i with
  | OP_SB =>
      a ← reg m (rs i); b ← reg m (rt i);
      store_value pcAfter (s32 (a + extra i)) 1 b m k
  | OP_SH =>
      a ← reg m (rs i); b ← reg m (rt i);
      store_value pcAfter (s32 (a + extra i)) 2 b m k
  | _ => Err AssertFailed
  end.

Definition exec_shift (i : Instruction) (pcAfter : Z) (m : Machine) (k : K) : step_result :=
  match opCode i with
  | OP_SLL =>
      b ← reg m (rt i);
      m ← set_reg m (rd i) (s32 (Z.shiftl b (extra i))); next pcAfter m k
  | OP_SLLV =>
      b ← reg m (rt i); a ← reg m (rs i);
      m ← set_reg m (rd i) (s32 (Z.shiftl b (Z.land a 0x1f))); next pcAfter m k
  | OP_SLT =>
      a ← reg m (rs i); b ← reg m (rt i);
      m ← set_reg m (rd i) (if a <? b then 1 else 0); next pcAfter m k
  | OP_SLTI =>
      a ← reg m (rs i);
      m ← set_reg m (rt i) (if a <? extra i then 1 else 0); next pcAfter m k
  | OP_SLTIU =>
      a ← reg m (rs i);
      m ← set_reg m (rt i) (if u32 a <? u32 (extra i) then 1 else 0); next pcAfter m k
  | OP_SLTU =>
      a ← reg m (rs i); b ← reg m (rt i);
      m ← set_reg m (rd i) (if u32 a <? u32 b then 1 else 0); next pcAfter m k
  | OP_SRA | OP_SRL =>
      (* both on an int: the shift is arithmetic *)
      b ← reg m (rt i);
      m ← set_reg m (rd i) (Z.shiftr b (extra i)); next pcAfter m k
  | OP_SRAV | OP_SRLV =>
      b ← reg m (rt i); a ← reg m (rs i);
      m ← set_reg m (rd i) (Z.shiftr b (Z.land a 0x1f)); next pcAfter m k
  | _ => Err AssertFailed
  end.

Definition exec_sub (i : Instruction) (pcAfter : Z) (m : Machine) (k : K) : step_result :=
  a ← reg m (rs i); b ← reg m (rt i);
  let diff := s32 (a - b) in
  match opCode i with
  | OP_SUB =>
      if sign_bit (Z.lxor a b) && sign_bit (Z.lxor a diff)
      then raise OverflowException 0 m k
      else m ← set_reg m (rd i) diff; next pcAfter m k
  | OP_SUBU => m ← set_reg m (rd i) diff; next pcAfter m k
  | _ => Err AssertFailed
  end.

Definition merge_SWL (sel value b : Z) : Z :=
  if sel =? 0 then b
  else if sel =? 1 then
    s32 (Z.lor (Z.land (u32 value) 0xff000000) (Z.land (Z.shiftr b 8) 0xffffff))
  else if sel =? 2 then
    s32 (Z.lor (Z.land (u32 value) 0xffff0000) (Z.land (Z.shiftr b 16) 0xffff))
  else
    s32 (Z.lor (Z.land (u32 value) 0xffffff00) (Z.land (Z.shiftr b 24) 0xff)).

Definition merge_SWR (sel value b : Z) : Z :=
  if sel =? 0 then s32 (Z.lor (Z.land value 0xffffff) (Z.shiftl b 24))
  else if sel =? 1 then s32 (Z.lor (Z.land value 0xffff) (Z.shiftl b 16))
  else if sel =? 2 then s32 (Z.lor (Z.land value 0xff) (Z.shiftl b 8))
  else b.

(** SWL and SWR: read the word, merge, write it back. *)
Definition store_partial (i : Instruction) (merge : Z -> Z -> Z -> Z)
    (pcAfter : Z) (m : Machine) (k : K) : step_result :=
  a ← reg m (rs i);
  let tmp := s32 (a + extra i) in
  _ ← ASSERT (Z.land tmp 3 =? 0);
  '(r, (m, k)) ← ReadMem (Z.land tmp (Z.lnot 3)) 4 m k;
  match r with
  | None => mret (Return, (m, k))
  | Some value =>
      b ← reg m (rt i);
      store_value pcAfter (Z.land tmp (Z.lnot 3)) 4 (merge (Z.land tmp 3) value b) m k
  end.

Definition exec_store_word (i : Instruction) (pcAfter : Z) (m : Machine) (k : K)
    : step_result :=
  match opCode i with
  | OP_SW =>
      a ← reg m (rs i); b ← reg m (rt i);
      store_value pcAfter (s32 (a + extra i)) 4 b m k
  | OP_SWL => store_partial i merge_SWL pcAfter m k
  | OP_SWR => store_partial i merge_SWR pcAfter m k
  | _ => Err AssertFailed
  end.

(** The last cases, down to [default: ASSERT(false)]. *)
Definition exec_last (i : Instruction) (pcAfter : Z) (m : Machine) (k : K) : step_result :=
  match opCode i with
  | OP_SYSCALL => raise SyscallException 0 m k
  | OP_XOR =>
      a ← reg m (rs i); b ← reg m (rt i);
      m ← set_reg m (rd i) (Z.lxor a b); next pcAfter m k
  | OP_XORI =>
      a ← reg m (rs i);
      m ← set_reg m (rt i) (Z.lxor a (Z.land (extra i) 0xffff)); next pcAfter m k
  | OP_RES | OP_UNIMP => raise IllegalInstrException 0 m k
  | _ => Err AssertFailed
  end.

(** [switch (instr->opCode)] *)
Definition exec (i : Instruction) : Z -> Machine -> K -> step_result :=
  match opCode i with
  | OP_ADD | OP_ADDI | OP_ADDIU | OP_ADDU | OP_AND | OP_ANDI => exec_add i
  | OP_BEQ | OP_BGEZAL | OP_BGEZ | OP_BGTZ | OP_BLEZ | OP_BLTZAL | OP_BLTZ
  | OP_BNE => exec_branch i
  | OP_DIV | OP_DIVU => exec_div i
  | OP_JAL | OP_J | OP_JALR | OP_JR => exec_jump i
  | OP_LB | OP_LBU | OP_LH | OP_LHU | OP_LUI | OP_LW => exec_load i
  | OP_LWL | OP_LWR => exec_load_partial i
  | OP_MFHI | OP_MFLO | OP_MTHI | OP_MTLO | OP_MULT | OP_MULTU => exec_hilo i
  | OP_NOR | OP_OR | OP_ORI => exec_logic i
  | OP_SB | OP_SH => exec_store i
  | OP_SLL | OP_SLLV | OP_SLT | OP_SLTI | OP_SLTIU | OP_SLTU | OP_SRA | OP_SRAV
  | OP_SRL | OP_SRLV => exec_shift i
  | OP_SUB | OP_SUBU => exec_sub i
  | OP_SW | OP_SWL | OP_SWR => exec_store_word i
  | OP_SYSCALL | OP_XOR | OP_XORI | OP_RES | OP_UNIMP => exec_last i
  | OP_RFE | SPECIAL | BCOND => fun _ _ _ => Err AssertFailed
  end.

(** The delayed load, and the program counters. *)
Definition complete (nextLoadReg nextLoadValue pcAfter : Z) (m : Machine) : res Machine :=
  m ← DelayedLoad m nextLoadReg nextLoadValue;
  pc ← reg m PCReg;
  m ← set_reg m PrevPCReg pc;
  npc ← reg m NextPCReg;
  m ← set_reg m PCReg npc;
  set_reg m NextPCReg pcAfter.

Definition OneInstruction (m : Machine) (k : K) : res (Machine * K) :=
  pc ← reg m PCReg;
  '(raw, (m, k)) ← ReadMem pc 4 m k;
  match raw with
  | None => mret (m, k)
  | Some raw =>
      i ← Decode (u32 raw);
      npc ← reg m NextPCReg;
      '(f, (m, k)) ← exec i (s32 (npc + 4)) m k;
      match f with
      | Return => mret (m, k)
      | Next pcAfter nextLoadReg nextLoadValue =>
          m ← complete nextLoadReg nextLoadValue pcAfter m; mret (m, k)
      end
  end.

(** [Machine::Run] for [fuel] rounds of its [for (;;)], with
    [interrupt->OneTick] and the test that enters the debugger as given. *)
Fixpoint Run_loop (OneTick : Machine -> K -> res (Machine * K))
    (Debug : Machine -> K -> res (Machine * K)) (fuel : nat) (m : Machine) (k : K)
    : res (Machine * K) :=
  match fuel with
  | O => mret (m, k)
  | S fuel =>
      '(m, k) ← OneInstruction m k;
      '(m, k) ← OneTick m k;
      '(m, k) ← Debug m k;
      Run_loop OneTick Debug fuel m k
  end.

Definition Run OneTick Debug (fuel : nat) (m : Machine) (k : K) : res (Machine * K) :=
  Run_loop OneTick Debug fuel m (setStatus UserMode k).
End execute.

(** ** Decode is total and inverts the instruction formats *)

(** The 5-bit register field at bit [k]. *)
Definition field (v k n : Z) : Z := (v / 2 ^ k) mod 2 ^ n.

Lemma field_range v k n : 0 <= n -> 0 <= field v k n < 2 ^ n.
Proof. intros. apply Z.mod_pos_bound, Z.pow_pos_nonneg; lia. Qed.

(** The immediate operand, by format: sign-extended, shift amount, target. *)
Definition immediate (v : Z) (format : op_format) : Z :=
  match format with
  | IFMT => (v + 2 ^ 15) mod 2 ^ 16 - 2 ^ 15
  | RFMT => field v 6 5
  | JFMT => field v 0 26
  end.

Lemma sign_extend_16 v :
  (let e := Z.land v 0xffff in
   if negb (Z.land e 0x8000 =? 0) then s32 (Z.lor e 0xffff0000) else e)
  = (v + 2 ^ 15) mod 2 ^ 16 - 2 ^ 15.
Proof.
  cbv zeta. change 0xffff with (Z.ones 16). rewrite Z.land_ones by done.
  pose proof (Z.mod_pos_bound v (2 ^ 16) ltac:(done)) as Hm.
  change 0x8000 with (2 ^ 15). rewrite land_pow2_test, testbit_top by (done || exact Hm).
  change 0xffff0000 with (Z.shiftl 0xffff 16).
  destruct (Z.leb_spec (2 ^ 15) (v mod 2 ^ 16)).
  - rewrite lor_add_high by (done || exact Hm). change (Z.shiftl 65535 16) with 4294901760.
    change (2 ^ 15) with 32768 in *. word_lia.
  - change (2 ^ 15) with 32768 in *. word_lia.
Qed.

(** An operation the interpreter's [switch] has a case for. *)
Definition has_case (o : op_code) : bool :=
  match o with OP_RFE | SPECIAL | BCOND => false | _ => true end.

Lemma opTable_cases n o f :
  znth opTable n = Some (o, f) -> has_case o = true \/ o = SPECIAL \/ o = BCOND.
Proof.
  intros H. eapply (Forall_znth (fun '(o, f) => has_case o = true \/ o = SPECIAL \/ o = BCOND))
    in H; [exact H|].
  apply Forall_forall. intros [o' f'] Hin. repeat (apply elem_of_cons in Hin as [[= -> ->]|Hin];
    [by auto|]). by apply elem_of_nil in Hin.
Qed.

Lemma specialTable_cases n o : znth specialTable n = Some o -> has_case o = true.
Proof.
  intros H. eapply (Forall_znth (fun o => has_case o = true)) in H; [exact H|].
  repeat constructor.
Qed.

Definition is_shift (o : op_code) : bool :=
  match o with OP_SLL | OP_SRA | OP_SRL => true | _ => false end.

Record wf_instr (i : Instruction) : Prop := {
  wf_rs : 0 <= rs i < NumGPRegs;
  wf_rt : 0 <= rt i < NumGPRegs;
  wf_rd : 0 <= rd i < NumGPRegs;
  wf_extra : is_s32 (extra i);
  wf_shamt : is_shift (opCode i) = true -> 0 <= extra i < 32;
  wf_op : has_case (opCode i) = true
}.

Lemma mask_field v k n m : m = Z.ones n -> 0 <= n -> 0 <= k ->
  Z.land (Z.shiftr v k) m = field v k n.
Proof. intros -> Hn Hk. unfold field. by rewrite Z.land_ones, Z.shiftr_div_pow2. Qed.

(** The final opcode, after the tables for SPECIAL and BCOND. *)
Definition decode_op (v : Z) (o : op_code) : res op_code :=
  match o with
  | SPECIAL => specialTable.[field v 0 6]
  | BCOND => mret
      (match field v 16 5 with
       | 0 => OP_BLTZ | 1 => OP_BGEZ | 16 => OP_BLTZAL | 17 => OP_BGEZAL | _ => OP_UNIMP
       end)
  | _ => mret o
  end.

Lemma bcond_mask v : Z.land v 0x1f0000 = field v 16 5 * 2 ^ 16.
Proof.
  rewrite <- (mask_field v 16 5 0x1f) by done.
  rewrite <- Z.shiftl_mul_pow2 by done. change 0x1f0000 with (Z.shiftl 0x1f 16).
  apply Z.bits_inj'. intros i Hi. rewrite Z.land_spec.
  destruct (Z.ltb_spec i 16).
  - by rewrite !Z.shiftl_spec_low, andb_false_r.
  - rewrite !Z.shiftl_spec, Z.land_spec, Z.shiftr_spec by lia. do 2 f_equal. lia.
Qed.

Lemma bcond_decode v :
  (let i := Z.land v 0x1f0000 in
   if i =? 0 then OP_BLTZ
   else if i =? 0x10000 then OP_BGEZ
   else if i =? 0x100000 then OP_BLTZAL
   else if i =? 0x110000 then OP_BGEZAL
   else OP_UNIMP) =
  match field v 16 5 with
  | 0 => OP_BLTZ | 1 => OP_BGEZ | 16 => OP_BLTZAL | 17 => OP_BGEZAL | _ => OP_UNIMP
  end.
Proof.
  cbv zeta. rewrite bcond_mask. pose proof (field_range v 16 5 ltac:(done)) as Hr.
  change (2 ^ 5) with 32 in Hr.
  assert (exists n, (n < 32)%nat /\ field v 16 5 = Z.of_nat n) as (n & Hn & ->)
    by (exists (Z.to_nat (field v 16 5)); lia).
  do 32 (destruct n; [reflexivity|]). lia.
Qed.

Lemma decode_op_case v o f n :
  znth opTable n = Some (o, f) -> exists o', decode_op v o = Ok o' /\ has_case o' = true.
Proof.
  intros [H|[-> | ->]]%opTable_cases; simpl.
  - exists o. split; [by destruct o|done].
  - destruct (zget_in_range specialTable (field v 0 6)) as [o' E].
    { apply (field_range v 0 6). done. }
    exists o'. split; [done|]. apply zget_Ok in E. by eapply specialTable_cases.
  - eexists; split; [reflexivity|].
    pose proof (field_range v 16 5 ltac:(done)) as Hr. change (2 ^ 5) with 32 in Hr.
    assert (exists n, (n < 32)%nat /\ field v 16 5 = Z.of_nat n) as (k & Hk & ->)
      by (exists (Z.to_nat (field v 16 5)); lia).
    do 32 (destruct k; [reflexivity|]). lia.
Qed.

Lemma immediate_range v f : is_s32 (immediate v f).
Proof.
  unfold immediate, field. destruct f.
  - change (2 ^ 15) with 32768. word_lia.
  - change (2 ^ 5) with 32. word_lia.
  - change (2 ^ 26) with 67108864. word_lia.
Qed.

(** The instruction word's fields, as [Decode] computes them. *)
Lemma Decode_fields v :
  exists o f o', znth opTable (field v 26 6) = Some (o, f) /\
    decode_op v o = Ok o' /\ has_case o' = true /\
    Decode v = Ok (mkInstruction v o' (field v 21 5) (field v 16 5) (field v 11 5)
                     (immediate v f)).
Proof.
  destruct (znth_in_range opTable (field v 26 6)) as [[o f] Hof].
  { apply (field_range v 26 6). done. }
  destruct (decode_op_case v o f _ Hof) as (o' & Ho' & Hcase).
  exists o, f, o'. split_and!; try done.
  unfold Decode. rewrite (mask_field v 26 6), (mask_field v 21 5), (mask_field v 16 5),
    (mask_field v 11 5), (mask_field v 6 5), sign_extend_16, bcond_decode by done.
  rewrite (proj2 (zget_Ok _ _ _) Hof), bind_Ok.
  assert (Z.land v 0x3f = field v 0 6) as ->.
  { rewrite <- (mask_field v 0 6 0x3f) by done. by rewrite Z.shiftr_0_r. }
  assert (Z.land v 0x3ffffff = field v 0 26) as ->.
  { rewrite <- (mask_field v 0 26 0x3ffffff) by done. by rewrite Z.shiftr_0_r. }
  destruct f; (destruct o; simpl in Ho' |- *; rewrite ?Ho'; try done; by injection Ho' as <-).
Qed.

Lemma bcond_no_shift v o' : decode_op v BCOND = Ok o' -> is_shift o' = false.
Proof.
  simpl. intros [= <-]. destruct (field v 16 5) as [|p|p]; [done| |done].
  do 5 (destruct p as [p|p|]; try done).
Qed.

(** A constant shift comes from [specialTable]: its operand is a shift amount. *)
Lemma shift_from_special v n o f o' :
  znth opTable n = Some (o, f) -> decode_op v o = Ok o' -> is_shift o' = true -> f = RFMT.
Proof.
  intros H.
  assert (Forall (fun r => r.2 = RFMT \/ is_shift r.1 = false /\ r.1 <> SPECIAL) opTable) as HF.
  { repeat (apply Forall_cons; split;
      [first [left; reflexivity|right; split; [reflexivity|discriminate]]|]).
    by apply Forall_nil. }
  destruct (Forall_znth _ _ _ _ HF H) as [?|[Hs Hn]]; [done|].
  clear HF H. simpl in Hs, Hn. intros Ed Ho.
  destruct o; try (injection Ed as <-; congruence); [done|].
  apply bcond_no_shift in Ed. congruence.
Qed.

Lemma Decode_wf v i : Decode v = Ok i -> wf_instr i.
Proof.
  intros E. destruct (Decode_fields v) as (o & f & o' & Ht & Ho & Hc & E').
  rewrite E in E'. injection E' as ->.
  split; simpl; try (change NumGPRegs with (2 ^ 5); by apply field_range); try done.
  - apply immediate_range.
  - intros Hs. rewrite (shift_from_special _ _ _ _ _ Ht Ho Hs). simpl.
    change 32 with (2 ^ 5). by apply field_range.
Qed.

(** C32: decoding is total: every instruction word decodes, its operation is
    given by opTable, specialTable and the branch-condition field, its register
    fields are bits 25-21, 20-16 and 15-11, its immediate is the sign-extended
    low half, the shift amount or the 26-bit target by format; and the decoded
    operation always has a case in OneInstruction's switch, so that its
    [default: ASSERT(false)] is never reached. *)
Theorem Decode_correct v :
  exists o f o', znth opTable (field v 26 6) = Some (o, f) /\ decode_op v o = Ok o' /\
    Decode v = Ok (mkInstruction v o' (field v 21 5) (field v 16 5) (field v 11 5)
                     (immediate v f)) /\
    has_case o' = true /\
    wf_instr (mkInstruction v o' (field v 21 5) (field v 16 5) (field v 11 5)
                (immediate v f)).
Proof.
  destruct (Decode_fields v) as (o & f & o' & Ht & Ho & Hc & E).
  exists o, f, o'. split_and!; try done. by eapply Decode_wf.
Qed.

(** ** Every instruction keeps the machine well-formed *)

(** The two host faults a user instruction can cause: INT_MIN / -1, and the
    ASSERT of a partial load or store at a misaligned address. *)
Definition is_partial (o : op_code) : bool :=
  match o with OP_LWL | OP_LWR | OP_SWL | OP_SWR => true | _ => false end.

Definition crashes (i : Instruction) (m : Machine) (f : fault) : Prop :=
  (f = DivideTrap /\ opCode i = OP_DIV /\
     reg m (rs i) = Ok (- 2 ^ 31) /\ reg m (rt i) = Ok (-1)) \/
  (f = AssertFailed /\ is_partial (opCode i) = true /\
     exists a, reg m (rs i) = Ok a /\ Z.land (s32 (a + extra i)) 3 <> 0).

(** Read or write a register at an index in range. *)
Ltac get_reg Hm x Hx :=
  match goal with
  | |- context [reg ?m ?r ≫= _] =>
      let E := fresh "E" in
      destruct (reg_get m r (proj1 Hm) ltac:(assumption || done)) as (x & E & Hx);
      rewrite E, bind_Ok
  end.
Ltac put_reg Hm Hm' :=
  match goal with
  | |- context [set_reg ?m ?r ?v ≫= _] =>
      let m' := fresh "m" in let E := fresh "E" in
      destruct (set_reg_wf m r v Hm) as (m' & E & Hm');
      [assumption || done
      |solve [auto with word]
      |first [done | let Q := fresh in intros Q; unfold LoadReg, NumGPRegs in *; lia]
      |rewrite E, bind_Ok]
  end.

Lemma Mult_range a b s : is_s32 (Mult a b s).1 /\ is_s32 (Mult a b s).2.
Proof.
  unfold Mult. destruct (_ || _); [split; apply is_s32_0|].
  destruct (s && (a <? 0)), (s && (b <? 0)); cbv zeta;
    destruct (mult_loop _ _ _ _ _ _); simpl; split; apply s32_range.
Qed.

Lemma sign_bit_neg x : is_s32 x -> sign_bit x = (x <? 0).
Proof.
  intros Hx. unfold sign_bit, SIGN_BIT. change 0x80000000 with (2 ^ 31).
  rewrite land_pow2_test, testbit_top by (done || apply u32_range).
  destruct (Z.leb_spec (2 ^ 31) (u32 x)), (Z.ltb_spec x 0); word_lia.
Qed.

Lemma low_bits_nonneg v n m : m = Z.ones n -> 0 <= n <= 31 -> is_s32 (Z.land v m).
Proof.
  intros -> Hn. rewrite Z.land_ones by lia.
  pose proof (Z.mod_pos_bound v (2 ^ n) ltac:(apply Z.pow_pos_nonneg; lia)).
  assert (2 ^ n <= 2 ^ 31) by (apply Z.pow_le_mono_r; lia). unfold is_s32. lia.
Qed.

Lemma is_s32_land_low a v n m :
  is_s32 a -> m = Z.ones n -> 0 <= n <= 31 -> is_s32 (Z.land a (Z.land v m)).
Proof. intros. apply is_s32_land; [done|by apply (low_bits_nonneg _ n)]. Qed.

Lemma is_s32_bool (b : bool) : is_s32 (if b then 1 else 0).
Proof. destruct b; word_lia. Qed.

Lemma int_quot_range a b q : is_s32 a -> is_s32 b -> int_quot a b = Ok q -> is_s32 q.
Proof.
  unfold int_quot. intros Ha Hb E.
  destruct ((a =? - 2 ^ 31) && (b =? -1)) eqn:Ed; [done|]. injection E as <-.
  unfold is_s32 in *. change (2 ^ 31) with 2147483648 in *.
  destruct (Z.eqb_spec b 0) as [->|Nb]; [replace (Z.quot a 0) with 0 by (by destruct a); lia|].
  pose proof (Z.quot_rem' a b). pose proof (Z.rem_bound_abs a b Nb).
  destruct (Z.eqb_spec b (-1)) as [->|]; [|destruct (Z.eqb_spec b 1) as [->|]].
  - rewrite andb_true_r in Ed. apply Z.eqb_neq in Ed.
    pose proof (Z.quot_opp_r a 1 ltac:(lia)) as Q. rewrite Z.quot_1_r in Q. simpl (- (1)) in Q. lia.
  - rewrite Z.quot_1_r. lia.
  - assert (Z.abs (Z.quot a b) <= 1073741824); [|lia].
    rewrite <- Z.quot_abs by done. rewrite Z.quot_div_nonneg by lia.
    apply Z.div_le_upper_bound; [lia|]. nia.
Qed.

Lemma int_rem_range a b r : is_s32 a -> is_s32 b -> b <> 0 -> int_rem a b = Ok r -> is_s32 r.
Proof.
  unfold int_rem. intros Ha Hb Nb E.
  destruct ((a =? - 2 ^ 31) && (b =? -1)) eqn:Ed; [done|]. injection E as <-.
  pose proof (Z.rem_bound_abs a b Nb). unfold is_s32 in *. lia.
Qed.

#[export] Hint Resolve is_s32_bool is_s32_land_low low_bits_nonneg : word.

Section safety.
Context {K : Type} `{KernelContract K}.
Implicit Types (m : Machine) (k : K) (i : Instruction).

(** What a group of cases of the switch leaves behind. *)
Definition step_ok (r : flow * (Machine * K)) : Prop :=
  let '(f, (m, k)) := r in
  kernel_inv k /\
  match f with
  | Next pcAfter lr lv =>
      wf_machine m /\ is_s32 pcAfter /\ 0 <= lr < NumGPRegs /\ is_s32 lv
  | Return => wf_cpu m
  end.

Definition step_fault i m (f : fault) : Prop := kernel_fault f \/ crashes i m f.

Lemma next_ok i m0 pc m k :
  wf_machine m -> is_s32 pc -> kernel_inv k -> holds step_ok (step_fault i m0) (next pc m k).
Proof. intros. split; [done|]. split_and!; try done. Qed.

Lemma raise_ok i m0 which bad m k :
  wf_machine m -> is_s32 bad -> kernel_inv k ->
  holds step_ok (step_fault i m0) (raise which bad m k).
Proof.
  intros. eapply holds_bind.
  - eapply holds_mono; [by apply RaiseException_ok|done|by left].
  - intros [m1 k1] [? ?]. by split.
Qed.

Lemma store_value_ok i m0 pc addr size v m k :
  wf_machine m -> access_size size -> is_s32 addr -> is_s32 pc -> kernel_inv k ->
  holds step_ok (step_fault i m0) (store_value pc addr size v m k).
Proof.
  intros. eapply holds_bind.
  - eapply holds_mono; [by apply WriteMem_ok|done|by left].
  - intros [[|] [m1 k1]] [Hk1 Hr]; split; try done.
    split; [apply Hr|]. split; [done|]. split; [done|apply is_s32_0].
Qed.

Lemma load_into_ok i m0 pc tmp size f m k :
  wf_machine m -> wf_instr i -> access_size size -> is_s32 tmp -> is_s32 pc ->
  (forall v, is_s32 v -> is_s32 (f v)) -> kernel_inv k ->
  holds step_ok (step_fault i m0) (load_into i pc tmp size f m k).
Proof.
  intros Hm Hi Hs Ht Hpc Hf Hk. eapply holds_bind.
  - eapply holds_mono; [by apply ReadMem_ok|done|by left].
  - intros [[v|] [m1 k1]] [Hk1 Hr]; split; try done.
    destruct Hr as (? & ? & _). split; [done|]. split; [done|]. split; [apply Hi|auto].
Qed.
(** Step through a group of cases: registers, writes, tests, endings. *)
Ltac exec_steps :=
  repeat (cbv zeta; rewrite ?bind_Ok; first
    [ apply next_ok; [assumption|solve [auto with word]|assumption]
    | apply raise_ok; [assumption|solve [auto with word]|assumption]
    | apply store_value_ok; [assumption|by (left + (right; left) + (right; right))
                            |auto with word|assumption|assumption]
    | match goal with Hm : wf_machine ?m |- context [reg ?m _ ≫= _] =>
        let x := fresh "x" in let Hx := fresh "Hx" in get_reg Hm x Hx end
    | match goal with Hm : wf_machine ?m |- context [set_reg ?m _ _ ≫= _] =>
        let Hm' := fresh "Hm" in put_reg Hm Hm' end
    | case_match ]).

Section groups.
Variables (i : Instruction) (pc : Z) (m : Machine) (k : K).
Hypotheses (Hi : wf_instr i) (Hpc : is_s32 pc) (Hm : wf_machine m) (Hk : kernel_inv k).

Lemma reg_fields :
  0 <= rs i < NumTotalRegs /\ 0 <= rt i < NumTotalRegs /\ 0 <= rd i < NumTotalRegs.
Proof. destruct Hi. unfold NumGPRegs, NumTotalRegs in *. lia. Qed.

Lemma not_LoadReg r v :
  r = rt i \/ r = rd i -> r = LoadReg -> 0 <= v < NumGPRegs.
Proof. destruct Hi. unfold LoadReg, NumGPRegs in *. lia. Qed.

Lemma exec_add_ok :
  opCode i ∈ [OP_ADD; OP_ADDI; OP_ADDIU; OP_ADDU; OP_AND; OP_ANDI] ->
  holds step_ok (step_fault i m) (exec_add i pc m k).
Proof.
  intros Ho. destruct reg_fields as (? & ? & ?). destruct Hi. unfold exec_add.
  get_reg Hm a Ha.
  repeat (apply elem_of_cons in Ho as [Ho|Ho]; [rewrite Ho; exec_steps|]).
  by apply elem_of_nil in Ho.
Qed.

(** One case of the switch at a time. *)
Ltac by_case Ho tac :=
  repeat (apply elem_of_cons in Ho as [Ho|Ho]; [rewrite Ho; tac|]);
  by apply elem_of_nil in Ho.

Lemma IndexToAddr_range x : is_s32 (IndexToAddr x).
Proof. apply s32_range. Qed.

Lemma exec_branch_ok :
  opCode i ∈ [OP_BEQ; OP_BGEZAL; OP_BGEZ; OP_BGTZ; OP_BLEZ; OP_BLTZAL; OP_BLTZ; OP_BNE] ->
  holds step_ok (step_fault i m) (exec_branch i pc m k).
Proof.
  intros Ho. destruct reg_fields as (? & ? & ?). destruct Hi.
  unfold exec_branch, branch, link. by_case Ho exec_steps.
Qed.

Lemma exec_jump_ok :
  opCode i ∈ [OP_JAL; OP_J; OP_JALR; OP_JR] ->
  holds step_ok (step_fault i m) (exec_jump i pc m k).
Proof.
  intros Ho. destruct reg_fields as (? & ? & ?). destruct Hi.
  unfold exec_jump, link, jump_target. by_case Ho exec_steps.
Qed.

Lemma exec_shift_ok :
  opCode i ∈ [OP_SLL; OP_SLLV; OP_SLT; OP_SLTI; OP_SLTIU; OP_SLTU; OP_SRA; OP_SRAV;
    OP_SRL; OP_SRLV] ->
  holds step_ok (step_fault i m) (exec_shift i pc m k).
Proof.
  intros Ho. destruct reg_fields as (? & ? & ?). destruct Hi.
  assert (forall a v, is_s32 a -> is_s32 (Z.shiftr a (Z.land v 0x1f))) as Hsr.
  { intros a v Ha. apply is_s32_shiftr_n; [done|]. apply Z.land_nonneg. by right. }
  assert (forall a, is_shift (opCode i) = true -> is_s32 a -> is_s32 (Z.shiftr a (extra i)))
    as Hsh.
  { intros a Hs Ha. apply is_s32_shiftr_n; [done|]. by apply wf_shamt0. }
  unfold exec_shift.
  repeat (apply elem_of_cons in Ho as [Ho|Ho];
    [specialize (fun a => Hsh a); rewrite Ho in Hsh |- *; exec_steps|]);
  by apply elem_of_nil in Ho.
Qed.

Lemma exec_logic_ok :
  opCode i ∈ [OP_NOR; OP_OR; OP_ORI] ->
  holds step_ok (step_fault i m) (exec_logic i pc m k).
Proof.
  intros Ho. destruct reg_fields as (? & ? & ?). destruct Hi.
  unfold exec_logic. by_case Ho exec_steps.
Qed.

Lemma exec_sub_ok :
  opCode i ∈ [OP_SUB; OP_SUBU] -> holds step_ok (step_fault i m) (exec_sub i pc m k).
Proof.
  intros Ho. destruct reg_fields as (? & ? & ?). destruct Hi.
  unfold exec_sub. by_case Ho exec_steps.
Qed.

Lemma exec_store_ok :
  opCode i ∈ [OP_SB; OP_SH] -> holds step_ok (step_fault i m) (exec_store i pc m k).
Proof.
  intros Ho. destruct reg_fields as (? & ? & ?). destruct Hi.
  unfold exec_store. by_case Ho exec_steps.
Qed.

Lemma exec_last_ok :
  opCode i ∈ [OP_SYSCALL; OP_XOR; OP_XORI; OP_RES; OP_UNIMP] ->
  holds step_ok (step_fault i m) (exec_last i pc m k).
Proof.
  intros Ho. destruct reg_fields as (? & ? & ?). destruct Hi.
  unfold exec_last. by_case Ho exec_steps.
Qed.

Lemma exec_hilo_ok :
  opCode i ∈ [OP_MFHI; OP_MFLO; OP_MTHI; OP_MTLO; OP_MULT; OP_MULTU] ->
  holds step_ok (step_fault i m) (exec_hilo i pc m k).
Proof.
  intros Ho. destruct reg_fields as (? & ? & ?). destruct Hi.
  assert (forall a b s hi lo, Mult a b s = (hi, lo) -> is_s32 hi /\ is_s32 lo) as Hmult.
  { intros a b s hi lo E. pose proof (Mult_range a b s) as HM. by rewrite E in HM. }
  unfold exec_hilo.
  by_case Ho ltac:(exec_steps; repeat match goal with
    | E : Mult _ _ _ = _ |- _ => apply Hmult in E as [? ?] end; exec_steps).
Qed.

Lemma exec_div_ok :
  opCode i ∈ [OP_DIV; OP_DIVU] -> holds step_ok (step_fault i m) (exec_div i pc m k).
Proof.
  intros Ho. destruct reg_fields as (? & ? & ?). destruct Hi. unfold exec_div.
  apply elem_of_cons in Ho as [Ho|Ho]; [|by_case Ho exec_steps]. rewrite Ho.
  get_reg Hm b Hb. destruct (Z.eqb_spec b 0); [exec_steps|].
  get_reg Hm a Ha. destruct (int_quot a b) as [q|f] eqn:Eq.
  2:{ right. left. unfold int_quot in Eq.
      destruct ((a =? - 2 ^ 31) && (b =? -1)) eqn:Ed; [|done].
      apply andb_prop in Ed as [?%Z.eqb_eq ?%Z.eqb_eq]. injection Eq as <-.
      by split_and!; congruence. }
  pose proof (int_quot_range _ _ _ Ha Hb Eq).
  rewrite bind_Ok. put_reg Hm Hm1.
  rewrite !(set_reg_get _ _ _ _ _ E1).
  destruct (Z.eqb_spec (rs i) LoReg); [unfold NumGPRegs, LoReg in *; lia|].
  destruct (Z.eqb_spec (rt i) LoReg); [unfold NumGPRegs, LoReg in *; lia|].
  rewrite E0, E, !bind_Ok. destruct (int_rem a b) as [r|f] eqn:Er.
  2:{ unfold int_quot, int_rem in *. by destruct ((a =? - 2 ^ 31) && (b =? -1)). }
  pose proof (int_rem_range a b r Ha Hb ltac:(done) Er).
  exec_steps.
Qed.

Lemma is_s32_extend_byte s v : is_s32 (extend_byte s v).
Proof.
  unfold extend_byte. destruct (_ && s); [auto with word|].
  by apply (low_bits_nonneg _ 8).
Qed.

Lemma is_s32_extend_half s v : is_s32 (extend_half s v).
Proof.
  unfold extend_half. destruct (_ && s); [auto with word|].
  by apply (low_bits_nonneg _ 16).
Qed.

Lemma exec_load_ok :
  opCode i ∈ [OP_LB; OP_LBU; OP_LH; OP_LHU; OP_LUI; OP_LW] ->
  holds step_ok (step_fault i m) (exec_load i pc m k).
Proof.
  intros Ho. destruct reg_fields as (? & ? & ?). pose proof Hi as Hi'. destruct Hi'.
  unfold exec_load.
  by_case Ho ltac:(exec_steps; apply load_into_ok; try done;
    first [by (left + (right; left) + (right; right))
          |by auto using is_s32_extend_byte, is_s32_extend_half with word]).
Qed.

Lemma partial_fault (a : Z) f :
  is_partial (opCode i) = true -> reg m (rs i) = Ok a ->
  ASSERT (Z.land (s32 (a + extra i)) 3 =? 0) = Err f -> step_fault i m f.
Proof.
  intros Hp Ha. unfold ASSERT. destruct (Z.eqb_spec (Z.land (s32 (a + extra i)) 3) 0); [done|].
  intros [= <-]. right. right. eauto.
Qed.

(** At an aligned address the merges of LWL, LWR, SWL and SWR are trivial. *)
Lemma merge_aligned (a : Z) old value :
  Z.land a 3 = 0 ->
  merge_LWL (Z.land a 3) old value = value /\
  is_s32 (merge_LWR (Z.land a 3) old value) /\
  merge_SWL (Z.land a 3) old value = value /\
  is_s32 (merge_SWR (Z.land a 3) old value).
Proof. intros ->. unfold merge_LWR, merge_SWR. simpl. auto with word. Qed.

Lemma exec_load_partial_ok :
  opCode i ∈ [OP_LWL; OP_LWR] ->
  holds step_ok (step_fault i m) (exec_load_partial i pc m k).
Proof.
  intros Ho. destruct reg_fields as (? & ? & ?). pose proof Hi as Hi'. destruct Hi'.
  assert (is_partial (opCode i) = true) as Hp by (by_case Ho ltac:(done)).
  unfold exec_load_partial. get_reg Hm a Ha. cbv zeta.
  destruct (ASSERT _) as [[]|f] eqn:Ea; [|by eapply partial_fault].
  apply ASSERT_inv, Z.eqb_eq in Ea. rewrite bind_Ok.
  eapply holds_bind.
  { eapply holds_mono; [apply ReadMem_ok; auto with word; by right; right|done|by left]. }
  intros [[v|] [m1 k1]] [Hk1 Hr]; [|by split].
  destruct Hr as (Hm1 & Hv & Hregs). unfold merge_source.
  destruct (wf_load _ (proj1 Hm1)) as (lr & -> & Hlr). rewrite bind_Ok.
  assert (exists old, (if lr =? rt i then reg m1 LoadValueReg else reg m1 (rt i)) = Ok old)
    as [old ->].
  { destruct (lr =? rt i); [destruct (reg_get m1 LoadValueReg (proj1 Hm1))
      |destruct (reg_get m1 (rt i) (proj1 Hm1))]; [done|naive_solver|done|naive_solver]. }
  rewrite bind_Ok. destruct (merge_aligned _ old v Ea) as (HL & HR & _).
  by_case Ho ltac:(split; [done|]; split; [done|]; split; [done|];
    split; [done|]; by rewrite ?HL).
Qed.

Lemma store_partial_ok merge :
  is_partial (opCode i) = true ->
  holds step_ok (step_fault i m) (store_partial i merge pc m k).
Proof.
  intros Hp. destruct reg_fields as (? & ? & ?). pose proof Hi as Hi'. destruct Hi'.
  unfold store_partial. get_reg Hm a Ha. cbv zeta.
  destruct (ASSERT _) as [[]|f] eqn:Ea; [|by eapply partial_fault].
  rewrite bind_Ok.
  assert (is_s32 (Z.land (s32 (a + extra i)) (Z.lnot 3))) as Haddr.
  { apply is_s32_land; [apply s32_range|]. apply is_s32_lnot. word_lia. }
  eapply holds_bind.
  { eapply holds_mono; [apply ReadMem_ok; auto; by right; right|done|by left]. }
  intros [[v|] [m1 k1]] [Hk1 Hr]; [|by split].
  destruct Hr as (Hm1 & Hv & Hregs). get_reg Hm1 b Hb.
  apply store_value_ok; auto. by right; right.
Qed.

Lemma exec_store_word_ok :
  opCode i ∈ [OP_SW; OP_SWL; OP_SWR] ->
  holds step_ok (step_fault i m) (exec_store_word i pc m k).
Proof.
  intros Ho. destruct reg_fields as (? & ? & ?). pose proof Hi as Hi'. destruct Hi'.
  unfold exec_store_word.
  by_case Ho ltac:(try (apply store_partial_ok; by rewrite Ho); exec_steps).
Qed.

Lemma exec_ok : holds step_ok (step_fault i m) (exec i pc m k).
Proof.
  pose proof (wf_op _ Hi) as Hop. unfold exec.
  destruct (opCode i) eqn:Ho; try done;
  first [apply exec_add_ok | apply exec_branch_ok | apply exec_div_ok | apply exec_jump_ok
        |apply exec_load_ok | apply exec_load_partial_ok | apply exec_hilo_ok
        |apply exec_logic_ok | apply exec_store_ok | apply exec_shift_ok | apply exec_sub_ok
        |apply exec_store_word_ok | apply exec_last_ok];
  rewrite Ho, !elem_of_cons; by auto 20.
Qed.
End groups.

Lemma DelayedLoad_regs m nr nv m' lr j :
  DelayedLoad m nr nv = Ok m' -> reg m LoadReg = Ok lr ->
  reg m' j = if j =? 0 then Ok 0 else if j =? LoadValueReg then Ok nv
             else if j =? LoadReg then Ok nr
             else if j =? lr then reg m LoadValueReg else reg m j.
Proof.
  unfold DelayedLoad. intros E Hlr. rewrite Hlr, bind_Ok in E. inv_res.
  rewrite (set_reg_get _ _ _ _ _ E), (set_reg_get _ _ _ _ _ E3), (set_reg_get _ _ _ _ _ E2),
    (set_reg_get _ _ _ _ _ E1), E0. done.
Qed.

Lemma DelayedLoad_mem m nr nv m' :
  DelayedLoad m nr nv = Ok m' -> mainMemory m' = mainMemory m.
Proof.
  unfold DelayedLoad. intros E. inv_res.
  rewrite (proj1 (set_reg_frame _ _ _ _ E)), (proj1 (set_reg_frame _ _ _ _ E4)),
    (proj1 (set_reg_frame _ _ _ _ E3)). apply (set_reg_frame _ _ _ _ E2).
Qed.

Lemma complete_ok m lr lv pcAfter :
  wf_machine m -> 0 <= lr < NumGPRegs -> is_s32 lv -> is_s32 pcAfter ->
  exists m', complete lr lv pcAfter m = Ok m' /\ wf_cpu m'.
Proof.
  intros Hm Hlr Hlv Hpc. unfold complete.
  destruct (DelayedLoad_wf m lr lv Hm Hlr Hlv) as (m1 & E1 & [Hm1 R0]).
  rewrite E1, bind_Ok. get_reg Hm1 pc Hpc1.
  put_reg Hm1 Hm2. get_reg Hm2 npc Hnpc.
  put_reg Hm2 Hm3.
  destruct (set_reg_wf _ NextPCReg pcAfter Hm3) as (m4 & E4 & Hm4); [done|done|done|].
  exists m4. split; [done|]. split; [done|].
  repeat match goal with E : set_reg _ _ _ = Ok ?x |- reg ?x _ = _ =>
    rewrite (set_reg_get _ _ _ _ _ E); simpl end. done.
Qed.

(** The instruction fetched from [m] and the machine after the fetch. *)
Definition fetched m k i m1 : Prop :=
  exists pc raw k1, reg m PCReg = Ok pc /\ ReadMem pc 4 m k = Ok (Some raw, (m1, k1)) /\
    Decode (u32 raw) = Ok i.

Lemma OneInstruction_ok m k :
  wf_cpu m -> kernel_inv k ->
  holds (fun '(m', k') => wf_cpu m' /\ kernel_inv k')
    (fun f => kernel_fault f \/ exists i m1, fetched m k i m1 /\ crashes i m1 f)
    (OneInstruction m k).
Proof.
  intros [Hm R0] Hk. unfold OneInstruction. get_reg Hm pc Hpc.
  pose proof (ReadMem_ok pc 4 m k Hm ltac:(by right; right) Hpc Hk) as Hread.
  destruct (ReadMem pc 4 m k) as [[[raw|] [m1 k1]]|f] eqn:Er; simpl in Hread;
    rewrite ?bind_Ok; [|by split; apply Hread|by left].
  destruct Hread as (Hk1 & Hm1 & Hraw & Hregs).
  destruct (Decode_fields (u32 raw)) as (o & fm & o' & _ & _ & _ & Ed).
  rewrite Ed. pose proof (Decode_wf _ _ Ed) as Hi. revert Ed Hi.
  generalize (mkInstruction (u32 raw) o' (field (u32 raw) 21 5) (field (u32 raw) 16 5)
    (field (u32 raw) 11 5) (immediate (u32 raw) fm)). intros i Ed Hi.
  rewrite bind_Ok. get_reg Hm1 npc Hnpc.
  pose proof (exec_ok i (s32 (npc + 4)) m1 k1 Hi (s32_range _) Hm1 Hk1) as Hex.
  destruct (exec i (s32 (npc + 4)) m1 k1) as [[[pa lr lv|] [m2 k2]]|f]; simpl in Hex;
    rewrite ?bind_Ok.
  - destruct Hex as (Hk2 & Hm2 & Hpa & Hlr & Hlv).
    destruct (complete_ok m2 lr lv pa) as (m3 & -> & Hm3); try done.
  - by split; apply Hex.
  - destruct Hex as [Hf|Hc]; [by left|right]. exists i, m1. split; [|done].
    by exists pc, raw, k1.
Qed.

End safety.

(** ** What a round does with the kernel

    A kernel that notes the exception it is called for, and the machine it is called
    with, and returns at once. *)

Definition trap : Type := option (ExceptionType * Machine).
Definition trap_kernel : Kernel trap := {|
  setStatus _ t := t;
  ExceptionHandler which m _ := Ok (m, Some (which, m))
|}.

(** The instruction the machine is at calls the handler, for this exception. *)
Definition raised (m : Machine) (which : ExceptionType) (m1 : Machine) : Prop :=
  exists m', @OneInstruction trap trap_kernel m None = Ok (m', Some (which, m1)).

Section factoring.
Context {K : Type} `{Kernel K}.
Variable k : K.

(** The outcome [t] with that kernel determines the outcome [r] with any other:
    without an exception it is the same; otherwise the handler is called, once, in
    system mode, and nothing is done after it. *)
Definition factor {A} (failed : A -> Prop) (t : res (A * (Machine * trap))) (r : res (A * (Machine * K))) : Prop :=
  match t with
  | Err f => r = Err f
  | Ok (a, (m, None)) => ~ failed a /\ r = Ok (a, (m, k))
  | Ok (a, (m, Some (which, m1))) => failed a /\
      r = ('(m2, k2) ← ExceptionHandler which m1 (setStatus SystemMode k); Ok (a, (m2, setStatus UserMode k2)))
  end.

Notation factors := (factor (fun f => f = Return)).

Lemma factor_pure {A X} (failed : A -> Prop) (x : res X) f g :
  (forall y, factor failed (f y) (g y)) -> factor failed (x ≫= f) (x ≫= g).
Proof. intros Hf. destruct x as [y|e]; [rewrite !bind_Ok; apply Hf|done]. Qed.

Lemma factor_next pc nl nv m : factors (Ok (Next pc nl nv, (m, None))) (Ok (Next pc nl nv, (m, k))).
Proof. by split. Qed.

Lemma factor_err {A} (failed : A -> Prop) f : factor failed (Err f) (Err f).
Proof. done. Qed.

(** RaiseException, and what follows it. *)
Lemma factor_exception {A} (failed : A -> Prop) a which bad m :
  failed a ->
  factor failed (s ← @RaiseException trap trap_kernel which bad m None; mret (a, s))
                (s ← RaiseException which bad m k; mret (a, s)).
Proof.
  intros Ha. unfold RaiseException. destruct (set_reg m BadVAddrReg bad) as [m1|e]; [|done]. rewrite !bind_Ok.
  destruct (DelayedLoad m1 0 0) as [m2|e]; [|done]. rewrite !bind_Ok. cbn. split; [done|].
  by destruct (ExceptionHandler which m2 (setStatus SystemMode k)) as [[m3 k3]|e].
Qed.

Lemma factor_raise which bad m :
  factors (@raise trap trap_kernel which bad m None) (raise which bad m k).
Proof. unfold raise. by apply factor_exception. Qed.

Lemma factor_ReadMem va size m :
  factor (fun r => r = None) (@ReadMem trap trap_kernel va size m None) (ReadMem va size m k).
Proof.
  unfold ReadMem. apply factor_pure. intros [[ex pa] m1]. destruct (decide _); [|by apply factor_exception].
  repeat match goal with |- context [if ?b then _ else _] => destruct b end; try apply factor_pure; try done.
Qed.

Lemma factor_WriteMem va size v m :
  factor (fun r => r = false) (@WriteMem trap trap_kernel va size v m None) (WriteMem va size v m k).
Proof.
  unfold WriteMem. apply factor_pure. intros [[ex pa] m1]. destruct (decide _); [|by apply factor_exception].
  repeat match goal with |- context [if ?b then _ else _] => destruct b end; try apply factor_pure; try done.
Qed.

(** [if (!machine->ReadMem(..)) return;] *)
Lemma factor_load {A} (failed : A -> Prop) a va size m (f : Z -> Machine -> trap -> res (A * (Machine * trap))) g :
  failed a -> (forall v m1, factor failed (f v m1 None) (g v m1 k)) ->
  factor failed
    ('(r, (m, t)) ← @ReadMem trap trap_kernel va size m None;
     match r with None => mret (a, (m, t)) | Some v => f v m t end)
    ('(r, (m, k)) ← ReadMem va size m k; match r with None => mret (a, (m, k)) | Some v => g v m k end).
Proof.
  intros Ha Hf. pose proof (factor_ReadMem va size m) as HR.
  destruct (@ReadMem trap trap_kernel va size m None) as [[r [m1 [[which m2]|]]]|e]; cbn in HR.
  - destruct HR as [-> ->]. rewrite bind_Ok. cbn. split; [done|].
    by destruct (ExceptionHandler which m2 (setStatus SystemMode k)) as [[m3 k3]|e].
  - destruct HR as [Hr ->]. rewrite !bind_Ok. destruct r as [v|]; [apply Hf|done].
  - by rewrite HR.
Qed.

Lemma factor_store pc va size v m :
  factors (@store_value trap trap_kernel pc va size v m None) (store_value pc va size v m k).
Proof.
  unfold store_value. pose proof (factor_WriteMem va size v m) as HW.
  destruct (@WriteMem trap trap_kernel va size v m None) as [[r [m1 [[which m2]|]]]|e]; cbn in HW.
  - destruct HW as [-> ->]. rewrite bind_Ok. cbn. split; [done|].
    by destruct (ExceptionHandler which m2 (setStatus SystemMode k)) as [[m3 k3]|e].
  - destruct HW as [Hr ->]. rewrite !bind_Ok. destruct r; done.
  - by rewrite HW.
Qed.

Ltac factor_steps :=
  repeat (cbv zeta; first
    [ apply factor_err | apply factor_next | apply factor_raise | apply factor_store
    | eapply (factor_load (fun f => f = Return) Return); [done|]; intros ? ?
    | apply factor_pure; intros ? | case_match ]).

Lemma factor_exec i pc m :
  factors (@exec trap trap_kernel i pc m None) (exec i pc m k).
Proof.
  unfold exec. destruct (opCode i) eqn:Ho;
    unfold exec_add, exec_branch, branch, exec_div, exec_jump, exec_load, load_into, exec_load_partial, exec_hilo,
      exec_logic, exec_store, exec_shift, exec_sub, exec_store_word, store_partial, exec_last, next; rewrite ?Ho;
    factor_steps.
Qed.

Lemma OneInstruction_factor m :
  match @OneInstruction trap trap_kernel m None with
  | Err f => OneInstruction m k = Err f
  | Ok (m', None) => OneInstruction m k = Ok (m', k)
  | Ok (_, Some (which, m1)) => OneInstruction m k =
      ('(m2, k2) ← ExceptionHandler which m1 (setStatus SystemMode k); Ok (m2, setStatus UserMode k2))
  end.
Proof.
  unfold OneInstruction. destruct (reg m PCReg) as [pc|e]; [|done]. rewrite !bind_Ok.
  pose proof (factor_ReadMem pc 4 m) as HR.
  destruct (@ReadMem trap trap_kernel pc 4 m None) as [[r [m1 [[which m2]|]]]|e]; cbn in HR.
  - destruct HR as [-> ->]. rewrite bind_Ok. cbn.
    by destruct (ExceptionHandler which m2 (setStatus SystemMode k)) as [[m3 k3]|e].
  - destruct HR as [Hr ->]. rewrite !bind_Ok. destruct r as [raw|]; [|done].
    destruct (Decode (u32 raw)) as [i|e]; [|done]. rewrite !bind_Ok.
    destruct (reg m1 NextPCReg) as [npc|e]; [|done]. rewrite !bind_Ok.
    pose proof (factor_exec i (s32 (npc + 4)) m1) as HE.
    destruct (@exec trap trap_kernel i (s32 (npc + 4)) m1 None) as [[fl [m2 [[which m3]|]]]|e]; cbn in HE.
    + destruct HE as [-> ->]. rewrite bind_Ok. cbn.
      by destruct (ExceptionHandler which m3 (setStatus SystemMode k)) as [[m4 k4]|e].
    + destruct HE as [Hf ->]. rewrite !bind_Ok. destruct fl as [pa lr lv|]; [|done].
      by destruct (complete lr lv pa m2).
    + by rewrite HE.
  - by rewrite HR.
Qed.
End factoring.

#[local] Instance trap_contract : @KernelContract trap trap_kernel.
Proof.
  refine {| kernel_inv := fun _ => True; kernel_fault := fun _ => False |}.
  - done.
  - intros which m t Hm _. cbn. done.
Defined.

(** *** The faults of a run *)

Section faults.
Context {K : Type} `{KernelContract K}.
Context (OneTick Debug : Machine -> K -> res (Machine * K)).

(** How the round that begins with [m] and [k] faults: the instruction crashes the
    simulator, or the kernel does while it handles the exception that the instruction
    raises, or between this instruction and the next. *)
Inductive round_fault (m : Machine) (k : K) (f : fault) : Prop :=
| instruction_fault i m1 : fetched m k i m1 -> crashes i m1 f -> round_fault m k f
| exception_fault which m1 :
    raised m which m1 -> ExceptionHandler which m1 (setStatus SystemMode k) = Err f -> round_fault m k f
| tick_fault m1 k1 : OneInstruction m k = Ok (m1, k1) -> OneTick m1 k1 = Err f -> round_fault m k f
| debug_fault m1 k1 m2 k2 :
    OneInstruction m k = Ok (m1, k1) -> OneTick m1 k1 = Ok (m2, k2) -> Debug m2 k2 = Err f -> round_fault m k f.

Lemma OneInstruction_fault m k f :
  wf_cpu m -> kernel_inv k -> OneInstruction m k = Err f -> round_fault m k f.
Proof.
  intros Hm Hk E. pose proof (OneInstruction_factor k m) as HF.
  destruct (@OneInstruction trap trap_kernel m None) as [[m' [[which m1]|]]|e] eqn:ET; rewrite E in HF.
  - apply (exception_fault m k f which m1); [by exists m'|].
    destruct (ExceptionHandler which m1 (setStatus SystemMode k)) as [[m2 k2]|e]; [done|by injection HF as ->].
  - done.
  - injection HF as <-.
    pose proof (@OneInstruction_ok trap trap_kernel trap_contract m None Hm I) as Hok. rewrite ET in Hok.
    destruct Hok as [[]|(i & m1 & (pc & raw & t & Epc & Er & Ed) & Hc)].
    apply (instruction_fault m k f i m1); [|exact Hc]. exists pc, raw, k. split; [done|]. split; [|done].
    pose proof (factor_ReadMem k pc 4 m) as HR. rewrite Er in HR. destruct t as [[which m2]|]; cbn in HR; [by destruct HR|].
    by destruct HR as [_ ->].
Qed.

Lemma Run_loop_faults n : forall m k,
  (forall m k, wf_cpu m -> kernel_inv k -> holds (fun '(m', k') => wf_cpu m' /\ kernel_inv k') (fun _ => True) (OneTick m k)) ->
  (forall m k, wf_cpu m -> kernel_inv k -> holds (fun '(m', k') => wf_cpu m' /\ kernel_inv k') (fun _ => True) (Debug m k)) ->
  wf_cpu m -> kernel_inv k ->
  holds (fun '(m', k') => wf_cpu m' /\ kernel_inv k')
    (fun f => exists j m0 k0, (j < n)%nat /\ Run_loop OneTick Debug j m k = Ok (m0, k0) /\
       wf_cpu m0 /\ kernel_inv k0 /\ round_fault m0 k0 f)
    (Run_loop OneTick Debug n m k).
Proof.
  induction n as [|n IH]; intros m k HT HD Hm Hk; [done|].
  assert (forall f, round_fault m k f -> exists j m0 k0, (j < S n)%nat /\ Run_loop OneTick Debug j m k = Ok (m0, k0) /\
    wf_cpu m0 /\ kernel_inv k0 /\ round_fault m0 k0 f) as Hnow by (intros f Hf; exists 0%nat, m, k; split; [lia|done]).
  cbn [Run_loop]. pose proof (OneInstruction_ok m k Hm Hk) as Hok.
  destruct (OneInstruction m k) as [[m1 k1]|f] eqn:E1; [|by apply Hnow, OneInstruction_fault]. rewrite bind_Ok.
  destruct Hok as [Hm1 Hk1]. pose proof (HT m1 k1 Hm1 Hk1) as Hok.
  destruct (OneTick m1 k1) as [[m2 k2]|f] eqn:E2; [|by apply Hnow, (tick_fault m k f m1 k1)]. rewrite bind_Ok.
  destruct Hok as [Hm2 Hk2]. pose proof (HD m2 k2 Hm2 Hk2) as Hok.
  destruct (Debug m2 k2) as [[m3 k3]|f] eqn:E3; [|by apply Hnow, (debug_fault m k f m1 k1 m2 k2)]. rewrite bind_Ok.
  destruct Hok as [Hm3 Hk3]. eapply holds_mono; [by apply IH|done|].
  intros f (j & m0 & k0 & Hj & E & Hrest). exists (S j), m0, k0. split; [lia|]. split; [|done].
  cbn [Run_loop]. by rewrite E1, bind_Ok, E2, bind_Ok, E3, bind_Ok.
Qed.
End faults.

(** C11: running user code is safe.  From a well-formed machine (one table,
    32-bit registers, register 0 zero), under the kernel contract (its handler, what
    it does at a tick and its debugger keep the machine well-formed, or fault), any
    number of rounds of Run keeps the machine well-formed (register 0 is zero again
    after every instruction) and never indexes memory, registers or tables out of
    bounds.  If the run faults, then in a round it has reached, and for one of four
    reasons: the instruction there is a DIV of INT_MIN by -1 (the host traps), or an
    LWL, LWR, SWL or SWR at a misaligned address (an ASSERT); or the instruction
    raises an exception and the kernel's handler, called for it, faults; or the
    kernel does at the tick after it, or in the debugger. *)
Theorem Run_safe {K} `{KernelContract K} OneTick Debug fuel (m : Machine) (k : K) :
  (forall m k, wf_cpu m -> kernel_inv k ->
     holds (fun '(m', k') => wf_cpu m' /\ kernel_inv k') (fun _ => True) (OneTick m k)) ->
  (forall m k, wf_cpu m -> kernel_inv k ->
     holds (fun '(m', k') => wf_cpu m' /\ kernel_inv k') (fun _ => True) (Debug m k)) ->
  wf_cpu m -> kernel_inv k ->
  holds (fun '(m', k') => wf_cpu m' /\ kernel_inv k')
    (fun f => exists n m0 k0, (n < fuel)%nat /\ Run OneTick Debug n m k = Ok (m0, k0) /\
       wf_cpu m0 /\ kernel_inv k0 /\ round_fault OneTick Debug m0 k0 f)
    (Run OneTick Debug fuel m k).
Proof. intros. apply Run_loop_faults; try done. by apply setStatus_inv. Qed.

(** A kernel that returns at once. *)
#[local] Instance null_kernel_inst : Kernel unit := null_kernel.
#[local] Instance null_contract : KernelContract unit.
Proof.
  refine {| kernel_inv := fun _ => True; kernel_fault := fun _ => False |}.
  - done.
  - by intros ? ? ? ? ?.
Defined.

Lemma two_pages_cpu : wf_cpu two_pages.
Proof.
  split; [split; [|apply two_pages_tables]|reflexivity].
  destruct (new_Machine_wf 2 0 false). by split.
Qed.

(** Three rounds of a program of no-ops advance the program counter. *)
Lemma Run_safe_witness :
  wf_cpu two_pages /\
  exists m', Run (fun m (k : unit) => Ok (m, k)) (fun m k => Ok (m, k)) 3 two_pages tt = Ok (m', tt) /\
    reg m' PCReg = Ok 8 /\ wf_cpu m'.
Proof.
  split; [apply two_pages_cpu|].
  pose proof (Run_safe (fun m (k : unit) => Ok (m, k)) (fun m k => Ok (m, k)) 3 two_pages tt
    ltac:(by intros) ltac:(by intros) two_pages_cpu I) as H.
  destruct (Run (fun m (k : unit) => Ok (m, k)) (fun m k => Ok (m, k)) 3 two_pages tt)
    as [[m' []]|f] eqn:E; [|vm_compute in E; discriminate].
  exists m'. split; [done|]. split; [|apply H].
  vm_compute in E. by injection E as <-.
Defined.

(** ** Integer overflow *)

Definition fits (z : Z) : bool := (- 2 ^ 31 <=? z) && (z <? 2 ^ 31).

Lemma lxor_neg a b : (Z.lxor a b <? 0) = xorb (a <? 0) (b <? 0).
Proof.
  pose proof (Z.lxor_nonneg a b).
  destruct (Z.ltb_spec (Z.lxor a b) 0), (Z.ltb_spec a 0), (Z.ltb_spec b 0); simpl; lia.
Qed.

(** The sign test of ADD and ADDI. *)
Lemma add_overflow_test a b x :
  is_s32 a -> is_s32 b -> x = a \/ x = b ->
  negb (sign_bit (Z.lxor a b)) && sign_bit (Z.lxor x (s32 (a + b))) = negb (fits (a + b)).
Proof.
  intros Ha Hb Hx. assert (is_s32 x) by (destruct Hx as [-> | ->]; done).
  rewrite !sign_bit_neg, !lxor_neg by auto with word. unfold fits.
  destruct (Z.ltb_spec a 0), (Z.ltb_spec b 0), (Z.ltb_spec x 0), (Z.ltb_spec (s32 (a + b)) 0),
    (Z.leb_spec (- 2 ^ 31) (a + b)), (Z.ltb_spec (a + b) (2 ^ 31)); simpl; try done; word_lia.
Qed.

(** The sign test of SUB. *)
Lemma sub_overflow_test a b :
  is_s32 a -> is_s32 b ->
  sign_bit (Z.lxor a b) && sign_bit (Z.lxor a (s32 (a - b))) = negb (fits (a - b)).
Proof.
  intros Ha Hb. rewrite !sign_bit_neg, !lxor_neg by auto with word. unfold fits.
  destruct (Z.ltb_spec a 0), (Z.ltb_spec b 0), (Z.ltb_spec (s32 (a - b)) 0),
    (Z.leb_spec (- 2 ^ 31) (a - b)), (Z.ltb_spec (a - b) (2 ^ 31)); simpl; try done; word_lia.
Qed.

Lemma fits_s32 z : fits z = true -> s32 z = z.
Proof. unfold fits. intros H%andb_prop. destruct H. reflect_Z. apply s32_id. unfold is_s32. lia. Qed.

(** ADD, ADDI and SUB raise the overflow exception exactly when the exact
    result does not fit in 32 bits, and otherwise write the exact result. *)
Theorem exec_overflow {K} `{Kernel K} i pc m (k : K) a b :
  reg m (rs i) = Ok a -> reg m (rt i) = Ok b -> is_s32 a -> is_s32 b -> is_s32 (extra i) ->
  let result (r z : Z) : res (flow * (Machine * K)) :=
    if fits z then m' ← set_reg m r z; (next pc m' k : res (flow * (Machine * K))) else raise OverflowException 0 m k in
  (opCode i = OP_ADD -> exec i pc m k = result (rd i) (a + b)) /\
  (opCode i = OP_ADDI -> exec i pc m k = result (rt i) (a + extra i)) /\
  (opCode i = OP_SUB -> exec i pc m k = result (rd i) (a - b)).
Proof.
  intros Ea Eb Ha Hb He. cbv zeta. unfold exec, exec_add, exec_sub.
  split_and!; intros ->; rewrite Ea, bind_Ok, ?Eb, ?bind_Ok; cbv zeta;
    rewrite ?add_overflow_test, ?sub_overflow_test by auto;
    (match goal with |- context [fits ?z] => destruct (fits z) eqn:Ef end; simpl;
      [by rewrite (fits_s32 _ Ef)|done]).
Qed.

(** 2147483647 + 1 overflows; 5 + (-7) does not. *)
Lemma exec_overflow_witness :
  let m := set_registers two_pages (<[1%nat := 2147483647]> (<[2%nat := 1]>
             (registers two_pages))) in
  let i := mkInstruction 0 OP_ADD 1 2 3 0 in
  reg m 1 = Ok 2147483647 /\ reg m 2 = Ok 1 /\
  exec i 8 m tt = raise OverflowException 0 m tt.
Proof.
  intros m i. split; [reflexivity|]. split; [reflexivity|].
  destruct (exec_overflow i 8 m tt 2147483647 1 eq_refl eq_refl
    ltac:(word_lia) ltac:(word_lia) ltac:(simpl; word_lia)) as [H _].
  exact (H eq_refl).
Defined.

(** ** Branches and the load delay slot *)

(** Whether the branch is taken, from the values of its registers. *)
Definition taken (o : op_code) (a b : Z) : bool :=
  match o with
  | OP_BEQ => a =? b | OP_BNE => negb (a =? b)
  | OP_BGEZ | OP_BGEZAL => 0 <=? a | OP_BLTZ | OP_BLTZAL => a <? 0
  | OP_BGTZ => 0 <? a | OP_BLEZ => a <=? 0
  | _ => false
  end.

Definition is_branch (o : op_code) : bool :=
  match o with
  | OP_BEQ | OP_BNE | OP_BGEZ | OP_BGEZAL | OP_BLTZ | OP_BLTZAL | OP_BGTZ | OP_BLEZ => true
  | _ => false
  end.

Definition links (o : op_code) : bool :=
  match o with OP_BGEZAL | OP_BLTZAL => true | _ => false end.

Lemma sign_bit_nonneg a : is_s32 a -> negb (sign_bit a) = (0 <=? a).
Proof. intros H. rewrite sign_bit_neg, Z.ltb_antisym, negb_involutive by done. done. Qed.

(** A conditional branch continues at NextPC + 4 * offset when its
    condition on the signed registers holds and after the delay slot otherwise,
    it changes no memory, and only the linking forms write a register: the
    return address NextPC + 4 in register 31, taken or not. *)
Theorem branch_correct {K} `{Kernel K} i m (k : K) a b npc :
  is_branch (opCode i) = true ->
  reg m (rs i) = Ok a -> reg m (rt i) = Ok b -> reg m NextPCReg = Ok npc ->
  is_s32 a -> zlen (registers m) = NumTotalRegs ->
  (links (opCode i) = true -> rs i <> R31) ->
  exists m', exec i (s32 (npc + 4)) m k =
      Ok (Next (if taken (opCode i) a b then s32 (npc + 4 * extra i) else s32 (npc + 4)) 0 0,
          (m', k)) /\
    mainMemory m' = mainMemory m /\
    forall r, reg m' r = if links (opCode i) && (r =? R31) then Ok (s32 (npc + 4)) else reg m r.
Proof.
  intros Hb Ea Eb En Ha Hlen Hl.
  assert (forall x, s32 (npc + IndexToAddr x) = s32 (npc + 4 * x)) as Hidx.
  { intros x. unfold IndexToAddr. rewrite Z.shiftl_mul_pow2 by done. change (2 ^ 2) with 4.
    word_lia. }
  destruct (links (opCode i)) eqn:El.
  - assert (exists m', set_reg m R31 (s32 (npc + 4)) = Ok m') as [m' Em'].
    { unfold set_reg. rewrite zset_Ok, bind_Ok by (by rewrite Hlen). eauto. }
    exists m'.
    assert (reg m' (rs i) = Ok a /\ reg m' NextPCReg = Ok npc) as [Ea' En'].
    { rewrite !(set_reg_get _ _ _ _ _ Em'). specialize (Hl eq_refl).
      destruct (Z.eqb_spec (rs i) R31); [done|]. by simpl. }
    split; [|split; [apply (set_reg_frame _ _ _ _ Em')|by intros r; rewrite (set_reg_get _ _ _ _ r Em')]].
    unfold exec, exec_branch, branch, link.
    destruct (opCode i); try discriminate; rewrite En, bind_Ok, Em', bind_Ok, Ea', bind_Ok,
      ?sign_bit_nonneg, ?sign_bit_neg by done; cbn [taken];
      (match goal with |- context [if ?c then _ else _] => destruct c end);
      rewrite ?En', ?bind_Ok, ?Hidx; done.
  - exists m. split; [|done]. unfold exec, exec_branch, branch.
    destruct (opCode i); try discriminate; rewrite Ea, bind_Ok, ?Eb, ?bind_Ok,
      ?sign_bit_nonneg, ?sign_bit_neg, ?Z.gtb_ltb by done; cbn [taken];
      (match goal with |- context [if ?c then _ else _] => destruct c end);
      rewrite ?En, ?bind_Ok, ?Hidx; done.
Qed.

(** BGEZAL at address 0 with offset 2 and register 1 equal to -1. *)
Lemma branch_correct_witness :
  let m := set_registers two_pages (<[1%nat := -1]> (<[35%nat := 4]> (registers two_pages))) in
  let i := mkInstruction 0 OP_BGEZAL 1 17 0 2 in
  exists m', exec i (s32 (4 + 4)) m tt = Ok (Next 8 0 0, (m', tt)) /\ reg m' R31 = Ok 8.
Proof.
  intros m i.
  destruct (branch_correct i m tt (-1) 0 4 eq_refl eq_refl eq_refl eq_refl
    ltac:(word_lia) eq_refl ltac:(done)) as (m' & E & _ & Hr).
  exists m'. split; [exact E|]. exact (Hr R31).
Defined.

(** The end of an instruction applies the delayed load of the previous
    instruction, records its own for the next one, keeps register 0 zero,
    advances the program counters (PrevPC := PC, PC := NextPC, NextPC := the
    computed successor), and leaves memory and every other register alone; so a
    load's target changes one instruction after the load. *)
Theorem complete_correct m nr nv pcAfter lr lv pc npc :
  wf_machine m -> 0 <= nr < NumGPRegs -> is_s32 nv -> is_s32 pcAfter ->
  reg m LoadReg = Ok lr -> reg m LoadValueReg = Ok lv ->
  reg m PCReg = Ok pc -> reg m NextPCReg = Ok npc ->
  exists m', complete nr nv pcAfter m = Ok m' /\ wf_cpu m' /\
    mainMemory m' = mainMemory m /\
    forall r, reg m' r =
      if r =? 0 then Ok 0
      else if r =? PCReg then Ok npc else if r =? NextPCReg then Ok pcAfter
      else if r =? PrevPCReg then Ok pc
      else if r =? LoadReg then Ok nr else if r =? LoadValueReg then Ok nv
      else if r =? lr then Ok lv else reg m r.
Proof.
  intros Hm Hnr Hnv Hpa Elr Elv Epc Enpc.
  destruct (complete_ok m nr nv pcAfter) as (m' & E & Hm'); try done.
  exists m'. split; [done|]. split; [done|].
  destruct (wf_load _ (proj1 Hm)) as (lr' & Elr' & Hlr). rewrite Elr in Elr'. injection Elr' as <-.
  unfold complete in E. apply bind_inv in E as (m1 & E1 & E). inv_res.
  pose proof (fun j => DelayedLoad_regs _ _ _ _ _ j E1 Elr) as R1.
  rewrite (set_reg_get _ _ _ _ _ E2) in E3. rewrite R1 in E0. rewrite R1 in E3.
  unfold NumGPRegs, PCReg, NextPCReg, PrevPCReg, LoadReg, LoadValueReg in *.
  destruct (Z.eqb_spec 34 lr), (Z.eqb_spec 35 lr); try lia. simpl in E0, E3.
  rewrite Epc in E0. rewrite Enpc in E3. injection E0 as <-. injection E3 as <-.
  split.
  - rewrite (proj1 (set_reg_frame _ _ _ _ E)), (proj1 (set_reg_frame _ _ _ _ E4)),
      (proj1 (set_reg_frame _ _ _ _ E2)). by eapply DelayedLoad_mem.
  - intros r. rewrite (set_reg_get _ _ _ _ r E), (set_reg_get _ _ _ _ r E4),
      (set_reg_get _ _ _ _ r E2), R1, Elv.
    destruct (Z.eqb_spec r 0) as [->|]; [done|].
    destruct (Z.eqb_spec r 34) as [->|]; [done|]. destruct (Z.eqb_spec r 35) as [->|]; [done|].
    destruct (Z.eqb_spec r 36) as [->|]; [done|]. destruct (Z.eqb_spec r 37) as [->|]; [done|].
    done.
Qed.

(** The instruction after a load into register 5 writes the loaded value. *)
Lemma complete_correct_witness :
  let m := set_registers two_pages (<[37%nat := 5]> (<[38%nat := 77]> (<[35%nat := 4]>
             (registers two_pages)))) in
  exists m', complete 0 0 8 m = Ok m' /\ reg m' 5 = Ok 77 /\ reg m' PCReg = Ok 4 /\
    reg m' LoadReg = Ok 0.
Proof.
  intros m.
  assert (wf_machine m) as Hm.
  { destruct two_pages_cpu as [[[] Ht] _]. split; [|exact Ht]. split; simpl; try done.
    - change (Forall is_s32 (<[37%nat := 5]> (<[38%nat := 77]> (<[35%nat := 4]>
        (registers two_pages))))).
      repeat apply Forall_insert; [exact wf_ints|split; done..].
    - exists 5. by split. }
  destruct (complete_correct m 0 0 8 5 77 0 4 Hm ltac:(done) is_s32_0 ltac:(done)
    eq_refl eq_refl eq_refl eq_refl) as (m' & E & _ & _ & Hr).
  exists m'. split; [exact E|]. split; [exact (Hr 5)|]. split; [exact (Hr PCReg)|exact (Hr LoadReg)].
Defined.

(** ** Where the simulator departs from the MIPS manual *)

(** SRL and SRLV shift an [int], so a negative operand keeps its sign. *)
Lemma SRL_arithmetic :
  let m := set_registers two_pages (<[2%nat := -8]> (registers two_pages)) in
  exists m', exec (mkInstruction 0 OP_SRL 0 2 3 1) 8 m tt = Ok (Next 8 0 0, (m', tt)) /\
    reg m' 3 = Ok (-4).
Proof. eexists. split; vm_compute; reflexivity. Qed.

(** OR combines register rs with itself and ignores register rt. *)
Lemma OR_ignores_rt :
  let m := set_registers two_pages (<[2%nat := 4]> (registers two_pages)) in
  exists m', exec (mkInstruction 0 OP_OR 1 2 3 0) 8 m tt = Ok (Next 8 0 0, (m', tt)) /\
    reg m' 3 = Ok 0.
Proof. eexists. split; vm_compute; reflexivity. Qed.

(** DIV of INT_MIN by -1 traps on the host. *)
Lemma DIV_traps :
  let m := set_registers two_pages (<[1%nat := - 2 ^ 31]> (<[2%nat := -1]>
             (registers two_pages))) in
  exec (mkInstruction 0 OP_DIV 1 2 0 0) 8 m tt = Err DivideTrap.
Proof. reflexivity. Qed.

(** LWL at a misaligned address stops the simulator. *)
Lemma LWL_misaligned_aborts :
  exec (mkInstruction 0 OP_LWL 0 2 0 1) 8 two_pages tt = Err AssertFailed.
Proof. reflexivity. Qed.
