(* ===== verification/Interrupt.v ===== *)
(** * Interrupt: machine/interrupt.h, machine/interrupt.cc, machine/stats.h,
    machine/stats.cc, machine/timer.h and machine/timer.cc

    Simulated time, the interrupt level, and the interrupts scheduled to occur,
    kept in the sorted list of threads/list.cc (the sequence operations of
    NList.v, which the pointer code refines).  The handlers of the devices, the
    pending register load of the machine and the context switch are reached
    through the interface [Hardware]. *)

From S2P Require Import Prelude Machine NList.

(** ** stats.h *)

Definition u64 (z : Z) : Z := z mod 2 ^ 64.

Record Statistics := mkStatistics {
  totalTicks : Z; idleTicks : Z; systemTicks : Z; userTicks : Z;   (* unsigned long long *)
  numDiskReads : Z; numDiskWrites : Z;
  numConsoleCharsRead : Z; numConsoleCharsWritten : Z;
  numPageFaults : Z; numPacketsSent : Z; numPacketsRecvd : Z
}.

Definition UserTick : Z := 1.
Definition SystemTick : Z := 10.
Definition RotationTime : Z := 500.
Definition SeekTime : Z := 500.
Definition ConsoleTime : Z := 100.
Definition NetworkTime : Z := 100.
Definition TimerTicks : Z := 100.

Definition new_Statistics : Statistics := mkStatistics 0 0 0 0 0 0 0 0 0 0 0.

Definition set_ticks (st : Statistics) (total idle system user : Z) : Statistics :=
  mkStatistics total idle system user (numDiskReads st) (numDiskWrites st)
    (numConsoleCharsRead st) (numConsoleCharsWritten st) (numPageFaults st)
    (numPacketsSent st) (numPacketsRecvd st).

(** The numbers of [Statistics::Print], in the order printed. *)
Definition Statistics_Print (st : Statistics) : list Z :=
  [totalTicks st; idleTicks st; systemTicks st; userTicks st;
   numDiskReads st; numDiskWrites st; numConsoleCharsRead st; numConsoleCharsWritten st;
   numPageFaults st; numPacketsRecvd st; numPacketsSent st].

(** ** interrupt.h *)

Inductive IntStatus := IntOff | IntOn.
Inductive IntType :=
  | TimerInt | DiskInt | ConsoleWriteInt | ConsoleReadInt | NetworkSendInt | NetworkRecvInt.

#[export] Instance IntStatus_eq_dec : EqDecision IntStatus.
Proof. solve_decision. Defined.
#[export] Instance IntType_eq_dec : EqDecision IntType.
Proof. solve_decision. Defined.
#[export] Instance MachineStatus_eq_dec : EqDecision MachineStatus.
Proof. solve_decision. Defined.

(** The functions that are scheduled: those of the device emulations, and RoundRobin
    of progtest.cc. *)
Inductive VoidFunctionPtr :=
  | TimerHandler | DiskDone | ConsoleReadPoll | ConsoleWriteDone
  | NetworkReadPoll | NetworkSendDone | RoundRobinHandler.

#[export] Instance VoidFunctionPtr_eq_dec : EqDecision VoidFunctionPtr.
Proof. solve_decision. Defined.

Record PendingInterrupt := mkPending {
  handler : VoidFunctionPtr; arg : Z; when : Z; type : IntType
}.

Record Interrupt := mkInterrupt {
  level : IntStatus;
  pending : list (Z * PendingInterrupt);
  inHandler : bool;
  yieldOnReturn : bool;
  status : MachineStatus
}.

Definition new_Interrupt : Interrupt := mkInterrupt IntOff [] false false SystemMode.

(** The destructor empties the list. *)
Fixpoint delete_Interrupt (p : list (Z * PendingInterrupt)) : list (Z * PendingInterrupt) :=
  match p with [] => [] | _ :: p' => delete_Interrupt p' end.

Definition set_pending (i : Interrupt) p := mkInterrupt (level i) p (inHandler i) (yieldOnReturn i) (status i).
Definition set_inHandler (i : Interrupt) b := mkInterrupt (level i) (pending i) b (yieldOnReturn i) (status i).
Definition set_yieldOnReturn (i : Interrupt) b := mkInterrupt (level i) (pending i) (inHandler i) b (status i).
Definition set_status (i : Interrupt) st := mkInterrupt (level i) (pending i) (inHandler i) (yieldOnReturn i) st.

Definition ChangeLevel (now : IntStatus) (i : Interrupt) : Interrupt :=
  mkInterrupt now (pending i) (inHandler i) (yieldOnReturn i) (status i).

(** ** The system: the interrupts, the statistics and the rest *)

Record sys (W : Type) := mkSys { intr : Interrupt; stats : Statistics; world : W }.
Arguments mkSys {W}. Arguments intr {W}. Arguments stats {W}. Arguments world {W}.

(** What the interrupt simulation calls: a device's handler, the machine's
    [DelayedLoad(0, 0)] ([machine] may be NULL) and [currentThread->Yield()]. *)
Class Hardware (W : Type) := {
  call_handler : VoidFunctionPtr -> Z -> sys W -> res (sys W);
  machine_DelayedLoad : W -> res W;
  currentThread_Yield : sys W -> res (sys W)
}.

Section interrupt.
Context {W : Type} `{Hardware W}.
Implicit Types (s : sys W).

Definition on_intr (f : Interrupt -> Interrupt) s : sys W := mkSys (f (intr s)) (stats s) (world s).
Definition now s : Z := totalTicks (stats s).

Definition Schedule (h : VoidFunctionPtr) (a fromNow : Z) (ty : IntType) s : res (sys W) :=
  let when := u64 (now s + fromNow) in
  let toOccur := mkPending h a when ty in
  _ ← ASSERT (fromNow >? 0);
  mret (on_intr (fun i => set_pending i (l_insert (pending i) toOccur when)) s).

(** [stats->idleTicks += (when - stats->totalTicks); stats->totalTicks = when;] *)
Definition advance (when : Z) s : sys W :=
  let st := stats s in
  mkSys (intr s)
    (set_ticks st when (u64 (idleTicks st + (when - totalTicks st))) (systemTicks st) (userTicks st))
    (world s).

(** [pending->SortedInsert(toOccur, when); return false;] *)
Definition put_back (when : Z) (toOccur : PendingInterrupt) s : bool * sys W :=
  (false, on_intr (fun i => set_pending i (l_insert (pending i) toOccur when)) s).

(** The end of CheckIfDue: the interrupt taken off the list is due. *)
Definition fire (when : Z) (toOccur : PendingInterrupt) s : res (bool * sys W) :=
  let old := status (intr s) in
  if bool_decide (status (intr s) = IdleMode)
     && bool_decide (type toOccur = TimerInt) && bool_decide (pending (intr s) = [])
  then mret (put_back when toOccur s)
  else
    w ← machine_DelayedLoad (world s);
    let s := mkSys (set_status (set_inHandler (intr s) true) SystemMode) (stats s) w in
    s ← call_handler (handler toOccur) (arg toOccur) s;
    mret (true, on_intr (fun i => set_inHandler (set_status i old) false) s).

Definition CheckIfDue (advanceClock : bool) s : res (bool * sys W) :=
  _ ← ASSERT (bool_decide (level (intr s) = IntOff));
  match l_remove (pending (intr s)) with
  | (None, _) => mret (false, s)
  | (Some (when, toOccur), rest) =>
      let s := on_intr (fun i => set_pending i rest) s in
      if advanceClock && (when >? now s) then fire when toOccur (advance when s)
      else if when >? now s then mret (put_back when toOccur s)
      else fire when toOccur s
  end.

(** [while (CheckIfDue(false));] *)
Fixpoint check_loop (fuel : nat) s : res (sys W) :=
  match fuel with
  | O => Err OutOfFuel
  | S fuel =>
      '(fired, s) ← CheckIfDue false s;
      if (fired : bool) then check_loop fuel s else mret s
  end.

Definition check_all s : res (sys W) := check_loop (S (length (pending (intr s)))) s.

(** OneTick, up to the test of [yieldOnReturn]. *)
Definition tick_and_fire s : res (sys W) :=
  let st := stats s in
  let st :=
    if bool_decide (status (intr s) = SystemMode)
    then set_ticks st (u64 (totalTicks st + SystemTick)) (idleTicks st)
           (u64 (systemTicks st + SystemTick)) (userTicks st)
    else set_ticks st (u64 (totalTicks st + UserTick)) (idleTicks st)
           (systemTicks st) (u64 (userTicks st + UserTick)) in
  s ← check_all (mkSys (ChangeLevel IntOff (intr s)) st (world s));
  mret (on_intr (ChangeLevel IntOn) s).

Definition OneTick s : res (sys W) :=
  let old := status (intr s) in
  s ← tick_and_fire s;
  if yieldOnReturn (intr s) then
    s ← currentThread_Yield
          (on_intr (fun i => set_status (set_yieldOnReturn i false) SystemMode) s);
    mret (on_intr (fun i => set_status i old) s)
  else mret s.

(** The old level, and the new state. *)
Definition SetLevel (now : IntStatus) s : res (IntStatus * sys W) :=
  let old := level (intr s) in
  _ ← ASSERT (bool_decide (now = IntOff) || negb (inHandler (intr s)));
  let s := on_intr (ChangeLevel now) s in
  s ← (if bool_decide (now = IntOn) && bool_decide (old = IntOff)
       then OneTick s else mret s);
  mret (old, s).

Definition Enable s : res (sys W) := '(_, s) ← SetLevel IntOn s; mret s.

Definition YieldOnReturn s : res (sys W) :=
  _ ← ASSERT (inHandler (intr s));
  mret (on_intr (fun i => set_yieldOnReturn i true) s).

(** [None] when Idle calls [Halt], which does not return. *)
Definition Idle s : res (option (sys W)) :=
  let s := on_intr (fun i => set_status i IdleMode) s in
  '(fired, s) ← CheckIfDue true s;
  if (fired : bool) then
    s ← check_all s;
    mret (Some (on_intr (fun i => set_status (set_yieldOnReturn i false) SystemMode) s))
  else mret None.

(** What DumpState prints. *)
Definition PrintPending (p : PendingInterrupt) : IntType * Z := (type p, when p).
Definition DumpState s : Z * IntStatus * list (IntType * Z) :=
  (now s, level (intr s), map (fun x => PrintPending x.2) (pending (intr s))).
End interrupt.

(** ** The contract of the handlers *)

Definition is_u64 (z : Z) : Prop := 0 <= z < 2 ^ 64.

Lemma u64_range z : is_u64 (u64 z).
Proof. unfold u64, is_u64. apply Z.mod_pos_bound. lia. Qed.

Definition ticks (st : Statistics) : Z * Z * Z * Z :=
  (totalTicks st, idleTicks st, systemTicks st, userTicks st).

(** The statistics account for all the time that has passed. *)
Definition balanced (st : Statistics) : Prop :=
  totalTicks st = u64 (idleTicks st + systemTicks st + userTicks st).

(** The 64-bit clock is far from wrapping around. *)
Definition clock_ok (st : Statistics) : Prop := 0 <= totalTicks st /\ totalTicks st + 2 ^ 32 < 2 ^ 64.

(** The pending list is sorted by the time of the interrupt. *)
Record wf_sys {W} (s : sys W) : Prop := {
  wf_sorted : sorted (pending (intr s));
  wf_keys : Forall (fun x => is_u64 x.1) (pending (intr s));
  wf_balanced : balanced (stats s)
}.

Definition due {W} (s : sys W) (x : Z * PendingInterrupt) : bool := x.1 <=? totalTicks (stats s).

(** An interrupt handler keeps the clock and the interrupt level, and only adds
    interrupts in the future. *)
Record handler_post {W} (s s' : sys W) : Prop := {
  hp_level : level (intr s') = level (intr s);
  hp_ticks : ticks (stats s') = ticks (stats s);
  hp_sorted : sorted (pending (intr s)) -> sorted (pending (intr s'));
  hp_pending : exists added, pending (intr s') ≡ₚ added ++ pending (intr s) /\
    Forall (fun x => totalTicks (stats s) < x.1 /\ is_u64 x.1) added
}.

Class HardwareContract (W : Type) `{Hardware W} := {
  hw_fault : fault -> Prop;
  hw_fuel : hw_fault OutOfFuel -> False;
  call_handler_ok : forall h a s, level (intr s) = IntOff -> inHandler (intr s) = true ->
    clock_ok (stats s) ->
    holds (handler_post s) hw_fault (call_handler h a s);
  machine_DelayedLoad_ok : forall w, holds (fun _ => True) hw_fault (machine_DelayedLoad w)
}.

(** Scheduling is what a handler may do. *)
Lemma Schedule_post {W} h a fromNow ty (s : sys W) :
  0 < fromNow -> 0 <= now s -> now s + fromNow < 2 ^ 64 ->
  exists s', Schedule h a fromNow ty s = Ok s' /\ handler_post s s' /\
    pending (intr s') = l_insert (pending (intr s)) (mkPending h a (now s + fromNow) ty)
                          (now s + fromNow) /\
    stats s' = stats s /\ world s' = world s /\ inHandler (intr s') = inHandler (intr s).
Proof.
  intros Hf Hn Hb. unfold Schedule. rewrite ASSERT_true by (rewrite Z.gtb_ltb; by apply Z.ltb_lt).
  rewrite bind_Ok. assert (u64 (now s + fromNow) = now s + fromNow) as ->.
  { unfold u64. apply Z.mod_small. lia. }
  eexists; split; [reflexivity|]. split_and!; try done. split; try done.
  - intros Hs. by apply l_insert_sorted.
  - eexists [_]. split; [apply l_insert_Permutation|].
    constructor; [|done]. unfold is_u64. unfold now in *. simpl. lia.
Qed.

Lemma filter_id {A} (P : A -> Prop) `{forall x, Decision (P x)} (l : list A) :
  Forall P l -> filter P l = l.
Proof. induction 1; [done|]. by rewrite filter_cons_True, IHForall. Qed.

Section interrupt_props.
Context {W : Type} `{HardwareContract W}.
Implicit Types (s : sys W).

(** Nothing is due, or the machine idles with only the timer pending. *)
Definition settled s : Prop :=
  Forall (fun x => due s x = false) (pending (intr s)) \/
  status (intr s) = IdleMode /\ exists k p, pending (intr s) = [(k, p)] /\ type p = TimerInt.

Definition num_due s : nat := length (filter (fun x => due s x = true) (pending (intr s))).

Lemma due_perm s s' added :
  totalTicks (stats s') = totalTicks (stats s) ->
  pending (intr s') ≡ₚ added ++ pending (intr s) ->
  Forall (fun x => totalTicks (stats s) < x.1 /\ is_u64 x.1) added ->
  num_due s' = num_due s.
Proof.
  intros Ht Hp Ha. unfold num_due.
  rewrite (Permutation_length (filter_Permutation (fun x => due s' x = true) _ _ Hp)).
  rewrite list.filter_app, length_app.
  rewrite (list_filter_iff (fun x => due s' x = true) (fun x => due s x = true)
    (pending (intr s))) by (intros x; unfold due; by rewrite Ht).
  replace (length (filter (fun x => due s' x = true) added)) with 0%nat; [done|].
  symmetry. apply length_zero_iff_nil. clear Hp. induction Ha as [|x l [Hx _] Ha IH]; [done|].
  rewrite filter_cons_False; [done|]. unfold due. rewrite Ht, Z.leb_le. lia.
Qed.

(** What a call of CheckIfDue preserves. *)
Record check_post s s' : Prop := {
  cp_level : level (intr s') = IntOff;
  cp_status : status (intr s') = status (intr s);
  cp_wf : wf_sys s'
}.

Lemma wf_same_ticks s s' : ticks (stats s') = ticks (stats s) ->
  balanced (stats s) -> balanced (stats s').
Proof. unfold ticks, balanced. intros [= -> -> -> ->]. done. Qed.

(** [s'] has the interrupts [l] pending, and new ones in the future. *)
Definition adds s' (st : Statistics) (l : list (Z * PendingInterrupt)) : Prop :=
  exists added, pending (intr s') ≡ₚ added ++ l /\
    Forall (fun x => totalTicks st < x.1 /\ is_u64 x.1) added.

(** The machine idles and the interrupt taken off is the last one, the timer. *)
Definition last_timer (p : PendingInterrupt) s : Prop :=
  status (intr s) = IdleMode /\ type p = TimerInt /\ pending (intr s) = [].

(** Calling the handler of the removed interrupt. *)
Lemma fire_ok k p s :
  level (intr s) = IntOff -> sorted (pending (intr s)) ->
  Forall (fun x => is_u64 x.1) (pending (intr s)) -> balanced (stats s) -> clock_ok (stats s) ->
  holds (fun '(fired, s') =>
      if (fired : bool) then
        ~ last_timer p s /\ level (intr s') = IntOff /\ status (intr s') = status (intr s) /\
        inHandler (intr s') = false /\ wf_sys s' /\ adds s' (stats s) (pending (intr s)) /\
        ticks (stats s') = ticks (stats s)
      else last_timer p s /\ s' = (put_back k p s).2) hw_fault
    (fire k p s).
Proof.
  intros Hl Hs Hk Hb Hc. unfold fire.
  destruct (bool_decide (status (intr s) = IdleMode) && bool_decide (type p = TimerInt)
            && bool_decide (pending (intr s) = [])) eqn:Eidle.
  { apply andb_prop in Eidle as [Eidle Er%bool_decide_eq_true].
    apply andb_prop in Eidle as [Hi%bool_decide_eq_true Ht%bool_decide_eq_true]. done. }
  eapply holds_bind; [apply machine_DelayedLoad_ok|].
  intros w' _. eapply holds_bind; [by apply call_handler_ok|].
  intros s' [Hl' Ht Hso (added & Hp & Ha)]. simpl in *. split_and!; try done.
  - intros (Hi & Hty & Hp'). rewrite !bool_decide_true in Eidle by done. done.
  - congruence.
  - split; simpl; [by apply Hso| |by eapply wf_same_ticks].
    rewrite Hp. apply Forall_app. split; [|done]. eapply Forall_impl; [exact Ha|]. by intros x [].
  - by exists added.
Qed.

Lemma sorted_head (x : Z * PendingInterrupt) l :
  sorted (x :: l) -> Forall (fun y => x.1 <= y.1) l /\ sorted l.
Proof. intros Hs. by apply StronglySorted_inv in Hs as [? ?]. Qed.

(** Nothing is due when the first interrupt is not. *)
Lemma not_due_all k p rest s :
  sorted ((k, p) :: rest) -> now s < k ->
  Forall (fun x => due s x = false) ((k, p) :: rest).
Proof.
  intros [Hall _]%sorted_head Hk. unfold now in Hk. constructor.
  - unfold due. simpl. by apply Z.leb_gt.
  - eapply Forall_impl; [exact Hall|]. intros x Hx. simpl in Hx.
    unfold due. apply Z.leb_gt. lia.
Qed.

Lemma put_back_wf s k p rest :
  wf_sys s -> pending (intr s) = (k, p) :: rest ->
  wf_sys (on_intr (fun i => set_pending i (l_insert rest p k)) s) /\
  l_insert rest p k ≡ₚ pending (intr s).
Proof.
  intros [Hs Hk Hb] Ep. rewrite Ep in *. split; [|apply l_insert_Permutation].
  split; simpl; [|by rewrite l_insert_Permutation|done].
  apply l_insert_sorted. by apply sorted_head in Hs as [_ ?].
Qed.

Lemma CheckIfDue_false s :
  level (intr s) = IntOff -> wf_sys s -> clock_ok (stats s) ->
  holds (fun '(fired, s') =>
      level (intr s') = IntOff /\ status (intr s') = status (intr s) /\ wf_sys s' /\
      ticks (stats s') = ticks (stats s) /\
      if (fired : bool) then
        exists x rest, pending (intr s) = x :: rest /\ due s x = true /\ adds s' (stats s) rest
      else settled s' /\ pending (intr s') ≡ₚ pending (intr s) /\
           yieldOnReturn (intr s') = yieldOnReturn (intr s)) hw_fault
    (CheckIfDue false s).
Proof.
  intros Hl Hwf Hclk. pose proof Hwf as [Hs Hk Hb]. unfold CheckIfDue.
  rewrite bool_decide_true, ASSERT_true, bind_Ok by done.
  destruct (pending (intr s)) as [|[k p] rest] eqn:Ep; cbn [l_remove].
  { simpl. split; [done|]. split; [done|]. split; [done|]. split; [done|].
    rewrite Ep. split; [left; by rewrite Ep|done]. }
  destruct (put_back_wf s k p rest Hwf Ep) as [Hwf' Hperm].
  destruct (sorted_head _ _ Hs) as [Hall Hsr]. apply Forall_cons in Hk as [Hk Hkr].
  cbn [andb]. rewrite Z.gtb_ltb. unfold now at 1. cbn [stats on_intr].
  destruct (Z.ltb_spec (totalTicks (stats s)) k).
  { rewrite Ep in Hperm. split; [done|]. split; [done|]. split; [done|]. split; [done|].
    split; [|done]. left. simpl. rewrite Hperm. by apply not_due_all. }
  eapply holds_mono; [by apply fire_ok| |done].
  intros [[|] s']; simpl.
  - intros (_ & ? & ? & _ & ? & ? & ?). split_and!; try done.
    exists (k, p), rest. split_and!; try done. unfold due. by apply Z.leb_le.
  - intros [(Hi & Ht & Hr) ->]. simpl in Hr. subst rest. split; [done|]. split; [done|].
    split; [done|]. split; [done|]. split; [|done]. right. split; [done|]. by exists k, p.
Qed.

(** The interrupts of [s] that are not due. *)
Definition later s : list (Z * PendingInterrupt) :=
  filter (fun x => due s x = false) (pending (intr s)).

Lemma fired_due s s' x rest :
  pending (intr s) = x :: rest -> due s x = true -> adds s' (stats s) rest ->
  totalTicks (stats s') = totalTicks (stats s) -> num_due s = S (num_due s').
Proof.
  intros Ep Hx (added & Hp & Ha) Ht. unfold num_due at 1. rewrite Ep, filter_cons_True by done.
  simpl. f_equal.
  pose proof (due_perm (on_intr (fun i => set_pending i rest) s) s' added Ht Hp Ha) as ->.
  done.
Qed.

Lemma fired_later s s' x rest :
  pending (intr s) = x :: rest -> due s x = true -> adds s' (stats s) rest ->
  totalTicks (stats s') = totalTicks (stats s) ->
  exists added, later s' ≡ₚ added ++ later s /\
    Forall (fun x => totalTicks (stats s) < x.1 /\ is_u64 x.1) added.
Proof.
  intros Ep Hx (added & Hp & Ha) Ht. unfold later. rewrite Ep, filter_cons_False by (by rewrite Hx).
  exists (filter (fun x => due s' x = false) added). split.
  - rewrite Hp, list.filter_app. f_equiv.
    rewrite (list_filter_iff (fun x => due s' x = false) (fun x => due s x = false)); [done|].
    intros y. unfold due. by rewrite Ht.
  - apply Forall_forall. intros y [_ Hy]%list_elem_of_filter. by eapply Forall_forall in Ha.
Qed.

Lemma check_loop_ok fuel : forall s,
  (num_due s < fuel)%nat -> level (intr s) = IntOff -> wf_sys s -> clock_ok (stats s) ->
  holds (fun s' => level (intr s') = IntOff /\ status (intr s') = status (intr s) /\
      wf_sys s' /\ ticks (stats s') = ticks (stats s) /\ settled s' /\
      exists added, later s' ≡ₚ added ++ later s /\
        Forall (fun x => totalTicks (stats s) < x.1 /\ is_u64 x.1) added) hw_fault
    (check_loop fuel s).
Proof.
  induction fuel as [|fuel IH]; intros s Hn Hl Hwf Hc; [lia|]. cbn [check_loop].
  eapply holds_bind; [by apply CheckIfDue_false|].
  intros [[|] s1] (Hl1 & Hst1 & Hwf1 & Ht1 & Hr).
  - destruct Hr as (x & rest & Ep & Hx & Hadds).
    assert (totalTicks (stats s1) = totalTicks (stats s)) as Ht by (by injection Ht1).
    pose proof (fired_due _ _ _ _ Ep Hx Hadds Ht) as Hd.
    destruct (fired_later _ _ _ _ Ep Hx Hadds Ht) as (a1 & Hp1 & Ha1).
    eapply holds_mono; [apply IH; [lia|done|done|unfold clock_ok; by rewrite Ht]| |done].
    intros s2 (? & Hst2 & ? & Ht2 & ? & a2 & Hp2 & Ha2). rewrite Ht in Ha2.
    split_and!; try done; try congruence. exists (a2 ++ a1). split.
    + by rewrite Hp2, Hp1, app_assoc.
    + by apply Forall_app.
  - destruct Hr as (Hset & Hp & _). split_and!; try done. exists []. split; [|done].
    unfold later. rewrite Hp. simpl. injection Ht1 as Ht _ _ _.
    rewrite (list_filter_iff (fun x => due s1 x = false) (fun x => due s x = false)); [done|].
    intros y. unfold due. by rewrite Ht.
Qed.

(** The handlers of [l] are called one after the other: each interrupt is taken off
    the front of the list, the delayed load of the machine is done, and its handler is
    called with its argument, in system mode. *)
Inductive serves : list (Z * PendingInterrupt) -> sys W -> sys W -> Prop :=
| serves_none s : serves [] s s
| serves_one x rest l s w s1 s2 :
    pending (intr s) = x :: rest ->
    machine_DelayedLoad (world s) = Ok w ->
    call_handler (handler x.2) (arg x.2)
      (mkSys (set_status (set_inHandler (set_pending (intr s) rest) true) SystemMode) (stats s) w) = Ok s1 ->
    serves l (on_intr (fun i => set_inHandler (set_status i (status (intr s))) false) s1) s2 ->
    serves (x :: l) s s2.

Lemma serves_cons x l s s1 s2 : serves [x] s s1 -> serves l s1 s2 -> serves (x :: l) s s2.
Proof. intros H1 H2. inversion H1; subst. match goal with X : serves [] _ _ |- _ => inversion X; subst end. by econstructor. Qed.

(** One round of the loop calls the handler of the first interrupt, or leaves the
    list as it is, up to the order of simultaneous interrupts. *)
Lemma CheckIfDue_serves s fired s' :
  CheckIfDue false s = Ok (fired, s') ->
  if (fired : bool) then exists x rest, pending (intr s) = x :: rest /\ serves [x] s s'
  else exists q, s' = on_intr (fun i => set_pending i q) s.
Proof.
  unfold CheckIfDue. intros E. apply bind_inv in E as (u & _ & E).
  destruct (pending (intr s)) as [|[k p] rest] eqn:Ep; cbn [l_remove] in E.
  { apply Ok_inj in E as [= <- <-]. exists []. rewrite <- Ep. by destruct s as [[] ? ?]. }
  cbn [andb] in E. destruct (k >? _).
  { apply Ok_inj in E as [= <- <-]. by eexists. }
  unfold fire in E. destruct (_ && _ && _) in E.
  { apply Ok_inj in E as [= <- <-]. by eexists. }
  apply bind_inv in E as (w & Ew & E). apply bind_inv in E as (s1 & E1 & E). apply Ok_inj in E as [= <- <-].
  exists (k, p), rest. split; [done|]. econstructor; [exact Ep|exact Ew|exact E1|]. apply serves_none.
Qed.

(** What is due, in the order of the times. *)
Definition served s (l : list (Z * PendingInterrupt)) : Prop :=
  l ≡ₚ filter (fun x => due s x = true) (pending (intr s)) /\ sorted l.

Lemma due_adds s s' rest :
  totalTicks (stats s') = totalTicks (stats s) -> adds s' (stats s) rest ->
  filter (fun x => due s' x = true) (pending (intr s')) ≡ₚ filter (fun x => due s x = true) rest.
Proof.
  intros Ht (added & Hp & Ha). rewrite Hp, list.filter_app.
  rewrite (list_filter_iff (fun x => due s' x = true) (fun x => due s x = true) rest) by (intros x; unfold due; by rewrite Ht).
  replace (filter (fun x => due s' x = true) added) with (@nil (Z * PendingInterrupt)); [done|].
  symmetry. clear Hp. induction Ha as [|x l [Hx _] Ha IH]; [done|].
  rewrite filter_cons_False; [done|]. unfold due. rewrite Ht, Z.leb_le. lia.
Qed.

Lemma check_loop_serves fuel : forall s s',
  level (intr s) = IntOff -> wf_sys s -> clock_ok (stats s) -> status (intr s) <> IdleMode ->
  check_loop fuel s = Ok s' ->
  exists l s0 q, serves l s s0 /\ s' = on_intr (fun i => set_pending i q) s0 /\ served s l.
Proof.
  induction fuel as [|fuel IH]; intros s s' Hl Hwf Hc Hst E; [done|]. cbn [check_loop] in E.
  pose proof (CheckIfDue_false s Hl Hwf Hc) as Hok. apply bind_inv in E as ([fired s1] & E1 & E).
  pose proof (CheckIfDue_serves _ _ _ E1) as Hs. rewrite E1 in Hok. cbn [holds] in Hok.
  destruct Hok as (Hl1 & Hst1 & Hwf1 & Ht1 & Hr). assert (totalTicks (stats s1) = totalTicks (stats s)) as Ht by (by injection Ht1).
  destruct fired.
  - destruct Hr as (x & rest & Ep & Hx & Ha), Hs as (x' & rest' & Ep' & Hs). rewrite Ep in Ep'. injection Ep' as <- <-.
    destruct (IH s1 s') as (l & s0 & q & Hl' & -> & HP & Hso); try done; [unfold clock_ok; by rewrite Ht|congruence|].
    exists (x :: l), s0, q. split; [by eapply serves_cons|]. split; [done|]. rewrite (due_adds s s1 rest Ht Ha) in HP. split.
    + rewrite Ep, filter_cons_True by done. by constructor.
    + pose proof (wf_sorted _ Hwf) as Hsd. rewrite Ep in Hsd. apply sorted_head in Hsd as [Hall _].
      apply SSorted_cons; [exact Hso|]. rewrite HP. apply Forall_forall. intros y [_ Hy]%list_elem_of_filter.
      by eapply Forall_forall in Hall.
  - apply Ok_inj in E. subst s1. destruct Hs as [q ->]. exists [], s, q. split; [apply serves_none|]. split; [done|].
    split; [|constructor]. destruct Hr as (Hset & Hp & _). destruct Hset as [Hn|[Hi _]]; [|by rewrite Hst1 in Hi].
    rewrite <- Hp. clear - Hn. induction Hn as [|x l Hx Hn IH]; [done|]. rewrite filter_cons_False; [done|].
    unfold due in *. cbn [stats on_intr] in Hx. by rewrite Hx.
Qed.

Lemma num_due_le s : (num_due s <= length (pending (intr s)))%nat.
Proof. apply length_filter. Qed.

(** A tick of [n] charged to [mode] keeps the accounts balanced. *)
Definition charge (s : sys W) : Statistics :=
  let st := stats s in
  if bool_decide (status (intr s) = SystemMode)
  then set_ticks st (u64 (totalTicks st + SystemTick)) (idleTicks st)
         (u64 (systemTicks st + SystemTick)) (userTicks st)
  else set_ticks st (u64 (totalTicks st + UserTick)) (idleTicks st)
         (systemTicks st) (u64 (userTicks st + UserTick)).

Lemma charge_balanced s : balanced (stats s) -> balanced (charge s).
Proof.
  unfold balanced, charge, u64. intros ->.
  destruct (bool_decide _); simpl; change (2 ^ 64) with 18446744073709551616;
    Z.div_mod_to_equations; lia.
Qed.

(** The state in which OneTick starts to look for due interrupts. *)
Definition ticked s : sys W := mkSys (ChangeLevel IntOff (intr s)) (charge s) (world s).

Lemma tick_and_fire_ok s :
  wf_sys s -> clock_ok (charge s) ->
  holds (fun s' => level (intr s') = IntOn /\ status (intr s') = status (intr s) /\
      wf_sys s' /\ ticks (stats s') = ticks (charge s) /\ settled s' /\
      exists added, later s' ≡ₚ added ++ later (ticked s) /\
        Forall (fun x => totalTicks (charge s) < x.1 /\ is_u64 x.1) added) hw_fault
    (tick_and_fire s).
Proof.
  intros [Hs Hk Hb] Hc. unfold tick_and_fire, check_all.
  change (if bool_decide (status (intr s) = SystemMode) then _ else _) with (charge s).
  fold (ticked s). eapply holds_bind.
  - apply check_loop_ok; [pose proof (num_due_le (ticked s)); simpl in *; lia|done| |done].
    split; [done|done|by apply charge_balanced].
  - intros s' (? & Hst & [] & Ht & Hset & Ha). by split_and!.
Qed.

Lemma tick_and_fire_serves s s1 :
  wf_sys s -> clock_ok (charge s) -> status (intr s) <> IdleMode -> tick_and_fire s = Ok s1 ->
  exists l s0 q, serves l (ticked s) s0 /\ served (ticked s) l /\
    s1 = on_intr (fun i => ChangeLevel IntOn (set_pending i q)) s0.
Proof.
  intros [Hs Hk Hb] Hc Hst E. unfold tick_and_fire, check_all in E.
  change (if bool_decide (status (intr s) = SystemMode) then _ else _) with (charge s) in E. fold (ticked s) in E.
  apply bind_inv in E as (s2 & E & E'). apply Ok_inj in E'. subst s1.
  destruct (check_loop_serves (S (length (pending (intr (ticked s))))) (ticked s) s2) as (l & s0 & q & Hl & -> & Hd); try done.
  - split; [done|done|by apply charge_balanced].
  - by exists l, s0, q.
Qed.

(** The clock when Idle has advanced it to the first interrupt. *)
Definition idle_stats s (k : Z) : Statistics :=
  if k >? now s then stats (advance k s) else stats s.

Lemma idle_stats_balanced s k :
  is_u64 k -> balanced (stats s) -> balanced (idle_stats s k) /\
  totalTicks (idle_stats s k) = Z.max k (now s).
Proof.
  unfold idle_stats, balanced, is_u64, advance, u64, now. rewrite Z.gtb_ltb. intros Hk Hb.
  destruct (stats s) as [T I S U]; simpl in *.
  destruct (Z.ltb_spec T k); simpl; (split; [|lia]); [|done].
  rewrite <- (Z.add_assoc _ S U), Z.add_mod_idemp_l by done.
  replace (I + (k - T) + (S + U)) with (k + (I + S + U - T)) by ring. rewrite Hb.
  change (2 ^ 64) with 18446744073709551616 in *. clear Hb.
  Z.div_mod_to_equations; lia.
Qed.

Definition only_timer (l : list (Z * PendingInterrupt)) : Prop :=
  exists k p, l = [(k, p)] /\ type p = TimerInt.

Lemma CheckIfDue_true s :
  level (intr s) = IntOff -> status (intr s) = IdleMode -> wf_sys s ->
  (forall x, x ∈ pending (intr s) -> clock_ok (idle_stats s x.1)) ->
  holds (fun '(fired, s') =>
      if (fired : bool) then
        exists k p rest, pending (intr s) = (k, p) :: rest /\ ~ only_timer (pending (intr s)) /\
          level (intr s') = IntOff /\ status (intr s') = IdleMode /\ wf_sys s' /\
          ticks (stats s') = ticks (idle_stats s k) /\ adds s' (idle_stats s k) rest
      else pending (intr s) = [] \/ only_timer (pending (intr s))) hw_fault
    (CheckIfDue true s).
Proof.
  intros Hl Hst Hwf Hclk. pose proof Hwf as [Hs Hk Hb]. unfold CheckIfDue.
  rewrite bool_decide_true, ASSERT_true, bind_Ok by done.
  destruct (pending (intr s)) as [|[k p] rest] eqn:Ep; cbn [l_remove]; [by left|].
  destruct (sorted_head _ _ Hs) as [Hall Hsr]. apply Forall_cons in Hk as [Hk Hkr].
  destruct (idle_stats_balanced s k Hk Hb) as [Hbal _].
  specialize (Hclk (k, p) ltac:(by left)). simpl in Hclk. unfold idle_stats, now in *.
  change (totalTicks (stats (on_intr (fun i => set_pending i rest) s)))
    with (totalTicks (stats s)).
  cbn [andb]. destruct (k >? totalTicks (stats s)) eqn:Ek; (eapply holds_mono;
    [by apply fire_ok| |done]); intros [[|] s']; simpl.
  1, 3: intros (Hn & ? & Hst' & _ & Hwf' & Hadd & Htk); exists k, p, rest; split; [done|];
    split; [intros (k' & p' & [= -> -> ->] & Ht); by apply Hn|];
    split; [done|]; split; [by rewrite Hst'|]; split; [exact Hwf'|rewrite Ek; split; [exact Htk|exact Hadd]].
  all: intros [(_ & Ht & Hr) _]; simpl in Hr; subst rest; right; by exists k, p.
Qed.

Lemma Idle_ok s :
  level (intr s) = IntOff -> wf_sys s ->
  (forall x, x ∈ pending (intr s) -> clock_ok (idle_stats s x.1)) ->
  holds (fun r =>
      match r with
      | None => pending (intr s) = [] \/ only_timer (pending (intr s))
      | Some s' => exists k p rest, pending (intr s) = (k, p) :: rest /\
          ~ only_timer (pending (intr s)) /\
          level (intr s') = IntOff /\ status (intr s') = SystemMode /\
          yieldOnReturn (intr s') = false /\ wf_sys s' /\
          ticks (stats s') = ticks (idle_stats s k) /\
          (Forall (fun x => due s' x = false) (pending (intr s')) \/
           only_timer (pending (intr s')))
      end) hw_fault
    (Idle s).
Proof.
  intros Hl Hwf Hclk. unfold Idle. eapply holds_bind.
  { apply (CheckIfDue_true (on_intr (fun i => set_status i IdleMode) s)); try done.
    by destruct Hwf. }
  intros [[|] s1]; simpl; [|done].
  intros (k & p & rest & Ep & Ht & Hl1 & Hst1 & Hwf1 & Htk & _).
  change (ticks (idle_stats (on_intr (fun i => set_status i IdleMode) s) k))
    with (ticks (idle_stats s k)) in Htk.
  assert (clock_ok (stats s1)) as Hc1.
  { specialize (Hclk (k, p) ltac:(rewrite Ep; by left)). injection Htk as Htt _ _ _.
    unfold clock_ok in *. by rewrite Htt. }
  eapply holds_bind.
  { unfold check_all. apply check_loop_ok; [apply Nat.lt_succ_r, num_due_le|done|done|done]. }
  intros s2 (Hl2 & Hst2 & Hwf2 & Ht2 & Hset & _).
  exists k, p, rest. split_and!; try done; simpl; try congruence.
  - by destruct Hwf2.
  - destruct Hset as [?|[_ ?]]; [by left|by right].
Qed.
End interrupt_props.

(** ** timer.cc *)

Record Timer := mkTimer { randomize : bool; timer_arg : Z }.

Section timer.
Context {W : Type}.
Implicit Types (s : sys W) (t : Timer).

(** [random] is what Random() returns. *)
Definition TimeOfNextInterrupt t (random : Z) : Z :=
  if randomize t then 1 + Z.rem random (TimerTicks * 2) else TimerTicks.

(** The constructor schedules the first interrupt; [this] is the timer's
    address. *)
Definition new_Timer (this callArg : Z) (doRandom : bool) (random : Z) s
    : res (Timer * sys W) :=
  let t := mkTimer doRandom callArg in
  s ← Schedule TimerHandler this (TimeOfNextInterrupt t random) TimerInt s;
  mret (t, s).

(** [timerHandler] is the routine given to the constructor. *)
Definition TimerExpired (timerHandler : Z -> sys W -> res (sys W)) (this : Z) t (random : Z) s
    : res (sys W) :=
  s ← Schedule TimerHandler this (TimeOfNextInterrupt t random) TimerInt s;
  timerHandler (timer_arg t) s.

(** system.cc: the time-slice handler. *)
Definition TimerInterruptHandler (dummy : Z) s : res (sys W) :=
  if bool_decide (status (intr s) = IdleMode) then mret s else YieldOnReturn s.

Lemma TimeOfNextInterrupt_range t random :
  0 <= random -> 1 <= TimeOfNextInterrupt t random <= 2 * TimerTicks.
Proof.
  intros Hr. unfold TimeOfNextInterrupt, TimerTicks.
  pose proof (Z.rem_bound_pos random (100 * 2) Hr). destruct (randomize t); lia.
Qed.
End timer.

(** ** Properties *)

(** C27: a clock tick charges the right mode and fires what is due.  From a
    sorted pending list, a tick of a machine that is not idle advances the total and
    the charged mode by the same amount (total = idle + system + user stays true);
    with interrupts off it then calls the handler of every pending interrupt that is
    due, each once, with its argument, in the order of their times, and of no other;
    it never runs out of the loop bound (number of pending interrupts), loses no
    interrupt that is not due, and leaves nothing due, interrupts enabled and the
    list sorted; a requested yield is then done in system mode with the request
    cleared and the status restored.  The handlers are those of devices, which keep
    the clock and the interrupt level and only schedule in the future; if the tick
    fails before the yield, it is because one of them or the delayed load fails. *)
Theorem OneTick_correct {W} `{HardwareContract W} (s : sys W) :
  wf_sys s -> clock_ok (charge s) -> status (intr s) <> IdleMode ->
  holds (fun s1 =>
      level (intr s1) = IntOn /\ status (intr s1) = status (intr s) /\ wf_sys s1 /\
      ticks (stats s1) = ticks (charge s) /\
      Forall (fun x => due s1 x = false) (pending (intr s1)) /\
      (exists added, pending (intr s1) ≡ₚ added ++ later (ticked s) /\
         Forall (fun x => totalTicks (charge s) < x.1 /\ is_u64 x.1) added) /\
      (exists l s0 q, serves l (ticked s) s0 /\ served (ticked s) l /\
         s1 = on_intr (fun i => ChangeLevel IntOn (set_pending i q)) s0) /\
      OneTick s =
        if yieldOnReturn (intr s1) then
          s2 ← currentThread_Yield
                 (on_intr (fun i => set_status (set_yieldOnReturn i false) SystemMode) s1);
          Ok (on_intr (fun i => set_status i (status (intr s))) s2)
        else Ok s1)
    hw_fault (tick_and_fire s).
Proof.
  intros Hwf Hc Hst. pose proof (tick_and_fire_ok s Hwf Hc) as Hok. unfold OneTick.
  destruct (tick_and_fire s) as [s1|f] eqn:E; [|done].
  destruct Hok as (Hl & Hs1 & Hwf1 & Ht & Hset & added & Hp & Ha).
  destruct Hset as [Hnd|[Hi _]]; [|congruence].
  simpl. split_and!; try done.
  - exists added. split; [|done]. rewrite <- Hp. unfold later. by rewrite filter_id.
  - by apply tick_and_fire_serves.
Qed.

(** A system whose handlers record themselves; the timer reschedules itself. *)
#[local] Instance log_hardware : Hardware (list VoidFunctionPtr) := {|
  call_handler h a s :=
    let s := mkSys (intr s) (stats s) (world s ++ [h]) in
    match h with
    | TimerHandler => Schedule TimerHandler a TimerTicks TimerInt s
    | _ => mret s
    end;
  machine_DelayedLoad w := mret w;
  currentThread_Yield s := mret s
|}.

#[local] Instance log_contract : HardwareContract (list VoidFunctionPtr).
Proof.
  refine {| hw_fault := fun _ => False |}; [done| |done].
  intros h a s Hl Hh [Hc0 Hc].
  assert (handler_post s (mkSys (intr s) (stats s) (world s ++ [h]))) as Hsame
    by (split; try done; by exists []).
  destruct h; try done. cbn [call_handler log_hardware].
  destruct (Schedule_post TimerHandler a TimerTicks TimerInt
    (mkSys (intr s) (stats s) (world s ++ [TimerHandler]))) as (s' & -> & Hp & _);
    unfold TimerTicks, now; simpl; try done; [lia|].
  destruct Hp. by split.
Defined.

(** Three interrupts pending at times 5, 8 and 40, the clock at 0. *)
Definition three_pending : sys (list VoidFunctionPtr) :=
  mkSys (mkInterrupt IntOn [(5, mkPending DiskDone 0 5 DiskInt);
                            (8, mkPending TimerHandler 0 8 TimerInt);
                            (40, mkPending ConsoleReadPoll 0 40 ConsoleReadInt)]
           false false SystemMode) new_Statistics [].

Lemma three_pending_wf : wf_sys three_pending.
Proof.
  split; [| |done]; repeat first [apply SSorted_cons | apply SSorted_nil | apply Forall_cons; split
    | by apply Forall_nil]; simpl; done || (unfold is_u64; lia).
Qed.

Lemma OneTick_correct_witness :
  exists s1, OneTick three_pending = Ok s1 /\ world s1 = [DiskDone; TimerHandler] /\
    map fst (pending (intr s1)) = [40; 110] /\ wf_sys s1.
Proof.
  pose proof (OneTick_correct three_pending three_pending_wf
    ltac:(vm_compute; split; [discriminate|reflexivity])
    ltac:(done)) as H.
  destruct (tick_and_fire three_pending) as [s1|f] eqn:E; [|vm_compute in E; discriminate].
  destruct H as (_ & _ & Hwf & _ & _ & _ & _ & Hone). exists s1. rewrite Hone.
  vm_compute in E. injection E as <-. by split_and!.
Defined.

(** An idle machine moves the clock to the earliest interrupt.  Idle halts
    exactly when nothing is pending or only the time-slice timer is; otherwise
    it advances the total and the idle time by the same amount to the time of
    the first pending interrupt (never backwards), fires everything due, cancels
    a requested yield and returns in system mode with interrupts still off. *)
Theorem Idle_correct {W} `{HardwareContract W} (s : sys W) :
  level (intr s) = IntOff -> wf_sys s ->
  (forall x, x ∈ pending (intr s) -> clock_ok (idle_stats s x.1)) ->
  holds (fun r =>
      match r with
      | None => pending (intr s) = [] \/ only_timer (pending (intr s))
      | Some s' => exists k p rest, pending (intr s) = (k, p) :: rest /\
          ~ only_timer (pending (intr s)) /\
          totalTicks (stats s') = Z.max k (now s) /\
          ticks (stats s') = ticks (idle_stats s k) /\ wf_sys s' /\
          level (intr s') = IntOff /\ status (intr s') = SystemMode /\
          yieldOnReturn (intr s') = false /\
          (Forall (fun x => due s' x = false) (pending (intr s')) \/
           only_timer (pending (intr s')))
      end) hw_fault
    (Idle s).
Proof.
  intros Hl Hwf Hc. eapply holds_mono; [by apply Idle_ok| |done].
  intros [s'|] Hr; [|done]. destruct Hr as (k & p & rest & Ep & Ht & ? & ? & ? & ? & Htk & ?).
  exists k, p, rest. split_and!; try done.
  assert (is_u64 k) as Hk.
  { pose proof (wf_keys _ Hwf) as HF. rewrite Ep in HF. by apply Forall_cons in HF as [? _]. }
  destruct (idle_stats_balanced s k Hk (wf_balanced _ Hwf)) as [_ <-]. by injection Htk.
Qed.

Lemma Idle_correct_witness :
  exists s', Idle (on_intr (ChangeLevel IntOff) three_pending) = Ok (Some s') /\
    totalTicks (stats s') = 5 /\ idleTicks (stats s') = 5 /\ world s' = [DiskDone].
Proof.
  pose proof (Idle_correct (on_intr (ChangeLevel IntOff) three_pending) eq_refl) as H.
  destruct (Idle (on_intr (ChangeLevel IntOff) three_pending)) as [[s'|]|f] eqn:E;
    [|vm_compute in E; discriminate..].
  destruct H as (k & p & rest & Ep & _ & Ht & Htk & _).
  - by destruct three_pending_wf.
  - intros x Hx. assert (x.1 = 5 \/ x.1 = 8 \/ x.1 = 40) as Hx'.
    { simpl in Hx. rewrite !elem_of_cons, elem_of_nil in Hx.
      destruct Hx as [->|[->|[->|[]]]]; simpl; auto. }
    destruct x as [y p]; simpl in Hx'. destruct Hx' as [->|[->| ->]];
      vm_compute; (split; [discriminate|reflexivity]).
  - exists s'. vm_compute in E. injection E as <-. by split_and!.
Defined.
