(* ===== verification/Disk.v ===== *)
(** * Disk: machine/disk.h, machine/disk.cc and the file calls of
    machine/sysdep.cc

    The raw disk: one request at a time, carried out at once on the UNIX file
    that holds the sectors and announced by an interrupt after the simulated
    latency (seek, rotation, transfer, track buffer). *)

From S2P Require Import Prelude Machine NList Interrupt.

(** ** sysdep.cc: UNIX files *)

(** [Read] after [Lseek(pos)]: aborts unless all [nBytes] are there. *)
Definition Read (file : list Z) (pos nBytes : Z) : res (list Z) :=
  _ ← ASSERT (pos >=? 0);
  let bs := take (Z.to_nat nBytes) (drop (Z.to_nat pos) file) in
  _ ← ASSERT (zlen bs =? nBytes);
  mret bs.

(** [WriteFile] after [Lseek(pos)]: a write beyond the end fills with zeros. *)
Definition WriteFile (file : list Z) (pos : Z) (bs : list Z) : res (list Z) :=
  _ ← ASSERT (pos >=? 0);
  zwrite (file ++ replicate (Z.to_nat (pos + zlen bs - zlen file)) 0) pos bs.

(** ** disk.h *)

Definition SectorsPerTrack : Z := 32.
Definition NumTracks : Z := 32.
Definition NumSectors : Z := SectorsPerTrack * NumTracks.
Definition MagicNumber : Z := 0x456789ab.
Definition MagicSize : Z := 4.
Definition DiskSize : Z := MagicSize + NumSectors * SectorSize.

Record Disk := mkDisk {
  image : list Z;      (* the contents of the UNIX file [fileno] *)
  handlerArg : Z;
  active : bool;
  lastSector : Z;
  bufferInit : Z
}.

Definition set_image (d : Disk) x := mkDisk x (handlerArg d) (active d) (lastSector d) (bufferInit d).
Definition set_active (d : Disk) x := mkDisk (image d) (handlerArg d) x (lastSector d) (bufferInit d).

(** The constructor; [file] is what [OpenForReadWrite(name, FALSE)] finds. *)
Definition new_Disk (file : option (list Z)) (callArg : Z) : res Disk :=
  match file with
  | Some f =>
      bs ← Read f 0 MagicSize;
      _ ← ASSERT (le_value bs =? MagicNumber);
      mret (mkDisk f callArg false 0 0)
  | None =>
      f ← WriteFile [] 0 (le_bytes 4 MagicNumber);
      f ← WriteFile f (DiskSize - 4) (le_bytes 4 0);
      mret (mkDisk f callArg false 0 0)
  end.

(** ** Timing *)

(** The seek time and [*rotation]; [ticks] is [stats->totalTicks]. *)
Definition TimeToSeek (d : Disk) (ticks newSector : Z) : Z * Z :=
  let newTrack := Z.quot newSector SectorsPerTrack in
  let oldTrack := Z.quot (lastSector d) SectorsPerTrack in
  let seek := Z.abs (newTrack - oldTrack) * SeekTime in
  let over := u64 (ticks + seek) mod RotationTime in
  (seek, if over >? 0 then RotationTime - over else 0).

Definition ModuloDiff (to from : Z) : Z :=
  let toOffset := Z.rem to SectorsPerTrack in
  let fromOffset := Z.rem from SectorsPerTrack in
  Z.rem (toOffset - fromOffset + SectorsPerTrack) SectorsPerTrack.

Definition ComputeLatency (d : Disk) (ticks newSector : Z) (writing : bool) : Z :=
  let '(seek, rotation) := TimeToSeek d ticks newSector in
  let timeAfter := s32 (ticks + seek + rotation) in
  if negb writing && (seek =? 0)
     && (Z.quot (s32 (timeAfter - bufferInit d)) RotationTime
           >? ModuloDiff newSector (Z.quot (bufferInit d) RotationTime))
  then RotationTime
  else
    let rotation :=
      rotation + ModuloDiff newSector (Z.quot timeAfter RotationTime) * RotationTime in
    seek + rotation + RotationTime.

Definition UpdateLast (d : Disk) (ticks newSector : Z) : Disk :=
  let '(seek, rotate) := TimeToSeek d ticks newSector in
  mkDisk (image d) (handlerArg d) (active d) newSector
    (if negb (seek =? 0) then s32 (ticks + seek + rotate) else bufferInit d).

(** ** Requests *)

Section requests.
Context {W : Type}.
Implicit Types (s : sys W) (d : Disk).

Definition count_read s : sys W :=
  let st := stats s in
  mkSys (intr s) (mkStatistics (totalTicks st) (idleTicks st) (systemTicks st) (userTicks st)
    (s32 (numDiskReads st + 1)) (numDiskWrites st) (numConsoleCharsRead st)
    (numConsoleCharsWritten st) (numPageFaults st) (numPacketsSent st) (numPacketsRecvd st))
    (world s).
Definition count_write s : sys W :=
  let st := stats s in
  mkSys (intr s) (mkStatistics (totalTicks st) (idleTicks st) (systemTicks st) (userTicks st)
    (numDiskReads st) (s32 (numDiskWrites st + 1)) (numConsoleCharsRead st)
    (numConsoleCharsWritten st) (numPageFaults st) (numPacketsSent st) (numPacketsRecvd st))
    (world s).

(** [this] is the disk's address; the result is what lands in [data]. *)
Definition ReadRequest (this : Z) d (sectorNumber : Z) s : res (list Z * (Disk * sys W)) :=
  let ticks := ComputeLatency d (now s) sectorNumber false in
  _ ← ASSERT (negb (active d));
  _ ← ASSERT ((sectorNumber >=? 0) && (sectorNumber <? NumSectors));
  data ← Read (image d) (SectorSize * sectorNumber + MagicSize) SectorSize;
  let d := UpdateLast (set_active d true) (now s) sectorNumber in
  s ← Schedule DiskDone this ticks DiskInt (count_read s);
  mret (data, (d, s)).

Definition WriteRequest (this : Z) d (sectorNumber : Z) (data : list Z) s
    : res (Disk * sys W) :=
  let ticks := ComputeLatency d (now s) sectorNumber true in
  _ ← ASSERT (negb (active d));
  _ ← ASSERT ((sectorNumber >=? 0) && (sectorNumber <? NumSectors));
  data ← zread data 0 SectorSize;
  f ← WriteFile (image d) (SectorSize * sectorNumber + MagicSize) data;
  let d := UpdateLast (set_active (set_image d f) true) (now s) sectorNumber in
  s ← Schedule DiskDone this ticks DiskInt (count_write s);
  mret (d, s).

(** [handler] is the routine given to the constructor. *)
Definition HandleInterrupt (handler : Z -> Disk * sys W -> res (Disk * sys W)) d s
    : res (Disk * sys W) :=
  handler (handlerArg d) (set_active d false, s).

(** The words PrintSector prints. *)
Definition PrintSector (data : list Z) : list Z :=
  map (fun i => le_value (take 4 (drop (4 * i) data))) (seq 0 (Z.to_nat SectorSize / 4)).
End requests.

(** ** The timing is sound *)

Definition valid_sector (n : Z) : Prop := 0 <= n < NumSectors.

Lemma ModuloDiff_range to from : 0 <= to -> 0 <= ModuloDiff to from < SectorsPerTrack.
Proof.
  intros Ht. unfold ModuloDiff, SectorsPerTrack.
  pose proof (Z.rem_bound_pos to 32 Ht). pose proof (Z.rem_bound_abs from 32 ltac:(lia)).
  apply Z.rem_bound_pos; lia.
Qed.

Lemma ModuloDiff_mod to from : 0 <= to -> 0 <= from -> ModuloDiff to from = (to - from) mod 32.
Proof.
  intros Ht Hf. unfold ModuloDiff, SectorsPerTrack.
  rewrite (Z.rem_mod_nonneg to), (Z.rem_mod_nonneg from) by lia.
  rewrite Z.rem_mod_nonneg by (Z.div_mod_to_equations; lia). Z.div_mod_to_equations; lia.
Qed.

Lemma TimeToSeek_range d ticks n :
  valid_sector n -> valid_sector (lastSector d) ->
  let '(seek, rotation) := TimeToSeek d ticks n in
  0 <= seek <= (NumTracks - 1) * SeekTime /\ 0 <= rotation < RotationTime /\
  (u64 (ticks + seek) + rotation) mod RotationTime = 0.
Proof.
  unfold valid_sector, TimeToSeek, NumSectors, SectorsPerTrack, NumTracks, SeekTime, RotationTime.
  intros Hn Hl. rewrite !Z.quot_div_nonneg by lia. rewrite Z.gtb_ltb.
  set (t := u64 _). pose proof (Z.mod_pos_bound t 500 ltac:(lia)).
  split; [Z.div_mod_to_equations; lia|].
  destruct (Z.ltb_spec 0 (t mod 500)); (split; [lia|]); Z.div_mod_to_equations; lia.
Qed.

(** A request takes between one rotation and a full sweep: for valid
    sectors the simulated latency is at least RotationTime, hence positive (so
    scheduling the completion never trips its ASSERT), and at most the longest
    seek plus a rotation of the track plus the rounding to a sector. *)
Theorem ComputeLatency_bounds d ticks n writing :
  valid_sector n -> valid_sector (lastSector d) ->
  RotationTime <= ComputeLatency d ticks n writing <=
    (NumTracks - 1) * SeekTime + (SectorsPerTrack + 1) * RotationTime - 1.
Proof.
  intros Hn Hl. unfold ComputeLatency. pose proof (TimeToSeek_range d ticks n Hn Hl) as Hr.
  destruct (TimeToSeek d ticks n) as [seek rotation]. destruct Hr as (Hs & Hrot & _).
  unfold NumTracks, SectorsPerTrack, SeekTime, RotationTime in *.
  destruct (_ && _ && _); [lia|].
  pose proof (ModuloDiff_range n (Z.quot (s32 (ticks + seek + rotation)) 500) (proj1 Hn)) as Hm.
  unfold SectorsPerTrack in Hm. lia.
Qed.

Lemma ComputeLatency_bounds_witness :
  ComputeLatency (mkDisk [] 0 false 40 0) 1234 1000 true = 19266 /\
  500 <= ComputeLatency (mkDisk [] 0 false 40 0) 1234 1000 true <= 31999.
Proof.
  split; [reflexivity|].
  refine (ComputeLatency_bounds (mkDisk [] 0 false 40 0) 1234 1000 true _ _);
    split; vm_compute; congruence.
Defined.

(** The latency of a write is exact: the transfer starts on a sector
    boundary, when the head is over the requested sector, and it is the first
    such moment after the seek has completed. *)
Theorem ComputeLatency_exact d ticks n :
  valid_sector n -> valid_sector (lastSector d) ->
  0 <= ticks -> ticks + (NumTracks + 1) * SeekTime < 2 ^ 31 ->
  let seek := fst (TimeToSeek d ticks n) in
  let start := ticks + ComputeLatency d ticks n true - RotationTime in
  let over_sector t := t mod RotationTime = 0 /\
    (t / RotationTime) mod SectorsPerTrack = n mod SectorsPerTrack in
  over_sector start /\ ticks + seek <= start /\
  forall t, ticks + seek <= t -> over_sector t -> start <= t.
Proof.
  intros Hn Hl Ht Hb. unfold ComputeLatency. pose proof (TimeToSeek_range d ticks n Hn Hl) as Hr.
  destruct (TimeToSeek d ticks n) as [seek rotation] eqn:E. destruct Hr as (Hs & Hrot & Hal).
  unfold NumTracks, SectorsPerTrack, SeekTime, RotationTime, valid_sector, NumSectors in *.
  cbn [negb andb fst]. cbv zeta.
  assert (u64 (ticks + seek) = ticks + seek) as Hu by (unfold u64; apply Z.mod_small; lia).
  rewrite Hu in Hal. rewrite s32_id by (unfold is_s32; lia).
  rewrite Z.quot_div_nonneg by lia.
  rewrite ModuloDiff_mod by (try apply Z.div_pos; lia).
  set (q := (ticks + seek + rotation) / 500).
  assert (ticks + seek + rotation = 500 * q) as Hq by (unfold q; Z.div_mod_to_equations; lia).
  set (r := (n - q) mod 32). pose proof (Z.mod_pos_bound (n - q) 32 ltac:(lia)) as Hr0. fold r in Hr0.
  replace (ticks + (seek + (rotation + r * 500) + 500) - 500) with ((q + r) * 500) by lia.
  split; [|split; [lia|]].
  - rewrite Z.mod_mul, Z.div_mul by lia. split; [done|]. unfold r.
    rewrite Z.add_mod_idemp_r by lia. f_equal. lia.
  - intros t Hle [Ht0 Hts]. assert (t = 500 * (t / 500)) as Et by (Z.div_mod_to_equations; lia).
    assert (q <= t / 500) by lia.
    assert (r <= t / 500 - q); [|lia]. unfold r. Z.div_mod_to_equations; lia.
Qed.

Lemma ComputeLatency_exact_witness :
  let d := mkDisk [] 0 false 40 0 in
  ComputeLatency d 1234 1000 true = 19266 /\
  (1234 + 19266 - 500) mod RotationTime = 0 /\
  ((1234 + 19266 - 500) / RotationTime) mod SectorsPerTrack = 1000 mod SectorsPerTrack.
Proof.
  intros d. split; [reflexivity|].
  destruct (ComputeLatency_exact d 1234 1000) as [H _];
    [split; vm_compute; congruence..|lia|vm_compute; congruence|].
  exact H.
Defined.

(** ** The disk implements an array of sectors *)

Definition sector_bytes (d : Disk) (n : Z) : list Z :=
  take (Z.to_nat SectorSize) (drop (Z.to_nat (SectorSize * n + MagicSize)) (image d)).

Record wf_disk (d : Disk) : Prop := {
  wf_image : zlen (image d) = DiskSize;
  wf_last : valid_sector (lastSector d)
}.

Lemma Read_Ok f pos n :
  0 <= pos -> 0 <= n -> pos + n <= zlen f -> Read f pos n = zread f pos n.
Proof.
  intros Hp Hn Hl. unfold Read.
  replace (pos >=? 0) with true by (symmetry; rewrite Z.geb_leb; by apply Z.leb_le).
  simpl ASSERT. rewrite bind_Ok. cbv zeta.
  rewrite ASSERT_true, bind_Ok; [by rewrite zread_Ok|].
  apply Z.eqb_eq. unfold zlen in *. rewrite length_take, length_drop. lia.
Qed.

Lemma WriteFile_Ok f pos bs :
  0 <= pos -> pos + zlen bs <= zlen f -> WriteFile f pos bs = zwrite f pos bs.
Proof.
  intros Hp Hl. unfold WriteFile.
  replace (pos >=? 0) with true by (symmetry; rewrite Z.geb_leb; by apply Z.leb_le).
  simpl ASSERT. rewrite bind_Ok.
  rewrite Z2Nat.nonpos by lia. by rewrite app_nil_r.
Qed.

Lemma sector_in_image d n :
  wf_disk d -> valid_sector n ->
  0 <= SectorSize * n + MagicSize /\ SectorSize * n + MagicSize + SectorSize <= zlen (image d).
Proof.
  intros [-> _] Hn. unfold valid_sector, DiskSize, NumSectors, SectorSize, MagicSize,
    SectorsPerTrack, NumTracks in *. lia.
Qed.

Lemma sector_read d n :
  wf_disk d -> valid_sector n ->
  zread (image d) (SectorSize * n + MagicSize) SectorSize = Ok (sector_bytes d n).
Proof. intros Hd Hn. destruct (sector_in_image d n Hd Hn). by apply zread_Ok. Qed.

Lemma sector_write d n data f :
  wf_disk d -> valid_sector n -> zlen data = SectorSize ->
  zwrite (image d) (SectorSize * n + MagicSize) data = Ok f ->
  wf_disk (set_image d f) /\
  forall k, valid_sector k ->
    sector_bytes (set_image d f) k = if k =? n then data else sector_bytes d k.
Proof.
  intros Hd Hn Hdata Hw.
  assert (wf_disk (set_image d f)) as Hd'.
  { split; simpl; [rewrite (zlen_zwrite _ _ _ _ Hw)|]; apply Hd. }
  split; [done|]. intros k Hk. pose proof (sector_read _ k Hd' Hk) as Hr. simpl in Hr.
  destruct (Z.eqb_spec k n) as [->|Hne].
  - pose proof (zread_zwrite_same _ _ _ _ Hw) as Hs. rewrite Hdata, Hr in Hs. by injection Hs.
  - rewrite (zread_zwrite_disjoint _ _ _ _ _ _ Hw) in Hr.
    + rewrite (sector_read d k Hd Hk) in Hr. by injection Hr.
    + rewrite Hdata. unfold SectorSize. lia.
Qed.



#[export] Instance valid_sector_dec n : Decision (valid_sector n).
Proof. unfold valid_sector. apply _. Defined.

Lemma valid_sector_test n :
  ((n >=? 0) && (n <? NumSectors)) = bool_decide (valid_sector n).
Proof.
  unfold valid_sector. rewrite Z.geb_leb.
  case_bool_decide; destruct (Z.leb_spec 0 n), (Z.ltb_spec n NumSectors); simpl; lia.
Qed.

(** Calls on a disk: requests, and the completion interrupt. *)
Inductive op :=
  | OpRead (n : Z)
  | OpWrite (n : Z) (data : list Z)
  | OpDone.

Definition run_op (this : Z) (st : Disk * sys unit) (o : op) : res (list Z * (Disk * sys unit)) :=
  let '(d, s) := st in
  match o with
  | OpRead n => ReadRequest this d n s
  | OpWrite n data => r ← WriteRequest this d n data s; mret ([], r)
  | OpDone => r ← HandleInterrupt (fun _ r => mret r) d s; mret ([], r)
  end.

(** The specification: an array of sectors and a busy flag. *)
Definition spec_op (st : list (list Z) * bool) (o : op) : res (list Z * (list (list Z) * bool)) :=
  let '(sectors, busy) := st in
  match o with
  | OpRead n =>
      if busy || negb (bool_decide (valid_sector n)) then Err AssertFailed
      else data ← sectors.[n]; mret (data, (sectors, true))
  | OpWrite n data =>
      if busy || negb (bool_decide (valid_sector n)) then Err AssertFailed
      else
        data ← zread data 0 SectorSize;
        sectors ← sectors.[n := data]; mret ([], (sectors, true))
  | OpDone => mret ([], (sectors, false))
  end.

Record disk_sim (st : Disk * sys unit) (a : list (list Z) * bool) : Prop := {
  sim_wf : wf_disk st.1;
  sim_busy : a.2 = active st.1;
  sim_len : zlen a.1 = NumSectors;
  sim_data : forall n, valid_sector n -> znth a.1 n = Some (sector_bytes st.1 n)
}.

Lemma UpdateLast_image d ticks n : image (UpdateLast d ticks n) = image d /\
  active (UpdateLast d ticks n) = active d /\ lastSector (UpdateLast d ticks n) = n.
Proof. unfold UpdateLast. by destruct (TimeToSeek d ticks n). Qed.

(** The completion of a request on a valid sector can always be scheduled. *)
Lemma Schedule_latency {W} d n w this (s : sys W) ticks :
  valid_sector n -> wf_disk d ->
  let when := u64 (now s + ComputeLatency d ticks n w) in
  exists s', Schedule DiskDone this (ComputeLatency d ticks n w) DiskInt s = Ok s' /\
    s' = on_intr (fun i => set_pending i (l_insert (pending i) (mkPending DiskDone this when DiskInt) when)) s.
Proof.
  intros Hn [_ Hl]. unfold Schedule. rewrite ASSERT_true; [by eexists|].
  rewrite Z.gtb_ltb. apply Z.ltb_lt. unfold ComputeLatency.
  pose proof (TimeToSeek_range d ticks n Hn Hl) as Hr.
  destruct (TimeToSeek d ticks n) as [seek rotation]. destruct Hr as (Hs & Hrot & _).
  unfold RotationTime in *. destruct (_ && _ && _); [lia|].
  pose proof (ModuloDiff_range n (Z.quot (s32 (ticks + seek + rotation)) 500) (proj1 Hn)).
  unfold SectorsPerTrack in *. lia.
Qed.

Lemma run_op_simulates this st a o :
  disk_sim st a -> simulates disk_sim (run_op this st o) (spec_op a o).
Proof.
  destruct st as [d s], a as [sectors busy]. intros [Hwf Hb Hlen Hdata]. simpl in *. subst busy.
  destruct o as [n|n data|]; cbn [run_op spec_op].
  - unfold ReadRequest. destruct (active d); simpl; [done|].
    rewrite valid_sector_test. case_bool_decide as Hn; simpl; [|done].
    destruct (sector_in_image d n Hwf Hn) as [H0 H1].
    rewrite Read_Ok, sector_read, bind_Ok by done.
    destruct (Schedule_latency d n false this (count_read s) (now s) Hn Hwf) as (s' & -> & _).
    rewrite (proj2 (zget_Ok _ _ _) (Hdata n Hn)), !bind_Ok. eexists; split; [reflexivity|].
    destruct (UpdateLast_image (set_active d true) (now s) n) as (E1 & E2 & E3).
    split; cbn [fst snd]; [|by rewrite E2|done|].
    + split; [by rewrite E1; apply Hwf|by rewrite E3].
    + intros k Hk. unfold sector_bytes. rewrite E1. by apply Hdata.
  - unfold WriteRequest. destruct (active d); simpl; [done|].
    rewrite valid_sector_test. case_bool_decide as Hn; simpl; [|done].
    destruct (zread data 0 SectorSize) as [data'|e] eqn:Er; simpl; [|done].
    pose proof (zlen_zread _ _ _ _ Er) as Hd.
    destruct (sector_in_image d n Hwf Hn) as [H0 H1].
    rewrite WriteFile_Ok by lia.
    pose proof (zwrite_Ok (image d) (SectorSize * n + MagicSize) data' H0 ltac:(lia)) as Hw.
    destruct (sector_write d n data' _ Hwf Hn Hd Hw) as [Hwf' Hs']. rewrite Hw, bind_Ok.
    set (f := take _ _ ++ _) in *.
    destruct (Schedule_latency d n true this (count_write s) (now s) Hn Hwf) as (s' & -> & _).
    rewrite zset_Ok, !bind_Ok by (rewrite Hlen; done). eexists; split; [reflexivity|].
    destruct (UpdateLast_image (set_active (set_image d f) true) (now s) n) as (E1 & E2 & E3).
    split; cbn [fst snd].
    + split; [by rewrite E1; apply Hwf'|by rewrite E3].
    + by rewrite E2.
    + by rewrite zlen_insert.
    + intros k Hk. unfold sector_bytes. rewrite E1. pose proof (Hs' k Hk) as Hk'.
      unfold sector_bytes in Hk'. simpl in Hk' |- *. rewrite Hk'.
      destruct (Z.eqb_spec k n) as [Heq|Hne].
      * rewrite Heq. apply znth_insert_eq. rewrite Hlen. exact Hn.
      * rewrite znth_insert_ne by (destruct Hn; lia). by apply Hdata.
  - simpl. eexists; split; [reflexivity|]. split; try done. by destruct Hwf.
Qed.

(** The simulated disk is an array of sectors used one request at a time.
    For every sequence of requests and completions the emulation and the array
    agree: a request made while another is in progress, or for a sector off the
    disk, aborts; a read yields what was last written to that sector, bit for
    bit, and no request disturbs another sector. *)
Theorem Disk_refines_sectors this os st a :
  disk_sim st a ->
  match run_ops (run_op this) st os with
  | Ok (rs, st') => exists a', run_ops spec_op a os = Ok (rs, a') /\ disk_sim st' a'
  | Err e => run_ops spec_op a os = Err e
  end.
Proof. apply run_ops_refines. intros s1 s2 o. apply run_op_simulates. Qed.

(** A freshly created disk is an array of zero sectors. *)
Definition fresh_disk : Disk :=
  mkDisk (le_bytes 4 MagicNumber ++ replicate (Z.to_nat (NumSectors * SectorSize)) 0) 0 false 0 0.

Lemma WriteFile_extend f pos bs :
  zlen f <= pos ->
  WriteFile f pos bs = Ok (f ++ replicate (Z.to_nat (pos - zlen f)) 0 ++ bs).
Proof.
  intros Hp. pose proof (zlen_nonneg f). pose proof (zlen_nonneg bs). unfold WriteFile.
  replace (pos >=? 0) with true by (symmetry; rewrite Z.geb_leb; apply Z.leb_le; lia).
  simpl ASSERT. rewrite bind_Ok.
  assert (zlen (f ++ replicate (Z.to_nat (pos + zlen bs - zlen f)) 0) = pos + zlen bs) as Hl.
  { rewrite zlen_app. unfold zlen at 2. rewrite length_replicate. lia. }
  rewrite zwrite_Ok by lia. f_equal.
  rewrite take_app_ge by (unfold zlen in *; lia).
  rewrite (drop_ge (f ++ _)) by (unfold zlen in *; lia).
  rewrite take_replicate, app_nil_r, <- app_assoc. do 3 f_equal. unfold zlen in *. lia.
Qed.

Lemma new_Disk_fresh : new_Disk None 0 = Ok fresh_disk.
Proof.
  unfold new_Disk. rewrite WriteFile_extend, bind_Ok by done.
  change ([] ++ replicate (Z.to_nat (0 - zlen [])) 0 ++ le_bytes 4 MagicNumber)
    with (le_bytes 4 MagicNumber).
  pose proof (zlen_le_bytes 4 MagicNumber) as Hl.
  set (n := DiskSize - 4). assert (n = NumSectors * SectorSize) as Hn by done.
  rewrite WriteFile_extend, bind_Ok by (rewrite Hl, Hn; done).
  apply (f_equal (fun f => Ok (mkDisk f 0 false 0 0))).
  apply (f_equal (app (le_bytes 4 MagicNumber))).
  change (le_bytes 4 0) with (replicate 4 0). rewrite <- replicate_add, Hl, Hn.
  apply (f_equal (fun k => replicate k 0)).
  unfold NumSectors, SectorsPerTrack, NumTracks, SectorSize. lia.
Qed.

Definition fresh_sectors : list (list Z) :=
  replicate (Z.to_nat NumSectors) (replicate (Z.to_nat SectorSize) 0).

Lemma zlen_replicate {A} n (x : A) : zlen (replicate n x) = Z.of_nat n.
Proof. unfold zlen. by rewrite length_replicate. Qed.

Lemma fresh_sectors_len : zlen fresh_sectors = NumSectors.
Proof. unfold fresh_sectors. by rewrite zlen_replicate, Z2Nat.id. Qed.

Lemma fresh_disk_len : zlen (image fresh_disk) = DiskSize.
Proof.
  unfold fresh_disk. cbn [image]. rewrite zlen_app, zlen_replicate, zlen_le_bytes, Z2Nat.id by done. reflexivity.
Qed.

Lemma fresh_disk_sim s : disk_sim (fresh_disk, s) (fresh_sectors, false).
Proof.
  split; cbn [fst snd];
    [split; [apply fresh_disk_len|split; vm_compute; congruence]|reflexivity
    |apply fresh_sectors_len|].
  intros n Hn. unfold fresh_sectors. rewrite znth_lookup by apply Hn.
  rewrite lookup_replicate_2 by (unfold valid_sector in Hn; lia).
  f_equal. unfold sector_bytes, fresh_disk. cbn [image].
  unfold valid_sector in Hn.
  rewrite drop_app_ge by (rewrite length_le_bytes; unfold SectorSize, MagicSize; lia).
  rewrite drop_replicate, take_replicate. apply (f_equal (fun k => replicate k 0)).
  rewrite length_le_bytes.
  unfold NumSectors, SectorsPerTrack, NumTracks, SectorSize, MagicSize in *. lia.
Qed.

Lemma valid_sector_3 : valid_sector 3.
Proof. split; vm_compute; [discriminate|reflexivity]. Qed.

Lemma spec_write_read data :
  zlen data = SectorSize ->
  run_ops spec_op (fresh_sectors, false) [OpWrite 3 data; OpDone; OpRead 3] =
    Ok ([[]; []; data], (<[3%nat := data]> fresh_sectors, true)).
Proof.
  intros Hd. pose proof valid_sector_3 as H3.
  cbn [run_ops spec_op]. rewrite bool_decide_true by done.
  rewrite zread_Ok by (rewrite ?Hd; done). cbn [orb negb].
  replace (take (Z.to_nat SectorSize) (drop (Z.to_nat 0) data)) with data
    by (symmetry; simpl drop; apply take_ge; unfold zlen in Hd; lia).
  rewrite bind_Ok, zset_Ok by (rewrite fresh_sectors_len; exact H3).
  rewrite !bind_Ok. change (Z.to_nat 3) with 3%nat.
  assert (zget (<[3%nat := data]> fresh_sectors) 3 = Ok data) as Hget.
  { apply zget_Ok. apply (znth_insert_eq fresh_sectors 3). rewrite fresh_sectors_len. exact H3. }
  cbn [spec_op mret res_ret mbind res_bind orb negb].
  rewrite bool_decide_true, Hget by done. reflexivity.
Qed.

Lemma Disk_refines_sectors_witness :
  let data := replicate (Z.to_nat SectorSize) 7 in
  exists st', run_ops (run_op 0) (fresh_disk, mkSys new_Interrupt new_Statistics tt)
      [OpWrite 3 data; OpDone; OpRead 3] = Ok ([[]; []; data], st').
Proof.
  intros data. pose proof (spec_write_read data eq_refl) as Hs.
  pose proof (Disk_refines_sectors 0 [OpWrite 3 data; OpDone; OpRead 3] _ _
    (fresh_disk_sim (mkSys new_Interrupt new_Statistics tt))) as H.
  destruct (run_ops (run_op 0) _ _) as [[rs st']|e].
  - destruct H as (a' & E & _). rewrite Hs in E. injection E as <- <-. by exists st'.
  - rewrite Hs in H. discriminate H.
Defined.
