(* ===== verification/SynchDisk.v ===== *)
(** * SynchDisk: filesys/synchdisk.h and filesys/synchdisk.cc

    The synchronous disk.  A call takes the lock, makes the request and waits on
    the semaphore that the completion interrupt signals; the model of one call is
    the view of its thread, which is the only one that runs: it sleeps until the
    pending interrupt of the disk, and would wait for ever ([Waits]) where only
    another thread could wake it.  The interrupts of other devices that fall due
    meanwhile stay pending; they do not touch the disk.  What the file system relies
    on is the interface [SectorStore]: an array of sectors behind
    ReadSector and WriteSector; this file shows that the disk provides it. *)

From S2P Require Import Prelude Machine NList Interrupt Disk.

(** ** The interface of the file system to the disk *)

Class SectorStore (D : Type) := {
  ReadSector : Z -> D -> res (list Z * D);
  WriteSector : Z -> list Z -> D -> res D
}.

(** Its contract: the state holds an array of sectors, which reads return and
    leave alone, and writes update at one index; a sector off the disk aborts. *)
Class SectorStoreLaws (D : Type) `{SectorStore D} := {
  store_wf : D -> Prop;
  contents : D -> list (list Z);
  contents_len : forall d, store_wf d -> zlen (contents d) = NumSectors;
  sector_len : forall d n bs, store_wf d -> znth (contents d) n = Some bs -> zlen bs = SectorSize;
  ReadSector_ok : forall d n bs, store_wf d -> znth (contents d) n = Some bs ->
    exists d', ReadSector n d = Ok (bs, d') /\ store_wf d' /\ contents d' = contents d;
  WriteSector_ok : forall d n bs, store_wf d -> valid_sector n -> zlen bs = SectorSize ->
    exists d', WriteSector n bs d = Ok d' /\ store_wf d' /\
      contents d' = <[Z.to_nat n := bs]> (contents d);
  Sector_aborts : forall d n bs, store_wf d -> ~ valid_sector n ->
    ReadSector n d = Err AssertFailed /\ WriteSector n bs d = Err AssertFailed
}.

(** ** The synchronous disk *)

(** [permits] is the value of the semaphore; [available] is that of the lock, and
    [mine] says whether its owner is the thread that makes the call. *)
Record SynchDisk := mkSynchDisk { disk : Disk; permits : Z; available : bool; mine : bool }.

Definition new_SynchDisk (file : option (list Z)) (this : Z) : res SynchDisk :=
  d ← new_Disk file this; mret (mkSynchDisk d 0 true false).

(** The first pending interrupt for [h], and the others. *)
Fixpoint take_interrupt (h : VoidFunctionPtr) (l : list (Z * PendingInterrupt))
    : option (Z * list (Z * PendingInterrupt)) :=
  match l with
  | [] => None
  | x :: l =>
      if bool_decide (handler x.2 = h) then Some (x.1, l)
      else '(when, rest) ← take_interrupt h l; mret (when, x :: rest)
  end.

Section synch_disk.
Context {W : Type}.
Implicit Types (sd : SynchDisk * sys W).

(** [semaphore->V()] from the interrupt handler. *)
Definition RequestDone (sd : SynchDisk) : SynchDisk :=
  mkSynchDisk (disk sd) (permits sd + 1) (available sd) (mine sd).

(** The thread sleeps until the disk's interrupt: the clock moves to its time, and
    [Disk::HandleInterrupt] calls [DiskRequestDone].  When the disk has none pending,
    nothing will wake it. *)
Definition sleep_until_done sd : res (SynchDisk * sys W) :=
  match take_interrupt DiskDone (pending (intr sd.2)) with
  | None => Err Waits
  | Some (when, rest) =>
      let s := on_intr (fun i => set_pending i rest) sd.2 in
      let s := if when >? now s then advance when s else s in
      '(d, s) ← HandleInterrupt (fun _ r => mret r) (disk sd.1) s;
      mret (RequestDone (mkSynchDisk d (permits sd.1) (available sd.1) (mine sd.1)), s)
  end.

(** [lock->Acquire()]: the owner must not call it again; a thread that finds the
    lock held by another waits for that one. *)
Definition acquire sd : res (SynchDisk * sys W) :=
  _ ← ASSERT (negb (mine sd.1));
  if available sd.1 then mret (mkSynchDisk (disk sd.1) (permits sd.1) false true, sd.2)
  else Err Waits.

(** [semaphore->P()]: after one interrupt there is a permit, so that the loop goes
    round once at most. *)
Definition wait_completion sd : res (SynchDisk * sys W) :=
  sd ← (if permits sd.1 =? 0 then sleep_until_done sd else mret sd);
  mret (mkSynchDisk (disk sd.1) (permits sd.1 - 1) (available sd.1) (mine sd.1), sd.2).

(** [lock->Release()]. *)
Definition release sd : res (SynchDisk * sys W) :=
  _ ← ASSERT (negb (available sd.1) || mine sd.1);
  mret (mkSynchDisk (disk sd.1) (permits sd.1) true false, sd.2).

Definition SynchDisk_ReadSector (n : Z) sd : res (list Z * (SynchDisk * sys W)) :=
  sd ← acquire sd;
  '(data, (d, s)) ← ReadRequest 0 (disk sd.1) n sd.2;
  sd ← wait_completion (mkSynchDisk d (permits sd.1) (available sd.1) (mine sd.1), s);
  sd ← release sd;
  mret (data, sd).

Definition SynchDisk_WriteSector (n : Z) (data : list Z) sd : res (SynchDisk * sys W) :=
  sd ← acquire sd;
  '(d, s) ← WriteRequest 0 (disk sd.1) n data sd.2;
  sd ← wait_completion (mkSynchDisk d (permits sd.1) (available sd.1) (mine sd.1), s);
  release sd.

#[export] Instance synch_disk_store : SectorStore (SynchDisk * sys W) := {|
  ReadSector := SynchDisk_ReadSector;
  WriteSector := SynchDisk_WriteSector
|}.
End synch_disk.

(** ** The disk keeps the contract *)

(** Between calls: no request in progress nor its interrupt pending, the lock free,
    no permit left. *)
Record quiescent {W} (sd : SynchDisk * sys W) : Prop := {
  q_disk : wf_disk (disk sd.1);
  q_active : active (disk sd.1) = false;
  q_pending : Forall (fun x => handler x.2 <> DiskDone) (pending (intr sd.2));
  q_permits : permits sd.1 = 0;
  q_lock : available sd.1 = true /\ mine sd.1 = false
}.

(** The interrupt that was scheduled is the one that is waited for. *)
Lemma take_scheduled l p w :
  Forall (fun x : Z * PendingInterrupt => handler x.2 <> DiskDone) l -> handler p = DiskDone ->
  take_interrupt DiskDone (l_insert l p w) = Some (w, l).
Proof.
  intros Hl Hp. induction Hl as [|[k q] l Hx Hl IH]; cbn [l_insert take_interrupt snd fst].
  - by rewrite bool_decide_true.
  - destruct (w <? k); cbn [take_interrupt snd fst]; [by rewrite bool_decide_true|].
    cbn in Hx. rewrite bool_decide_false by done. by rewrite IH.
Qed.

(** The clock when the request made at [ticks] has been waited for. *)
Definition finish_time (d : Disk) (n : Z) (writing : bool) (ticks : Z) : Z :=
  Z.max ticks (u64 (ticks + ComputeLatency d ticks n writing)).

Definition disk_sectors (d : Disk) : list (list Z) :=
  map (sector_bytes d) (seqZ 0 NumSectors).

Lemma znth_disk_sectors d n :
  valid_sector n -> znth (disk_sectors d) n = Some (sector_bytes d n).
Proof.
  intros Hn. unfold disk_sectors. rewrite znth_lookup by apply Hn.
  rewrite list_lookup_fmap, lookup_seqZ_lt by (destruct Hn; lia). simpl. do 2 f_equal.
  destruct Hn. lia.
Qed.

Lemma zlen_disk_sectors d : zlen (disk_sectors d) = NumSectors.
Proof. unfold zlen, disk_sectors. by rewrite length_map, length_seqZ. Qed.

Lemma sector_bytes_len d n : wf_disk d -> valid_sector n -> zlen (sector_bytes d n) = SectorSize.
Proof. intros Hd Hn. by apply (zlen_zread _ _ _ _ (sector_read d n Hd Hn)). Qed.

Lemma znth_valid d n bs : znth (disk_sectors d) n = Some bs -> valid_sector n.
Proof. intros H. apply znth_Some_range in H. by rewrite zlen_disk_sectors in H. Qed.

Lemma disk_sectors_image d d' : image d' = image d -> disk_sectors d' = disk_sectors d.
Proof. intros E. unfold disk_sectors, sector_bytes. by rewrite E. Qed.

(** Waiting for the interrupt of a request just made. *)
Lemma wait_scheduled {W} d (s : sys W) w a :
  wf_disk d -> Forall (fun x => handler x.2 <> DiskDone) (pending (intr s)) ->
  exists s', (sd ← wait_completion (mkSynchDisk d 0 false true,
      on_intr (fun i => set_pending i (l_insert (pending i) (mkPending DiskDone a w DiskInt) w)) s); release sd) =
      Ok (mkSynchDisk (set_active d false) 0 true false, s') /\
    pending (intr s') = pending (intr s) /\ now s' = Z.max (now s) w.
Proof.
  intros Hd Hp. unfold wait_completion, sleep_until_done. cbn [fst snd permits disk intr on_intr pending set_pending].
  rewrite Z.eqb_refl, take_scheduled by done. unfold HandleInterrupt, now. cbn [intr on_intr stats].
  rewrite Z.gtb_ltb. destruct (Z.ltb_spec (totalTicks (stats s)) w); cbn;
    eexists; (split; [reflexivity|]); cbn; split; done || lia.
Qed.

Lemma read_cycle {W} d n (s : sys W) :
  wf_disk d -> active d = false -> valid_sector n ->
  Forall (fun x => handler x.2 <> DiskDone) (pending (intr s)) ->
  exists d' s', SynchDisk_ReadSector n (mkSynchDisk d 0 true false, s) =
      Ok (sector_bytes d n, (mkSynchDisk d' 0 true false, s')) /\
    wf_disk d' /\ active d' = false /\ image d' = image d /\
    pending (intr s') = pending (intr s) /\ now s' = finish_time d n false (now s).
Proof.
  intros Hd Ha Hn Hp. unfold SynchDisk_ReadSector, acquire, ReadRequest. cbn [fst snd mine available negb ASSERT].
  rewrite !bind_Ok. cbn [fst snd disk permits available mine]. rewrite Ha. cbn [negb].
  rewrite valid_sector_test, bool_decide_true by done. cbn [ASSERT]. rewrite !bind_Ok.
  destruct (sector_in_image d n Hd Hn) as [H0 H1].
  rewrite Read_Ok, sector_read, bind_Ok by done.
  destruct (Schedule_latency d n false 0 (count_read s) (now s) Hn Hd) as (s1 & -> & ->). rewrite !bind_Ok.
  destruct (UpdateLast_image (set_active d true) (now s) n) as (E1 & E2 & E3).
  set (d1 := UpdateLast (set_active d true) (now s) n) in *.
  assert (wf_disk d1) as Hd1 by (split; [by rewrite E1; apply Hd|by rewrite E3]).
  destruct (wait_scheduled d1 (count_read s) (u64 (now (count_read s) + ComputeLatency d (now s) n false)) 0 Hd1 Hp)
    as (s' & E & Ep & En).
  apply bind_inv in E as (sd2 & -> & E). rewrite bind_Ok, E, bind_Ok.
  eexists _, s'. split; [reflexivity|]. split; [by destruct Hd1|]. by split_and!.
Qed.

Lemma write_cycle {W} d n data (s : sys W) :
  wf_disk d -> active d = false -> valid_sector n -> zlen data = SectorSize ->
  Forall (fun x => handler x.2 <> DiskDone) (pending (intr s)) ->
  exists d' s', SynchDisk_WriteSector n data (mkSynchDisk d 0 true false, s) = Ok (mkSynchDisk d' 0 true false, s') /\
    wf_disk d' /\ active d' = false /\
    disk_sectors d' = <[Z.to_nat n := data]> (disk_sectors d) /\
    pending (intr s') = pending (intr s) /\ now s' = finish_time d n true (now s).
Proof.
  intros Hd Ha Hn Hl Hp. unfold SynchDisk_WriteSector, acquire, WriteRequest. cbn [fst snd mine available negb ASSERT].
  rewrite !bind_Ok. cbn [fst snd disk permits available mine]. rewrite Ha. cbn [negb].
  rewrite valid_sector_test, bool_decide_true by done. cbn [ASSERT]. rewrite !bind_Ok.
  destruct (sector_in_image d n Hd Hn) as [H0 H1].
  rewrite zread_Ok, bind_Ok by (rewrite ?Hl; done).
  replace (take (Z.to_nat SectorSize) (drop (Z.to_nat 0) data)) with data
    by (symmetry; simpl drop; apply take_ge; unfold zlen in Hl; lia).
  rewrite WriteFile_Ok by lia.
  pose proof (zwrite_Ok (image d) (SectorSize * n + MagicSize) data H0 ltac:(lia)) as Hw.
  destruct (sector_write d n data _ Hd Hn Hl Hw) as [Hd' Hs']. rewrite Hw, bind_Ok.
  set (f := take _ _ ++ _) in *.
  destruct (Schedule_latency d n true 0 (count_write s) (now s) Hn Hd) as (s1 & -> & ->). rewrite !bind_Ok.
  destruct (UpdateLast_image (set_active (set_image d f) true) (now s) n) as (E1 & E2 & E3).
  set (d1 := UpdateLast (set_active (set_image d f) true) (now s) n) in *.
  assert (wf_disk d1) as Hd1 by (split; [by rewrite E1; apply Hd'|by rewrite E3]).
  destruct (wait_scheduled d1 (count_write s) (u64 (now (count_write s) + ComputeLatency d (now s) n true)) 0 Hd1 Hp)
    as (s' & E & Ep & En). rewrite E.
  eexists _, s'. split; [reflexivity|]. split; [by destruct Hd1|]. split; [done|]. split; [|by split].
  apply list_eq_znth; [by rewrite zlen_insert, !zlen_disk_sectors|].
  intros k Hk. rewrite zlen_disk_sectors in Hk.
  rewrite znth_disk_sectors by exact Hk. unfold sector_bytes. cbn [image set_active]. rewrite E1.
  pose proof (Hs' k Hk) as Hk'. unfold sector_bytes in Hk'. simpl in Hk' |- *. rewrite Hk'.
  destruct (Z.eqb_spec k n) as [->|Hne].
  - symmetry. apply znth_insert_eq. by rewrite zlen_disk_sectors.
  - rewrite znth_insert_ne by (destruct Hn; lia). by rewrite znth_disk_sectors.
Qed.

(** A call on a quiescent disk. *)
Lemma quiescent_eq {W} (sd : SynchDisk * sys W) :
  quiescent sd -> sd = (mkSynchDisk (disk sd.1) 0 true false, sd.2).
Proof. destruct sd as [[d p a m] s]. intros [_ _ _ Hp [Ha Hm]]. simpl in *. by subst. Qed.

Lemma ReadSector_quiescent {W} (sd : SynchDisk * sys W) n :
  quiescent sd -> valid_sector n ->
  exists sd', SynchDisk_ReadSector n sd = Ok (sector_bytes (disk sd.1) n, sd') /\ quiescent sd' /\
    disk_sectors (disk sd'.1) = disk_sectors (disk sd.1) /\
    pending (intr sd'.2) = pending (intr sd.2) /\ now sd'.2 = finish_time (disk sd.1) n false (now sd.2).
Proof.
  intros Hq Hn. pose proof Hq as [Hd Ha Hpe _ _].
  destruct (read_cycle (disk sd.1) n sd.2 Hd Ha Hn Hpe) as (d' & s' & E & Hd' & Ha' & Hi & Ep & En).
  rewrite <- quiescent_eq in E by done. eexists. split; [exact E|]. split; [|split; [by apply disk_sectors_image|done]].
  split; try done. cbn [snd]. by rewrite Ep.
Qed.

Lemma WriteSector_quiescent {W} (sd : SynchDisk * sys W) n bs :
  quiescent sd -> valid_sector n -> zlen bs = SectorSize ->
  exists sd', SynchDisk_WriteSector n bs sd = Ok sd' /\ quiescent sd' /\
    disk_sectors (disk sd'.1) = <[Z.to_nat n := bs]> (disk_sectors (disk sd.1)) /\
    pending (intr sd'.2) = pending (intr sd.2) /\ now sd'.2 = finish_time (disk sd.1) n true (now sd.2).
Proof.
  intros Hq Hn Hl. pose proof Hq as [Hd Ha Hpe _ _].
  destruct (write_cycle (disk sd.1) n bs sd.2 Hd Ha Hn Hl Hpe) as (d' & s' & E & Hd' & Ha' & Hi & Ep & En).
  rewrite <- quiescent_eq in E by done. eexists. split; [exact E|]. split; [|by split].
  split; try done. cbn [snd]. by rewrite Ep.
Qed.

Lemma off_disk_aborts {W} (sd : SynchDisk * sys W) n bs :
  quiescent sd -> ~ valid_sector n ->
  SynchDisk_ReadSector n sd = Err AssertFailed /\ SynchDisk_WriteSector n bs sd = Err AssertFailed.
Proof.
  intros Hq Hn. pose proof Hq as [_ Ha _ _ _]. rewrite (quiescent_eq sd Hq).
  unfold SynchDisk_ReadSector, SynchDisk_WriteSector, acquire, ReadRequest, WriteRequest.
  cbn [fst snd mine available negb ASSERT]. rewrite !bind_Ok. cbn [fst snd disk]. rewrite Ha. cbn [negb ASSERT].
  by rewrite valid_sector_test, bool_decide_false, !bind_Ok by done.
Qed.

#[export] Instance synch_disk_laws W : SectorStoreLaws (SynchDisk * sys W).
Proof.
  refine {| store_wf := quiescent; contents sd := disk_sectors (disk sd.1) |}.
  - intros d _. apply zlen_disk_sectors.
  - intros sd n bs [Hd _ _ _ _] E. pose proof (znth_valid _ _ _ E) as Hn.
    rewrite znth_disk_sectors in E by done. injection E as <-. by apply sector_bytes_len.
  - intros sd n bs Hq E. pose proof (znth_valid _ _ _ E) as Hn. rewrite znth_disk_sectors in E by done. injection E as <-.
    destruct (ReadSector_quiescent sd n Hq Hn) as (sd' & E & Hq' & Hs & _). by exists sd'.
  - intros sd n bs Hq Hn Hl. destruct (WriteSector_quiescent sd n bs Hq Hn Hl) as (sd' & E & Hq' & Hs & _). by exists sd'.
  - intros sd n bs. apply off_disk_aborts.
Defined.


Definition fresh_synch_disk : SynchDisk * sys unit :=
  (mkSynchDisk fresh_disk 0 true false, mkSys new_Interrupt new_Statistics tt).

Lemma fresh_quiescent : quiescent fresh_synch_disk.
Proof.
  split; [|reflexivity|constructor|reflexivity|split; reflexivity].
  split; [apply fresh_disk_len|split; [done|reflexivity]].
Qed.

Lemma fresh_store_wf : store_wf fresh_synch_disk.
Proof. exact fresh_quiescent. Qed.

