(* ===== verification/FileHdr.v ===== *)
(** * FileHdr: filesys/filehdr.h and filesys/filehdr.cc

    The file header: length, number of data sectors and their numbers, stored
    in one sector.  Disk accesses go through the interface [SectorStore]. *)

From S2P Require Import Prelude BitMap Machine Interrupt Disk SynchDisk.

(** [(SectorSize - 2 * sizeof(int)) / sizeof(int)] *)
Definition NumDirect : Z := 30.
Definition MaxFileSize : Z := NumDirect * SectorSize.

Record FileHeader := mkHdr {
  numBytes : Z;
  numSectors : Z;
  dataSectors : list Z        (* int[NumDirect] *)
}.

(** The header as the 128 bytes of its sector, and back. *)
Definition hdr_bytes (h : FileHeader) : list Z :=
  le_bytes 4 (numBytes h) ++ le_bytes 4 (numSectors h) ++
  concat (le_bytes 4 <$> dataSectors h).

Definition int_at (bs : list Z) (i : nat) : Z := s32 (le_value (take 4 (drop (4 * i) bs))).

Definition hdr_of_bytes (bs : list Z) : FileHeader :=
  mkHdr (int_at bs 0) (int_at bs 1) (int_at bs <$> seq 2 (Z.to_nat NumDirect)).

(** [for (i = 0; i < numSectors; i++) dataSectors[i] = freeMap->Find();] *)
Fixpoint allocate_loop (n : nat) (i : Z) (ds : list Z) (freeMap : BitMap)
    : res (list Z * BitMap) :=
  match n with
  | O => mret (ds, freeMap)
  | S n =>
      '(s, freeMap) ← BitMap.Find freeMap;
      ds ← ds.[i := s];
      allocate_loop n (i + 1) ds freeMap
  end.

(** [hdr] is the header object the call works on. *)
Definition Allocate (hdr : FileHeader) (freeMap : BitMap) (fileSize : Z)
    : res (bool * (FileHeader * BitMap)) :=
  let numSectors := divRoundUp fileSize SectorSize in
  clear ← NumClear freeMap;
  if clear <? numSectors then mret (false, (mkHdr fileSize numSectors (dataSectors hdr), freeMap))
  else
    '(ds, freeMap) ← allocate_loop (Z.to_nat numSectors) 0 (dataSectors hdr) freeMap;
    mret (true, (mkHdr fileSize numSectors ds, freeMap)).

(** [for (i = 0; i < numSectors; i++) { ASSERT(Test); Clear; }] *)
Fixpoint deallocate_loop (n : nat) (i : Z) (ds : list Z) (freeMap : BitMap) : res BitMap :=
  match n with
  | O => mret freeMap
  | S n =>
      s ← ds.[i];
      marked ← Test freeMap s;
      _ ← ASSERT marked;
      freeMap ← Clear freeMap s;
      deallocate_loop n (i + 1) ds freeMap
  end.

Definition Deallocate (hdr : FileHeader) (freeMap : BitMap) : res BitMap :=
  deallocate_loop (Z.to_nat (numSectors hdr)) 0 (dataSectors hdr) freeMap.

Definition ByteToSector (hdr : FileHeader) (offset : Z) : res Z :=
  (dataSectors hdr).[Z.quot offset SectorSize].

Definition FileLength (hdr : FileHeader) : Z := numBytes hdr.

Section store.
Context {D : Type} `{SectorStore D}.

Definition FetchFrom (sector : Z) (d : D) : res (FileHeader * D) :=
  '(bs, d) ← ReadSector sector d; mret (hdr_of_bytes bs, d).

Definition WriteBack (hdr : FileHeader) (sector : Z) (d : D) : res D :=
  WriteSector sector (hdr_bytes hdr) d.

(** A byte as Print writes it: the character, or its hexadecimal code. *)
Definition print_byte (b : Z) : Z + Z := if (32 <=? s8 b) && (s8 b <=? 126) then inl b else inr b.

(** The contents printed, sector by sector; [k] counts the bytes printed. *)
Fixpoint print_loop (n : nat) (i k : Z) (hdr : FileHeader) (d : D)
    : res (list (list (Z + Z)) * D) :=
  match n with
  | O => mret ([], d)
  | S n =>
      s ← (dataSectors hdr).[i];
      '(data, d) ← ReadSector s d;
      let m := Z.max 0 (Z.min SectorSize (numBytes hdr - k)) in
      '(out, d) ← print_loop n (i + 1) (k + m) hdr d;
      mret ((print_byte <$> take (Z.to_nat m) data) :: out, d)
  end.

(** The length, the sectors and the contents. *)
Definition Print (hdr : FileHeader) (d : D) : res ((Z * list Z * list (list (Z + Z))) * D) :=
  let n := Z.to_nat (numSectors hdr) in
  blocks ← zread (dataSectors hdr) 0 (Z.max 0 (numSectors hdr));
  '(out, d) ← print_loop n 0 0 hdr d;
  mret ((numBytes hdr, blocks, out), d).
End store.

(** ** Well-formed headers *)

(** The data sectors in use. *)
Definition blocks (h : FileHeader) : list Z := take (Z.to_nat (numSectors h)) (dataSectors h).

Record wf_hdr (h : FileHeader) : Prop := {
  hdr_len : zlen (dataSectors h) = NumDirect;
  hdr_bytes_nonneg : 0 <= numBytes h;
  hdr_sectors : numSectors h = divRoundUp (numBytes h) SectorSize;
  hdr_fits : numSectors h <= NumDirect;
  hdr_valid : Forall valid_sector (blocks h);
  hdr_nodup : NoDup (blocks h);
  hdr_ints : Forall is_s32 (dataSectors h)
}.

Lemma hdr_numSectors h : wf_hdr h -> 0 <= numSectors h <= NumDirect.
Proof.
  intros [_ Hb Hs Hf _ _ _]. split; [|done]. rewrite Hs. by apply divRoundUp_nonneg.
Qed.

Lemma zlen_blocks h : wf_hdr h -> zlen (blocks h) = numSectors h.
Proof.
  intros Hh. pose proof (hdr_numSectors h Hh). pose proof (hdr_len _ Hh).
  unfold blocks, zlen in *. rewrite length_take. lia.
Qed.

Lemma hdr_size h : wf_hdr h -> numBytes h <= numSectors h * SectorSize.
Proof.
  intros [_ Hb -> _ _ _ _]. pose proof (divRoundUp_spec (numBytes h) SectorSize Hb ltac:(done)). lia.
Qed.

(** ** The header and its sector *)

Lemma zlen_hdr_bytes h : zlen (dataSectors h) = NumDirect -> zlen (hdr_bytes h) = SectorSize.
Proof.
  intros Hl. unfold hdr_bytes. rewrite !zlen_app, !zlen_le_bytes.
  assert (forall l, zlen (concat (le_bytes 4 <$> l)) = 4 * zlen l) as Hc.
  { induction l as [|x l IH]; [done|]. cbn [fmap list_fmap concat].
    rewrite zlen_app, zlen_le_bytes, IH. unfold zlen. cbn [length]. lia. }
  rewrite Hc, Hl. done.
Qed.

Lemma int_at_le_bytes l rest k x :
  is_s32 x -> length l = (4 * k)%nat -> int_at (l ++ le_bytes 4 x ++ rest) k = x.
Proof.
  intros Hx Hl. unfold int_at. rewrite drop_app_length' by done.
  rewrite take_app_length' by (by rewrite length_le_bytes). rewrite le_value_bytes.
  change (x mod 2 ^ (8 * Z.of_nat 4)) with (u32 x). rewrite s32_u32. by apply s32_id.
Qed.

Lemma ints_of_concat ds : forall k pre,
  Forall is_s32 ds -> length pre = (4 * k)%nat ->
  int_at (pre ++ concat (le_bytes 4 <$> ds)) <$> seq k (length ds) = ds.
Proof.
  induction ds as [|x ds IH]; intros k pre HF Hl; [done|].
  apply Forall_cons in HF as [Hx HF]. cbn [length seq fmap list_fmap concat]. f_equal.
  - by apply int_at_le_bytes.
  - rewrite app_assoc. apply IH; [done|]. rewrite length_app, length_le_bytes. lia.
Qed.

(** A header is read back from the sector it was written to. *)
Lemma hdr_round_trip h :
  zlen (dataSectors h) = NumDirect -> Forall is_s32 (dataSectors h) ->
  is_s32 (numBytes h) -> is_s32 (numSectors h) -> hdr_of_bytes (hdr_bytes h) = h.
Proof.
  intros Hl HF Hb Hs. unfold hdr_of_bytes, hdr_bytes. destruct h as [nb ns ds].
  cbn [numBytes numSectors dataSectors] in *.
  f_equal.
  - apply (int_at_le_bytes [] _ 0); done.
  - apply (int_at_le_bytes (le_bytes 4 nb) _ 1); [done|]. by rewrite length_le_bytes.
  - rewrite app_assoc. assert (Z.to_nat NumDirect = length ds) as -> by (unfold zlen in Hl; lia).
    apply ints_of_concat; [done|]. by rewrite length_app, !length_le_bytes.
Qed.

(** ** Allocation *)

(** The disk's bit map: one bit per sector. *)
Definition wf_map (b : BitMap) : Prop := wf b /\ numBits b = NumSectors.

Definition free (b : BitMap) : Z := numBits b - Z.of_nat (size (marked b)).

Lemma valid_bit_sector b i : wf_map b -> valid_bit b i <-> valid_sector i.
Proof. intros [_ Hn]. unfold valid_bit, valid_sector. by rewrite Hn. Qed.

Lemma allocate_loop_spec n : forall i ds b,
  wf_map b -> 0 <= i -> i + Z.of_nat n <= zlen ds -> Z.of_nat n <= free b ->
  exists ds' b' new, allocate_loop n i ds b = Ok (ds', b') /\ wf_map b' /\
    length new = n /\ NoDup new /\ Forall valid_sector new /\
    (forall x, x ∈ new -> x ∉ marked b) /\
    marked b' = list_to_set new ∪ marked b /\
    ds' = take (Z.to_nat i) ds ++ new ++ drop (Z.to_nat i + n) ds.
Proof.
  induction n as [|n IH]; intros i ds b Hb Hi Hlen Hfree.
  - exists ds, b, []. split_and!; try done; [constructor|set_solver|set_solver|].
    rewrite Nat.add_0_r. simpl. by rewrite take_drop.
  - cbn [allocate_loop]. destruct Hb as [Hb Hnb].
    destruct (Find_marked b Hb) as [(r & b1 & -> & Hr & Hnr & _ & Hb1 & Hnb1 & Hm1)|[_ Hfull]].
    2:{ unfold free in Hfree. lia. }
    rewrite bind_Ok, zset_Ok, bind_Ok by lia.
    assert (free b1 = free b - 1) as Hf1.
    { unfold free. rewrite Hnb1, Hm1, size_union, size_singleton by set_solver. lia. }
    destruct (IH (i + 1) (<[Z.to_nat i := r]> ds) b1) as
      (ds' & b' & new & -> & Hb' & Hl & Hnd & Hv & Hnew & Hm & ->);
      [split; [done|congruence]|lia|rewrite zlen_insert; lia|lia|].
    eexists _, b', (r :: new). split; [reflexivity|].
    split_and!; try done; simpl.
    + lia.
    + constructor; [|done]. intros Hin. apply Hnew in Hin. set_solver.
    + constructor; [|done]. by apply (valid_bit_sector b).
    + intros x [->|Hx]%elem_of_cons; [done|]. apply Hnew in Hx. set_solver.
    + rewrite Hm, Hm1. set_solver.
    + replace (Z.to_nat (i + 1)) with (S (Z.to_nat i)) by lia.
      rewrite insert_take_drop by (unfold zlen in Hlen; lia).
      rewrite take_app_ge, drop_app_ge by (rewrite length_take; lia).
      rewrite !length_take, !Nat.min_l by (unfold zlen in Hlen; lia).
      replace (S (Z.to_nat i) - Z.to_nat i)%nat with 1%nat by lia.
      replace (S (Z.to_nat i) + n - Z.to_nat i)%nat with (S n) by lia.
      simpl. rewrite drop_drop, take_0, <- app_assoc. simpl. do 3 f_equal. f_equal. lia.
Qed.

(** Allocate on an empty header object of the right size. *)
Lemma Allocate_spec hdr b fileSize :
  wf_map b -> 0 <= fileSize -> zlen (dataSectors hdr) = NumDirect ->
  Forall is_s32 (dataSectors hdr) ->
  let need := divRoundUp fileSize SectorSize in
  if free b <? need then
    Allocate hdr b fileSize = Ok (false, (mkHdr fileSize need (dataSectors hdr), b))
  else need <= NumDirect ->
    exists h b', Allocate hdr b fileSize = Ok (true, (h, b')) /\ wf_hdr h /\ wf_map b' /\
      numBytes h = fileSize /\ numSectors h = need /\
      (forall x, x ∈ blocks h -> x ∉ marked b) /\
      marked b' = list_to_set (blocks h) ∪ marked b.
Proof.
  intros Hb Hfs Hlen Hints need. unfold Allocate. fold need.
  rewrite NumClear_spec, bind_Ok by apply Hb. fold (free b).
  destruct (Z.ltb_spec (free b) need) as [|Hfree]; [done|]. intros Hneed.
  assert (0 <= need) as Hn0 by (by apply divRoundUp_nonneg).
  destruct (allocate_loop_spec (Z.to_nat need) 0 (dataSectors hdr) b) as
    (ds' & b' & new & -> & Hb' & Hl & Hnd & Hv & Hnew & Hm & Eds); [done|lia|lia|lia|].
  rewrite bind_Ok. simpl in Eds.
  assert (blocks (mkHdr fileSize need ds') = new) as Hbl.
  { unfold blocks. simpl. by rewrite Eds, take_app_length'. }
  eexists (mkHdr fileSize need ds'), b'. split; [done|]. rewrite Hbl.
  split_and!; try done. split; try done; simpl; rewrite ?Hbl; try done.
  - rewrite Eds. unfold zlen in *. rewrite length_app, length_drop. lia.
  - rewrite Eds. apply Forall_app. split; [|by apply Forall_drop].
    eapply Forall_impl; [exact Hv|]. intros x Hx.
    unfold valid_sector, NumSectors, SectorsPerTrack, NumTracks in Hx. word_lia.
Qed.

Lemma deallocate_loop_spec ds n : forall i b,
  wf_map b -> 0 <= i -> i + Z.of_nat n <= zlen ds ->
  let bl := take n (drop (Z.to_nat i) ds) in
  NoDup bl -> Forall valid_sector bl -> (forall x, x ∈ bl -> x ∈ marked b) ->
  exists b', deallocate_loop n i ds b = Ok b' /\ wf_map b' /\
    marked b' = marked b ∖ list_to_set bl.
Proof.
  induction n as [|n IH]; intros i b Hb Hi Hlen bl Hnd Hv Hm; cbn [deallocate_loop].
  - exists b. split_and!; try done. unfold bl. rewrite take_0. set_solver.
  - destruct (zget_in_range ds i ltac:(lia)) as [s Es]. rewrite Es, bind_Ok.
    apply zget_Ok in Es. rewrite znth_lookup in Es by lia.
    assert (bl = s :: take n (drop (Z.to_nat (i + 1)) ds)) as Ebl.
    { unfold bl. rewrite (drop_S _ _ _ Es). simpl. do 3 f_equal. lia. }
    rewrite Ebl in *. clear bl Ebl. set (bl := take n _) in *.
    apply NoDup_cons in Hnd as [Hns Hnd]. apply Forall_cons in Hv as [Hvs Hv].
    assert (valid_bit b s) as Hvb by (by apply valid_bit_sector).
    rewrite Test_marked, bind_Ok by (done || apply Hb).
    rewrite bool_decide_true by (apply Hm; left). cbn [ASSERT]. rewrite bind_Ok.
    destruct (Clear_marked b s (proj1 Hb) Hvb) as (b1 & -> & Hb1 & Hn1 & Hm1). rewrite bind_Ok.
    destruct (IH (i + 1) b1) as (b' & -> & Hb' & Hm'); try done.
    + split; [done|]. rewrite Hn1. apply Hb.
    + lia.
    + lia.
    + intros x Hx. rewrite Hm1. assert (x <> s) by (intros ->; done).
      specialize (Hm x ltac:(by right)). set_solver.
    + exists b'. split_and!; try done. rewrite Hm', Hm1. simpl. set_solver.
Qed.

Lemma Deallocate_spec h b :
  wf_hdr h -> wf_map b -> (forall x, x ∈ blocks h -> x ∈ marked b) ->
  exists b', Deallocate h b = Ok b' /\ wf_map b' /\
    marked b' = marked b ∖ list_to_set (blocks h).
Proof.
  intros Hh Hb Hm. unfold Deallocate. pose proof (hdr_numSectors h Hh).
  pose proof (hdr_len _ Hh). apply deallocate_loop_spec; try done; try lia.
  all: change (drop (Z.to_nat 0) (dataSectors h)) with (dataSectors h); fold (blocks h); try done;
    apply Hh.
Qed.

(** Allocating the data sectors of a new file.  Allocate fails, changing no
    bit, exactly when fewer sectors are free than the size needs; a file of at
    most MaxFileSize bytes that fits gets a well-formed header with distinct
    sectors, none of which was in use, and exactly those become marked;
    Deallocate then frees exactly those again. *)
Theorem Allocate_Deallocate hdr b fileSize :
  wf_map b -> 0 <= fileSize -> zlen (dataSectors hdr) = NumDirect ->
  Forall is_s32 (dataSectors hdr) ->
  let need := divRoundUp fileSize SectorSize in
  if free b <? need then
    Allocate hdr b fileSize = Ok (false, (mkHdr fileSize need (dataSectors hdr), b))
  else fileSize <= MaxFileSize ->
    exists h b', Allocate hdr b fileSize = Ok (true, (h, b')) /\ wf_hdr h /\
      numBytes h = fileSize /\ numSectors h = need /\
      (forall x, x ∈ blocks h -> x ∉ marked b) /\
      marked b' = list_to_set (blocks h) ∪ marked b /\
      exists b'', Deallocate h b' = Ok b'' /\ marked b'' = marked b.
Proof.
  intros Hb Hfs Hlen Hints need. pose proof (Allocate_spec hdr b fileSize Hb Hfs Hlen Hints) as H.
  fold need in H. cbv zeta in H. destruct (free b <? need); [done|]. intros Hmax.
  assert (need <= NumDirect) as Hneed.
  { pose proof (divRoundUp_spec fileSize SectorSize Hfs ltac:(done)) as Hs. fold need in Hs.
    unfold MaxFileSize, SectorSize in *. lia. }
  destruct (H Hneed) as (h & b' & E & Hh & Hb' & Hn & Hns & Hnew & Hm).
  destruct (Deallocate_spec h b' Hh Hb') as (b'' & E' & _ & Hm'').
  { intros x Hx. rewrite Hm. set_solver. }
  exists h, b'. split_and!; try done. exists b''. split; [done|].
  rewrite Hm'', Hm. apply set_eq. intros x. specialize (Hnew x). set_solver.
Qed.

(** The empty bit map of the disk. *)
Definition empty_map : BitMap := mkBitMap NumSectors 32 (replicate 32 0).
Definition blank_header : FileHeader := mkHdr 0 0 (replicate 30 0).

Lemma empty_map_wf : wf_map empty_map.
Proof.
  split; [|reflexivity]. split; try reflexivity; [done|]. apply Forall_replicate. word_lia.
Qed.

Lemma empty_map_free : free empty_map = NumSectors.
Proof.
  pose proof (NumClear_spec empty_map (proj1 empty_map_wf)) as H. fold (free empty_map) in H.
  assert (NumClear empty_map = Ok NumSectors) as E by (vm_compute; reflexivity).
  rewrite E in H. symmetry. exact (Ok_inj _ _ H).
Qed.

Lemma blank_header_ok :
  zlen (dataSectors blank_header) = NumDirect /\ Forall is_s32 (dataSectors blank_header).
Proof. split; [reflexivity|]. apply Forall_replicate. apply is_s32_0. Qed.

Lemma Allocate_Deallocate_witness :
  exists h b' b'', Allocate blank_header empty_map 300 = Ok (true, (h, b')) /\
    blocks h = [0; 1; 2] /\ Deallocate h b' = Ok b'' /\ marked b'' = marked empty_map.
Proof.
  pose proof (Allocate_Deallocate blank_header empty_map 300 empty_map_wf ltac:(done)
    (proj1 blank_header_ok) (proj2 blank_header_ok)) as H.
  cbv zeta in H. rewrite empty_map_free in H.
  destruct (H ltac:(done)) as (h & b' & E & _ & _ & _ & _ & _ & b'' & E' & Hm).
  exists h, b', b''. split; [exact E|]. split; [|split; [exact E'|exact Hm]].
  clear - E. vm_compute in E. injection E as Eh _. rewrite <- Eh. reflexivity.
Defined.

(** Allocate does not check the size against the header.  A file of more
    than MaxFileSize bytes for which enough sectors are free writes past the end
    of dataSectors instead of being refused. *)
Theorem Allocate_overflows hdr b fileSize :
  wf_map b -> MaxFileSize < fileSize -> zlen (dataSectors hdr) = NumDirect ->
  divRoundUp fileSize SectorSize <= free b ->
  Allocate hdr b fileSize = Err OutOfBounds.
Proof.
  intros Hb Hfs Hlen Hfree. unfold Allocate.
  rewrite NumClear_spec, bind_Ok by apply Hb. fold (free b).
  destruct (Z.ltb_spec (free b) (divRoundUp fileSize SectorSize)); [lia|].
  assert (0 <= fileSize) as H0 by (unfold MaxFileSize, NumDirect, SectorSize in *; lia).
  pose proof (divRoundUp_spec fileSize SectorSize H0 ltac:(done)) as Hs.
  assert (NumDirect < divRoundUp fileSize SectorSize) as Hneed
    by (unfold MaxFileSize, SectorSize in *; lia).
  assert (forall n i ds b, wf_map b -> 0 <= i -> zlen ds = NumDirect ->
    Z.of_nat n <= free b -> NumDirect < i + Z.of_nat n -> i <= NumDirect ->
    allocate_loop n i ds b = Err OutOfBounds) as Hloop.
  { clear. induction n as [|n IH]; intros i ds b [Hb Hnb] Hi Hl Hf Hbig Hle; [lia|].
    cbn [allocate_loop].
    destruct (Find_marked b Hb) as [(r & b1 & -> & Hr & Hnr & _ & Hb1 & Hnb1 & Hm1)|[_ Hfull]].
    2:{ unfold free in Hf. lia. }
    rewrite bind_Ok. destruct (Z.eqb_spec i NumDirect) as [->|Hne].
    - unfold zset. unfold zlen in Hl. rewrite Hl. by rewrite Z.ltb_irrefl, andb_false_r.
    - rewrite zset_Ok, bind_Ok by lia. apply IH; try done; try lia.
      + split; [done|congruence].
      + by rewrite zlen_insert.
      + unfold free. rewrite Hnb1, Hm1, size_union, size_singleton by set_solver.
        unfold free in Hf. lia. }
  set (need := divRoundUp fileSize SectorSize) in *.
  assert (0 <= NumDirect) by done.
  rewrite (Hloop (Z.to_nat need) 0 (dataSectors hdr) b Hb); [reflexivity|lia|done|lia|lia|lia].
Qed.

Lemma Allocate_overflows_witness : Allocate blank_header empty_map 3841 = Err OutOfBounds.
Proof.
  apply (Allocate_overflows blank_header empty_map 3841 empty_map_wf); [done|done|].
  by rewrite empty_map_free.
Defined.
