(* ===== verification/OpenFile.v ===== *)
(** * OpenFile: filesys/openfile.h and filesys/openfile.cc

    An open Nachos file: its header in memory and a current position.  Reads and
    writes of arbitrary byte ranges are carried out on whole sectors. *)

From S2P Require Import Prelude BitMap Machine Interrupt Disk SynchDisk FileHdr.

Record OpenFile := mkOpenFile { hdr : FileHeader; seekPosition : Z }.

Section open_file.
Context {D : Type} `{SectorStore D}.
(** What [new char[n]] returns: uninitialised memory. *)
Context (new_char : Z -> list Z).

Definition new_OpenFile (sector : Z) (d : D) : res (OpenFile * D) :=
  '(h, d) ← FetchFrom sector d; mret (mkOpenFile h 0, d).

Definition Seek (f : OpenFile) (position : Z) : OpenFile := mkOpenFile (hdr f) position.

(** [for (i = firstSector; i <= lastSector; i++) ReadSector(..)]: the buffer. *)
Fixpoint read_sectors (n : nat) (i : Z) (h : FileHeader) (d : D) : res (list Z * D) :=
  match n with
  | O => mret ([], d)
  | S n =>
      s ← ByteToSector h (i * SectorSize);
      '(bs, d) ← ReadSector s d;
      '(buf, d) ← read_sectors n (i + 1) h d;
      mret (bs ++ buf, d)
  end.

(** The bytes copied into [into]; their number is the result. *)
Definition ReadAt (f : OpenFile) (numBytes position : Z) (d : D) : res (list Z * D) :=
  let fileLength := FileLength (hdr f) in
  if (numBytes <=? 0) || (position >=? fileLength) then mret ([], d)
  else
    let numBytes :=
      if s32 (position + numBytes) >? fileLength then fileLength - position else numBytes in
    let firstSector := divRoundDown position SectorSize in
    let lastSector := divRoundDown (position + numBytes - 1) SectorSize in
    let numSectors := 1 + lastSector - firstSector in
    '(buf, d) ← read_sectors (Z.to_nat numSectors) firstSector (hdr f) d;
    into ← zread buf (position - firstSector * SectorSize) numBytes;
    mret (into, d).

(** [for (i = firstSector; i <= lastSector; i++) WriteSector(..)]. *)
Fixpoint write_sectors (n : nat) (i : Z) (h : FileHeader) (buf : list Z) (d : D) : res D :=
  match n with
  | O => mret d
  | S n =>
      s ← ByteToSector h (i * SectorSize);
      bs ← zread buf 0 SectorSize;
      d ← WriteSector s bs d;
      write_sectors n (i + 1) h (drop (Z.to_nat SectorSize) buf) d
  end.

(** [ReadAt(&buf[off], SectorSize, sector * SectorSize)], if [needed]. *)
Definition fill (needed : bool) (f : OpenFile) (buf : list Z) (off sector : Z) (d : D)
    : res (list Z * D) :=
  if needed then
    '(bs, d) ← ReadAt f SectorSize (sector * SectorSize) d;
    buf ← zwrite buf off bs; mret (buf, d)
  else mret (buf, d).

Definition WriteAt (f : OpenFile) (from : list Z) (numBytes position : Z) (d : D)
    : res (Z * D) :=
  let fileLength := FileLength (hdr f) in
  if (numBytes <=? 0) || (position >=? fileLength) then mret (0, d)
  else
    let numBytes :=
      if s32 (position + numBytes) >? fileLength then fileLength - position else numBytes in
    let firstSector := divRoundDown position SectorSize in
    let lastSector := divRoundDown (position + numBytes - 1) SectorSize in
    let numSectors := 1 + lastSector - firstSector in
    let buf := new_char (numSectors * SectorSize) in
    let firstAligned := position =? firstSector * SectorSize in
    let lastAligned := position + numBytes =? (lastSector + 1) * SectorSize in
    '(buf, d) ← fill (negb firstAligned) f buf 0 firstSector d;
    '(buf, d) ← fill (negb lastAligned && (negb (firstSector =? lastSector) || firstAligned))
                  f buf ((lastSector - firstSector) * SectorSize) lastSector d;
    data ← zread from 0 numBytes;
    buf ← zwrite buf (position - firstSector * SectorSize) data;
    d ← write_sectors (Z.to_nat numSectors) firstSector (hdr f) buf d;
    mret (numBytes, d).

Definition Read (f : OpenFile) (numBytes : Z) (d : D) : res (list Z * (OpenFile * D)) :=
  '(into, d) ← ReadAt f numBytes (seekPosition f) d;
  mret (into, (mkOpenFile (hdr f) (s32 (seekPosition f + zlen into)), d)).

Definition Write (f : OpenFile) (from : list Z) (numBytes : Z) (d : D)
    : res (Z * (OpenFile * D)) :=
  '(result, d) ← WriteAt f from numBytes (seekPosition f) d;
  mret (result, (mkOpenFile (hdr f) (s32 (seekPosition f + result)), d)).

Definition Length (f : OpenFile) : Z := FileLength (hdr f).
End open_file.

(** ** The contents of a file *)

Definition sector_data (c : list (list Z)) (s : Z) : list Z := default [] (znth c s).

(** The data sectors of a file, end to end, and the bytes of the file. *)
Definition all_data (c : list (list Z)) (h : FileHeader) : list Z :=
  concat (sector_data c <$> blocks h).
Definition file_data (c : list (list Z)) (h : FileHeader) : list Z :=
  take (Z.to_nat (numBytes h)) (all_data c h).

(** The disk, as an array of sectors. *)
Definition wf_contents (c : list (list Z)) : Prop :=
  zlen c = NumSectors /\ Forall (fun bs => zlen bs = SectorSize) c.

Section equal_blocks.
Context {A : Type} (k : nat).
Implicit Types (ls : list (list A)).

Lemma length_concat_eq ls : Forall (fun l => length l = k) ls -> length (concat ls) = (k * length ls)%nat.
Proof. induction 1 as [|l ls Hl HF IH]; simpl; [lia|]. rewrite length_app, IH. lia. Qed.

Lemma drop_concat_eq ls : forall i,
  Forall (fun l => length l = k) ls -> drop (k * i) (concat ls) = concat (drop i ls).
Proof.
  induction ls as [|l ls IH]; intros i HF; simpl; [by rewrite !drop_nil|].
  apply Forall_cons in HF as [Hl HF]. destruct i as [|i]; [by rewrite Nat.mul_0_r|].
  rewrite drop_app_ge by lia. simpl. rewrite <- IH by done. f_equal. lia.
Qed.
End equal_blocks.

Section contents.
Context (c : list (list Z)) (h : FileHeader) (Hc : wf_contents c) (Hh : wf_hdr h).

Lemma sector_data_len s : valid_sector s -> zlen (sector_data c s) = SectorSize.
Proof.
  intros Hs. unfold sector_data. destruct Hc as [Hl HF].
  destruct (znth_in_range c s) as [bs E]; [by rewrite Hl|]. rewrite E. simpl.
  exact (Forall_znth _ _ _ _ HF E).
Qed.

Lemma znth_sector s : valid_sector s -> znth c s = Some (sector_data c s).
Proof.
  intros Hs. unfold sector_data. destruct Hc as [Hl HF].
  destruct (znth_in_range c s) as [bs E]; [by rewrite Hl|]. by rewrite E.
Qed.

Lemma data_blocks_len : Forall (fun l => length l = 128%nat) (sector_data c <$> blocks h).
Proof.
  apply Forall_fmap. eapply Forall_impl; [apply (hdr_valid _ Hh)|].
  intros s Hs. pose proof (sector_data_len s Hs) as Hl. unfold zlen, SectorSize in Hl.
  simpl. lia.
Qed.

Lemma zlen_all_data : zlen (all_data c h) = numSectors h * SectorSize.
Proof.
  unfold all_data. pose proof (zlen_blocks h Hh) as Hb.
  pose proof (length_concat_eq 128 _ data_blocks_len) as Hl. rewrite length_fmap in Hl.
  unfold zlen, SectorSize in *. lia.
Qed.

Lemma zlen_file_data : zlen (file_data c h) = numBytes h.
Proof.
  pose proof zlen_all_data. pose proof (hdr_size h Hh). pose proof (hdr_bytes_nonneg _ Hh).
  unfold file_data, zlen in *. rewrite length_take. lia.
Qed.

(** The sector that holds byte [i * SectorSize]. *)
Lemma ByteToSector_block i :
  0 <= i < numSectors h -> exists s, ByteToSector h (i * SectorSize) = Ok s /\
    blocks h !! Z.to_nat i = Some s /\ valid_sector s.
Proof.
  intros Hi. pose proof (zlen_blocks h Hh) as Hb. pose proof (hdr_numSectors h Hh).
  destruct (lookup_lt_is_Some_2 (blocks h) (Z.to_nat i)) as [s Es].
  { unfold zlen in Hb. lia. }
  exists s. split; [|split; [done|]].
  - unfold ByteToSector. rewrite Z.quot_mul by done. apply zget_Ok.
    rewrite znth_lookup by lia. unfold blocks in Es. by apply lookup_take_Some in Es as [? _].
  - pose proof (hdr_valid _ Hh) as HF. by eapply Forall_lookup_1 in HF.
Qed.

Lemma drop_all_data i s :
  0 <= i -> blocks h !! Z.to_nat i = Some s ->
  drop (Z.to_nat (i * SectorSize)) (all_data c h) =
    sector_data c s ++ drop (Z.to_nat ((i + 1) * SectorSize)) (all_data c h).
Proof.
  intros Hi Es. unfold all_data, SectorSize.
  replace (Z.to_nat (i * 128)) with (128 * Z.to_nat i)%nat by lia.
  replace (Z.to_nat ((i + 1) * 128)) with (128 * S (Z.to_nat i))%nat by lia.
  rewrite !drop_concat_eq by apply data_blocks_len.
  rewrite (drop_S _ (sector_data c s)); [done|]. by rewrite list_lookup_fmap, Es.
Qed.
End contents.

Lemma store_wf_contents {D} `{SectorStoreLaws D} d : store_wf d -> wf_contents (contents d).
Proof.
  intros Hd. split; [by apply contents_len|]. apply Forall_lookup. intros i bs Hi.
  apply (sector_len d (Z.of_nat i)); [done|]. rewrite znth_lookup by lia. by rewrite Nat2Z.id.
Qed.

(** ** Reading *)

Section reading.
Context {D : Type} `{SectorStoreLaws D}.
Implicit Types (d : D) (h : FileHeader).

Lemma ReadSector_data d s :
  store_wf d -> valid_sector s ->
  exists d', ReadSector s d = Ok (sector_data (contents d) s, d') /\ store_wf d' /\
    contents d' = contents d.
Proof.
  intros Hd Hs. apply ReadSector_ok; [done|].
  apply znth_sector; [by apply store_wf_contents|done].
Qed.

Lemma read_sectors_ok h n : forall i d,
  wf_hdr h -> store_wf d -> 0 <= i -> i + Z.of_nat n <= numSectors h ->
  exists d', read_sectors n i h d =
      Ok (take (n * 128) (drop (Z.to_nat (i * SectorSize)) (all_data (contents d) h)), d') /\
    store_wf d' /\ contents d' = contents d.
Proof.
  induction n as [|n IH]; intros i d Hh Hd Hi Hn; cbn [read_sectors].
  { exists d. by rewrite take_0. }
  pose proof (store_wf_contents d Hd) as Hc.
  destruct (ByteToSector_block h Hh i ltac:(lia)) as (s & -> & Es & Hs). rewrite bind_Ok.
  destruct (ReadSector_data d s Hd Hs) as (d1 & -> & Hd1 & Hc1). rewrite bind_Ok.
  destruct (IH (i + 1) d1 Hh Hd1 ltac:(lia) ltac:(lia)) as (d2 & -> & Hd2 & Hc2).
  rewrite bind_Ok. exists d2. split; [|split; [done|congruence]].
  rewrite Hc1, (drop_all_data _ _ Hc Hh i s Hi Es).
  pose proof (sector_data_len _ Hc s Hs) as Hl. unfold zlen, SectorSize in Hl.
  rewrite take_app. rewrite (take_ge (sector_data _ s)) by lia.
  do 4 f_equal. lia.
Qed.

(** How many bytes a transfer moves. *)
Definition transfer (len position numBytes : Z) : Z := Z.min numBytes (len - position).

Lemma transfer_range len position numBytes :
  0 < numBytes -> position < len -> 0 < transfer len position numBytes <= len - position.
Proof. unfold transfer. lia. Qed.

(** The sectors a non-empty range of bytes touches. *)
Lemma sector_range position n ns :
  0 <= position -> 0 < n -> position + n <= ns * SectorSize ->
  let first := divRoundDown position SectorSize in
  let last := divRoundDown (position + n - 1) SectorSize in
  0 <= first <= last /\ last < ns /\
  first * SectorSize <= position < (first + 1) * SectorSize /\
  last * SectorSize < position + n <= (last + 1) * SectorSize.
Proof.
  unfold divRoundDown, SectorSize. intros Hp Hn Hle.
  rewrite !Z.quot_div_nonneg by lia. cbv zeta. Z.div_mod_to_equations; lia.
Qed.

Lemma clamp_transfer len position numBytes :
  0 <= position -> 0 < numBytes -> position + numBytes < 2 ^ 31 ->
  (if s32 (position + numBytes) >? len then len - position else numBytes) =
  transfer len position numBytes.
Proof.
  intros. rewrite s32_id by (unfold is_s32; lia). unfold transfer. rewrite Z.gtb_ltb.
  destruct (Z.ltb_spec len (position + numBytes)); lia.
Qed.

Lemma ReadAt_ok f numBytes position d :
  wf_hdr (hdr f) -> store_wf d ->
  0 <= position -> position < Length f -> 0 < numBytes -> position + numBytes < 2 ^ 31 ->
  let n := transfer (Length f) position numBytes in
  exists d', ReadAt f numBytes position d =
      Ok (take (Z.to_nat n) (drop (Z.to_nat position) (all_data (contents d) (hdr f))), d') /\
    store_wf d' /\ contents d' = contents d.
Proof.
  intros Hh Hd Hp Hlt Hn Hb n. unfold ReadAt, Length in *.
  set (len := FileLength (hdr f)) in *.
  destruct (Z.leb_spec numBytes 0); [lia|]. rewrite Z.geb_leb.
  destruct (Z.leb_spec len position); [lia|]. cbn [orb]. rewrite clamp_transfer by done. fold n.
  pose proof (transfer_range len position numBytes Hn Hlt) as Hnr. fold n in Hnr.
  pose proof (hdr_size _ Hh) as Hsz. change (FileHdr.numBytes (hdr f)) with len in Hsz.
  destruct (sector_range position n (numSectors (hdr f)) Hp ltac:(lia) ltac:(lia))
    as (Hf & Hl & Hfp & Hlp).
  set (first := divRoundDown position SectorSize) in *.
  set (last := divRoundDown (position + n - 1) SectorSize) in *.
  destruct (read_sectors_ok (hdr f) (Z.to_nat (1 + last - first)) first d Hh Hd ltac:(lia)
    ltac:(lia)) as (d' & -> & Hd' & Hc'). rewrite bind_Ok.
  pose proof (zlen_all_data _ _ (store_wf_contents d Hd) Hh) as Hall.
  unfold SectorSize in *.
  rewrite zread_Ok, bind_Ok; [|lia|lia|].
  - exists d'. split; [|done]. unfold mret, res_ret. do 2 f_equal.
    rewrite skipn_firstn_comm, drop_drop, take_take. f_equal; [lia|]. f_equal. lia.
  - unfold zlen in *. rewrite length_take, length_drop. lia.
Qed.
End reading.

(** ** Writing *)

Section equal_block_write.
Context {A : Type} (k : nat).

Lemma concat_insert_eq (ls : list (list A)) i l :
  Forall (fun l => length l = k) ls -> length l = k -> (i < length ls)%nat ->
  concat (<[i := l]> ls) = take (k * i) (concat ls) ++ l ++ drop (k * S i) (concat ls).
Proof.
  intros HF Hl. revert i. induction HF as [|x ls Hx HF IH]; intros i Hi; [simpl in Hi; lia|].
  destruct i as [|i]; simpl.
  - rewrite Nat.mul_0_r, take_0, Nat.mul_1_r, drop_app_length' by done. done.
  - simpl in Hi. rewrite IH by lia. rewrite take_app, (take_ge x) by lia.
    rewrite (drop_app_ge x) by lia. rewrite <- app_assoc. do 2 f_equal; [f_equal; lia|].
    do 2 f_equal. lia.
Qed.
End equal_block_write.

Lemma sector_data_insert c s bs t :
  valid_sector s -> zlen c = NumSectors -> valid_sector t ->
  sector_data (<[Z.to_nat s := bs]> c) t = if t =? s then bs else sector_data c t.
Proof.
  intros Hs Hc Ht. unfold sector_data. destruct (Z.eqb_spec t s) as [->|].
  - by rewrite znth_insert_eq by (rewrite Hc; done).
  - rewrite znth_insert_ne; [done|destruct Hs; lia|done].
Qed.

(** Writing one data sector. *)
Lemma all_data_insert c h i s bs :
  wf_contents c -> wf_hdr h -> 0 <= i -> blocks h !! Z.to_nat i = Some s -> zlen bs = SectorSize ->
  zwrite (all_data c h) (i * SectorSize) bs = Ok (all_data (<[Z.to_nat s := bs]> c) h).
Proof.
  intros Hc Hh Hi Es Hl. pose proof (Forall_lookup_1 _ _ _ _ (hdr_valid _ Hh) Es) as Hs.
  assert (sector_data (<[Z.to_nat s := bs]> c) <$> blocks h =
    <[Z.to_nat i := bs]> (sector_data c <$> blocks h)) as E.
  { apply list_eq. intros j. rewrite list_lookup_fmap.
    destruct (decide (j = Z.to_nat i)) as [->|Hne].
    - rewrite list_lookup_insert_eq by (rewrite length_fmap; by eapply lookup_lt_Some).
      rewrite Es. simpl. rewrite sector_data_insert by (done || apply Hc). by rewrite Z.eqb_refl.
    - rewrite list_lookup_insert_ne, list_lookup_fmap by done.
      destruct (blocks h !! j) as [t|] eqn:Et; [simpl; f_equal|done].
      rewrite sector_data_insert; [|done|apply Hc|exact (Forall_lookup_1 _ _ _ _ (hdr_valid _ Hh) Et)].
      destruct (Z.eqb_spec t s) as [->|]; [|done].
      destruct Hne. exact (NoDup_lookup _ _ _ _ (hdr_nodup _ Hh) Et Es). }
  pose proof (zlen_all_data c h Hc Hh) as Hall. pose proof (zlen_blocks h Hh) as Hb.
  assert (i < numSectors h) by (apply lookup_lt_Some in Es; unfold zlen in Hb; lia).
  unfold SectorSize in *. rewrite zwrite_Ok by lia. f_equal. unfold all_data at 3. rewrite E.
  rewrite (concat_insert_eq 128); [|by apply data_blocks_len|unfold zlen in Hl; lia|].
  - fold (all_data c h). f_equal; [f_equal; lia|]. do 2 f_equal. unfold zlen in Hl |- *. lia.
  - rewrite length_fmap. by eapply lookup_lt_Some.
Qed.

Section writing.
Context {D : Type} `{SectorStoreLaws D}.
Implicit Types (d : D) (h : FileHeader).

Lemma write_sectors_ok h n : forall i buf d,
  wf_hdr h -> store_wf d -> 0 <= i -> i + Z.of_nat n <= numSectors h ->
  zlen buf = Z.of_nat n * SectorSize ->
  exists d', write_sectors n i h buf d = Ok d' /\ store_wf d' /\
    zwrite (all_data (contents d) h) (i * SectorSize) buf = Ok (all_data (contents d') h) /\
    (forall s, s ∉ blocks h -> znth (contents d') s = znth (contents d) s).
Proof.
  induction n as [|n IH]; intros i buf d Hh Hd Hi Hn Hbuf; cbn [write_sectors].
  { pose proof (zlen_all_data _ h (store_wf_contents d Hd) Hh) as Hall.
    unfold SectorSize in *. exists d. split_and!; try done. apply zwrite_intro; try lia.
    intros k _. destruct (Z.leb_spec (i * 128) k), (Z.ltb_spec k (i * 128 + zlen buf));
      simpl; done || lia. }
  pose proof (store_wf_contents d Hd) as Hc.
  destruct (ByteToSector_block h Hh i ltac:(lia)) as (s & -> & Es & Hs). rewrite bind_Ok.
  unfold SectorSize in Hbuf |- *. rewrite zread_Ok, bind_Ok by lia. rewrite drop_0.
  set (bs := take (Z.to_nat 128) buf).
  assert (zlen bs = SectorSize) as Hbs by (unfold SectorSize; apply zlen_take; lia).
  destruct (WriteSector_ok d s bs Hd Hs Hbs) as (d1 & -> & Hd1 & Hc1). rewrite bind_Ok.
  pose proof (all_data_insert _ h i s bs Hc Hh Hi Es Hbs) as Hw. rewrite <- Hc1 in Hw.
  destruct (IH (i + 1) (drop (Z.to_nat 128) buf) d1 Hh Hd1 ltac:(lia) ltac:(lia)) as
    (d2 & -> & Hd2 & Hw2 & Hf2).
  { rewrite zlen_drop by lia. unfold SectorSize. lia. }
  exists d2. split_and!; try done.
  - rewrite <- (take_drop (Z.to_nat 128) buf). fold bs. eapply zwrite_app; [exact Hw|].
    rewrite Hbs. unfold SectorSize in *. replace (i * 128 + 128) with ((i + 1) * 128) by lia.
    exact Hw2.
  - intros t Ht. rewrite Hf2 by done. rewrite Hc1. apply znth_insert_ne; [apply Hs|].
    intros ->. apply Ht. by eapply list_elem_of_lookup_2.
Qed.

(** What [fill] leaves in the buffer. *)
Lemma fill_ok needed f buf off sector d :
  wf_hdr (hdr f) -> store_wf d -> 0 <= sector -> sector * SectorSize < Length f ->
  0 <= off -> off + SectorSize <= zlen buf ->
  exists buf' d', fill needed f buf off sector d = Ok (buf', d') /\ store_wf d' /\
    contents d' = contents d /\ zlen buf' = zlen buf /\
    (forall k, znth buf' k =
      if needed && ((off <=? k) && (k <? off + SectorSize)) &&
         (sector * SectorSize + (k - off) <? Length f)
      then znth (all_data (contents d) (hdr f)) (sector * SectorSize + (k - off))
      else znth buf k).
Proof.
  intros Hh Hd Hs Hsl Ho Hob. unfold fill. destruct needed; simpl; [|by exists buf, d].
  pose proof (hdr_size _ Hh) as Hsz. pose proof (hdr_numSectors _ Hh) as Hns.
  pose proof (zlen_all_data _ _ (store_wf_contents d Hd) Hh) as Hall.
  unfold Length, FileLength, SectorSize, NumDirect in *.
  destruct (ReadAt_ok f 128 (sector * 128) d Hh Hd ltac:(lia)
    ltac:(unfold Length, FileLength; lia) ltac:(lia) ltac:(lia)) as (d' & -> & Hd' & Hc').
  rewrite bind_Ok. unfold Length, FileLength, transfer in *.
  set (n := Z.min 128 (FileHdr.numBytes (hdr f) - sector * 128)) in *.
  set (bs := take _ _).
  assert (zlen bs = n) as Hbs.
  { unfold bs. rewrite zlen_take; [done|]. rewrite zlen_drop by lia. lia. }
  destruct (zwrite buf off bs) as [buf'|] eqn:Hw; [|by rewrite zwrite_Ok in Hw by lia].
  rewrite bind_Ok. exists buf', d'. split_and!; try done; [by eapply zlen_zwrite|].
  intros k. rewrite (znth_zwrite _ _ _ _ _ Hw), Hbs. unfold bs.
  destruct (Z.leb_spec off k), (Z.ltb_spec k (off + n)), (Z.ltb_spec k (off + 128)),
    (Z.ltb_spec (sector * 128 + (k - off)) (FileHdr.numBytes (hdr f))); simpl; try lia; try done.
  by rewrite znth_take_drop by lia.
Qed.

(** The buffer of WriteAt before the sectors are written back: the new bytes,
    and around them the bytes the file held before. *)
Lemma WriteAt_buffer f buf0 data position d :
  wf_hdr (hdr f) -> store_wf d -> 0 <= position -> 0 < zlen data ->
  position + zlen data <= Length f ->
  let first := divRoundDown position SectorSize in
  let last := divRoundDown (position + zlen data - 1) SectorSize in
  let firstAligned := position =? first * SectorSize in
  let lastAligned := position + zlen data =? (last + 1) * SectorSize in
  zlen buf0 = (1 + last - first) * SectorSize ->
  exists buf1 d1 buf2 d2 buf,
    fill (negb firstAligned) f buf0 0 first d = Ok (buf1, d1) /\
    fill (negb lastAligned && (negb (first =? last) || firstAligned)) f buf1
      ((last - first) * SectorSize) last d1 = Ok (buf2, d2) /\
    store_wf d2 /\ contents d2 = contents d /\
    zwrite buf2 (position - first * SectorSize) data = Ok buf /\
    zlen buf = (1 + last - first) * SectorSize /\
    (forall p, 0 <= p < Length f -> first * SectorSize <= p < (last + 1) * SectorSize ->
      znth buf (p - first * SectorSize) =
        if (position <=? p) && (p <? position + zlen data) then znth data (p - position)
        else znth (all_data (contents d) (hdr f)) p).
Proof.
  intros Hh Hd Hp Hn Hle first last fa la Hbuf.
  pose proof (hdr_size _ Hh) as Hsz. unfold Length, FileLength in *.
  destruct (sector_range position (zlen data) (numSectors (hdr f)) Hp Hn ltac:(lia))
    as (Hf & Hl & Hfp & Hlp).
  fold first last in Hf, Hl, Hfp, Hlp. subst fa la. clearbody first last. unfold SectorSize in *.
  destruct (fill_ok (negb (position =? first * 128)) f buf0 0 first d Hh Hd) as
    (buf1 & d1 & E1 & Hd1 & Hc1 & Hl1 & Hz1); unfold Length, FileLength, SectorSize in *; try lia.
  destruct (fill_ok (negb (position + zlen data =? (last + 1) * 128) &&
      (negb (first =? last) || (position =? first * 128))) f buf1 ((last - first) * 128) last d1
      Hh Hd1) as (buf2 & d2 & E2 & Hd2 & Hc2 & Hl2 & Hz2);
    unfold Length, FileLength, SectorSize in *; try lia.
  destruct (zwrite buf2 (position - first * 128) data) as [buf|] eqn:Hw;
    [|by rewrite zwrite_Ok in Hw by lia].
  pose proof (zlen_zwrite _ _ _ _ Hw) as Hlb.
  exists buf1, d1, buf2, d2, buf. split_and!; try done; try congruence; try lia.
  intros p Hpl Hpr. rewrite (znth_zwrite _ _ _ _ _ Hw), Hz2, Hc1, Hz1.
  destruct (Z.leb_spec position p), (Z.ltb_spec p (position + zlen data)),
    (Z.leb_spec (position - first * 128) (p - first * 128)),
    (Z.ltb_spec (p - first * 128) (position - first * 128 + zlen data)); simpl; try lia;
    [f_equal; lia| |].
  all: destruct (Z.eqb_spec position (first * 128)),
      (Z.eqb_spec (position + zlen data) ((last + 1) * 128)), (Z.eqb_spec first last),
      (Z.leb_spec ((last - first) * 128) (p - first * 128)),
      (Z.ltb_spec (p - first * 128) ((last - first) * 128 + 128)),
      (Z.leb_spec 0 (p - first * 128)), (Z.ltb_spec (p - first * 128) (0 + 128)),
      (Z.ltb_spec (last * 128 + (p - first * 128 - (last - first) * 128)) (FileHdr.numBytes (hdr f))),
      (Z.ltb_spec (first * 128 + (p - first * 128 - 0)) (FileHdr.numBytes (hdr f)));
    simpl; try lia; f_equal; lia.
Qed.

Lemma WriteAt_ok new_char f from numBytes position d :
  wf_hdr (hdr f) -> store_wf d -> (forall n, zlen (new_char n) = Z.max 0 n) ->
  0 <= position -> position < Length f -> 0 < numBytes -> position + numBytes < 2 ^ 31 ->
  let n := transfer (Length f) position numBytes in
  n <= zlen from ->
  exists d', WriteAt new_char f from numBytes position d = Ok (n, d') /\ store_wf d' /\
    zwrite (file_data (contents d) (hdr f)) position (take (Z.to_nat n) from) =
      Ok (file_data (contents d') (hdr f)) /\
    (forall s, s ∉ blocks (hdr f) -> znth (contents d') s = znth (contents d) s).
Proof.
  intros Hh Hd Hnew Hp Hlt Hn Hb n Hfrom.
  pose proof (transfer_range (Length f) position numBytes Hn Hlt) as Hnr. fold n in Hnr.
  unfold WriteAt. change (FileLength (hdr f)) with (Length f). unfold Length in Hlt.
  destruct (Z.leb_spec numBytes 0); [lia|]. rewrite Z.geb_leb.
  destruct (Z.leb_spec (Length f) position); [unfold Length in *; lia|]. cbn [orb].
  rewrite clamp_transfer by done. fold n.
  set (data := take (Z.to_nat n) from). assert (zlen data = n) as Hdl by (apply zlen_take; lia).
  pose proof (hdr_size _ Hh) as Hsz. fold (FileLength (hdr f)) in Hsz.
  destruct (sector_range position n (numSectors (hdr f)) Hp ltac:(lia)
    ltac:(unfold Length in *; lia)) as (Hf & Hl & Hfp & Hlp).
  destruct (WriteAt_buffer f (new_char ((1 + divRoundDown (position + n - 1) SectorSize -
      divRoundDown position SectorSize) * SectorSize)) data position d Hh Hd Hp ltac:(lia)
      ltac:(lia)) as (buf1 & d1 & buf2 & d2 & buf & E1 & E2 & Hd2 & Hc2 & Hw & Hlb & Hz).
  { rewrite Hdl, Hnew. unfold SectorSize in *. lia. }
  rewrite Hdl in *. set (first := divRoundDown position SectorSize) in *.
  set (last := divRoundDown (position + n - 1) SectorSize) in *. clearbody first last.
  cbv zeta. rewrite E1, bind_Ok, E2, bind_Ok, zread_Ok, bind_Ok by lia.
  rewrite drop_0. fold data. rewrite Hw, bind_Ok. unfold SectorSize in *.
  destruct (write_sectors_ok (hdr f) (Z.to_nat (1 + last - first)) first buf d2 Hh Hd2
    ltac:(lia) ltac:(lia) ltac:(unfold SectorSize; lia)) as (d' & -> & Hd' & Hww & Hfr).
  rewrite bind_Ok. exists d'. split; [done|]. split; [done|]. rewrite Hc2 in Hww, Hfr.
  split; [|exact Hfr].
  pose proof (zlen_file_data _ _ (store_wf_contents d Hd) Hh) as Hl1.
  pose proof (zlen_file_data _ _ (store_wf_contents d' Hd') Hh) as Hl2.
  unfold Length, FileLength in *.
  apply zwrite_intro; rewrite ?Hl1, ?Hl2; try lia. intros p Hpr.
  unfold file_data at 1. rewrite znth_take by lia. rewrite (znth_zwrite _ _ _ _ _ Hww).
  unfold SectorSize. rewrite Hlb, Hdl. unfold file_data. rewrite znth_take by lia.
  destruct (Z.leb_spec (first * 128) p), (Z.ltb_spec p (first * 128 + (1 + last - first) * 128));
    cbn [andb]; [by rewrite Hz by lia| | |].
  all: destruct (Z.leb_spec position p), (Z.ltb_spec p (position + n)); simpl; try lia; done.
Qed.
End writing.

(** ReadAt on any request: the bytes of the range that are in the file. *)
Lemma ReadAt_clamped {D} `{SectorStoreLaws D} f numBytes position d :
  wf_hdr (hdr f) -> store_wf d -> 0 <= position -> position + numBytes < 2 ^ 31 ->
  let n := Z.max 0 (transfer (Length f) position numBytes) in
  let bytes := take (Z.to_nat n) (drop (Z.to_nat position) (file_data (contents d) (hdr f))) in
  exists d', ReadAt f numBytes position d = Ok (bytes, d') /\ zlen bytes = n /\
    store_wf d' /\ contents d' = contents d.
Proof.
  intros Hh Hd Hp Hb n bytes.
  pose proof (zlen_file_data _ _ (store_wf_contents d Hd) Hh) as Hfl.
  destruct (decide (numBytes <= 0 \/ Length f <= position)) as [Hz|Hnz].
  - exists d. assert (n = 0) as Hn0 by (unfold n, transfer; lia). unfold bytes. rewrite Hn0.
    split_and!; try done. unfold ReadAt. rewrite Z.geb_leb. change (FileLength (hdr f)) with (Length f).
    destruct (Z.leb_spec numBytes 0), (Z.leb_spec (Length f) position); done || lia.
  - destruct (ReadAt_ok f numBytes position d Hh Hd Hp ltac:(lia) ltac:(lia) Hb)
      as (d' & -> & Hd' & Hc'). unfold Length, FileLength in *.
    assert (0 < n <= FileHdr.numBytes (hdr f) - position) as Hn by (unfold n, transfer; lia).
    exists d'. assert (transfer (FileHdr.numBytes (hdr f)) position numBytes = n) as -> by lia.
    split_and!; try done.
    + do 2 f_equal. unfold bytes, file_data. rewrite skipn_firstn_comm, take_take. f_equal. lia.
    + unfold bytes. apply zlen_take. rewrite zlen_drop by lia. lia.
Qed.

(** Reading a file.  ReadAt copies exactly the bytes of the file from
    [position] on, clamped at the end of the file, whatever the alignment of the
    range, and changes no sector; Read does so from the current position and
    advances it by the number of bytes read; a request of no bytes or at the end
    of the file reads nothing. *)
Theorem ReadAt_correct {D} `{SectorStoreLaws D} f numBytes position d :
  wf_hdr (hdr f) -> store_wf d -> 0 <= position -> position + numBytes < 2 ^ 31 ->
  let n := Z.max 0 (transfer (Length f) position numBytes) in
  let bytes := take (Z.to_nat n) (drop (Z.to_nat position) (file_data (contents d) (hdr f))) in
  exists d', ReadAt f numBytes position d = Ok (bytes, d') /\ zlen bytes = n /\
    store_wf d' /\ contents d' = contents d /\
    (seekPosition f = position ->
      Read f numBytes d = Ok (bytes, (mkOpenFile (hdr f) (s32 (position + n)), d'))).
Proof.
  intros Hh Hd Hp Hb n bytes.
  destruct (ReadAt_clamped f numBytes position d Hh Hd Hp Hb) as (d' & E & Hl & Hd' & Hc').
  fold n in E, Hl. fold bytes in E, Hl.
  exists d'. split_and!; try done. intros Es. unfold Read. by rewrite Es, E, bind_Ok, Hl.
Qed.

(** C20: writing a file.  WriteAt stores the bytes at [position], clamped at the
    end of the file: whatever the alignment of the range, exactly these bytes of
    the file change, the length stays and no sector outside the file's blocks is
    written.  Reading the range back gives the bytes written, and Write does so
    at the current position and advances it. *)
Theorem WriteAt_correct {D} `{SectorStoreLaws D} new_char f from numBytes position d :
  wf_hdr (hdr f) -> store_wf d -> (forall n, zlen (new_char n) = Z.max 0 n) ->
  0 <= position -> position < Length f -> 0 < numBytes -> position + numBytes < 2 ^ 31 ->
  let n := transfer (Length f) position numBytes in
  let data := take (Z.to_nat n) from in
  n <= zlen from ->
  exists d', WriteAt new_char f from numBytes position d = Ok (n, d') /\ store_wf d' /\
    zwrite (file_data (contents d) (hdr f)) position data =
      Ok (file_data (contents d') (hdr f)) /\
    (forall s, s ∉ blocks (hdr f) -> znth (contents d') s = znth (contents d) s) /\
    (exists d'', ReadAt f numBytes position d' = Ok (data, d'')) /\
    (seekPosition f = position ->
      Write new_char f from numBytes d = Ok (n, (mkOpenFile (hdr f) (s32 (position + n)), d'))).
Proof.
  intros Hh Hd Hnew Hp Hlt Hn Hb n data Hfrom.
  destruct (WriteAt_ok new_char f from numBytes position d Hh Hd Hnew Hp Hlt Hn Hb Hfrom)
    as (d' & E & Hd' & Hw & Hfr). fold n in E, Hw. fold data in Hw.
  exists d'. split_and!; try done.
  - destruct (ReadAt_ok f numBytes position d' Hh Hd' Hp Hlt Hn Hb) as (d'' & -> & _).
    fold n. exists d''. do 2 f_equal.
    pose proof (transfer_range (Length f) position numBytes Hn Hlt) as Hnr. fold n in Hnr.
    pose proof (zread_zwrite_same _ _ _ _ Hw) as Hr.
    assert (zlen data = n) as Hdl by (apply zlen_take; lia). rewrite Hdl in Hr.
    apply zread_inv in Hr as (_ & _ & _ & Hr). rewrite Hr. unfold file_data.
    rewrite skipn_firstn_comm, take_take. f_equal. unfold Length, FileLength in *. lia.
  - intros Es. unfold Write. by rewrite Es, E, bind_Ok.
Qed.

(** A file of 200 bytes in sectors 5 and 9. *)
Definition small_file : OpenFile :=
  mkOpenFile (mkHdr 200 2 (5 :: 9 :: replicate 28 0)) 100.

Lemma small_file_wf : wf_hdr (hdr small_file).
Proof.
  split; try reflexivity; try done.
  - repeat constructor; done.
  - apply (bool_decide_unpack _). vm_compute. exact I.
  - repeat constructor; word_lia.
Qed.

Lemma ReadAt_correct_witness :
  exists d', Read small_file 500 fresh_synch_disk =
    Ok (replicate 100 0, (mkOpenFile (hdr small_file) 200, d')).
Proof.
  destruct (ReadAt_correct (D := SynchDisk * sys unit) small_file 500 100 fresh_synch_disk small_file_wf fresh_store_wf
    ltac:(done) ltac:(done)) as (d' & _ & _ & _ & _ & H).
  exists d'. rewrite (H eq_refl). vm_compute. reflexivity.
Defined.

Lemma WriteAt_correct_witness :
  exists d' d'', WriteAt (fun n => replicate (Z.to_nat n) 1) small_file (replicate 60 7) 60 100
      fresh_synch_disk = Ok (60, d') /\
    ReadAt small_file 60 100 d' = Ok (replicate 60 7, d'').
Proof.
  destruct (WriteAt_correct (D := SynchDisk * sys unit) (fun n => replicate (Z.to_nat n) 1) small_file (replicate 60 7) 60 100
    fresh_synch_disk small_file_wf fresh_store_wf) as (d' & E & _ & _ & _ & (d'' & Hr) & _);
    [intros n; unfold zlen; rewrite length_replicate; lia|done..|].
  exists d', d''. split; [exact E|exact Hr].
Defined.
