(* ===== verification/Directory.v ===== *)
(** * Directory: filesys/directory.h and filesys/directory.cc

    The directory: a table of a fixed number of entries, each the name of a file
    and the sector of its header.  Names are compared and stored on their first
    nine characters.  A C string is the list of its characters; what follows the
    first NUL is ignored. *)

From S2P Require Import Prelude BitMap Machine Interrupt Disk SynchDisk FileHdr OpenFile.

Definition FileNameMaxLen : Z := 9.

Record DirectoryEntry := mkEntry {
  inUse : bool;
  sector : Z;
  ename : list Z;             (* char name[FileNameMaxLen + 1] *)
  padding : list Z            (* the bytes of the struct outside its members: 3, then 2 *)
}.

(** [sizeof(DirectoryEntry)] *)
Definition sizeof_DirectoryEntry : Z := 20.

Record Directory := mkDirectory {
  tableSize : Z;
  table : list DirectoryEntry
}.

Definition set_table (d : Directory) (t : list DirectoryEntry) : Directory :=
  mkDirectory (tableSize d) t.

(** The table as the bytes of its memory, and back. *)
Definition entry_bytes (e : DirectoryEntry) : list Z :=
  (if inUse e then 1 else 0) :: take 3 (padding e) ++ le_bytes 4 (sector e) ++ ename e ++
  drop 3 (padding e).

Definition entry_of_bytes (bs : list Z) : DirectoryEntry :=
  mkEntry (negb (default 0 (head bs) =? 0)) (s32 (le_value (take 4 (drop 4 bs))))
    (take 10 (drop 8 bs)) (take 3 (drop 1 bs) ++ take 2 (drop 18 bs)).

Definition table_bytes (t : list DirectoryEntry) : list Z := concat (entry_bytes <$> t).

Fixpoint table_of_bytes (n : nat) (bs : list Z) : list DirectoryEntry :=
  match n with
  | O => []
  | S n => entry_of_bytes (take 20 bs) :: table_of_bytes n (drop 20 bs)
  end.

(** [strncmp] (0 when equal) and [strncpy] of the C library. *)
Fixpoint strncmp (n : nat) (a b : list Z) : Z :=
  match n with
  | O => 0
  | S n =>
      let x := default 0 (head a) in
      let y := default 0 (head b) in
      if x =? y then if x =? 0 then 0 else strncmp n (tail a) (tail b) else x - y
  end.

Fixpoint strncpy (n : nat) (src : list Z) : list Z :=
  match n with
  | O => []
  | S n =>
      match src with
      | [] => 0 :: strncpy n []
      | c :: src => if c =? 0 then 0 :: strncpy n [] else c :: strncpy n src
      end
  end.

(** The characters [printf("%s")] writes; it runs off an array without a NUL. *)
Fixpoint c_string (bs : list Z) : res (list Z) :=
  match bs with
  | [] => Err OutOfBounds
  | c :: bs => if c =? 0 then mret [] else cs ← c_string bs; mret (c :: cs)
  end.

Definition set_inUse (e : DirectoryEntry) (b : bool) : DirectoryEntry :=
  mkEntry b (sector e) (ename e) (padding e).

(** [for (i = 0; i < tableSize; i++) table[i].inUse = FALSE;] *)
Fixpoint init_loop (n : nat) (i : Z) (t : list DirectoryEntry) : res (list DirectoryEntry) :=
  match n with
  | O => mret t
  | S n => e ← t.[i]; t ← t.[i := set_inUse e false]; init_loop n (i + 1) t
  end.

(** [mem] is what [new DirectoryEntry[size]] returns: it is not initialised. *)
Definition new_Directory (mem : list DirectoryEntry) (size : Z) : res Directory :=
  t ← init_loop (Z.to_nat size) 0 mem; mret (mkDirectory size t).

Definition matches (name : list Z) (e : DirectoryEntry) : bool :=
  inUse e && (strncmp (Z.to_nat FileNameMaxLen) (ename e) name =? 0).

Fixpoint find_loop (n : nat) (i : Z) (t : list DirectoryEntry) (name : list Z) : res Z :=
  match n with
  | O => mret (-1)
  | S n => e ← t.[i]; if matches name e then mret i else find_loop n (i + 1) t name
  end.

Definition FindIndex (d : Directory) (name : list Z) : res Z :=
  find_loop (Z.to_nat (tableSize d)) 0 (table d) name.

Definition Find (d : Directory) (name : list Z) : res Z :=
  i ← FindIndex d name;
  if negb (i =? -1) then e ← (table d).[i]; mret (sector e) else mret (-1).

(** [strncpy(table[i].name, name, FileNameMaxLen)]: the tenth byte stays. *)
Definition fill_entry (e : DirectoryEntry) (name : list Z) (newSector : Z) : DirectoryEntry :=
  let n := Z.to_nat FileNameMaxLen in
  mkEntry true newSector (strncpy n name ++ drop n (ename e)) (padding e).

Fixpoint add_loop (n : nat) (i : Z) (t : list DirectoryEntry) (name : list Z) (newSector : Z)
    : res (bool * list DirectoryEntry) :=
  match n with
  | O => mret (false, t)
  | S n =>
      e ← t.[i];
      if negb (inUse e) then
        t ← t.[i := fill_entry e name newSector]; mret (true, t)
      else add_loop n (i + 1) t name newSector
  end.

Definition Add (d : Directory) (name : list Z) (newSector : Z) : res (bool * Directory) :=
  i ← FindIndex d name;
  if negb (i =? -1) then mret (false, d)
  else
    '(b, t) ← add_loop (Z.to_nat (tableSize d)) 0 (table d) name newSector;
    mret (b, set_table d t).

Definition Remove (d : Directory) (name : list Z) : res (bool * Directory) :=
  i ← FindIndex d name;
  if i =? -1 then mret (false, d)
  else
    e ← (table d).[i];
    t ← (table d).[i := set_inUse e false];
    mret (true, set_table d t).

(** The names printed. *)
Fixpoint list_loop (n : nat) (i : Z) (t : list DirectoryEntry) : res (list (list Z)) :=
  match n with
  | O => mret []
  | S n =>
      e ← t.[i];
      if inUse e then
        s ← c_string (ename e); out ← list_loop n (i + 1) t; mret (s :: out)
      else list_loop n (i + 1) t
  end.

Definition List (d : Directory) : res (list (list Z)) :=
  list_loop (Z.to_nat (tableSize d)) 0 (table d).

Section store.
Context {D : Type} `{SectorStore D}.
(** What [new char[n]] returns. *)
Context (new_char : Z -> list Z).

Definition FetchFrom (d : Directory) (file : OpenFile) (disk : D) : res (Directory * D) :=
  '(bs, disk) ← ReadAt file (tableSize d * sizeof_DirectoryEntry) 0 disk;
  mem ← zwrite (table_bytes (table d)) 0 bs;
  mret (set_table d (table_of_bytes (Z.to_nat (tableSize d)) mem), disk).

Definition WriteBack (d : Directory) (file : OpenFile) (disk : D) : res D :=
  '(_, disk) ← WriteAt new_char file (table_bytes (table d))
                 (tableSize d * sizeof_DirectoryEntry) 0 disk;
  mret disk.

(** Each file: its name, its header's sector and what the header prints. *)
Fixpoint print_loop (n : nat) (i : Z) (t : list DirectoryEntry) (disk : D)
    : res (list (list Z * Z * (Z * list Z * list (list (Z + Z)))) * D) :=
  match n with
  | O => mret ([], disk)
  | S n =>
      e ← t.[i];
      if inUse e then
        s ← c_string (ename e);
        '(h, disk) ← FileHdr.FetchFrom (sector e) disk;
        '(p, disk) ← FileHdr.Print h disk;
        '(out, disk) ← print_loop n (i + 1) t disk;
        mret ((s, sector e, p) :: out, disk)
      else print_loop n (i + 1) t disk
  end.

Definition Print (d : Directory) (disk : D) :=
  print_loop (Z.to_nat (tableSize d)) 0 (table d) disk.
End store.

(** ** Names *)

(** The part of a name the directory looks at: up to nine characters. *)
Fixpoint key (n : nat) (bs : list Z) : list Z :=
  match n, bs with
  | S n, c :: bs => if c =? 0 then [] else c :: key n bs
  | _, _ => []
  end.

Definition fname (name : list Z) : list Z := key (Z.to_nat FileNameMaxLen) name.

Lemma strncmp_key n : forall a b, strncmp n a b = 0 <-> key n a = key n b.
Proof.
  induction n as [|n IH]; intros a b; [done|].
  destruct a as [|x a], b as [|y b]; simpl; try done.
  - destruct y; simpl; split; done.
  - destruct (Z.eqb_spec x 0); [done|]. split; [lia|done].
  - destruct (Z.eqb_spec x y) as [->|Hne].
    + destruct (Z.eqb_spec y 0); [done|]. rewrite IH. split; [by intros ->|congruence].
    + split; [lia|]. destruct (Z.eqb_spec x 0), (Z.eqb_spec y 0); simplify_eq; intros ?; congruence.
Qed.

Lemma key_strncpy n rest : forall src, key n (strncpy n src ++ rest) = key n src.
Proof.
  induction n as [|n IH]; intros src; [done|].
  destruct src as [|c src]; simpl; [done|].
  destruct (Z.eqb_spec c 0) as [->|Hne]; simpl; [done|].
  apply Z.eqb_neq in Hne. by rewrite Hne, IH.
Qed.

Lemma length_strncpy n : forall src, length (strncpy n src) = n.
Proof.
  induction n as [|n IH]; intros [|c src]; simpl; rewrite ?IH; try done.
  destruct (c =? 0); simpl; by rewrite IH.
Qed.

Lemma matches_true name e :
  matches name e = true <-> inUse e = true /\ fname (ename e) = fname name.
Proof. unfold matches, fname. by rewrite andb_true_iff, Z.eqb_eq, strncmp_key. Qed.

(** ** The files in the table *)

Definition live1 (e : DirectoryEntry) : list (list Z * Z) :=
  if inUse e then [(fname (ename e), sector e)] else [].
Definition live (t : list DirectoryEntry) : list (list Z * Z) := concat (live1 <$> t).

Record wf_entry (e : DirectoryEntry) : Prop := {
  entry_name : length (ename e) = 10%nat;
  entry_pad : length (padding e) = 5%nat;
  entry_sector : is_s32 (sector e)
}.

Record wf_dir (d : Directory) : Prop := {
  dir_size : tableSize d = zlen (table d);
  dir_entries : Forall wf_entry (table d);
  dir_names : NoDup (live (table d)).*1
}.

Lemma live_in t n s :
  (n, s) ∈ live t <-> exists e, e ∈ t /\ inUse e = true /\ fname (ename e) = n /\ sector e = s.
Proof.
  unfold live. rewrite list_elem_of_In, in_concat. split.
  - intros (l & Hl & Hin). apply list_elem_of_In in Hl, Hin.
    apply list_elem_of_fmap in Hl as (e & -> & He). exists e. unfold live1 in Hin.
    destruct (inUse e); [|by apply elem_of_nil in Hin].
    apply list_elem_of_singleton in Hin. by simplify_eq.
  - intros (e & He & Hu & <- & <-). exists (live1 e).
    rewrite <- !list_elem_of_In. split; [by apply list_elem_of_fmap_2|].
    unfold live1. rewrite Hu. by left.
Qed.

Lemma live_names t n :
  n ∈ (live t).*1 <-> exists e, e ∈ t /\ inUse e = true /\ fname (ename e) = n.
Proof.
  rewrite list_elem_of_fmap. split.
  - intros ([n' s] & -> & H). apply live_in in H as (e & ? & ? & ? & ?). by exists e.
  - intros (e & ? & ? & <-). exists (fname (ename e), sector e). split; [done|].
    apply live_in. by exists e.
Qed.

(** Replacing one entry replaces what it contributes. *)
Lemma live_update t r e :
  t !! r = Some e -> exists rest, live t ≡ₚ live1 e ++ rest /\
    forall e', live (<[r := e']> t) ≡ₚ live1 e' ++ rest.
Proof.
  intros Hr. exists (live (take r t) ++ live (drop (S r) t)). unfold live. split.
  - rewrite <- (take_drop_middle t r e Hr) at 1. rewrite fmap_app, concat_app. simpl.
    by rewrite Permutation_app_swap_app.
  - intros e'. rewrite insert_take_drop by (by eapply lookup_lt_Some).
    rewrite fmap_app, concat_app. simpl. by rewrite Permutation_app_swap_app.
Qed.

Lemma live_cons e t : live (e :: t) = live1 e ++ live t.
Proof. done. Qed.

Lemma live_length_le t : zlen (live t) <= zlen t.
Proof.
  unfold zlen. induction t as [|e t IH]; [done|]. rewrite live_cons, length_app.
  unfold live1. destruct (inUse e); cbn [length]; lia.
Qed.

Lemma live_full t : Forall (fun e => inUse e = true) t -> zlen (live t) = zlen t.
Proof.
  unfold zlen. induction 1 as [|e t He _ IH]; [done|]. rewrite live_cons, length_app.
  unfold live1 at 1. rewrite He. cbn [length]. lia.
Qed.

(** ** The operations *)

Lemma dir_find_loop_spec t name n : forall i,
  0 <= i -> i + Z.of_nat n = zlen t ->
  (find_loop n i t name = Ok (-1) /\
     Forall (fun e => matches name e = false) (drop (Z.to_nat i) t)) \/
  (exists r e, find_loop n i t name = Ok r /\ 0 <= r < zlen t /\ t.[r] = Ok e /\
     matches name e = true).
Proof.
  induction n as [|n IH]; intros i Hi Hn; cbn [find_loop].
  { left. split; [done|]. rewrite drop_ge; [done|unfold zlen in Hn; lia]. }
  destruct (zget_in_range t i ltac:(lia)) as [e Ee]. rewrite Ee, bind_Ok.
  destruct (matches name e) eqn:Em.
  { right. exists i, e. split_and!; try done; lia. }
  destruct (IH (i + 1) ltac:(lia) ltac:(lia)) as [[E HF]|H]; [left|right; exact H].
  split; [done|]. apply zget_Ok in Ee. rewrite znth_lookup in Ee by lia.
  rewrite (drop_S _ _ _ Ee). constructor; [done|]. by replace (S (Z.to_nat i)) with (Z.to_nat (i + 1)) by lia.
Qed.

Lemma FindIndex_spec d name :
  wf_dir d ->
  (FindIndex d name = Ok (-1) /\ fname name ∉ (live (table d)).*1) \/
  (exists r e, FindIndex d name = Ok r /\ 0 <= r < zlen (table d) /\ (table d).[r] = Ok e /\
     inUse e = true /\ fname (ename e) = fname name).
Proof.
  intros Hd. unfold FindIndex. pose proof (zlen_nonneg (table d)).
  destruct (dir_find_loop_spec (table d) name (Z.to_nat (tableSize d)) 0) as [[-> HF]|(r & e & ? & ? & ? & Hm)].
  - lia.
  - rewrite (dir_size _ Hd). lia.
  - left. split; [done|]. rewrite live_names. intros (e & He & Hu & Hn).
    change (drop (Z.to_nat 0) (table d)) with (table d) in HF.
    rewrite Forall_forall in HF. specialize (HF e He).
    assert (matches name e = true) by (by apply matches_true). congruence.
  - right. exists r, e. apply matches_true in Hm as [? ?]. split_and!; done || lia.
Qed.

Lemma dir_Find_spec d name :
  wf_dir d ->
  (Find d name = Ok (-1) /\ fname name ∉ (live (table d)).*1) \/
  (exists s, Find d name = Ok s /\ (fname name, s) ∈ live (table d)).
Proof.
  intros Hd. unfold Find.
  destruct (FindIndex_spec d name Hd) as [[-> Hn]|(r & e & -> & Hr & Ee & Hu & Hn)].
  - by left.
  - right. exists (sector e). rewrite bind_Ok. destruct (Z.eqb_spec r (-1)); [lia|].
    rewrite Ee, bind_Ok. split; [done|]. apply live_in. exists e. split_and!; try done.
    apply zget_Ok in Ee. rewrite znth_lookup in Ee by lia. by eapply list_elem_of_lookup_2.
Qed.

Lemma add_loop_spec t name s n : forall i,
  0 <= i -> i + Z.of_nat n = zlen t ->
  (add_loop n i t name s = Ok (false, t) /\
     Forall (fun e => inUse e = true) (drop (Z.to_nat i) t)) \/
  (exists r e, add_loop n i t name s = Ok (true, <[r := fill_entry e name s]> t) /\
     t !! r = Some e /\ inUse e = false).
Proof.
  induction n as [|n IH]; intros i Hi Hn; cbn [add_loop].
  { left. split; [done|]. rewrite drop_ge; [done|unfold zlen in Hn; lia]. }
  destruct (zget_in_range t i ltac:(lia)) as [e Ee]. rewrite Ee, bind_Ok.
  apply zget_Ok in Ee. rewrite znth_lookup in Ee by lia.
  destruct (inUse e) eqn:Eu; cbn [negb].
  - destruct (IH (i + 1) ltac:(lia) ltac:(lia)) as [[E HF]|H]; [left|right; exact H].
    split; [done|]. rewrite (drop_S _ _ _ Ee). constructor; [done|].
    by replace (S (Z.to_nat i)) with (Z.to_nat (i + 1)) by lia.
  - right. exists (Z.to_nat i), e. rewrite zset_Ok, bind_Ok by lia. done.
Qed.

Lemma wf_update d r e e' :
  wf_dir d -> table d !! r = Some e -> wf_entry e' ->
  NoDup (live (<[r := e']> (table d))).*1 -> wf_dir (set_table d (<[r := e']> (table d))).
Proof.
  intros [Hs HF _] Hr He' Hnd. split; simpl; [by rewrite zlen_insert| |done].
  by apply Forall_insert.
Qed.

Lemma Add_spec d name s :
  wf_dir d -> is_s32 s ->
  exists b d', Add d name s = Ok (b, d') /\ wf_dir d' /\ tableSize d' = tableSize d /\
    if (b : bool) then fname name ∉ (live (table d)).*1 /\ zlen (live (table d)) < tableSize d /\
      live (table d') ≡ₚ (fname name, s) :: live (table d)
    else d' = d /\ (fname name ∈ (live (table d)).*1 \/ zlen (live (table d)) = tableSize d).
Proof.
  intros Hd Hs. unfold Add.
  destruct (FindIndex_spec d name Hd) as [[-> Hn]|(r & e & -> & Hr & Ee & Hu & Hn)]; rewrite bind_Ok.
  2:{ destruct (Z.eqb_spec r (-1)); [lia|]. exists false, d. split_and!; try done. left.
      apply live_names. exists e. split_and!; try done.
      apply zget_Ok in Ee. rewrite znth_lookup in Ee by lia. by eapply list_elem_of_lookup_2. }
  cbn [Z.eqb negb Z.opp Pos.eqb]. pose proof (zlen_nonneg (table d)).
  destruct (add_loop_spec (table d) name s (Z.to_nat (tableSize d)) 0) as
    [[-> HF]|(r & e & -> & Hr & Hu)]; [lia|rewrite (dir_size _ Hd); lia| |]; rewrite bind_Ok.
  - exists false, d. split_and!; try done.
    + by destruct d.
    + right. rewrite (dir_size _ Hd). by apply live_full.
  - set (e' := fill_entry e name s). destruct (live_update _ _ _ Hr) as (rest & Hl & Hl').
    assert (live1 e' = [(fname name, s)]) as E1.
    { unfold live1, e', fname, fill_entry. cbn [inUse ename sector]. by rewrite key_strncpy. }
    assert (live (<[r := e']> (table d)) ≡ₚ (fname name, s) :: live (table d)) as HP.
    { rewrite Hl', Hl, E1. unfold live1. by rewrite Hu. }
    eexists true, _. split; [reflexivity|]. split; [|split_and!; try done].
    + apply wf_update with e; [done|done| |].
      * pose proof (Forall_lookup_1 _ _ _ _ (dir_entries _ Hd) Hr) as [Hn1 Hp1 _].
        split; [|done|done]. unfold e', fill_entry. cbn [ename].
        rewrite length_app, length_strncpy, length_drop, Hn1. done.
      * rewrite HP. simpl. constructor; [done|apply Hd].
    + rewrite (dir_size _ Hd).
      pose proof (live_length_le (<[r := e']> (table d))) as Hle. rewrite zlen_insert in Hle.
      unfold zlen in *. rewrite HP in Hle. simpl in Hle. lia.
Qed.

Lemma Remove_spec d name :
  wf_dir d ->
  exists b d', Remove d name = Ok (b, d') /\ wf_dir d' /\ tableSize d' = tableSize d /\
    if (b : bool) then exists s, live (table d) ≡ₚ (fname name, s) :: live (table d')
    else d' = d /\ fname name ∉ (live (table d)).*1.
Proof.
  intros Hd. unfold Remove.
  destruct (FindIndex_spec d name Hd) as [[-> Hn]|(r & e & -> & Hr & Ee & Hu & Hn)]; rewrite bind_Ok.
  { by exists false, d. }
  destruct (Z.eqb_spec r (-1)); [lia|]. rewrite Ee, bind_Ok, zset_Ok, bind_Ok by lia.
  apply zget_Ok in Ee. rewrite znth_lookup in Ee by lia.
  destruct (live_update _ _ _ Ee) as (rest & Hl & Hl').
  assert (live (table d) ≡ₚ (fname name, sector e) ::
    live (<[Z.to_nat r := set_inUse e false]> (table d))) as HP.
  { rewrite Hl', Hl. unfold live1 at 1. by rewrite Hu, Hn. }
  eexists true, _. split; [reflexivity|]. split; [|split; [done|by exists (sector e)]].
  apply wf_update with e; [done|done| |].
  - pose proof (Forall_lookup_1 _ _ _ _ (dir_entries _ Hd) Ee) as [? ? ?]. by split.
  - pose proof (dir_names _ Hd) as Hnd. rewrite HP in Hnd. simpl in Hnd.
    by apply NoDup_cons in Hnd as [_ ?].
Qed.

(** ** The table in the directory file *)

Lemma length_entry_bytes e : wf_entry e -> length (entry_bytes e) = 20%nat.
Proof.
  intros [Hn Hp _]. unfold entry_bytes. cbn [length].
  rewrite !length_app, length_take, length_drop, length_le_bytes. lia.
Qed.

Lemma entry_round_trip e : wf_entry e -> entry_of_bytes (entry_bytes e) = e.
Proof.
  intros [Hn Hp Hs]. destruct e as [u s n p]. cbn [ename padding sector] in *.
  destruct p as [|p0 [|p1 [|p2 [|p3 [|p4 [|]]]]]]; try discriminate Hp.
  do 11 (destruct n as [|? n]; try discriminate Hn). clear Hn Hp.
  unfold entry_of_bytes, entry_bytes. cbn [inUse sector ename padding].
  pose proof (length_le_bytes 4 s) as Hl. pose proof (le_value_bytes 4 s) as Hv.
  destruct (le_bytes 4 s) as [|b0 [|b1 [|b2 [|b3 [|]]]]]; try discriminate Hl.
  cbn -[le_value s32 Z.eqb]. rewrite Hv. change (s mod 2 ^ (8 * Z.of_nat 4)) with (u32 s).
  rewrite s32_u32, s32_id by done. by destruct u.
Qed.

Lemma wf_entry_of_bytes bs : length bs = 20%nat -> wf_entry (entry_of_bytes bs).
Proof.
  intros Hl. split; unfold entry_of_bytes; cbn [ename padding sector].
  - rewrite length_take, length_drop. lia.
  - rewrite length_app, !length_take, !length_drop. lia.
  - apply s32_range.
Qed.

Lemma length_table_bytes t : Forall wf_entry t -> length (table_bytes t) = (20 * length t)%nat.
Proof.
  intros HF. unfold table_bytes. rewrite (length_concat_eq 20); [by rewrite length_fmap|].
  apply Forall_fmap. eapply Forall_impl; [exact HF|]. intros e. apply length_entry_bytes.
Qed.

Lemma table_round_trip t rest :
  Forall wf_entry t -> table_of_bytes (length t) (table_bytes t ++ rest) = t.
Proof.
  induction 1 as [|e t He HF IH]; [done|]. cbn [length table_of_bytes].
  pose proof (length_entry_bytes e He) as Hl.
  unfold table_bytes in *. cbn [fmap list_fmap concat]. rewrite <- app_assoc.
  rewrite take_app_length', drop_app_length' by done. by rewrite entry_round_trip, IH.
Qed.

Lemma wf_table_of_bytes n : forall bs,
  (20 * n <= length bs)%nat ->
  length (table_of_bytes n bs) = n /\ Forall wf_entry (table_of_bytes n bs).
Proof.
  induction n as [|n IH]; intros bs Hl; cbn [table_of_bytes]; [by split|].
  destruct (IH (drop 20 bs)) as [H1 H2]; [rewrite length_drop; lia|].
  cbn [length]. split; [lia|]. constructor; [|done]. apply wf_entry_of_bytes.
  rewrite length_take. lia.
Qed.

Lemma table_of_bytes_app n : forall bs rest,
  (20 * n <= length bs)%nat -> table_of_bytes n (bs ++ rest) = table_of_bytes n bs.
Proof.
  induction n as [|n IH]; intros bs rest Hl; cbn [table_of_bytes]; [done|].
  rewrite take_app_le, drop_app_le by lia. rewrite IH; [done|]. rewrite length_drop. lia.
Qed.

Section stored.
Context {D : Type} `{SectorStoreLaws D}.
Implicit Types (disk : D) (file : OpenFile) (d : Directory).

(** The table of [n] entries a directory file holds. *)
Definition stored_table (n : Z) (c : list (list Z)) (h : FileHeader) : list DirectoryEntry :=
  table_of_bytes (Z.to_nat n) (file_data c h).

(** A directory file has room for the table. *)
Record wf_dir_file (n : Z) (file : OpenFile) : Prop := {
  df_hdr : wf_hdr (hdr file);
  df_pos : 0 < n;
  df_size : n * sizeof_DirectoryEntry <= Length file
}.

Lemma wf_dir_file_small n file : wf_dir_file n file -> n * 20 <= 3840.
Proof.
  intros [Hh Hp Hl]. pose proof (hdr_size _ Hh). pose proof (hdr_numSectors _ Hh).
  unfold Length, FileLength, sizeof_DirectoryEntry, SectorSize, NumDirect in *. lia.
Qed.

Lemma FetchFrom_ok d file disk :
  wf_dir_file (tableSize d) file -> store_wf disk ->
  tableSize d = zlen (table d) -> Forall wf_entry (table d) ->
  exists disk', FetchFrom d file disk =
      Ok (set_table d (stored_table (tableSize d) (contents disk) (hdr file)), disk') /\
    store_wf disk' /\ contents disk' = contents disk.
Proof.
  intros Hf Hd Hs HF. pose proof (wf_dir_file_small _ _ Hf). destruct Hf as [Hh Hpos Hl].
  unfold FetchFrom, sizeof_DirectoryEntry in *.
  pose proof (zlen_file_data _ _ (store_wf_contents disk Hd) Hh) as Hfl.
  destruct (ReadAt_ok file (tableSize d * 20) 0 disk Hh Hd ltac:(lia) ltac:(lia) ltac:(lia)
    ltac:(lia)) as (disk' & -> & Hd' & Hc'). rewrite bind_Ok.
  exists disk'. split; [|done]. unfold transfer. rewrite Z.sub_0_r, Z.min_l by done.
  set (n := tableSize d) in *. rewrite drop_0.
  pose proof (length_table_bytes _ HF) as Htl.
  pose proof (zlen_all_data _ _ (store_wf_contents disk Hd) Hh) as Hall.
  pose proof (hdr_size _ Hh). unfold Length, FileLength in *.
  set (bs := take (Z.to_nat (n * 20)) (all_data (contents disk) (hdr file))).
  assert (zlen bs = n * 20) as Hbs by (apply zlen_take; lia).
  assert (zlen (table_bytes (table d)) = n * 20) as Htb by (unfold zlen in *; lia).
  rewrite zwrite_Ok, bind_Ok by lia. rewrite Hbs, drop_ge by (unfold zlen in Htb; lia).
  rewrite take_0, app_nil_r. cbn [app]. unfold mret, res_ret. do 3 f_equal.
  unfold stored_table, file_data.
  rewrite <- (take_drop (Z.to_nat (n * 20)) (take (Z.to_nat _) _)), take_take.
  rewrite Nat.min_l by lia. fold bs. symmetry. apply table_of_bytes_app.
  unfold zlen in Hbs. lia.
Qed.

Lemma WriteBack_ok new_char d file disk :
  wf_dir_file (tableSize d) file -> store_wf disk -> (forall n, zlen (new_char n) = Z.max 0 n) ->
  tableSize d = zlen (table d) -> Forall wf_entry (table d) ->
  exists disk', WriteBack new_char d file disk = Ok disk' /\ store_wf disk' /\
    stored_table (tableSize d) (contents disk') (hdr file) = table d /\
    (forall s, s ∉ blocks (hdr file) -> znth (contents disk') s = znth (contents disk) s).
Proof.
  intros Hf Hd Hnew Hs HF. pose proof (wf_dir_file_small _ _ Hf). destruct Hf as [Hh Hpos Hl].
  unfold WriteBack, sizeof_DirectoryEntry in *. pose proof (length_table_bytes _ HF) as Htl.
  assert (zlen (table_bytes (table d)) = tableSize d * 20) as Htb by (unfold zlen in *; lia).
  assert (transfer (Length file) 0 (tableSize d * 20) = tableSize d * 20) as Ht
    by (unfold transfer; lia).
  destruct (WriteAt_ok new_char file (table_bytes (table d)) (tableSize d * 20) 0 disk Hh Hd Hnew
    ltac:(lia) ltac:(lia) ltac:(lia) ltac:(lia) ltac:(lia)) as (disk' & -> & Hd' & Hw & Hfr).
  rewrite bind_Ok. exists disk'. split_and!; try done.
  rewrite Ht, take_ge in Hw by (unfold zlen in Htb; lia).
  apply zwrite_inv in Hw as (_ & _ & Hw). unfold stored_table. rewrite Hw. simpl app.
  change (take (Z.to_nat 0) (file_data (contents disk) (hdr file))) with (@nil Z). cbn [app].
  replace (Z.to_nat (tableSize d)) with (length (table d)) by (unfold zlen in Hs; lia).
  by apply table_round_trip.
Qed.
End stored.

(** ** Properties *)

Inductive dir_op :=
  | DFind (name : list Z)
  | DAdd (name : list Z) (newSector : Z)
  | DRemove (name : list Z).

Definition run_op (d : Directory) (o : dir_op) : res ((Z + bool) * Directory) :=
  match o with
  | DFind name => s ← Find d name; mret (inl s, d)
  | DAdd name s => '(b, d) ← Add d name s; mret (inr b, d)
  | DRemove name => '(b, d) ← Remove d name; mret (inr b, d)
  end.

(** The abstract directory: a finite map of at most [cap] names to sectors. *)
Definition spec_op (cap : nat) (m : gmap (list Z) Z) (o : dir_op)
    : res ((Z + bool) * gmap (list Z) Z) :=
  match o with
  | DFind name => Ok (inl (default (-1) (m !! fname name)), m)
  | DAdd name s =>
      if bool_decide (fname name ∈ dom m) || (size m =? cap)%nat then Ok (inr false, m)
      else Ok (inr true, <[fname name := s]> m)
  | DRemove name =>
      if bool_decide (fname name ∈ dom m) then Ok (inr true, delete (fname name) m)
      else Ok (inr false, m)
  end.

Definition dir_map (d : Directory) : gmap (list Z) Z := list_to_map (live (table d)).

Lemma dir_map_dom d n : n ∈ dom (dir_map d) <-> n ∈ (live (table d)).*1.
Proof. unfold dir_map. rewrite dom_list_to_map, elem_of_list_to_set. done. Qed.

Lemma dir_map_lookup d n s :
  wf_dir d -> (n, s) ∈ live (table d) -> dir_map d !! n = Some s.
Proof. intros Hd H. by apply elem_of_list_to_map_1; [apply Hd|]. Qed.

Definition dir_sim (cap : nat) (d : Directory) (m : gmap (list Z) Z) : Prop :=
  wf_dir d /\ tableSize d = Z.of_nat cap /\ m = dir_map d.

Definition small_sector (o : dir_op) : Prop :=
  match o with DAdd _ s => is_s32 s | _ => True end.

Lemma run_op_spec cap d m o :
  dir_sim cap d m -> small_sector o ->
  simulates (dir_sim cap) (run_op d o) (spec_op cap m o).
Proof.
  intros (Hd & Hc & ->) Ho. destruct o as [name|name s|name]; cbn [run_op spec_op].
  - destruct (dir_Find_spec d name Hd) as [[-> Hn]|(s & -> & Hs)]; rewrite bind_Ok; simpl.
    + rewrite <- dir_map_dom, not_elem_of_dom in Hn. rewrite Hn. by exists (dir_map d).
    + rewrite (dir_map_lookup _ _ _ Hd Hs). by exists (dir_map d).
  - destruct (Add_spec d name s Hd Ho) as (b & d' & -> & Hd' & Hc' & H). rewrite bind_Ok.
    assert (Z.of_nat (size (dir_map d)) = zlen (live (table d))) as Hsz.
    { unfold dir_map. rewrite map_size_list_to_map by apply Hd. done. }
    destruct b; simpl.
    + destruct H as (Hn & Hlt & HP). rewrite bool_decide_false by by rewrite dir_map_dom.
      destruct (Nat.eqb_spec (size (dir_map d)) cap); [lia|]. simpl. eexists; split; [done|].
      split_and!; [done|congruence|]. unfold dir_map at 2.
      rewrite (list_to_map_proper _ _ (dir_names _ Hd') HP). done.
    + destruct H as (-> & H). exists (dir_map d). split; [|done].
      destruct H as [H|H].
      * by rewrite bool_decide_true by by apply dir_map_dom.
      * destruct (Nat.eqb_spec (size (dir_map d)) cap); [by rewrite orb_true_r|lia].
  - destruct (Remove_spec d name Hd) as (b & d' & -> & Hd' & Hc' & H). rewrite bind_Ok.
    destruct b; simpl.
    + destruct H as [s HP]. pose proof (dir_names _ Hd) as Hnd.
      rewrite HP in Hnd. simpl in Hnd. apply NoDup_cons in Hnd as [Hn _].
      rewrite bool_decide_true.
      2:{ apply dir_map_dom. rewrite HP. simpl. by left. }
      eexists; split; [done|]. split_and!; [done|congruence|]. unfold dir_map at 1.
      rewrite (list_to_map_proper _ _ (dir_names _ Hd) HP). simpl.
      apply delete_insert_id, not_elem_of_dom. by rewrite dir_map_dom.
    + destruct H as [-> Hn]. rewrite bool_decide_false by by rewrite dir_map_dom.
      by exists (dir_map d).
Qed.

Lemma run_ops_spec cap os :
  Forall small_sector os -> forall d m, dir_sim cap d m ->
  exists rs d' m', run_ops run_op d os = Ok (rs, d') /\
    run_ops (spec_op cap) m os = Ok (rs, m') /\ dir_sim cap d' m'.
Proof.
  induction 1 as [|o os Ho HF IH]; intros d m Hsim; cbn [run_ops]; [by exists [], d, m|].
  pose proof (run_op_spec cap d m o Hsim Ho) as H. unfold simulates in H.
  assert (exists p, spec_op cap m o = Ok p) as [p Ep].
  { destruct o; cbn [spec_op]; repeat case_match; eauto. }
  destruct (run_op d o) as [[r d1]|]; [|congruence].
  destruct H as (m1 & -> & Hsim1). rewrite !bind_Ok.
  destruct (IH d1 m1 Hsim1) as (rs & d' & m' & -> & -> & Hsim'). rewrite !bind_Ok.
  by exists (r :: rs), d', m'.
Qed.

(** C21: the directory implements a finite map with a bounded number of names.
    From a well-formed directory, any sequence of Find, Add and Remove returns
    what the same operations on the map return: Find the sector of the name or
    -1; Add refuses exactly a name already there or a full directory; Remove
    reports whether the name was there.  Names are the same exactly when their
    first nine characters are. *)
Theorem Directory_refines_map cap d os :
  wf_dir d -> tableSize d = Z.of_nat cap ->
  Forall small_sector os ->
  exists rs d' m', run_ops run_op d os = Ok (rs, d') /\
    run_ops (spec_op cap) (dir_map d) os = Ok (rs, m') /\
    wf_dir d' /\ tableSize d' = tableSize d /\ dir_map d' = m'.
Proof.
  intros Hd Hc HF.
  destruct (run_ops_spec cap os HF d (dir_map d) (conj Hd (conj Hc eq_refl))) as
    (rs & d' & m' & E & E' & Hd' & Hc' & Em).
  exists rs, d', m'. split_and!; try done. congruence.
Qed.

Definition blank_entry : DirectoryEntry := mkEntry false 0 (replicate 10 0) (replicate 5 0).
Definition blank_directory (n : nat) : Directory :=
  mkDirectory (Z.of_nat n) (replicate n blank_entry).

Lemma blank_live n : live (replicate n blank_entry) = [].
Proof. induction n as [|n IH]; [done|]. cbn [replicate]. rewrite live_cons. exact IH. Qed.

Lemma blank_directory_wf n : wf_dir (blank_directory n).
Proof.
  split; simpl.
  - unfold zlen. by rewrite length_replicate.
  - apply Forall_replicate. by split; try apply is_s32_0.
  - rewrite blank_live. constructor.
Qed.

(** Ten-letter names that differ in the last letter only are the same name. *)
Lemma Directory_refines_map_witness :
  let name c := [97; 98; 99; 100; 101; 102; 103; 104; 105; c] in
  exists d' m', run_ops run_op (blank_directory 2)
    [DAdd (name 106) 7; DFind (name 107); DAdd (name 108) 8; DRemove (name 106); DFind (name 106)]
    = Ok ([inr true; inl 7; inr false; inr true; inl (-1)], d') /\ dir_map d' = m'.
Proof.
  intros name.
  destruct (Directory_refines_map 2 (blank_directory 2)
    [DAdd (name 106) 7; DFind (name 107); DAdd (name 108) 8; DRemove (name 106); DFind (name 106)]
    (blank_directory_wf 2) eq_refl) as (rs & d' & m' & E & _ & _ & _ & Em).
  { repeat constructor; word_lia. }
  exists d', m'. split; [|exact Em]. rewrite E. do 2 f_equal.
  clear - E. vm_compute in E. congruence.
Defined.

(** The directory survives on disk.  Writing it to a file that has room and
    fetching it from there into any directory object of the same size gives the
    same table, entry by entry; no sector outside the directory file changes. *)
Theorem Directory_round_trip {D} `{SectorStoreLaws D} new_char d d0 file (disk : D) :
  wf_dir_file (tableSize d) file -> store_wf disk -> (forall n, zlen (new_char n) = Z.max 0 n) ->
  wf_dir d -> wf_dir d0 -> tableSize d0 = tableSize d ->
  exists disk' disk'', WriteBack new_char d file disk = Ok disk' /\ store_wf disk' /\
    (forall s, s ∉ blocks (hdr file) -> znth (contents disk') s = znth (contents disk) s) /\
    FetchFrom d0 file disk' = Ok (d, disk'').
Proof.
  intros Hf Hd Hnew [Hs HF _] [Hs0 HF0 _] E.
  destruct (WriteBack_ok new_char d file disk Hf Hd Hnew Hs HF) as (disk' & -> & Hd' & Ht & Hfr).
  rewrite <- E in Hf. destruct (FetchFrom_ok d0 file disk' Hf Hd' Hs0 HF0) as (disk'' & Ef & _).
  exists disk', disk''. split_and!; try done. rewrite Ef. unfold set_table. rewrite E, Ht. by destruct d.
Qed.

Lemma Directory_round_trip_witness :
  exists disk' disk'', WriteBack (fun n => replicate (Z.to_nat n) 1) (blank_directory 10)
      small_file fresh_synch_disk = Ok disk' /\
    FetchFrom (blank_directory 10) small_file disk' = Ok (blank_directory 10, disk'').
Proof.
  destruct (Directory_round_trip (D := SynchDisk * sys unit) (fun n => replicate (Z.to_nat n) 1)
    (blank_directory 10) (blank_directory 10) small_file fresh_synch_disk) as
    (disk' & disk'' & E & _ & _ & E').
  - split; [apply small_file_wf|done|done].
  - apply fresh_store_wf.
  - intros n. unfold zlen. rewrite length_replicate. lia.
  - apply blank_directory_wf.
  - apply blank_directory_wf.
  - reflexivity.
  - exists disk', disk''. split; [exact E|exact E'].
Defined.

(** A name of nine characters fills the array up to its tenth byte, which nothing
    initialises; List then runs past the array. *)
Lemma List_nine_chars :
  let name := [97; 98; 99; 100; 101; 102; 103; 104; 105] in
  exists d', Add (mkDirectory 1 [mkEntry false 0 (replicate 10 1) (replicate 5 1)]) name 5 =
      Ok (true, d') /\ List d' = Err OutOfBounds.
Proof. eexists. split; reflexivity. Qed.
