(* ===== verification/FileSys.v ===== *)
(** * FileSys: filesys/filesys.h and filesys/filesys.cc

    The file system: two files that stay open, the bit map of free sectors and
    the directory, and the operations that create, open and remove files.
    [BitMap::FetchFrom] and [BitMap::WriteBack] (userprog/bitmap.cc) are here
    because they need [OpenFile]. *)

From S2P Require Import Text.
From S2P Require Import Prelude BitMap Machine Interrupt Disk SynchDisk FileHdr OpenFile Directory.

Definition FreeMapSector : Z := 0.
Definition DirectorySector : Z := 1.
(** [NumSectors / BitsInByte] *)
Definition FreeMapFileSize : Z := Z.quot NumSectors BitsInByte.
Definition NumDirEntries : Z := 10.
Definition DirectoryFileSize : Z := sizeof_DirectoryEntry * NumDirEntries.

Record FileSystem := mkFileSystem { freeMapFile : OpenFile; directoryFile : OpenFile }.

(** The words of a bit map as bytes. *)
Definition words_bytes (m : list Z) : list Z := concat (le_bytes 4 <$> m).
Fixpoint words_of_bytes (n : nat) (bs : list Z) : list Z :=
  match n with O => [] | S n => le_value (take 4 bs) :: words_of_bytes n (drop 4 bs) end.

Section filesys.
Context {D : Type} `{SectorStore D}.
(** Uninitialised memory: what [new char[n]], [new BitMap]'s word array,
    [new Directory]'s table and [new FileHeader] hold before they are written. *)
Context (new_char : Z -> list Z) (new_words : list Z) (new_table : list DirectoryEntry)
        (new_header : FileHeader).

Definition fetch_map (b : BitMap) (file : OpenFile) (d : D) : res (BitMap * D) :=
  '(bs, d) ← ReadAt file (numWords b * 4) 0 d;
  mem ← zwrite (words_bytes (map b)) 0 bs;
  mret (set_map b (words_of_bytes (length (map b)) mem), d).

Definition write_map (b : BitMap) (file : OpenFile) (d : D) : res D :=
  '(_, d) ← WriteAt new_char file (words_bytes (map b)) (numWords b * 4) 0 d; mret d.

(** [FileSystem(TRUE)]: format the disk. *)
Definition format (d : D) : res (FileSystem * D) :=
  freeMap ← new_BitMap new_words NumSectors;
  directory ← new_Directory new_table NumDirEntries;
  freeMap ← Mark freeMap FreeMapSector;
  freeMap ← Mark freeMap DirectorySector;
  '(ok, (mapHdr, freeMap)) ← Allocate new_header freeMap FreeMapFileSize;
  _ ← ASSERT ok;
  '(ok, (dirHdr, freeMap)) ← Allocate new_header freeMap DirectoryFileSize;
  _ ← ASSERT ok;
  d ← FileHdr.WriteBack mapHdr FreeMapSector d;
  d ← FileHdr.WriteBack dirHdr DirectorySector d;
  '(freeMapFile, d) ← new_OpenFile FreeMapSector d;
  '(directoryFile, d) ← new_OpenFile DirectorySector d;
  d ← write_map freeMap freeMapFile d;
  d ← Directory.WriteBack new_char directory directoryFile d;
  mret (mkFileSystem freeMapFile directoryFile, d).

Definition new_FileSystem (format_it : bool) (d : D) : res (FileSystem * D) :=
  if format_it then format d
  else
    '(freeMapFile, d) ← new_OpenFile FreeMapSector d;
    '(directoryFile, d) ← new_OpenFile DirectorySector d;
    mret (mkFileSystem freeMapFile directoryFile, d).

(** [new Directory(NumDirEntries)] and [FetchFrom(directoryFile)]. *)
Definition load_directory (fs : FileSystem) (d : D) : res (Directory * D) :=
  directory ← new_Directory new_table NumDirEntries;
  Directory.FetchFrom directory (directoryFile fs) d.

Definition load_map (fs : FileSystem) (d : D) : res (BitMap * D) :=
  freeMap ← new_BitMap new_words NumSectors; fetch_map freeMap (freeMapFile fs) d.

Definition Create (fs : FileSystem) (name : list Z) (initialSize : Z) (d : D) : res (bool * D) :=
  '(directory, d) ← load_directory fs d;
  found ← Directory.Find directory name;
  if negb (found =? -1) then mret (false, d)
  else
    '(freeMap, d) ← load_map fs d;
    '(sector, freeMap) ← BitMap.Find freeMap;
    if sector =? -1 then mret (false, d)
    else
      '(added, directory) ← Add directory name sector;
      if negb added then mret (false, d)
      else
        '(ok, (hdr, freeMap)) ← Allocate new_header freeMap initialSize;
        if negb ok then mret (false, d)
        else
          d ← FileHdr.WriteBack hdr sector d;
          d ← Directory.WriteBack new_char directory (directoryFile fs) d;
          d ← write_map freeMap (freeMapFile fs) d;
          mret (true, d).

(** What is printed, whether the file is found or not, and the file. *)
Definition Open_line (name : list Z) : list Z := says "FileSystem Open: " name.
Definition Open (fs : FileSystem) (name : list Z) (d : D) : res (option OpenFile * list Z * D) :=
  let out := Open_line name in
  '(directory, d) ← load_directory fs d;
  sector ← Directory.Find directory name;
  if sector >=? 0 then '(f, d) ← new_OpenFile sector d; mret (Some f, out, d)
  else mret (None, out, d).

Definition Remove (fs : FileSystem) (name : list Z) (d : D) : res (bool * D) :=
  '(directory, d) ← load_directory fs d;
  sector ← Directory.Find directory name;
  if sector =? -1 then mret (false, d)
  else
    '(fileHdr, d) ← FileHdr.FetchFrom sector d;
    '(freeMap, d) ← load_map fs d;
    freeMap ← Deallocate fileHdr freeMap;
    freeMap ← Clear freeMap sector;
    '(_, directory) ← Directory.Remove directory name;
    d ← write_map freeMap (freeMapFile fs) d;
    d ← Directory.WriteBack new_char directory (directoryFile fs) d;
    mret (true, d).

Definition FileSystem_List (fs : FileSystem) (d : D) : res (list (list Z) * D) :=
  '(directory, d) ← load_directory fs d;
  out ← Directory.List directory; mret (out, d).

Definition FileSystem_Print (fs : FileSystem) (d : D) :=
  '(bitHdr, d) ← FileHdr.FetchFrom FreeMapSector d;
  '(p1, d) ← FileHdr.Print bitHdr d;
  '(dirHdr, d) ← FileHdr.FetchFrom DirectorySector d;
  '(p2, d) ← FileHdr.Print dirHdr d;
  freeMap ← new_BitMap new_words NumSectors;
  directory ← new_Directory new_table NumDirEntries;
  '(freeMap, d) ← fetch_map freeMap (freeMapFile fs) d;
  bits ← BitMap.Print freeMap;
  '(directory, d) ← Directory.FetchFrom directory (directoryFile fs) d;
  '(p3, d) ← Directory.Print directory d;
  mret ((p1, p2, bits, p3), d).
End filesys.

(** ** The bit map in its file *)

Lemma length_words_bytes m : length (words_bytes m) = (4 * length m)%nat.
Proof.
  unfold words_bytes. rewrite (length_concat_eq 4); [by rewrite length_fmap|].
  apply Forall_fmap, Forall_true. intros w. apply length_le_bytes.
Qed.

Lemma words_round_trip m rest :
  Forall is_u32 m -> words_of_bytes (length m) (words_bytes m ++ rest) = m.
Proof.
  induction 1 as [|w m Hw HF IH]; [done|]. cbn [length words_of_bytes].
  unfold words_bytes in *. cbn [fmap list_fmap concat]. rewrite <- app_assoc.
  rewrite take_app_length', drop_app_length' by by rewrite length_le_bytes.
  rewrite le_value_bytes. change (w mod 2 ^ (8 * Z.of_nat 4)) with (u32 w).
  by rewrite u32_id, IH.
Qed.

Lemma wf_map_words b : wf_map b -> numWords b = 32 /\ length (map b) = 32%nat.
Proof.
  intros [Hb Hn]. pose proof (wf_numWords _ Hb) as Hw. pose proof (wf_words _ Hb) as Hl.
  rewrite Hn in Hw. change (divRoundUp NumSectors BitsInWord) with 32 in Hw.
  split; [done|]. unfold zlen in Hl. lia.
Qed.

(** The bit map that the contents of a file represent. *)
Definition stored_map (c : list (list Z)) (h : FileHeader) : BitMap :=
  mkBitMap NumSectors 32 (words_of_bytes 32 (file_data c h)).

Record wf_map_file (file : OpenFile) : Prop := {
  mf_hdr : wf_hdr (hdr file);
  mf_size : Length file = FreeMapFileSize
}.

Section map_file.
Context {D : Type} `{SectorStoreLaws D}.
Implicit Types (d : D) (file : OpenFile) (b : BitMap).

Lemma fetch_map_ok b file d :
  wf_map_file file -> store_wf d -> wf_map b ->
  exists d', fetch_map b file d = Ok (stored_map (contents d) (hdr file), d') /\
    store_wf d' /\ contents d' = contents d.
Proof.
  intros [Hh Hl] Hd Hb. destruct (wf_map_words b Hb) as [Hw Hlen].
  change FreeMapFileSize with 128 in Hl. unfold fetch_map. rewrite Hw.
  pose proof (zlen_file_data _ _ (store_wf_contents d Hd) Hh) as Hfl.
  destruct (ReadAt_ok file (32 * 4) 0 d Hh Hd ltac:(lia) ltac:(lia) ltac:(lia)
    ltac:(lia)) as (d' & -> & Hd' & Hc'). rewrite bind_Ok, Hl.
  exists d'. split; [|done]. change (transfer 128 0 (32 * 4)) with 128. rewrite drop_0.
  unfold Length, FileLength in Hl.
  assert (take (Z.to_nat 128) (all_data (contents d) (hdr file)) = file_data (contents d) (hdr file))
    as -> by (unfold file_data; by rewrite Hl).
  pose proof (length_words_bytes (map b)) as Hwl. rewrite Hlen in Hwl. unfold zlen in Hfl.
  rewrite zwrite_Ok, bind_Ok by (unfold zlen; lia).
  rewrite drop_ge by (unfold zlen; lia). rewrite take_0, app_nil_r, Hlen. cbn [app].
  unfold stored_map, set_map. by rewrite Hw, (proj2 Hb).
Qed.

Lemma write_map_ok new_char b file d :
  wf_map_file file -> store_wf d -> (forall n, zlen (new_char n) = Z.max 0 n) -> wf_map b ->
  exists d', write_map new_char b file d = Ok d' /\ store_wf d' /\
    stored_map (contents d') (hdr file) = b /\
    (forall s, s ∉ blocks (hdr file) -> znth (contents d') s = znth (contents d) s).
Proof.
  intros [Hh Hl] Hd Hnew Hb. destruct (wf_map_words b Hb) as [Hw Hlen].
  change FreeMapFileSize with 128 in Hl. unfold write_map. rewrite Hw.
  pose proof (length_words_bytes (map b)) as Hwl. rewrite Hlen in Hwl.
  destruct (WriteAt_ok new_char file (words_bytes (map b)) (32 * 4) 0 d Hh Hd Hnew
    ltac:(lia) ltac:(lia) ltac:(lia) ltac:(lia)) as (d' & -> & Hd' & Hwr & Hfr).
  { rewrite Hl. change (transfer 128 0 (32 * 4)) with 128. unfold zlen. lia. }
  rewrite bind_Ok. exists d'. split_and!; try done.
  rewrite Hl in Hwr. change (transfer 128 0 (32 * 4)) with 128 in Hwr.
  rewrite take_ge in Hwr by lia. apply zwrite_inv in Hwr as (_ & _ & Hwr).
  unfold stored_map. rewrite Hwr. change (Z.to_nat 0) with 0%nat. rewrite take_0. cbn [app].
  replace 32%nat with (length (map b)) by done. rewrite words_round_trip by apply (proj1 Hb).
  destruct Hb as [_ Hn]. destruct b as [nb nw m]. simpl in *. congruence.
Qed.
End map_file.

(** ** The state of the file system *)

Definition header_at (c : list (list Z)) (s : Z) : FileHeader := hdr_of_bytes (sector_data c s).

(** Agreement of two disks on a set of sectors. *)
Definition agree (P : Z -> Prop) (c c' : list (list Z)) : Prop :=
  forall s, P s -> znth c' s = znth c s.

Lemma sector_data_agree c c' s : znth c' s = znth c s -> sector_data c' s = sector_data c s.
Proof. unfold sector_data. by intros ->. Qed.

Lemma header_at_agree c c' s : znth c' s = znth c s -> header_at c' s = header_at c s.
Proof. intros E. unfold header_at. by rewrite (sector_data_agree _ _ _ E). Qed.

Lemma file_data_agree c c' h : agree (fun s => s ∈ blocks h) c c' -> file_data c' h = file_data c h.
Proof.
  intros Ha. unfold file_data, all_data. do 2 f_equal. apply list_fmap_ext.
  intros i s Hs. apply sector_data_agree, Ha. by eapply list_elem_of_lookup_2.
Qed.

Section state.
Context (fs : FileSystem) (c : list (list Z)).

Definition map_hdr : FileHeader := hdr (freeMapFile fs).
Definition dir_hdr : FileHeader := hdr (directoryFile fs).
Definition free_map : BitMap := stored_map c map_hdr.
Definition directory : Directory :=
  mkDirectory NumDirEntries (stored_table NumDirEntries c dir_hdr).

(** Name and header sector of each file. *)
Definition files : list (list Z * Z) := live (table directory).

Definition file_sectors (f : list Z * Z) : list Z := f.2 :: blocks (header_at c f.2).

(** Every sector in use, each once. *)
Definition owned : list Z :=
  FreeMapSector :: DirectorySector :: blocks map_hdr ++ blocks dir_hdr ++
  concat (file_sectors <$> files).

Record fs_wf : Prop := {
  fs_map_file : wf_map_file (freeMapFile fs);
  fs_dir_file : wf_hdr dir_hdr;
  fs_dir_size : numBytes dir_hdr = DirectoryFileSize;
  fs_map_hdr : header_at c FreeMapSector = map_hdr;
  fs_dir_hdr : header_at c DirectorySector = dir_hdr;
  fs_seek : seekPosition (freeMapFile fs) = 0 /\ seekPosition (directoryFile fs) = 0;
  fs_map : wf_map free_map;
  fs_dir : wf_dir directory;
  fs_headers : Forall (fun f => valid_sector f.2 /\ wf_hdr (header_at c f.2)) files;
  fs_owned : NoDup owned;
  fs_marked : marked free_map = list_to_set owned
}.

(** What a user sees: the contents of each file, by name. *)
Definition view : gmap (list Z) (list Z) :=
  list_to_map ((fun f => (f.1, file_data c (header_at c f.2))) <$> files).

Definition fs_free : Z := free free_map.
End state.

(** A file system on a disk. *)
Definition fs_inv {D} `{SectorStoreLaws D} (fs : FileSystem) (d : D) : Prop :=
  store_wf d /\ fs_wf fs (contents d).

(** ** Committing a change

    Create, Remove and a write through an open file all replace a few files
    ([gone] by [extra]) and leave the others ([keep]) alone. *)

Lemma concat_fmap_perm {A B} (f : A -> list B) l1 l2 :
  l1 ≡ₚ l2 -> concat (f <$> l1) ≡ₚ concat (f <$> l2).
Proof.
  induction 1 as [|x l1 l2 _ IH|x y l|l1 l2 l3 _ IH1 _ IH2]; cbn [fmap list_fmap concat].
  - done.
  - by rewrite IH.
  - by rewrite !app_assoc, (Permutation_app_comm (f y) (f x)).
  - by rewrite IH1, IH2.
Qed.

Definition view_of (c : list (list Z)) (fl : list (list Z * Z)) : gmap (list Z) (list Z) :=
  list_to_map ((fun f => (f.1, file_data c (header_at c f.2))) <$> fl).

Lemma view_of_names c fl :
  ((fun f : list Z * Z => (f.1, file_data c (header_at c f.2))) <$> fl).*1 = fl.*1.
Proof. induction fl as [|f fl IH]; [done|]. cbn [fmap list_fmap fst]. f_equal. exact IH. Qed.

Lemma view_perm fs c fl :
  NoDup (files fs c).*1 -> files fs c ≡ₚ fl -> view fs c = view_of c fl.
Proof.
  intros Hnd HP. apply list_to_map_proper; [by rewrite view_of_names|]. by rewrite HP.
Qed.

Lemma view_dom c fl n : n ∈ dom (view_of c fl) <-> n ∈ fl.*1.
Proof. unfold view_of. by rewrite dom_list_to_map, elem_of_list_to_set, view_of_names. Qed.

(** Files whose sectors did not change have the same header and contents. *)
Lemma file_agree c c' f :
  agree (fun s => s ∈ file_sectors c f) c c' ->
  header_at c' f.2 = header_at c f.2 /\ file_sectors c' f = file_sectors c f /\
  file_data c' (header_at c' f.2) = file_data c (header_at c f.2).
Proof.
  intros Ha. assert (header_at c' f.2 = header_at c f.2) as E.
  { apply header_at_agree, Ha. by left. }
  unfold file_sectors. rewrite !E. split_and!; try done. apply file_data_agree.
  intros s Hs. apply Ha. by right.
Qed.

Lemma files_agree c c' fl :
  agree (fun s => s ∈ concat (file_sectors c <$> fl)) c c' ->
  file_sectors c' <$> fl = file_sectors c <$> fl /\ view_of c' fl = view_of c fl /\
  Forall (fun f => header_at c' f.2 = header_at c f.2) fl.
Proof.
  intros Ha.
  assert (Forall (fun f => agree (fun s => s ∈ file_sectors c f) c c') fl) as HF.
  { apply Forall_forall. intros f Hf s Hs. apply Ha, list_elem_of_In, in_concat.
    exists (file_sectors c f). split; [by apply list_elem_of_In, list_elem_of_fmap_2|].
    by apply list_elem_of_In. }
  clear Ha. unfold view_of. induction HF as [|f fl Hf HF (IH1 & IH2 & IH3)]; [done|].
  destruct (file_agree c c' f Hf) as (E1 & E2 & E3).
  cbn [fmap list_fmap list_to_map foldr]. split_and!.
  - by rewrite E2, IH1.
  - unfold list_to_map in *. cbn [foldr curry uncurry fst snd]. rewrite E3. f_equal. exact IH2.
  - by constructor.
Qed.

(** What a change of the disk under a file system has to satisfy. *)
Record change (fs : FileSystem) (c c' : list (list Z)) (gone extra keep : list (list Z * Z))
    : Prop := {
  ch_gone : files fs c ≡ₚ gone ++ keep;
  ch_agree : agree (fun s => s ∈ FreeMapSector :: DirectorySector ::
                               concat (file_sectors c <$> keep)) c c';
  ch_map : wf_map (free_map fs c');
  ch_dir : wf_dir (directory fs c');
  ch_extra : files fs c' ≡ₚ extra ++ keep;
  ch_headers : Forall (fun f => valid_sector f.2 /\ wf_hdr (header_at c' f.2)) extra;
  ch_owned : NoDup (concat (file_sectors c' <$> extra) ++ FreeMapSector :: DirectorySector ::
    blocks (map_hdr fs) ++ blocks (dir_hdr fs) ++ concat (file_sectors c <$> keep));
  ch_marked : forall x, x ∈ marked (free_map fs c') <->
    x ∈ concat (file_sectors c' <$> extra) ++ FreeMapSector :: DirectorySector ::
      blocks (map_hdr fs) ++ blocks (dir_hdr fs) ++ concat (file_sectors c <$> keep)
}.

Lemma change_owned fs c c' gone extra keep :
  change fs c c' gone extra keep ->
  owned fs c' ≡ₚ concat (file_sectors c' <$> extra) ++ FreeMapSector :: DirectorySector ::
    blocks (map_hdr fs) ++ blocks (dir_hdr fs) ++ concat (file_sectors c <$> keep).
Proof.
  intros Hc. destruct (files_agree c c' keep) as (E & _ & _).
  { intros s Hs. apply (ch_agree _ _ _ _ _ _ Hc). by do 2 right. }
  unfold owned. rewrite (concat_fmap_perm (file_sectors c') _ _ (ch_extra _ _ _ _ _ _ Hc)).
  rewrite fmap_app, concat_app, E.
  change (FreeMapSector :: DirectorySector :: ?l) with ([FreeMapSector; DirectorySector] ++ l).
  solve_Permutation.
Qed.

Lemma change_wf fs c c' gone extra keep :
  fs_wf fs c -> change fs c c' gone extra keep ->
  fs_wf fs c' /\ view fs c' = view_of c' extra ∪ view_of c keep.
Proof.
  intros Hfs Hc. pose proof (change_owned _ _ _ _ _ _ Hc) as Hown.
  destruct (files_agree c c' keep) as (E1 & E2 & E3).
  { intros s Hs. apply (ch_agree _ _ _ _ _ _ Hc). by do 2 right. }
  destruct Hfs as [H1 H2 H3 H4 H5 H6 H7 H8 H9 H10 H11].
  destruct Hc as [Hg Ha Hm Hd He Hh Ho Hk]. split.
  - split; try done.
    + rewrite <- H4. apply header_at_agree, Ha. by left.
    + rewrite <- H5. apply header_at_agree, Ha. right. by left.
    + rewrite He. apply Forall_app. split; [done|].
      rewrite Hg in H9. apply Forall_app in H9 as [_ H9].
      rewrite Forall_forall in E3, H9 |- *. intros f Hf. rewrite E3 by done. by apply H9.
    + by rewrite Hown.
    + apply set_eq. intros x. rewrite Hk, elem_of_list_to_set. by rewrite Hown.
  - rewrite (view_perm fs c' (extra ++ keep) (dir_names _ Hd) He).
    rewrite <- E2. unfold view_of. by rewrite fmap_app, list_to_map_app.
Qed.

(** [f] is the open file of name [n]. *)
Definition open_as (fs : FileSystem) (c : list (list Z)) (n : list Z) (f : OpenFile) : Prop :=
  exists s, (n, s) ∈ files fs c /\ hdr f = header_at c s.

(** The files that stay, stay open. *)
Lemma change_open fs c c' gone extra keep n f :
  change fs c c' gone extra keep -> n ∉ gone.*1 -> open_as fs c n f -> open_as fs c' n f.
Proof.
  intros Hc Hn (s & Hin & E). destruct (files_agree c c' keep) as (_ & _ & E3).
  { intros t Ht. apply (ch_agree _ _ _ _ _ _ Hc). by do 2 right. }
  rewrite (ch_gone _ _ _ _ _ _ Hc), elem_of_app in Hin. destruct Hin as [Hin|Hin].
  { by apply (list_elem_of_fmap_2 fst) in Hin. }
  exists s. rewrite Forall_forall in E3. pose proof (E3 _ Hin) as Eh. cbn in Eh. rewrite Eh. split; [|exact E].
  rewrite (ch_extra _ _ _ _ _ _ Hc), elem_of_app. by right.
Qed.

(** ** Loading and storing the two files *)

(** Uninitialised memory has the size and the types of the objects it becomes. *)
Record wf_memory (new_char : Z -> list Z) (new_words : list Z)
    (new_table : list DirectoryEntry) (new_header : FileHeader) : Prop := {
  mem_char : forall n, zlen (new_char n) = Z.max 0 n;
  mem_words : zlen new_words = 32 /\ Forall is_u32 new_words;
  mem_table : zlen new_table = NumDirEntries /\ Forall wf_entry new_table;
  mem_header : zlen (dataSectors new_header) = NumDirect /\
    Forall is_s32 (dataSectors new_header)
}.

Lemma init_loop_spec n : forall i t,
  0 <= i -> i + Z.of_nat n = zlen t -> Forall wf_entry t ->
  Forall (fun e => inUse e = false) (take (Z.to_nat i) t) ->
  exists t', init_loop n i t = Ok t' /\ zlen t' = zlen t /\ Forall wf_entry t' /\
    Forall (fun e => inUse e = false) t'.
Proof.
  induction n as [|n IH]; intros i t Hi Hn HF Hdone; cbn [init_loop].
  { exists t. split_and!; try done. rewrite take_ge in Hdone; [done|unfold zlen in Hn; lia]. }
  destruct (zget_in_range t i ltac:(lia)) as [e Ee]. rewrite Ee, bind_Ok, zset_Ok, bind_Ok by lia.
  apply zget_Ok in Ee. rewrite znth_lookup in Ee by lia.
  destruct (IH (i + 1) (<[Z.to_nat i := set_inUse e false]> t)) as (t' & -> & Hl & HF' & Hd').
  - lia.
  - rewrite zlen_insert. lia.
  - apply Forall_insert; [done|].
    pose proof (Forall_lookup_1 _ _ _ _ HF Ee) as [? ? ?]. by split.
  - replace (Z.to_nat (i + 1)) with (S (Z.to_nat i)) by lia.
    rewrite insert_take_drop by (by eapply lookup_lt_Some).
    rewrite take_app, take_take, Forall_app. split; [by rewrite Nat.min_r by lia|].
    rewrite length_take_le by (apply lookup_lt_Some in Ee; lia).
    replace (S (Z.to_nat i) - Z.to_nat i)%nat with 1%nat by lia. simpl. by repeat constructor.
  - exists t'. by rewrite Hl, zlen_insert.
Qed.

Lemma no_live t : Forall (fun e => inUse e = false) t -> live t = [].
Proof. induction 1 as [|e t He _ IH]; [done|]. rewrite live_cons, IH. unfold live1. by rewrite He. Qed.

Lemma new_Directory_ok t :
  zlen t = NumDirEntries -> Forall wf_entry t ->
  exists d, new_Directory t NumDirEntries = Ok d /\ wf_dir d /\ tableSize d = NumDirEntries /\
    live (table d) = [].
Proof.
  intros Hl HF. unfold new_Directory, NumDirEntries in *.
  destruct (init_loop_spec (Z.to_nat 10) 0 t) as (t' & -> & Hl' & HF' & Hf');
    [done|lia|done|constructor|].
  rewrite bind_Ok. eexists; split; [done|].
  apply no_live in Hf'. split_and!; try done. split; simpl; [lia|done|].
  rewrite Hf'. constructor.
Qed.

Section loading.
Context {D : Type} `{SectorStoreLaws D}.
Context (new_char : Z -> list Z) (new_words : list Z) (new_table : list DirectoryEntry)
        (new_header : FileHeader) (Hmem : wf_memory new_char new_words new_table new_header).
Implicit Types (d : D) (fs : FileSystem).

Lemma new_map_ok : exists b, new_BitMap new_words NumSectors = Ok b /\ wf_map b /\ marked b = ∅.
Proof.
  destruct (mem_words _ _ _ _ Hmem) as [Hl HF].
  destruct (new_BitMap_spec new_words NumSectors) as (b & E & Hb & Hn & Hm); [done|done|done|].
  by exists b.
Qed.

Lemma dir_file_ok fs c : fs_wf fs c -> wf_dir_file NumDirEntries (directoryFile fs).
Proof.
  intros Hfs. split; [apply Hfs|done|]. unfold Length, FileLength.
  pose proof (fs_dir_size _ _ Hfs) as E. unfold dir_hdr in E. rewrite E. done.
Qed.

Lemma load_directory_ok fs d :
  fs_inv fs d -> exists d', load_directory new_table fs d = Ok (directory fs (contents d), d') /\
    store_wf d' /\ contents d' = contents d.
Proof.
  intros [Hd Hfs]. destruct (mem_table _ _ _ _ Hmem) as [Hl HF].
  destruct (new_Directory_ok new_table Hl HF) as (dir & E & Hdir & Hs & _).
  unfold load_directory. rewrite E, bind_Ok.
  destruct (FetchFrom_ok dir (directoryFile fs) d) as (d' & E' & Hd' & Hc');
    rewrite ?Hs; try done; try by eapply dir_file_ok.
  - rewrite <- Hs. apply Hdir.
  - apply Hdir.
  - exists d'. split; [|done]. rewrite E'. unfold set_table, directory. by rewrite Hs.
Qed.

Lemma load_map_ok fs d :
  fs_inv fs d -> exists d', load_map new_words fs d = Ok (free_map fs (contents d), d') /\
    store_wf d' /\ contents d' = contents d.
Proof.
  intros [Hd Hfs]. destruct new_map_ok as (b & E & Hb & _). unfold load_map.
  rewrite E, bind_Ok. apply fetch_map_ok; [apply Hfs|done|done].
Qed.

Lemma write_header h s d :
  store_wf d -> valid_sector s -> wf_hdr h ->
  exists d', FileHdr.WriteBack h s d = Ok d' /\ store_wf d' /\ header_at (contents d') s = h /\
    agree (fun t => t <> s) (contents d) (contents d').
Proof.
  intros Hd Hs Hh. unfold FileHdr.WriteBack.
  pose proof (zlen_hdr_bytes h (hdr_len _ Hh)) as Hl.
  destruct (WriteSector_ok d s (hdr_bytes h) Hd Hs Hl) as (d' & -> & Hd' & Hc').
  exists d'. split_and!; try done.
  - unfold header_at, sector_data. rewrite Hc', znth_insert_eq.
    + simpl. pose proof (hdr_numSectors _ Hh). pose proof (hdr_size _ Hh).
      pose proof (hdr_bytes_nonneg _ Hh). unfold NumDirect, SectorSize in *.
      apply hdr_round_trip; try apply Hh; word_lia.
    + rewrite contents_len by done. apply Hs.
  - intros t Ht. rewrite Hc'. apply znth_insert_ne; [apply Hs|done].
Qed.

Lemma read_header s d :
  store_wf d -> valid_sector s ->
  exists d', FileHdr.FetchFrom s d = Ok (header_at (contents d) s, d') /\ store_wf d' /\
    contents d' = contents d.
Proof.
  intros Hd Hs. unfold FileHdr.FetchFrom.
  destruct (ReadSector_data d s Hd Hs) as (d' & -> & Hd' & Hc'). by exists d'.
Qed.

(** The two open files of a file system, with room and disjoint sectors. *)
Record wf_files fs : Prop := {
  ff_map : wf_map_file (freeMapFile fs);
  ff_dir : wf_dir_file NumDirEntries (directoryFile fs);
  ff_disj : forall s, s ∈ blocks (map_hdr fs) -> s ∉ blocks (dir_hdr fs)
}.

Lemma fs_wf_files fs c : fs_wf fs c -> wf_files fs.
Proof.
  intros Hfs. split; [apply Hfs|by eapply dir_file_ok|].
  pose proof (fs_owned _ _ Hfs) as Ho. unfold owned in Ho.
  do 2 apply NoDup_cons in Ho as [_ Ho]. apply NoDup_app in Ho as (_ & Ho & _).
  intros s H1 H2. apply (Ho s H1). apply elem_of_app. by left.
Qed.

(** Writing a directory and a bit map to their files, in either order. *)
Lemma store_files fs dir b d (dir_first : bool) :
  store_wf d -> wf_files fs -> wf_dir dir -> tableSize dir = NumDirEntries -> wf_map b ->
  exists d', (if dir_first then
       d ← Directory.WriteBack new_char dir (directoryFile fs) d; write_map new_char b (freeMapFile fs) d
     else
       d ← write_map new_char b (freeMapFile fs) d; Directory.WriteBack new_char dir (directoryFile fs) d)
     = Ok d' /\ store_wf d' /\
    directory fs (contents d') = dir /\ free_map fs (contents d') = b /\
    agree (fun s => s ∉ blocks (map_hdr fs) ++ blocks (dir_hdr fs)) (contents d) (contents d').
Proof.
  intros Hd [Hmf Hdf0 Hdisj] Hdir Hs Hb. pose proof (mem_char _ _ _ _ Hmem) as Hnew.
  assert (wf_dir_file (tableSize dir) (directoryFile fs)) as Hdf by by rewrite Hs.
  assert (Hmk : forall c', directory fs c' = dir <->
    stored_table (tableSize dir) c' (hdr (directoryFile fs)) = table dir).
  { intros c'. unfold directory, dir_hdr. rewrite Hs. destruct dir; simpl in *. subst.
    split; congruence. }
  destruct dir_first.
  - destruct (WriteBack_ok new_char dir _ d Hdf Hd Hnew (dir_size _ Hdir) (dir_entries _ Hdir))
      as (d1 & -> & Hd1 & Ht & Hfr). rewrite bind_Ok.
    destruct (write_map_ok new_char b _ d1 Hmf Hd1 Hnew Hb)
      as (d2 & -> & Hd2 & Hm & Hfr2). exists d2. split_and!; try done.
    + apply Hmk. rewrite <- Ht. unfold stored_table. f_equal. apply file_data_agree.
      intros s Hs1. apply Hfr2. intros Hs2. by apply (Hdisj s).
    + intros s Hns. rewrite not_elem_of_app in Hns. destruct Hns as [N1 N2].
      rewrite Hfr2 by exact N1. by apply Hfr.
  - destruct (write_map_ok new_char b _ d Hmf Hd Hnew Hb)
      as (d1 & -> & Hd1 & Hm & Hfr). rewrite bind_Ok.
    destruct (WriteBack_ok new_char dir _ d1 Hdf Hd1 Hnew (dir_size _ Hdir) (dir_entries _ Hdir))
      as (d2 & -> & Hd2 & Ht & Hfr2). exists d2. split_and!; try done.
    + by apply Hmk.
    + rewrite <- Hm. unfold free_map, stored_map. do 2 f_equal. apply file_data_agree.
      intros s Hs1. apply Hfr2. by apply Hdisj.
    + intros s Hns. rewrite not_elem_of_app in Hns. destruct Hns as [N1 N2].
      rewrite Hfr2 by exact N2. by apply Hfr.
Qed.
End loading.

(** ** The operations *)

Lemma owned_apart fs c s :
  fs_wf fs c -> s ∈ FreeMapSector :: DirectorySector :: concat (file_sectors c <$> files fs c) ->
  s ∉ blocks (map_hdr fs) ++ blocks (dir_hdr fs).
Proof.
  intros Hfs Hs Hin. pose proof (fs_owned _ _ Hfs) as Ho.
  assert (owned fs c ≡ₚ (blocks (map_hdr fs) ++ blocks (dir_hdr fs)) ++
    FreeMapSector :: DirectorySector :: concat (file_sectors c <$> files fs c)) as HP.
  { unfold owned. change (FreeMapSector :: DirectorySector :: ?l) with
      ([FreeMapSector; DirectorySector] ++ l). solve_Permutation. }
  rewrite HP in Ho. apply NoDup_app in Ho as (_ & Ho & _). by apply (Ho s).
Qed.

Lemma not_owned_apart fs c s : s ∉ owned fs c -> s ∉ blocks (map_hdr fs) ++ blocks (dir_hdr fs).
Proof. unfold owned. rewrite !not_elem_of_cons, !not_elem_of_app. intros (_ & _ & ? & ? & _). done. Qed.

Lemma view_name fs c n : fs_wf fs c -> n ∈ dom (view fs c) <-> n ∈ (files fs c).*1.
Proof. intros Hfs. apply view_dom. Qed.

Section operations.
Context {D : Type} `{SectorStoreLaws D}.
Context (new_char : Z -> list Z) (new_words : list Z) (new_table : list DirectoryEntry)
        (new_header : FileHeader) (Hmem : wf_memory new_char new_words new_table new_header).
Implicit Types (d : D) (fs : FileSystem).

(** The change a successful Create makes, given what it allocated. *)
Lemma create_change fs c c' name s h dir b1 b2 :
  fs_wf fs c -> valid_sector s -> s ∉ marked (free_map fs c) ->
  marked b1 = {[s]} ∪ marked (free_map fs c) -> wf_hdr h ->
  (forall x, x ∈ blocks h -> x ∉ marked b1) -> marked b2 = list_to_set (blocks h) ∪ marked b1 ->
  wf_map b2 -> wf_dir dir -> live (table dir) ≡ₚ (fname name, s) :: files fs c ->
  directory fs c' = dir -> free_map fs c' = b2 -> header_at c' s = h ->
  agree (fun t => t <> s /\ t ∉ blocks (map_hdr fs) ++ blocks (dir_hdr fs)) c c' ->
  change fs c c' [] [(fname name, s)] (files fs c).
Proof.
  intros Hfs Hs Hns Hm1 Hh Hnew Hm2 Hb2 Hdir HP Ed Em Eh Ha.
  rewrite (fs_marked _ _ Hfs), elem_of_list_to_set in Hns.
  assert (concat (file_sectors c' <$> [(fname name, s)]) = s :: blocks h) as Ex.
  { cbn [fmap list_fmap concat]. rewrite app_nil_r. unfold file_sectors. cbn [snd]. by rewrite Eh. }
  split; rewrite ?Ex; try (rewrite ?Ed, ?Em; done).
  - intros t Ht. apply Ha. split; [|by eapply owned_apart].
    intros ->. apply Hns. unfold owned.
    rewrite !elem_of_cons, !elem_of_app in *. destruct Ht as [?|[?|?]]; auto 6.
  - unfold files. rewrite Ed. exact HP.
  - apply Forall_singleton. cbn [snd]. by rewrite Eh.
  - change (FreeMapSector :: DirectorySector :: blocks (map_hdr fs) ++ blocks (dir_hdr fs) ++
      concat (file_sectors c <$> files fs c)) with (owned fs c).
    cbn [app]. rewrite NoDup_cons, NoDup_app, elem_of_app. split_and!.
    + intros [Hin|Hin]; [|done]. apply Hnew in Hin. apply Hin. rewrite Hm1.
      by apply elem_of_union_l, elem_of_singleton.
    + apply Hh.
    + intros x Hx Ho. apply Hnew in Hx. apply Hx.
      rewrite Hm1, (fs_marked _ _ Hfs). by apply elem_of_union_r, elem_of_list_to_set.
    + apply Hfs.
  - intros x. rewrite Em, Hm2, Hm1, (fs_marked _ _ Hfs).
    change (FreeMapSector :: DirectorySector :: blocks (map_hdr fs) ++ blocks (dir_hdr fs) ++
      concat (file_sectors c <$> files fs c)) with (owned fs c).
    rewrite !elem_of_union, !elem_of_list_to_set, elem_of_singleton, elem_of_app, elem_of_cons.
    tauto.
Qed.

Lemma free_change b b' (l : list Z) :
  numBits b' = numBits b -> NoDup l -> (forall x, x ∈ l -> x ∉ marked b) ->
  marked b' = list_to_set l ∪ marked b -> free b' = free b - zlen l.
Proof.
  intros Hn Hnd Hd Hm. unfold free. rewrite Hn, Hm, size_union.
  - rewrite size_list_to_set by done. unfold zlen. lia.
  - intros x Hx. apply elem_of_list_to_set in Hx. by apply Hd.
Qed.

Lemma free_release b b' (l : list Z) :
  numBits b' = numBits b -> NoDup l -> (forall x, x ∈ l -> x ∈ marked b) ->
  marked b' = marked b ∖ list_to_set l -> free b' = free b + zlen l.
Proof.
  intros Hn Hnd Hd Hm. unfold free.
  assert (list_to_set l ⊆ marked b) as Hsub.
  { intros x Hx. apply Hd. by apply elem_of_list_to_set in Hx. }
  pose proof (subseteq_size _ _ Hsub) as Hle.
  rewrite Hn, Hm, size_difference by done. rewrite size_list_to_set in * by done.
  unfold zlen. lia.
Qed.

(** The last steps of Create: everything worked, flush all changes to disk. *)
Lemma create_commit fs d0 d name s h dir b1 b2 :
  fs_wf fs (contents d0) -> store_wf d -> contents d = contents d0 ->
  valid_sector s -> s ∉ marked (free_map fs (contents d0)) ->
  marked b1 = {[s]} ∪ marked (free_map fs (contents d0)) -> numBits b1 = NumSectors -> wf_hdr h ->
  (forall x, x ∈ blocks h -> x ∉ marked b1) -> marked b2 = list_to_set (blocks h) ∪ marked b1 ->
  wf_map b2 -> wf_dir dir -> tableSize dir = NumDirEntries ->
  live (table dir) ≡ₚ (fname name, s) :: files fs (contents d0) ->
  exists d', (d ← FileHdr.WriteBack h s d;
              d ← Directory.WriteBack new_char dir (directoryFile fs) d;
              d ← write_map new_char b2 (freeMapFile fs) d; mret (true, d)) = Ok (true, d') /\
    fs_inv fs d' /\
    view fs (contents d') =
      <[fname name := file_data (contents d') h]> (view fs (contents d0)) /\
    fs_free fs (contents d') = free b1 - numSectors h /\
    (forall n f, open_as fs (contents d0) n f -> open_as fs (contents d') n f).
Proof.
  intros Hfs Hd Hc Hs Hsn Hm1 Hn1 Hh Hnew Hm2 Hb2 Hdir Hts HP.
  destruct (write_header h s d Hd Hs Hh) as (d3 & E3 & Hd3 & Eh & Ha3). rewrite E3, bind_Ok, Hc in *.
  destruct (store_files _ _ _ _ Hmem fs dir b2 d3 true Hd3 (fs_wf_files _ _ Hfs) Hdir Hts Hb2) as
    (d4 & E4 & Hd4 & Ed & Em & Ha4). cbv iota in E4. apply bind_inv in E4 as (d5 & -> & E4).
  rewrite bind_Ok, E4, bind_Ok. exists d4. split; [done|].
  assert (header_at (contents d4) s = h) as Eh4.
  { rewrite <- Eh. apply header_at_agree, Ha4.
    rewrite (fs_marked _ _ Hfs), elem_of_list_to_set in Hsn. exact (not_owned_apart _ _ _ Hsn). }
  assert (change fs (contents d0) (contents d4) [] [(fname name, s)] (files fs (contents d0)))
    as Hch.
  { apply (create_change fs _ _ name s h dir b1 b2); try assumption.
    intros t [Ht1 Ht2]. rewrite (Ha4 t Ht2). exact (Ha3 t Ht1). }
  destruct (change_wf _ _ _ _ _ _ Hfs Hch) as [Hfs' Hv].
  split; [exact (conj Hd4 Hfs')|]. split; [|split].
  - rewrite Hv. unfold view_of at 1. cbn [fmap list_fmap list_to_map foldr fst snd]. rewrite Eh4.
    rewrite insert_empty. symmetry. apply insert_union_singleton_l.
  - unfold fs_free. rewrite Em, (free_change b1 b2 (blocks h)), zlen_blocks; try assumption.
    + reflexivity.
    + rewrite Hn1. apply (proj2 Hb2).
    + apply Hh.
  - intros n f. apply (change_open _ _ _ _ _ _ n f Hch). by apply not_elem_of_nil.
Qed.

(** What Create promises. *)
Definition create_post fs (name : list Z) (size : Z) (d : D) (b : bool) (d' : D) : Prop :=
  let need := divRoundUp size SectorSize in
  let fits := fname name ∉ dom (view fs (contents d)) /\
    zlen (files fs (contents d)) < NumDirEntries /\ 1 + need <= fs_free fs (contents d) in
  fs_inv fs d' /\
  if b then fits /\ (exists bytes, zlen bytes = size /\
      view fs (contents d') = <[fname name := bytes]> (view fs (contents d))) /\
    fs_free fs (contents d') = fs_free fs (contents d) - (1 + need)
  else ~ fits /\ contents d' = contents d.

Lemma Create_spec fs name size d :
  fs_inv fs d -> 0 <= size <= MaxFileSize ->
  exists b d', Create new_char new_words new_table new_header fs name size d = Ok (b, d') /\
    create_post fs name size d b d' /\
    (forall n f, open_as fs (contents d) n f -> open_as fs (contents d') n f).
Proof.
  intros Hinv Hsize. pose proof Hinv as [Hd Hfs]. set (need := divRoundUp size SectorSize).
  assert (forall d2, store_wf d2 -> contents d2 = contents d ->
    ~ (fname name ∉ dom (view fs (contents d)) /\ zlen (files fs (contents d)) < NumDirEntries /\
       1 + need <= fs_free fs (contents d)) -> create_post fs name size d false d2 /\
    (forall n f, open_as fs (contents d) n f -> open_as fs (contents d2) n f)) as Hfail.
  { intros d2 Hd2 Ec Hn. rewrite Ec. split; [|done]. split; [split; [done|by rewrite Ec]|by split]. }
  unfold Create. destruct (load_directory_ok _ _ _ _ Hmem fs d Hinv) as (d1 & -> & Hd1 & Hc1).
  rewrite bind_Ok. pose proof (fs_dir _ _ Hfs) as Hdir. pose proof (view_name fs (contents d)) as Hvn.
  destruct (dir_Find_spec _ name Hdir) as [[-> Hnm]|(s0 & -> & Hin)]; rewrite bind_Ok.
  2:{ assert (valid_sector s0) as [Hs0 _].
      { pose proof (fs_headers _ _ Hfs) as HF. rewrite Forall_forall in HF. by apply HF in Hin as [? _]. }
      destruct (Z.eqb_spec s0 (-1)); [lia|]. exists false, d1. split; [done|]. apply Hfail; try done.
      intros (Hx & _). apply Hx, Hvn; [done|]. by apply (list_elem_of_fmap_2 fst) in Hin. }
  change (negb (-1 =? -1)) with false. cbv iota.
  assert (fs_inv fs d1) as Hinv1 by (split; [done|by rewrite Hc1]).
  destruct (load_map_ok _ _ _ _ Hmem fs d1 Hinv1) as (d2 & -> & Hd2 & Hc2). rewrite bind_Ok, Hc1.
  rewrite Hc1 in Hc2. destruct (fs_map _ _ Hfs) as [Hbw Hbn].
  destruct (Find_marked _ Hbw) as [(s & b1 & -> & Hsv & Hsn & _ & Hb1 & Hn1 & Hm1)|[-> Hfull]]; rewrite bind_Ok.
  2:{ change (-1 =? -1) with true. cbv iota. exists false, d2. split; [done|]. apply Hfail; try done.
      intros (_ & _ & Hf). unfold fs_free, free in Hf.
      pose proof (divRoundUp_nonneg size SectorSize ltac:(lia) ltac:(done)). lia. }
  assert (valid_sector s) as Hs by (apply (valid_bit_sector (free_map fs (contents d))); done).
  destruct (Z.eqb_spec s (-1)) as [->|_]; [by destruct Hs|].
  assert (free b1 = fs_free fs (contents d) - 1) as Hf1.
  { rewrite (free_change (free_map fs (contents d)) b1 [s]); [done|done|apply NoDup_singleton| |].
    - intros x ->%list_elem_of_singleton. done.
    - rewrite Hm1. set_solver. }
  destruct (Add_spec _ name s Hdir) as (added & dir' & -> & Hdir' & Hts & Hadd).
  { destruct Hs. unfold NumSectors, SectorsPerTrack, NumTracks in *. word_lia. }
  rewrite bind_Ok. destruct added; cbn [negb].
  2:{ exists false, d2. split; [done|]. apply Hfail; try done. intros (_ & Hlt & _).
      destruct Hadd as [_ [?|Hfull]]; [done|]. change (tableSize _) with NumDirEntries in Hfull.
      unfold files in Hlt. lia. }
  destruct Hadd as (_ & Hlt & HP). destruct (mem_header _ _ _ _ Hmem) as [Hhl Hhi].
  assert (wf_map b1) as Hwb1 by (split; [done|congruence]).
  pose proof (Allocate_spec new_header b1 size Hwb1 ltac:(lia) Hhl Hhi) as HA. fold need in HA.
  cbv zeta in HA. destruct (Z.ltb_spec (free b1) need) as [Hlow|Henough].
  { rewrite HA, bind_Ok. exists false, d2. split; [done|]. apply Hfail; try done. lia. }
  destruct HA as (h & b2 & -> & Hh & Hb2 & Hnb & Hns & Hnew & Hm2).
  { pose proof (divRoundUp_spec size SectorSize ltac:(lia) ltac:(done)) as Hr. fold need in Hr.
    unfold MaxFileSize, SectorSize in *. lia. }
  rewrite bind_Ok. cbn [negb].
  destruct (create_commit fs d d2 name s h dir' b1 b2) as (d4 & -> & Hinv' & Hv & Hf & Hop);
    try assumption.
  exists true, d4. split; [reflexivity|]. split; [|exact Hop]. split; [exact Hinv'|]. split_and!.
  - intros Hx. apply Hvn in Hx; [exact (Hnm Hx)|exact Hfs].
  - exact Hlt.
  - unfold fs_free in *. lia.
  - eexists. split; [|exact Hv]. rewrite zlen_file_data; [exact Hnb| |exact Hh].
    apply store_wf_contents, Hinv'.
  - rewrite Hf, Hns, Hf1. unfold need. lia.
Qed.

(** The files, with one of them first. *)
Lemma owned_cons fs c f keep :
  files fs c ≡ₚ f :: keep ->
  owned fs c ≡ₚ file_sectors c f ++ FreeMapSector :: DirectorySector ::
    blocks (map_hdr fs) ++ blocks (dir_hdr fs) ++ concat (file_sectors c <$> keep).
Proof.
  intros HP. unfold owned. rewrite (concat_fmap_perm (file_sectors c) _ _ HP).
  cbn [fmap list_fmap concat].
  change (FreeMapSector :: DirectorySector :: ?l) with ([FreeMapSector; DirectorySector] ++ l).
  solve_Permutation.
Qed.

Lemma find_file fs c n s :
  fs_wf fs c -> (n, s) ∈ files fs c ->
  valid_sector s /\ wf_hdr (header_at c s) /\ exists keep, files fs c ≡ₚ (n, s) :: keep.
Proof.
  intros Hfs Hin. pose proof (fs_headers _ _ Hfs) as HF. rewrite Forall_forall in HF.
  destruct (HF _ Hin) as [Hs Hh]. split_and!; [exact Hs|exact Hh|].
  apply elem_of_Permutation in Hin as [keep HP]. by exists keep.
Qed.

Lemma keep_agree fs c c' f keep (P : Z -> Prop) :
  fs_wf fs c -> files fs c ≡ₚ f :: keep ->
  (forall s, P s -> s ∈ file_sectors c f \/ s ∈ blocks (map_hdr fs) ++ blocks (dir_hdr fs)) ->
  agree (fun s => ~ P s) c c' ->
  agree (fun s => s ∈ FreeMapSector :: DirectorySector :: concat (file_sectors c <$> keep)) c c'.
Proof.
  intros Hfs HP HP1 Ha s Hs. apply Ha. intros Hp.
  pose proof (fs_owned _ _ Hfs) as Ho. rewrite (owned_cons _ _ _ _ HP) in Ho.
  apply HP1 in Hp as [Hp|Hp].
  - apply NoDup_app in Ho as (_ & Ho & _). apply (Ho s Hp).
    rewrite !elem_of_cons, !elem_of_app in *. tauto.
  - eapply (owned_apart fs c s Hfs); [|exact Hp].
    rewrite !elem_of_cons in *. destruct Hs as [?|[?|?]]; [tauto|tauto|].
    right; right. rewrite (concat_fmap_perm (file_sectors c) _ _ HP).
    cbn [fmap list_fmap concat]. apply elem_of_app. by right.
Qed.

Lemma view_cons fs c n s keep :
  fs_wf fs c -> files fs c ≡ₚ (n, s) :: keep ->
  view fs c = <[n := file_data c (header_at c s)]> (view_of c keep) /\ n ∉ dom (view_of c keep).
Proof.
  intros Hfs HP. pose proof (dir_names _ (fs_dir _ _ Hfs)) as Hnd.
  change (live (table (directory fs c))) with (files fs c) in Hnd.
  split; [by rewrite (view_perm _ _ _ Hnd HP)|].
  rewrite view_dom. rewrite HP in Hnd. cbn [fmap list_fmap fst] in Hnd.
  by apply NoDup_cons in Hnd as [? _].
Qed.

Lemma same_file fs c n s s' : fs_wf fs c -> (n, s) ∈ files fs c -> (n, s') ∈ files fs c -> s = s'.
Proof.
  intros Hfs H1 H2. pose proof (fs_dir _ _ Hfs) as Hd.
  pose proof (dir_map_lookup _ _ _ Hd H1). pose proof (dir_map_lookup _ _ _ Hd H2). congruence.
Qed.

(** The change a successful Remove makes. *)
Lemma remove_change fs c c' n s keep dir b :
  fs_wf fs c -> files fs c ≡ₚ (n, s) :: keep -> wf_dir dir -> live (table dir) ≡ₚ keep ->
  wf_map b -> marked b = marked (free_map fs c) ∖ list_to_set (file_sectors c (n, s)) ->
  directory fs c' = dir -> free_map fs c' = b ->
  agree (fun t => t ∉ blocks (map_hdr fs) ++ blocks (dir_hdr fs)) c c' ->
  change fs c c' [(n, s)] [] keep.
Proof.
  intros Hfs HP Hdir HPd Hb Hm Ed Em Ha. pose proof (owned_cons _ _ _ _ HP) as Hown.
  pose proof (fs_owned _ _ Hfs) as Ho. rewrite Hown in Ho. apply NoDup_app in Ho as (_ & Hd & Hr).
  split; cbn [fmap list_fmap concat app]; try (rewrite ?Ed, ?Em; assumption).
  - refine (keep_agree fs c c' (n, s) keep
      (fun t => t ∈ blocks (map_hdr fs) ++ blocks (dir_hdr fs)) Hfs HP _ Ha). auto.
  - unfold files. rewrite Ed. exact HPd.
  - constructor.
  - intros x. rewrite Em, Hm, (fs_marked _ _ Hfs).
    rewrite elem_of_difference, !elem_of_list_to_set, Hown, elem_of_app.
    split; [tauto|]. intros Hx. split; [by right|]. intros Hx'. exact (Hd x Hx' Hx).
Qed.

Lemma Remove_files_spec fs name d :
  fs_inv fs d ->
  exists b d', Remove new_char new_words new_table fs name d = Ok (b, d') /\ fs_inv fs d' /\
    b = bool_decide (fname name ∈ dom (view fs (contents d))) /\
    view fs (contents d') = delete (fname name) (view fs (contents d)) /\
    (b = false -> contents d' = contents d) /\
    (forall s, (fname name, s) ∈ files fs (contents d) ->
       fs_free fs (contents d') =
       fs_free fs (contents d) + 1 + numSectors (header_at (contents d) s)) /\
    (forall n f, n <> fname name -> open_as fs (contents d) n f -> open_as fs (contents d') n f).
Proof.
  intros Hinv. pose proof Hinv as [Hd Hfs]. unfold Remove.
  destruct (load_directory_ok _ _ _ _ Hmem fs d Hinv) as (d1 & -> & Hd1 & Hc1). rewrite bind_Ok.
  pose proof (fs_dir _ _ Hfs) as Hdir.
  destruct (dir_Find_spec _ name Hdir) as [[-> Hnm]|(s & -> & Hin)]; rewrite bind_Ok.
  { change (-1 =? -1) with true. cbv iota. exists false, d1. split; [done|].
    assert (fname name ∉ dom (view fs (contents d))) as Hnv by (intros Hx; apply view_name in Hx; done).
    split; [split; [done|by rewrite Hc1]|]. rewrite bool_decide_false, Hc1 by done.
    split_and!; try done; [by rewrite delete_id by by apply not_elem_of_dom|].
    intros s Hs. exfalso. apply Hnm. by apply (list_elem_of_fmap_2 fst) in Hs. }
  change ((fname name, s) ∈ files fs (contents d)) in Hin.
  destruct (find_file _ _ _ _ Hfs Hin) as (Hs & Hh & keep & HP).
  destruct (Z.eqb_spec s (-1)) as [->|_]; [by destruct Hs|].
  destruct (read_header s d1 Hd1 Hs) as (d2 & -> & Hd2 & Hc2). rewrite bind_Ok, Hc1 in *.
  assert (fs_inv fs d2) as Hinv2 by (split; [done|by rewrite Hc2]).
  destruct (load_map_ok _ _ _ _ Hmem fs d2 Hinv2) as (d3 & -> & Hd3 & Hc3). rewrite bind_Ok, Hc2 in *.
  pose proof (owned_cons _ _ _ _ HP) as Hown. pose proof (fs_owned _ _ Hfs) as Ho.
  rewrite Hown in Ho. apply NoDup_app in Ho as (Hsnd & _ & _). set (h := header_at (contents d) s) in *.
  assert (forall x, x ∈ s :: blocks h -> x ∈ marked (free_map fs (contents d))) as Hin_m.
  { intros x Hx. rewrite (fs_marked _ _ Hfs), elem_of_list_to_set, Hown. apply elem_of_app. by left. }
  destruct (Deallocate_spec h (free_map fs (contents d)) Hh (fs_map _ _ Hfs)) as (b1 & -> & Hb1 & Hm1).
  { intros x Hx. apply Hin_m. by right. }
  rewrite bind_Ok.
  destruct (Clear_marked b1 s (proj1 Hb1)) as (b2 & -> & Hb2 & Hn2 & Hm2); [by apply valid_bit_sector|].
  rewrite bind_Ok. assert (wf_map b2) as Hwb2 by (split; [done|rewrite Hn2; apply Hb1]).
  destruct (Directory.Remove_spec _ name Hdir) as (rb & dir' & -> & Hdir' & Hts & Hrm). rewrite bind_Ok.
  destruct rb; [|exfalso; destruct Hrm as [_ Hrm]; apply Hrm; by apply (list_elem_of_fmap_2 fst) in Hin].
  destruct Hrm as [s' HPd].
  assert (s' = s) as ->.
  { eapply same_file; [exact Hfs| |exact Hin]. unfold files. rewrite HPd. by left. }
  assert (live (table dir') ≡ₚ keep) as HPk.
  { apply (Permutation_cons_inv (a := (fname name, s))). by rewrite <- HPd, <- HP. }
  destruct (store_files _ _ _ _ Hmem fs dir' b2 d3 false Hd3 (fs_wf_files _ _ Hfs) Hdir' Hts Hwb2) as
    (d4 & E4 & Hd4 & Ed & Em & Ha4). cbv iota in E4. apply bind_inv in E4 as (d5 & -> & E4).
  rewrite bind_Ok, E4, bind_Ok, Hc3 in *. exists true, d4. split; [done|].
  assert (marked b2 = marked (free_map fs (contents d)) ∖ list_to_set (s :: blocks h)) as Hm.
  { rewrite Hm2, Hm1. apply set_eq. intros x. cbn [list_to_set].
    rewrite !elem_of_difference, elem_of_union, elem_of_singleton. tauto. }
  pose proof (remove_change fs _ (contents d4) _ s keep dir' b2 Hfs HP Hdir' HPk Hwb2 Hm Ed Em Ha4) as Hch.
  destruct (change_wf _ _ _ _ _ _ Hfs Hch) as [Hfs' Hv].
  destruct (view_cons _ _ _ _ _ Hfs HP) as [Hvc Hvn].
  split; [exact (conj Hd4 Hfs')|]. split_and!; try done.
  - rewrite bool_decide_true; [done|]. rewrite Hvc, dom_insert. set_solver.
  - rewrite Hv, Hvc. unfold view_of at 1. cbn [fmap list_fmap list_to_map foldr].
    rewrite (left_id_L ∅ (∪)). symmetry. apply delete_insert_id. by apply not_elem_of_dom.
  - intros s'' Hin'. rewrite (same_file _ _ _ _ _ Hfs Hin' Hin). fold h.
    unfold fs_free. rewrite Em, (free_release (free_map fs (contents d)) b2 (s :: blocks h)).
    + pose proof (zlen_blocks h Hh) as Hbl. unfold zlen in *. cbn [length]. lia.
    + rewrite Hn2. apply (proj2 Hb1).
    + exact Hsnd.
    + exact Hin_m.
    + exact Hm.
  - intros n f Hn. apply (change_open _ _ _ _ _ _ _ _ Hch). cbn. by rewrite list_elem_of_singleton.
Qed.

Lemma Open_spec fs name d :
  fs_inv fs d ->
  exists r d', Open new_table fs name d = Ok (r, Open_line name, d') /\ store_wf d' /\ contents d' = contents d /\
    match r with
    | Some f => open_as fs (contents d) (fname name) f /\ seekPosition f = 0
    | None => fname name ∉ dom (view fs (contents d))
    end.
Proof.
  intros Hinv. pose proof Hinv as [Hd Hfs]. unfold Open.
  destruct (load_directory_ok _ _ _ _ Hmem fs d Hinv) as (d1 & -> & Hd1 & Hc1). rewrite bind_Ok.
  destruct (dir_Find_spec _ name (fs_dir _ _ Hfs)) as [[-> Hnm]|(s & -> & Hin)]; rewrite bind_Ok.
  - change (-1 >=? 0) with false. cbv iota. exists None, d1. split_and!; try done.
    intros Hx. by apply view_name in Hx.
  - destruct (find_file _ _ _ _ Hfs Hin) as (Hs & _). rewrite Z.geb_leb.
    destruct (Z.leb_spec 0 s); [|destruct Hs; lia]. unfold new_OpenFile.
    destruct (read_header s d1 Hd1 Hs) as (d2 & -> & Hd2 & Hc2). rewrite !bind_Ok, Hc1 in *.
    eexists (Some _), d2. split_and!; [reflexivity|done|done| |done]. by exists s.
Qed.

Lemma open_as_view fs c n f :
  fs_wf fs c -> open_as fs c n f ->
  wf_hdr (hdr f) /\ view fs c !! n = Some (file_data c (hdr f)).
Proof.
  intros Hfs (s & Hin & ->). destruct (find_file _ _ _ _ Hfs Hin) as (_ & Hh & keep & HP).
  split; [exact Hh|]. rewrite (proj1 (view_cons _ _ _ _ _ Hfs HP)). apply lookup_insert_eq.
Qed.

(** The change a write through an open file makes. *)
Lemma write_change fs c c' n s keep :
  fs_wf fs c -> files fs c ≡ₚ (n, s) :: keep ->
  agree (fun t => t ∉ blocks (header_at c s)) c c' ->
  free_map fs c' = free_map fs c /\ header_at c' s = header_at c s /\
  change fs c c' [(n, s)] [(n, s)] keep.
Proof.
  intros Hfs HP Ha. set (h := header_at c s) in *.
  pose proof (owned_cons _ _ _ _ HP) as Hown.
  pose proof (fs_owned _ _ Hfs) as Ho. rewrite Hown in Ho. pose proof Ho as Ho'.
  apply NoDup_app in Ho as (Hsd & Hd & Hr). unfold file_sectors in Hsd. cbn [snd] in Hsd. fold h in Hsd.
  apply NoDup_cons in Hsd as [Hs Hnd].
  assert (forall x, x ∈ blocks (map_hdr fs) ++ blocks (dir_hdr fs) -> x ∉ blocks h) as Happ.
  { intros x Hx Hb. apply (Hd x); [by right|]. rewrite !elem_of_cons, !elem_of_app in *. tauto. }
  assert (free_map fs c' = free_map fs c) as Em.
  { unfold free_map, stored_map. do 2 f_equal. apply file_data_agree. intros x Hx. apply Ha, Happ.
    apply elem_of_app. by left. }
  assert (directory fs c' = directory fs c) as Ed.
  { unfold directory, stored_table. do 2 f_equal. apply file_data_agree. intros x Hx. apply Ha, Happ.
    apply elem_of_app. by right. }
  assert (header_at c' s = h) as Eh by (apply header_at_agree, Ha, Hs).
  split; [exact Em|]. split; [exact Eh|].
  assert (file_sectors c' (n, s) = file_sectors c (n, s)) as Es by (unfold file_sectors; cbn [snd]; by rewrite Eh).
  destruct (find_file fs c n s Hfs) as (Hsv & Hh & _); [rewrite HP; by left|].
  split; cbn [fmap list_fmap concat]; rewrite ?app_nil_r, ?Es, ?Em, ?Ed; try apply Hfs.
  - exact HP.
  - refine (keep_agree fs c c' (n, s) keep (fun t => t ∈ blocks h) Hfs HP _ Ha).
    intros t Ht. left. by right.
  - unfold files. rewrite Ed. exact HP.
  - apply Forall_singleton. cbn [snd]. by rewrite Eh.
  - exact Ho'.
  - intros x. rewrite (fs_marked _ _ Hfs), elem_of_list_to_set. by rewrite Hown.
Qed.

Lemma write_open_spec fs n f from numBytes position d :
  fs_inv fs d -> open_as fs (contents d) n f ->
  0 <= position -> position < Length f -> 0 < numBytes -> position + numBytes < 2 ^ 31 ->
  let k := transfer (Length f) position numBytes in
  k <= zlen from ->
  exists d' data', WriteAt new_char f from numBytes position d = Ok (k, d') /\ fs_inv fs d' /\
    zwrite (file_data (contents d) (hdr f)) position (take (Z.to_nat k) from) = Ok data' /\
    view fs (contents d') = <[n := data']> (view fs (contents d)) /\
    fs_free fs (contents d') = fs_free fs (contents d) /\ open_as fs (contents d') n f /\
    (forall n' f', open_as fs (contents d) n' f' -> open_as fs (contents d') n' f').
Proof.
  intros [Hd Hfs] (s & Hin & Ef) Hp Hlt Hn Hb k Hk.
  destruct (find_file _ _ _ _ Hfs Hin) as (Hs & Hh & keep & HP). rewrite <- Ef in Hh.
  destruct (WriteAt_ok new_char f from numBytes position d Hh Hd (mem_char _ _ _ _ Hmem) Hp Hlt Hn
    Hb Hk) as (d' & E & Hd' & Hw & Hfr). fold k in E, Hw. rewrite Ef in Hfr.
  destruct (write_change fs _ (contents d') n s keep Hfs HP Hfr) as (Em & Eh & Hch).
  destruct (change_wf _ _ _ _ _ _ Hfs Hch) as [Hfs' Hv].
  destruct (view_cons _ _ _ _ _ Hfs HP) as [Hvc _].
  eexists d', _. split; [exact E|]. split; [exact (conj Hd' Hfs')|]. split; [exact Hw|]. split_and!.
  - rewrite Hv, Hvc, insert_insert_eq. unfold view_of at 1.
    cbn [fmap list_fmap list_to_map foldr fst snd]. rewrite Eh, <- Ef, insert_empty. symmetry.
    apply insert_union_singleton_l.
  - unfold fs_free. by rewrite Em.
  - exists s. split; [|by rewrite Eh]. rewrite (ch_extra _ _ _ _ _ _ Hch). by left.
  - intros n' f' Ho'. destruct (decide (n' = n)) as [->|Hne].
    + destruct Ho' as (s' & Hin' & E'). exists s'. rewrite (same_file _ _ _ _ _ Hfs Hin' Hin) in *. split; [|by rewrite Eh].
      rewrite (ch_extra _ _ _ _ _ _ Hch). by left.
    + apply (change_open _ _ _ _ _ _ _ _ Hch); [|exact Ho']. cbn. by rewrite list_elem_of_singleton.
Qed.

(** ** Formatting *)

Lemma format_allocates :
  exists b0 b1 b2 mh b3 dh b4, new_BitMap new_words NumSectors = Ok b0 /\
    Mark b0 FreeMapSector = Ok b1 /\ Mark b1 DirectorySector = Ok b2 /\
    Allocate new_header b2 FreeMapFileSize = Ok (true, (mh, b3)) /\
    Allocate new_header b3 DirectoryFileSize = Ok (true, (dh, b4)) /\
    wf_hdr mh /\ numBytes mh = FreeMapFileSize /\ wf_hdr dh /\ numBytes dh = DirectoryFileSize /\
    wf_map b4 /\ NoDup (FreeMapSector :: DirectorySector :: blocks mh ++ blocks dh) /\
    marked b4 = list_to_set (FreeMapSector :: DirectorySector :: blocks mh ++ blocks dh) /\
    free b4 = 1019.
Proof.
  destruct (new_map_ok _ _ _ _ Hmem) as (b0 & E0 & Hb0 & Hm0).
  destruct (mem_header _ _ _ _ Hmem) as [Hhl Hhi].
  destruct (Mark_marked b0 0 (proj1 Hb0)) as (b1 & E1 & Hb1 & Hn1 & Hm1);
    [by apply valid_bit_sector|].
  assert (wf_map b1) as Hw1 by (split; [done|rewrite Hn1; apply Hb0]).
  destruct (Mark_marked b1 1 Hb1) as (b2 & E2 & Hb2 & Hn2 & Hm2); [by apply valid_bit_sector|].
  assert (wf_map b2) as Hw2 by (split; [done|rewrite Hn2; apply Hw1]).
  assert (marked b2 = list_to_set [FreeMapSector; DirectorySector]) as Hm02.
  { rewrite Hm2, Hm1, Hm0. set_solver. }
  assert (free b2 = 1022) as Hf2.
  { unfold free. rewrite Hm02, (proj2 Hw2). reflexivity. }
  pose proof (Allocate_spec new_header b2 FreeMapFileSize Hw2 ltac:(done) Hhl Hhi) as HA.
  cbv zeta in HA. rewrite Hf2 in HA.
  destruct (HA ltac:(done)) as (mh & b3 & E3 & Hmh & Hw3 & Hmb & Hms & Hmnew & Hm3). clear HA.
  assert (free b3 = 1021) as Hf3.
  { rewrite (free_change b2 b3 (blocks mh)), Hf2, (zlen_blocks mh Hmh), Hms; try done.
    - rewrite (proj2 Hw3). symmetry. apply (proj2 Hw2).
    - apply Hmh. }
  pose proof (Allocate_spec new_header b3 DirectoryFileSize Hw3 ltac:(done) Hhl Hhi) as HA.
  cbv zeta in HA. rewrite Hf3 in HA.
  destruct (HA ltac:(done)) as (dh & b4 & E4 & Hdh & Hw4 & Hdb & Hds & Hdnew & Hm4). clear HA.
  exists b0, b1, b2, mh, b3, dh, b4. split_and!; try assumption.
  - change (FreeMapSector :: DirectorySector :: blocks mh ++ blocks dh) with
      ([FreeMapSector; DirectorySector] ++ blocks mh ++ blocks dh).
    rewrite !NoDup_app. split_and!; [by apply (bool_decide_unpack _)| |apply Hmh| |apply Hdh].
    + intros x Hx Hin. apply elem_of_app in Hin as [Hin|Hin].
      * apply Hmnew in Hin. apply Hin. by rewrite Hm02, elem_of_list_to_set.
      * apply Hdnew in Hin. apply Hin. rewrite Hm3, Hm02. by apply elem_of_union_r, elem_of_list_to_set.
    + intros x Hx Hin. apply Hdnew in Hin. apply Hin. rewrite Hm3.
      by apply elem_of_union_l, elem_of_list_to_set.
  - rewrite Hm4, Hm3, Hm02. apply set_eq. intros x.
    rewrite !elem_of_union, !elem_of_list_to_set, !elem_of_cons, elem_of_app.
    rewrite elem_of_nil. tauto.
  - rewrite (free_change b3 b4 (blocks dh)), Hf3, (zlen_blocks dh Hdh), Hds; try done.
    + rewrite (proj2 Hw4). symmetry. apply (proj2 Hw3).
    + apply Hdh.
Qed.
End operations.

Section formatting.
Context {D : Type} `{SectorStoreLaws D}.
Context (new_char : Z -> list Z) (new_words : list Z) (new_table : list DirectoryEntry)
        (new_header : FileHeader) (Hmem : wf_memory new_char new_words new_table new_header).
Implicit Types (d : D) (fs : FileSystem).

(** A file system with no files, from its two headers on disk. *)
Lemma empty_fs_wf fs (c : list (list Z)) :
  wf_map_file (freeMapFile fs) -> wf_hdr (dir_hdr fs) -> numBytes (dir_hdr fs) = DirectoryFileSize ->
  header_at c FreeMapSector = map_hdr fs -> header_at c DirectorySector = dir_hdr fs ->
  seekPosition (freeMapFile fs) = 0 -> seekPosition (directoryFile fs) = 0 ->
  wf_map (free_map fs c) -> wf_dir (directory fs c) -> files fs c = [] ->
  let l := FreeMapSector :: DirectorySector :: blocks (map_hdr fs) ++ blocks (dir_hdr fs) in
  NoDup l -> marked (free_map fs c) = list_to_set l ->
  fs_wf fs c /\ view fs c = ∅.
Proof.
  intros Hmf Hdh Hdb Emh Edh S1 S2 Hm Hd Hf l Hnd Hml.
  assert (owned fs c = l) as Ho by (unfold owned; rewrite Hf; cbn; by rewrite app_nil_r).
  split; [|unfold view; by rewrite Hf].
  split; try assumption; [by split|by rewrite Hf|by rewrite Ho|by rewrite Ho].
Qed.

Lemma format_spec d :
  store_wf d ->
  exists fs d', format new_char new_words new_table new_header d = Ok (fs, d') /\ fs_inv fs d' /\
    view fs (contents d') = ∅ /\ fs_free fs (contents d') = 1019.
Proof.
  intros Hd.
  destruct (format_allocates _ _ _ _ Hmem) as (b0 & b1 & b2 & mh & b3 & dh & b4 & E0 & E1 & E2 &
    E3 & E4 & Hmh & Hmb & Hdh & Hdb & Hb4 & Hnd & Hm4 & Hf4).
  destruct (mem_table _ _ _ _ Hmem) as [Htl Hte].
  destruct (new_Directory_ok new_table Htl Hte) as (dir & Edir & Hdir & Hts & Hlive).
  unfold format. rewrite E0, bind_Ok, Edir, bind_Ok, E1, bind_Ok, E2, bind_Ok, E3, bind_Ok.
  cbn [ASSERT]. rewrite bind_Ok, E4, bind_Ok. cbn [ASSERT]. rewrite bind_Ok.
  destruct (write_header mh FreeMapSector d Hd ltac:(done) Hmh) as (d1 & -> & Hd1 & Ea1 & Ha1).
  rewrite bind_Ok.
  destruct (write_header dh DirectorySector d1 Hd1 ltac:(done) Hdh) as (d2 & -> & Hd2 & Ea2 & Ha2).
  rewrite bind_Ok. unfold new_OpenFile.
  destruct (read_header FreeMapSector d2 Hd2 ltac:(done)) as (d3 & -> & Hd3 & Hc3). rewrite !bind_Ok.
  destruct (read_header DirectorySector d3 Hd3 ltac:(done)) as (d4 & -> & Hd4 & Hc4).
  rewrite !bind_Ok, Hc3, Ea2.
  assert (header_at (contents d2) FreeMapSector = mh) as ->.
  { rewrite <- Ea1. apply header_at_agree, Ha2. done. }
  set (fs := mkFileSystem (mkOpenFile mh 0) (mkOpenFile dh 0)).
  apply NoDup_cons in Hnd as Hn0. destruct Hn0 as [Hn0 Hn1]. apply NoDup_cons in Hn1 as [Hn1 Hn2].
  apply NoDup_app in Hn2 as (_ & Hdisj & _).
  assert (wf_files fs) as Hff.
  { split; [by split| |exact Hdisj].
    split; [exact Hdh|done|]. unfold Length, FileLength. cbn [hdr fs directoryFile]. by rewrite Hdb. }
  destruct (store_files _ _ _ _ Hmem fs dir b4 d4 false Hd4 Hff Hdir Hts Hb4) as
    (d6 & E6 & Hd6 & Ed & Em & Ha6). cbv iota in E6. apply bind_inv in E6 as (d5 & E5 & E6).
  change (freeMapFile fs) with (mkOpenFile mh 0) in E5. change (directoryFile fs) with (mkOpenFile dh 0) in E6.
  rewrite E5, bind_Ok, E6, bind_Ok. exists fs, d6. split; [done|].
  unfold fs_inv, fs_free. rewrite Em.
  destruct (empty_fs_wf fs (contents d6)) as [Hwf Hv]; try (rewrite ?Em, ?Ed; assumption || done).
  - change (map_hdr fs) with mh. rewrite <- Ea1. apply header_at_agree.
    rewrite Ha6, Hc4, Hc3; [by apply Ha2|]. intros Hx. apply Hn0. by right.
  - change (dir_hdr fs) with dh. rewrite <- Ea2. apply header_at_agree. rewrite Ha6, Hc4, Hc3; done.
  - unfold files. by rewrite Ed.
Qed.
End formatting.

(** [FileSystem(FALSE)] on a disk with a file system opens it. *)
Lemma reopen_spec {D} `{SectorStoreLaws D} new_char new_words new_table new_header fs (d : D) :
  fs_inv fs d ->
  exists d', new_FileSystem new_char new_words new_table new_header false d = Ok (fs, d') /\
    fs_inv fs d' /\ contents d' = contents d.
Proof.
  intros [Hd' Hfs]. unfold new_FileSystem, new_OpenFile.
  destruct (read_header FreeMapSector d Hd' ltac:(done)) as (d1 & E1 & Hd1 & Hc1).
  destruct (read_header DirectorySector d1 Hd1 ltac:(done)) as (d2 & E2 & Hd2 & Hc2).
  exists d2. rewrite E1, !bind_Ok, E2, !bind_Ok, Hc1, (fs_map_hdr _ _ Hfs), (fs_dir_hdr _ _ Hfs).
  assert (contents d2 = contents d) as Hc by congruence. split; [|split; [split; [done|by rewrite Hc]|done]].
  destruct (fs_seek _ _ Hfs) as [S1 S2].
  unfold mret, res_ret, map_hdr, dir_hdr. destruct fs as [[mh p] [dh q]]. simpl in *. by subst.
Qed.

(** ** Properties *)

(** C26: formatting.  On any disk, FileSystem(TRUE) leaves an empty file system:
    no files, the two headers and the three data sectors of the bit map and the
    directory in use and the other 1019 sectors free; FileSystem(FALSE) on that
    disk opens the same file system. *)
Theorem format_correct {D} `{SectorStoreLaws D} new_char new_words new_table new_header (d : D) :
  wf_memory new_char new_words new_table new_header -> store_wf d ->
  exists fs d', new_FileSystem new_char new_words new_table new_header true d = Ok (fs, d') /\
    fs_inv fs d' /\ view fs (contents d') = ∅ /\ fs_free fs (contents d') = 1019 /\
    exists d'', new_FileSystem new_char new_words new_table new_header false d' = Ok (fs, d'') /\
      contents d'' = contents d'.
Proof.
  intros Hmem Hd.
  destruct (format_spec _ _ _ _ Hmem d Hd) as (fs & d' & E & Hinv & Hv & Hf).
  destruct (reopen_spec new_char new_words new_table new_header _ _ Hinv) as (d2 & E2 & _ & Hc2). exists fs, d'. split_and!; try done. by exists d2.
Qed.

(** C14: creating a file.  For a size of at most MaxFileSize, Create succeeds
    exactly when no file has that name, the directory has a free entry and one
    sector for the header and enough for the data are free; the new file has the
    requested length, all other files keep their contents, and exactly those
    sectors are taken.  Otherwise it returns FALSE and the disk is unchanged.  In
    both cases the file system stays consistent. *)
Theorem Create_correct {D} `{SectorStoreLaws D} new_char new_words new_table new_header
    fs name size (d : D) :
  wf_memory new_char new_words new_table new_header -> fs_inv fs d -> 0 <= size <= MaxFileSize ->
  let need := divRoundUp size SectorSize in
  let fits := fname name ∉ dom (view fs (contents d)) /\
    zlen (files fs (contents d)) < NumDirEntries /\ 1 + need <= fs_free fs (contents d) in
  exists b d', Create new_char new_words new_table new_header fs name size d = Ok (b, d') /\
    fs_inv fs d' /\
    if b then fits /\
      (exists bytes, zlen bytes = size /\
        view fs (contents d') = <[fname name := bytes]> (view fs (contents d))) /\
      fs_free fs (contents d') = fs_free fs (contents d) - (1 + need)
    else ~ fits /\ contents d' = contents d.
Proof.
  intros Hmem Hinv Hs need fits. destruct (Create_spec _ _ _ _ Hmem fs name size d Hinv Hs) as (b & d' & E & Hp & _).
  exists b, d'. exact (conj E Hp).
Qed.

(** C15: removing a file.  Remove returns whether a file has that name; if so the
    file disappears, every other file keeps its contents, and the sectors freed
    are exactly the file's header and its data; if not nothing changes.  The
    file system stays consistent. *)
Theorem Remove_correct {D} `{SectorStoreLaws D} new_char new_words new_table new_header
    fs name (d : D) :
  wf_memory new_char new_words new_table new_header -> fs_inv fs d ->
  exists b d', Remove new_char new_words new_table fs name d = Ok (b, d') /\ fs_inv fs d' /\
    b = bool_decide (fname name ∈ dom (view fs (contents d))) /\
    view fs (contents d') = delete (fname name) (view fs (contents d)) /\
    (b = false -> contents d' = contents d) /\
    (forall s, (fname name, s) ∈ files fs (contents d) ->
       fs_free fs (contents d') =
       fs_free fs (contents d) + 1 + numSectors (header_at (contents d) s)).
Proof.
  intros Hmem Hinv. destruct (Remove_files_spec _ _ _ _ Hmem fs name d Hinv) as (b & d' & E & Hi & Hb & Hv & Hn & Hf & _).
  by exists b, d'.
Qed.

(** C16: opening and writing a file.  Open prints its line with the name, and
    returns NULL exactly when no file has the name, and otherwise a file positioned at 0 whose bytes are the contents
    of that name; it changes nothing on disk.  A write through that open file
    changes the bytes of that file at that place, and no other file, name or free
    sector. *)
Theorem Open_Write_correct {D} `{SectorStoreLaws D} new_char new_words new_table new_header
    fs name from numBytes position (d : D) :
  wf_memory new_char new_words new_table new_header -> fs_inv fs d ->
  0 <= position -> 0 < numBytes -> position + numBytes < 2 ^ 31 -> numBytes <= zlen from ->
  exists r d1, Open new_table fs name d = Ok (r, Open_line name, d1) /\ contents d1 = contents d /\
    match r with
    | None => fname name ∉ dom (view fs (contents d))
    | Some f =>
        let bytes := file_data (contents d) (hdr f) in
        view fs (contents d) !! fname name = Some bytes /\ seekPosition f = 0 /\
        zlen bytes = Length f /\
        (position < Length f ->
         let k := transfer (Length f) position numBytes in
         exists d' bytes', WriteAt new_char f from numBytes position d1 = Ok (k, d') /\
           fs_inv fs d' /\ zwrite bytes position (take (Z.to_nat k) from) = Ok bytes' /\
           view fs (contents d') = <[fname name := bytes']> (view fs (contents d)) /\
           fs_free fs (contents d') = fs_free fs (contents d))
    end.
Proof.
  intros Hmem Hinv Hp Hn Hb Hk. pose proof Hinv as [Hd Hfs].
  destruct (Open_spec _ _ _ _ Hmem fs name d Hinv) as (r & d1 & E & Hd1 & Hc1 & Hr).
  exists r, d1. split_and!; try done. destruct r as [f|]; [|exact Hr]. destruct Hr as [Ho Hs].
  destruct (open_as_view _ _ _ _ Hfs Ho) as [Hh Hv].
  split_and!; try done; [by apply zlen_file_data; [apply store_wf_contents|]|].
  intros Hlt k. rewrite <- Hc1 in Ho |- *.
  destruct (write_open_spec _ _ _ _ Hmem fs (fname name) f from numBytes position d1) as
    (d' & data' & E' & Hinv' & Hw & Hv' & Hf & _); try done.
  - split; [done|by rewrite Hc1].
  - unfold transfer. lia.
  - by exists d', data'.
Qed.

(** ** Histories *)

Section histories.
Context {D : Type} `{SectorStoreLaws D}.
Context (new_char : Z -> list Z) (new_words : list Z) (new_table : list DirectoryEntry)
        (new_header : FileHeader).

(** One call of a user of the file system, who holds open files [hs], each with
    the name it was opened under.  Create is called with a size that a file can
    have; a file is read and written at any position that is not negative, as long
    as it has not been removed, from a buffer that holds what is written. *)
Inductive fs_step (fs : FileSystem) : D * list (list Z * OpenFile) -> D * list (list Z * OpenFile) -> Prop :=
  | step_create name size b d d' hs :
      0 <= size <= MaxFileSize ->
      Create new_char new_words new_table new_header fs name size d = Ok (b, d') ->
      fs_step fs (d, hs) (d', hs)
  | step_remove name b d d' hs :
      Remove new_char new_words new_table fs name d = Ok (b, d') ->
      fs_step fs (d, hs) (d', List.filter (fun h => bool_decide (h.1 <> fname name)) hs)
  | step_open name r out d d' hs :
      Open new_table fs name d = Ok (r, out, d') ->
      fs_step fs (d, hs) (d', match r with Some f => (fname name, f) :: hs | None => hs end)
  | step_read n f into numBytes position d d' hs :
      (n, f) ∈ hs -> 0 <= position -> position + numBytes < 2 ^ 31 ->
      ReadAt f numBytes position d = Ok (into, d') -> fs_step fs (d, hs) (d', hs)
  | step_write n f from numBytes position k d d' hs :
      (n, f) ∈ hs -> 0 <= position -> position + numBytes < 2 ^ 31 -> numBytes <= zlen from ->
      WriteAt new_char f from numBytes position d = Ok (k, d') -> fs_step fs (d, hs) (d', hs).

(** The file system is consistent, and each handle is the file of its name. *)
Definition user_inv fs (u : D * list (list Z * OpenFile)) : Prop :=
  fs_inv fs u.1 /\ Forall (fun h => open_as fs (contents u.1) h.1 h.2) u.2.

Lemma handles_mono fs c c' (hs : list (list Z * OpenFile)) :
  (forall n f, open_as fs c n f -> open_as fs c' n f) ->
  Forall (fun h => open_as fs c h.1 h.2) hs -> Forall (fun h => open_as fs c' h.1 h.2) hs.
Proof. intros Hi HF. eapply Forall_impl; [exact HF|]. intros h. apply Hi. Qed.

Lemma fs_step_inv fs u u' :
  wf_memory new_char new_words new_table new_header -> user_inv fs u -> fs_step fs u u' -> user_inv fs u'.
Proof.
  intros Hmem Hu Hstep. pose proof (fun h => proj1 (Forall_forall _ _) (proj2 Hu) h) as Hh.
  destruct Hstep as [name size b d d' hs Hs E|name b d d' hs E|name r out d d' hs E|
    n f into numBytes position d d' hs Hin Hp Hb E|n f from numBytes position k d d' hs Hin Hp Hb Hk E];
    destruct Hu as [Hinv Hhs]; cbn [fst snd] in *.
  - destruct (Create_spec _ _ _ _ Hmem fs name size d Hinv Hs) as (b' & d2 & E2 & [Hi _] & Ho).
    rewrite E in E2. injection E2 as <- <-. split; [exact Hi|]. exact (handles_mono _ _ _ _ Ho Hhs).
  - destruct (Remove_files_spec _ _ _ _ Hmem fs name d Hinv) as (b' & d2 & E2 & Hi & _ & _ & _ & _ & Ho).
    rewrite E in E2. injection E2 as <- <-. split; [exact Hi|]. apply Forall_forall. intros h Hf.
    apply list_elem_of_In, filter_In in Hf as [Hf Hn]. apply bool_decide_eq_true in Hn.
    apply Ho; [exact Hn|]. apply Hh. by apply list_elem_of_In.
  - destruct (Open_spec _ _ _ _ Hmem fs name d Hinv) as (r2 & d2 & E2 & Hd2 & Hc2 & Hr).
    rewrite E in E2. injection E2 as <- _ <-. split; cbn [fst snd]; [split; [done|by rewrite Hc2; apply Hinv]|].
    rewrite Hc2. destruct r as [f|]; [|done]. constructor; [apply Hr|done].
  - assert (store_wf d' /\ contents d' = contents d) as [Hd' Hc'].
    { destruct (open_as_view _ _ _ _ (proj2 Hinv) (Hh _ Hin)) as [Hw _]. revert E. unfold ReadAt.
      destruct ((numBytes <=? 0) || (position >=? FileLength (hdr f))) eqn:Eb; [intros [= _ <-]; split; [apply Hinv|done]|].
      rewrite orb_false_iff, Z.geb_leb, !Z.leb_gt in Eb. intros E.
      destruct (ReadAt_ok f numBytes position d Hw (proj1 Hinv)) as (d2 & E2 & Hd2 & Hc2); try (unfold Length; lia).
      unfold ReadAt in E2. rewrite (proj2 (Z.leb_gt _ _)), Z.geb_leb, (proj2 (Z.leb_gt _ _)) in E2 by lia. cbn [orb] in E2.
      rewrite E in E2. injection E2 as _ ->. done. }
    split; cbn [fst snd]; [split; [done|by rewrite Hc'; apply Hinv]|by rewrite Hc'].
  - destruct (decide (0 < numBytes /\ position < Length f)) as [[Hn Hl]|Hno].
    + destruct (write_open_spec _ _ _ _ Hmem fs n f from numBytes position d Hinv (Hh _ Hin)) as
        (d2 & data' & E2 & Hi & _ & _ & _ & _ & Ho); try lia; [unfold transfer; lia|].
      rewrite E in E2. injection E2 as _ ->. split; [exact Hi|]. exact (handles_mono _ _ _ _ Ho Hhs).
    + revert E. unfold WriteAt. assert ((numBytes <=? 0) || (position >=? FileLength (hdr f)) = true) as ->.
      { rewrite orb_true_iff, Z.geb_leb, !Z.leb_le. unfold Length in Hno. lia. }
      intros [= _ <-]. by split.
Qed.
End histories.

(** C1: no history corrupts the disk.  After formatting, let Create (of sizes up to
    MaxFileSize), Remove, Open and reads and writes through any of the files opened
    so far and not removed since, at positions that are not negative and whose end is
    an int, writes from buffers that hold what is written, follow in any order, calls
    that fail included.  Then the sectors of the two system files and of
    all files (headers and data) are pairwise distinct, the bit map on disk marks
    exactly these, no two files have the same name, and every file held open is
    still the file of its name.  Left out are a Create of more than MaxFileSize
    bytes, which runs past the header's table of sectors, and a write through a file
    that has been removed, whose sectors may belong to another file by then. *)
Theorem fs_history_consistent {D} `{SectorStoreLaws D} new_char new_words new_table new_header
    fs (d0 d d' : D) hs :
  wf_memory new_char new_words new_table new_header -> store_wf d0 ->
  new_FileSystem new_char new_words new_table new_header true d0 = Ok (fs, d) ->
  rtc (fs_step new_char new_words new_table new_header fs) (d, []) (d', hs) ->
  NoDup (owned fs (contents d')) /\
  (forall s, s ∈ marked (free_map fs (contents d')) <-> s ∈ owned fs (contents d')) /\
  NoDup (files fs (contents d')).*1 /\
  fs_free fs (contents d') + zlen (owned fs (contents d')) = NumSectors /\
  Forall (fun h => open_as fs (contents d') h.1 h.2) hs.
Proof.
  intros Hmem Hd0 E Hsteps.
  destruct (format_spec _ _ _ _ Hmem d0 Hd0) as (fs' & d1 & E' & Hinv & _).
  cbn [new_FileSystem] in E. rewrite E' in E. injection E as -> ->.
  assert (user_inv fs (d', hs)) as [[_ Hfs] Hhs].
  { assert (user_inv fs (d, [])) as Hu by (split; [exact Hinv|constructor]). clear E' Hinv.
    induction Hsteps as [u|u u1 u2 Hs _ IH]; [exact Hu|]. apply IH. exact (fs_step_inv _ _ _ _ fs u u1 Hmem Hu Hs). }
  pose proof (fs_owned _ _ Hfs) as Ho. cbn [fst snd] in *. split_and!.
  - exact Ho.
  - intros s. by rewrite (fs_marked _ _ Hfs), elem_of_list_to_set.
  - exact (dir_names _ (fs_dir _ _ Hfs)).
  - unfold fs_free, free. rewrite (fs_marked _ _ Hfs), size_list_to_set by exact Ho.
    change (numBits (free_map fs (contents d'))) with NumSectors. unfold zlen. lia.
  - exact Hhs.
Qed.

(** Concrete uninitialised memory, and the file system formatted with it. *)
Definition sample_char (n : Z) : list Z := replicate (Z.to_nat n) 1.
Definition sample_words : list Z := replicate 32 (2 ^ 32 - 1).
Definition sample_table : list DirectoryEntry :=
  replicate 10 (mkEntry true 7 (replicate 10 65) (replicate 5 1)).

Lemma sample_memory : wf_memory sample_char sample_words sample_table blank_header.
Proof.
  split.
  - intros n. unfold sample_char, zlen. rewrite length_replicate. lia.
  - split; [reflexivity|]. apply Forall_replicate. word_lia.
  - split; [reflexivity|]. apply Forall_replicate. split; try reflexivity. cbn. word_lia.
  - exact blank_header_ok.
Qed.

Lemma formats :
  { p : FileSystem * (SynchDisk * sys unit) | format sample_char sample_words sample_table
      blank_header fresh_synch_disk = Ok p }.
Proof.
  pose proof (format_spec _ _ _ _ sample_memory _ fresh_store_wf) as H.
  destruct (format sample_char sample_words sample_table blank_header fresh_synch_disk) as [p|e].
  - by exists p.
  - exfalso. by destruct H as (? & ? & ? & _).
Qed.

Definition formatted : FileSystem * (SynchDisk * sys unit) := proj1_sig formats.

Lemma formatted_eq :
  format sample_char sample_words sample_table blank_header fresh_synch_disk = Ok formatted.
Proof. exact (proj2_sig formats). Qed.

Lemma formatted_pair :
  new_FileSystem sample_char sample_words sample_table blank_header true fresh_synch_disk =
    Ok (formatted.1, formatted.2).
Proof.
  rewrite <- surjective_pairing. unfold new_FileSystem. exact formatted_eq.
Qed.

Lemma formatted_spec :
  fs_inv formatted.1 formatted.2 /\ view formatted.1 (contents formatted.2) = ∅ /\
  fs_free formatted.1 (contents formatted.2) = 1019.
Proof.
  destruct (format_spec _ _ _ _ sample_memory _ fresh_store_wf) as (fs & d' & E & H).
  rewrite formatted_eq in E. apply Ok_inj in E. by rewrite E.
Qed.

Lemma format_correct_witness :
  exists fs d' d'', new_FileSystem sample_char sample_words sample_table blank_header true
      fresh_synch_disk = Ok (fs, d') /\ fs_free fs (contents d') = 1019 /\
    new_FileSystem sample_char sample_words sample_table blank_header false d' = Ok (fs, d'').
Proof.
  destruct (format_correct sample_char sample_words sample_table blank_header fresh_synch_disk
    sample_memory fresh_store_wf) as (fs & d' & E & _ & _ & Hf & d'' & E' & _).
  exists fs, d', d''. split; [exact E|split; [exact Hf|exact E']].
Defined.

(** The name "note". *)
Definition note : list Z := [110; 111; 116; 101].

Lemma formatted_files : files formatted.1 (contents formatted.2) = [].
Proof.
  destruct formatted_spec as (Hinv & Hv & Hf).
  destruct (files formatted.1 (contents formatted.2)) as [|f l] eqn:E; [done|].
  assert (f.1 ∈ dom (view formatted.1 (contents formatted.2))) as Hin.
  { apply (view_name formatted.1 (contents formatted.2)); [apply Hinv|]. rewrite E. by left. }
  by rewrite Hv, dom_empty_L in Hin.
Qed.

(** What Create needs holds for a file of 300 bytes on the formatted disk. *)
Lemma note_fits :
  fname note ∉ dom (view formatted.1 (contents formatted.2)) /\
  zlen (files formatted.1 (contents formatted.2)) < NumDirEntries /\
  1 + divRoundUp 300 SectorSize <= fs_free formatted.1 (contents formatted.2).
Proof.
  destruct formatted_spec as (_ & Hv & Hf). rewrite Hv, Hf, formatted_files, dom_empty_L. done.
Qed.

Lemma note_created :
  exists d' bytes, Create sample_char sample_words sample_table blank_header formatted.1 note 300
      formatted.2 = Ok (true, d') /\ fs_inv formatted.1 d' /\
    zlen bytes = 300 /\ view formatted.1 (contents d') !! fname note = Some bytes /\
    fs_free formatted.1 (contents d') = 1015.
Proof.
  destruct formatted_spec as (Hinv & Hv & Hf).
  destruct (Create_spec _ _ _ _ sample_memory formatted.1 note 300 formatted.2 Hinv) as
    (b & d' & E & [Hinv' H] & _); [done|]. destruct b.
  - destruct H as (_ & (bytes & Hl & Hv') & Hf'). exists d', bytes. split_and!; try assumption.
    + rewrite Hv'. apply lookup_insert_eq.
    + by rewrite Hf', Hf.
  - exfalso. apply (proj1 H), note_fits.
Qed.

Lemma Create_correct_witness :
  exists d', Create sample_char sample_words sample_table blank_header formatted.1 note 300
      formatted.2 = Ok (true, d') /\
    fs_free formatted.1 (contents d') = fs_free formatted.1 (contents formatted.2) - 4.
Proof.
  destruct (Create_correct sample_char sample_words sample_table blank_header formatted.1 note 300
    formatted.2 sample_memory (proj1 formatted_spec)) as (b & d' & E & _ & H); [done|].
  destruct b; [|exfalso; exact (proj1 H note_fits)].
  exists d'. split; [exact E|]. exact (proj2 (proj2 H)).
Defined.

Lemma Remove_correct_witness :
  exists d1 d2, Create sample_char sample_words sample_table blank_header formatted.1 note 300
      formatted.2 = Ok (true, d1) /\
    Remove sample_char sample_words sample_table formatted.1 note d1 = Ok (true, d2) /\
    view formatted.1 (contents d2) !! fname note = None.
Proof.
  destruct note_created as (d1 & bytes & E & Hinv & _ & Hv & _).
  destruct (Remove_correct sample_char sample_words sample_table blank_header formatted.1 note
    d1 sample_memory Hinv) as (b & d2 & E2 & _ & Hb & Hv2 & _).
  assert (b = true) as ->.
  { rewrite Hb. apply bool_decide_eq_true. apply elem_of_dom. by exists bytes. }
  exists d1, d2. split; [exact E|]. split; [exact E2|]. rewrite Hv2. apply lookup_delete_eq.
Defined.

Lemma Open_Write_correct_witness :
  exists d0 d1 d2 f, Create sample_char sample_words sample_table blank_header formatted.1 note 300
      formatted.2 = Ok (true, d0) /\
    Open sample_table formatted.1 note d0 = Ok (Some f, Open_line note, d1) /\
    WriteAt sample_char f [1; 2; 3] 3 200 d1 = Ok (3, d2).
Proof.
  destruct note_created as (d0 & bytes & E & Hinv & Hl & Hv & _).
  destruct (Open_Write_correct sample_char sample_words sample_table blank_header formatted.1 note
    [1; 2; 3] 3 200 d0 sample_memory Hinv) as (r & d1 & E1 & _ & H); [done..|].
  destruct r as [f|].
  - destruct H as (Hb & _ & Hlen & H). rewrite Hv in Hb.
    assert (Length f = 300) as Hl' by (rewrite <- Hlen, <- Hl; f_equal; congruence).
    destruct H as (d2 & bytes' & E2 & _); [lia|]. exists d0, d1, d2, f.
    split; [exact E|]. split; [exact E1|]. rewrite E2. unfold transfer.
    rewrite Z.min_l by lia. reflexivity.
  - exfalso. apply H, elem_of_dom. by exists bytes.
Defined.

(** A file is created, opened, and written through the open file. *)
Lemma fs_history_consistent_witness :
  exists d1 d2 d3 f, Create sample_char sample_words sample_table blank_header formatted.1 note 300
      formatted.2 = Ok (true, d1) /\
    Open sample_table formatted.1 note d1 = Ok (Some f, Open_line note, d2) /\
    WriteAt sample_char f [1; 2; 3] 3 200 d2 = Ok (3, d3) /\
    NoDup (owned formatted.1 (contents d3)) /\ open_as formatted.1 (contents d3) (fname note) f.
Proof.
  destruct note_created as (d1 & bytes & E & Hinv & Hl & Hv & Hf).
  destruct (Open_spec _ _ _ _ sample_memory formatted.1 note d1 Hinv) as (r & d2 & E2 & Hd2 & Hc2 & Hr).
  destruct r as [f|]; [|exfalso; apply Hr, elem_of_dom; by exists bytes]. destruct Hr as [Ho Hs].
  destruct (open_as_view _ _ _ _ (proj2 Hinv) Ho) as [Hh Hvf]. rewrite Hv in Hvf. injection Hvf as Hb.
  assert (Length f = 300) as Hlen.
  { unfold Length, FileLength. rewrite <- (zlen_file_data (contents d1) (hdr f) (store_wf_contents d1 (proj1 Hinv)) Hh), <- Hl. apply f_equal. symmetry. exact Hb. }
  assert (fs_inv formatted.1 d2) as Hinv2 by (split; [exact Hd2|rewrite Hc2; apply Hinv]).
  rewrite <- Hc2 in Ho. assert (200 < Length f) as Hlt by (rewrite Hlen; reflexivity).
  assert (transfer (Length f) 200 3 <= zlen [1; 2; 3]) as Hk by (rewrite Hlen; by vm_compute).
  destruct (write_open_spec _ _ _ _ sample_memory formatted.1 (fname note) f [1; 2; 3] 3 200 d2 Hinv2 Ho
    ltac:(lia) Hlt ltac:(lia) ltac:(reflexivity) Hk) as (d3 & data' & E3 & _).
  rewrite Hlen in E3. change (transfer 300 200 3) with 3 in E3.
  assert (0 <= 300 <= MaxFileSize) as Hsize by done.
  destruct (fs_history_consistent sample_char sample_words sample_table blank_header formatted.1
    fresh_synch_disk formatted.2 d3 [(fname note, f)] sample_memory fresh_store_wf formatted_pair)
    as (H1 & _ & _ & _ & H5).
  - eapply rtc_l; [exact (step_create _ _ _ _ formatted.1 note 300 true formatted.2 d1 [] Hsize E)|].
    eapply rtc_l; [exact (step_open _ _ _ _ formatted.1 note (Some f) (Open_line note) d1 d2 [] E2)|].
    eapply rtc_l; [|apply rtc_refl].
    refine (step_write _ _ _ _ formatted.1 (fname note) f [1; 2; 3] 3 200 3 d2 d3 _ _ _ _ _ E3); [by left|done..].
  - exists d1, d2, d3, f. split; [exact E|]. split; [exact E2|]. split; [exact E3|]. split; [exact H1|].
    by apply Forall_cons in H5 as [H5 _].
Defined.
