(* ===== verification/Console.v ===== *)
(** * Console: machine/console.h, machine/console.cc, userprog/synchconsole.h and
    userprog/synchconsole.cc

    The terminal: a device that reads and writes one character at a time and
    announces both by interrupts, and the synchronous console on top of it, in
    which threads wait.  What the operating system of the host says when the
    keyboard is polled is an input of the model. *)

From S2P Require Import Prelude Machine NList Interrupt.

Definition EOF : Z := -1.

(** [display]: what was written to the UNIX file. *)
Record Console := mkConsole {
  display : list Z;
  handlerArg : Z;
  putBusy : bool;
  incoming : Z          (* char: signed *)
}.

(** [PollFile] and [Read] of the keyboard: nothing to read, a character, or the
    end of the file (which poll as readable). *)
Inductive poll := Nothing | Char (c : Z) | AtEnd.

Section console.
Context {W : Type}.
Implicit Types (c : Console) (s : sys W).

Definition count_char_read s : sys W :=
  let st := stats s in
  mkSys (intr s) (mkStatistics (totalTicks st) (idleTicks st) (systemTicks st) (userTicks st)
    (numDiskReads st) (numDiskWrites st) (s32 (numConsoleCharsRead st + 1))
    (numConsoleCharsWritten st) (numPageFaults st) (numPacketsSent st) (numPacketsRecvd st)) (world s).
Definition count_char_written s : sys W :=
  let st := stats s in
  mkSys (intr s) (mkStatistics (totalTicks st) (idleTicks st) (systemTicks st) (userTicks st)
    (numDiskReads st) (numDiskWrites st) (numConsoleCharsRead st)
    (s32 (numConsoleCharsWritten st + 1)) (numPageFaults st) (numPacketsSent st) (numPacketsRecvd st))
    (world s).

(** The constructor; [this] is the address of the device. *)
Definition new_Console (this callArg : Z) s : res (Console * sys W) :=
  s ← Schedule ConsoleReadPoll this ConsoleTime ConsoleReadInt s;
  mret (mkConsole [] callArg false EOF, s).

(** The result says whether the read handler is called. *)
Definition CheckCharAvail (this : Z) (p : poll) c s : res (bool * (Console * sys W)) :=
  s ← Schedule ConsoleReadPoll this ConsoleTime ConsoleReadInt s;
  if negb (incoming c =? EOF) then mret (false, (c, s))
  else match p with
  | Nothing => mret (false, (c, s))
  | Char ch =>
      mret (true, (mkConsole (display c) (handlerArg c) (putBusy c) (s8 ch), count_char_read s))
  | AtEnd => Err AssertFailed
  end.

(** The write handler is always called. *)
Definition WriteDone c s : Console * sys W :=
  (mkConsole (display c) (handlerArg c) false (incoming c), count_char_written s).

Definition GetChar c : Z * Console :=
  (incoming c, mkConsole (display c) (handlerArg c) (putBusy c) EOF).

Definition PutChar (this ch : Z) c s : res (Console * sys W) :=
  _ ← ASSERT (negb (putBusy c));
  let c := mkConsole (display c ++ [ch]) (handlerArg c) true (incoming c) in
  s ← Schedule ConsoleWriteDone this ConsoleTime ConsoleWriteInt s;
  mret (c, s).
End console.

(** ** The synchronous console *)

(** Who holds the lock, and in which call it waits for its semaphore. *)
Inductive caller := Getting | Putting.

Record SynchConsole := mkSynchConsole {
  console : Console;
  lock : option caller;
  SynchReadAvail : Z;         (* the values of the semaphores *)
  SynchWriteDone : Z
}.

Definition new_SynchConsole {W} (this : Z) (s : sys W) : res (SynchConsole * sys W) :=
  '(c, s) ← new_Console this this s; mret (mkSynchConsole c None 0 0, s).

Definition set_console sc c := mkSynchConsole c (lock sc) (SynchReadAvail sc) (SynchWriteDone sc).

(** [ReadAvail] and [WriteDone], the handlers: V. *)
Definition ReadAvail (sc : SynchConsole) : SynchConsole :=
  mkSynchConsole (console sc) (lock sc) (SynchReadAvail sc + 1) (SynchWriteDone sc).
Definition sc_WriteDone (sc : SynchConsole) : SynchConsole :=
  mkSynchConsole (console sc) (lock sc) (SynchReadAvail sc) (SynchWriteDone sc + 1).

(** What a step does that can be seen: a character typed, returned or shown. *)
Inductive event := Typed (ch : Z) | Got (ch : Z) | Put (ch : Z).

(** An interrupt with the handler [h] is taken off the list of those pending. *)
Definition taken {W} (h : VoidFunctionPtr) (s s' : sys W) : Prop :=
  exists l1 x l2, pending (intr s) = l1 ++ x :: l2 /\ handler x.2 = h /\
    s' = on_intr (fun i => set_pending i (l1 ++ l2)) s.

Definition pending_of {W} (h : VoidFunctionPtr) (s : sys W) : nat :=
  length (filter (fun x => handler x.2 = h) (pending (intr s))).

(** One step of the threads and the interrupts: a call takes the lock and does
    what comes before its P; then it passes P, which needs a positive value, and
    goes on to the release of the lock. *)
Inductive sc_step {W} (this : Z) : list event -> SynchConsole * sys W -> SynchConsole * sys W -> Prop :=
  | get_enters sc s :
      lock sc = None ->
      sc_step this [] (sc, s)
        (mkSynchConsole (console sc) (Some Getting) (SynchReadAvail sc) (SynchWriteDone sc), s)
  | get_returns sc s ch c :
      lock sc = Some Getting -> SynchReadAvail sc > 0 -> GetChar (console sc) = (ch, c) ->
      sc_step this [Got ch] (sc, s)
        (mkSynchConsole c None (SynchReadAvail sc - 1) (SynchWriteDone sc), s)
  | put_enters sc s ch c s' :
      lock sc = None -> PutChar this ch (console sc) s = Ok (c, s') ->
      sc_step this [Put ch] (sc, s)
        (mkSynchConsole c (Some Putting) (SynchReadAvail sc) (SynchWriteDone sc), s')
  | put_returns sc s :
      lock sc = Some Putting -> SynchWriteDone sc > 0 ->
      sc_step this [] (sc, s)
        (mkSynchConsole (console sc) None (SynchReadAvail sc) (SynchWriteDone sc - 1), s)
  | read_interrupt sc s s1 p b c s2 :
      taken ConsoleReadPoll s s1 -> CheckCharAvail this p (console sc) s1 = Ok (b, (c, s2)) ->
      sc_step this (match p, b with Char ch, true => [Typed (s8 ch)] | _, _ => [] end) (sc, s)
        (if b then ReadAvail (set_console sc c) else set_console sc c, s2)
  | write_interrupt sc s s1 c s2 :
      taken ConsoleWriteDone s s1 -> WriteDone (console sc) s1 = (c, s2) ->
      sc_step this [] (sc, s) (sc_WriteDone (set_console sc c), s2)
  | rest_of_system sc s s' :
      pending_of ConsoleReadPoll s' = pending_of ConsoleReadPoll s ->
      pending_of ConsoleWriteDone s' = pending_of ConsoleWriteDone s ->
      sc_step this [] (sc, s) (sc, s').

Inductive sc_run {W} (this : Z) : list event -> SynchConsole * sys W -> SynchConsole * sys W -> Prop :=
  | sc_none st : sc_run this [] st st
  | sc_more tr ev st st1 st2 :
      sc_run this tr st st1 -> sc_step this ev st1 st2 -> sc_run this (tr ++ ev) st st2.

(** ** Histories *)

Definition typed (tr : list event) : list Z :=
  flat_map (fun e => match e with Typed ch => [ch] | _ => [] end) tr.
Definition got (tr : list event) : list Z :=
  flat_map (fun e => match e with Got ch => [ch] | _ => [] end) tr.
Definition put (tr : list event) : list Z :=
  flat_map (fun e => match e with Put ch => [ch] | _ => [] end) tr.

(** The character in the buffer of the device. *)
Definition buffered (c : Console) : list Z := if incoming c =? EOF then [] else [incoming c].

Record sc_inv {W} (tr : list event) (sc : SynchConsole) (s : sys W) : Prop := {
  si_polls : pending_of ConsoleReadPoll s = 1%nat;
  si_writes : pending_of ConsoleWriteDone s = if putBusy (console sc) then 1%nat else 0%nat;
  si_putting : match lock sc with
    | Some Putting => SynchWriteDone sc = if putBusy (console sc) then 0 else 1
    | _ => putBusy (console sc) = false /\ SynchWriteDone sc = 0
    end;
  si_reads : SynchReadAvail sc = zlen (buffered (console sc));
  si_got : typed tr = got tr ++ buffered (console sc);
  si_put : display (console sc) = put tr
}.

Lemma Schedule_pending {W} h a t ty (s : sys W) :
  0 < t -> exists s', Schedule h a t ty s = Ok s' /\
    forall h', pending_of h' s' = (pending_of h' s + if decide (h = h') then 1 else 0)%nat.
Proof.
  intros Ht. unfold Schedule. rewrite ASSERT_true by (rewrite Z.gtb_ltb; by apply Z.ltb_lt). rewrite bind_Ok.
  eexists. split; [reflexivity|]. intros h'. unfold pending_of. cbn [intr on_intr set_pending pending].
  rewrite (Permutation_length (filter_Permutation _ _ _ (l_insert_Permutation _ _ _))).
  rewrite filter_cons. cbn [snd handler]. case_decide; simpl; lia.
Qed.

Lemma taken_pending {W} h (s s' : sys W) h' :
  taken h s s' -> pending_of h' s = (pending_of h' s' + if decide (h = h') then 1 else 0)%nat.
Proof.
  intros (l1 & x & l2 & E & Eh & ->). unfold pending_of. cbn [intr on_intr set_pending pending].
  rewrite E, !list.filter_app, filter_cons, !length_app. rewrite Eh. case_decide; simpl; lia.
Qed.

Lemma zlen_buffered c : zlen (buffered c) = if incoming c =? EOF then 0 else 1.
Proof. unfold buffered. by destruct (incoming c =? EOF). Qed.

(** Step by step. *)
Lemma sc_step_inv {W} this tr ev sc (s : sys W) sc' s' :
  sc_inv tr sc s -> sc_step this ev (sc, s) (sc', s') -> Typed EOF ∉ ev -> sc_inv (tr ++ ev) sc' s'.
Proof.
  intros [Hp Hw Hl Hr Hg Hd] Hs Hff.
  assert (typed (tr ++ ev) = typed tr ++ typed ev) as Ht by apply flat_map_app.
  assert (got (tr ++ ev) = got tr ++ got ev) as Hgt by apply flat_map_app.
  assert (put (tr ++ ev) = put tr ++ put ev) as Hpt by apply flat_map_app.
  inversion Hs as [sc0 s0 El|sc0 s0 ch c El Hv Ec|sc0 s0 ch c s0' El Ec|sc0 s0 El Hv
    |sc0 s0 s1 p b c s2 Htk Ec|sc0 s0 s1 c s2 Htk Ec|sc0 s0 s0' H1 H2]; subst; clear Hs;
    rewrite ?El in Hl.
  - split; cbn; rewrite ?app_nil_r; done.
  - injection Ec as <- <-. rewrite zlen_buffered in Hr. unfold buffered in Hg.
    revert Hr Hg. destruct (Z.eqb_spec (incoming (console sc)) EOF); intros Hr Hg; [lia|].
    split; cbn; rewrite ?Ht, ?Hgt, ?Hpt; cbn; rewrite ?app_nil_r; try done.
    change (zlen []) with 0. lia.
  - unfold PutChar in Ec. destruct Hl as [Hb Hv]. rewrite Hb in Ec. cbn [negb ASSERT] in Ec.
    destruct (Schedule_pending ConsoleWriteDone this ConsoleTime ConsoleWriteInt s ltac:(done)) as (s3 & E3 & H3).
    rewrite bind_Ok, E3, bind_Ok in Ec. injection Ec as <- <-. rewrite Hb in Hw.
    split; cbn; rewrite ?Ht, ?Hgt, ?Hpt; cbn; rewrite ?app_nil_r; try done.
    + rewrite H3, Hp. reflexivity.
    + rewrite H3, Hw. reflexivity.
    + by rewrite Hd.
  - assert (putBusy (console sc) = false /\ SynchWriteDone sc = 1) as [Hb Hv1]
      by (revert Hl; destruct (putBusy (console sc)); intros Hl; [exfalso; lia|by split]).
    split; cbn; rewrite ?app_nil_r; try done. split; [done|lia].
  - unfold CheckCharAvail in Ec. pose proof (taken_pending _ _ _ ConsoleReadPoll Htk) as T1.
    pose proof (taken_pending _ _ _ ConsoleWriteDone Htk) as T2. simpl in T1, T2.
    destruct (Schedule_pending ConsoleReadPoll this ConsoleTime ConsoleReadInt s1 ltac:(done)) as (s3 & E3 & H3).
    rewrite E3, bind_Ok in Ec. pose proof (H3 ConsoleReadPoll) as H3r. pose proof (H3 ConsoleWriteDone) as H3w.
    simpl in H3r, H3w. rewrite zlen_buffered in Hr. unfold buffered in Hg.
    revert Hr Hg Ec. destruct (Z.eqb_spec (incoming (console sc)) EOF) as [Ei|Ei]; cbn [negb]; intros Hr Hg Ec.
    + destruct p as [|ch|]; [| |discriminate]; injection Ec as <- <- <-.
      * split; cbn; rewrite ?app_nil_r, ?zlen_buffered; unfold buffered; rewrite ?Ei; cbn; try done; lia.
      * assert (s8 ch <> EOF) as Hne by (intros E; apply Hff; rewrite E; by left).
        split; cbn; rewrite ?Ht, ?Hgt, ?Hpt, ?zlen_buffered; unfold buffered; cbn [incoming];
          rewrite ?(proj2 (Z.eqb_neq _ _) Hne); cbn; rewrite ?app_nil_r in *; try done; try lia.
        -- change (pending_of ConsoleReadPoll (count_char_read s3)) with (pending_of ConsoleReadPoll s3). lia.
        -- change (pending_of ConsoleWriteDone (count_char_read s3)) with (pending_of ConsoleWriteDone s3). lia.
        -- by rewrite Hg.
    + injection Ec as <- <- <-.
      assert (match p with Char _ => [] | _ => [] end = @nil event) as -> by by destruct p.
      split; cbn; rewrite ?app_nil_r, ?zlen_buffered; unfold buffered;
        rewrite ?(proj2 (Z.eqb_neq _ _) Ei); cbn; try done; lia.
  - unfold WriteDone in Ec. injection Ec as <- <-. pose proof (taken_pending _ _ _ ConsoleReadPoll Htk) as T1.
    pose proof (taken_pending _ _ _ ConsoleWriteDone Htk) as T2. simpl in T1, T2.
    destruct (putBusy (console sc)); [|exfalso; lia].
    destruct (lock sc) as [[]|] eqn:El; try (destruct Hl; discriminate).
    split; cbn; rewrite ?El, ?app_nil_r; try done; unfold pending_of in *; cbn; lia.
  - split; cbn; rewrite ?app_nil_r; congruence.
Qed.

Lemma sc_run_inv {W} this tr (sc : SynchConsole) (s : sys W) sc' s' :
  sc_inv [] sc s -> sc_run this tr (sc, s) (sc', s') -> Typed EOF ∉ tr -> sc_inv tr sc' s'.
Proof.
  intros H0 Hr. remember (sc, s) as a eqn:Ea. remember (sc', s') as b eqn:Eb. revert sc' s' Eb.
  induction Hr as [st|tr ev st [sc1 s1] st2 Hr IH Hs]; intros sc' s' -> Hff.
  - injection Ea as -> ->. exact H0.
  - rewrite elem_of_app in Hff. eapply sc_step_inv; [apply IH; [done|done|]|exact Hs|]; tauto.
Qed.

(** C37: the synchronous console keeps the characters in order.  In every history
    of calls and interrupts from a new console (in which the character 0xFF, which
    the device takes for EOF, is not typed), the characters GetChar has returned
    are those typed, in order, except at most one that is still in the device;
    the display shows the characters put, in order; polling never stops; a thread
    that finds the lock free never trips the assertion of PutChar; and one that
    waits for its output always has a completion signalled or pending. *)
Theorem SynchConsole_correct {W} this tr (s0 : sys W) sc0 s1 sc s :
  pending_of ConsoleReadPoll s0 = 0%nat -> pending_of ConsoleWriteDone s0 = 0%nat ->
  new_SynchConsole this s0 = Ok (sc0, s1) -> sc_run this tr (sc0, s1) (sc, s) -> Typed EOF ∉ tr ->
  typed tr = got tr ++ buffered (console sc) /\ zlen (buffered (console sc)) <= 1 /\
  display (console sc) = put tr /\ pending_of ConsoleReadPoll s = 1%nat /\
  (lock sc = None -> forall ch, exists c s', PutChar this ch (console sc) s = Ok (c, s')) /\
  (lock sc = Some Putting -> SynchWriteDone sc > 0 \/ pending_of ConsoleWriteDone s = 1%nat) /\
  (SynchReadAvail sc > 0 <-> incoming (console sc) <> EOF).
Proof.
  intros P0 P1 E Hr Hff. unfold new_SynchConsole, new_Console in E.
  destruct (Schedule_pending ConsoleReadPoll this ConsoleTime ConsoleReadInt s0 ltac:(done)) as (s3 & E3 & H3).
  rewrite E3, !bind_Ok in E. injection E as <- <-.
  assert (sc_inv [] (mkSynchConsole (mkConsole [] this false EOF) None 0 0) s3) as H0.
  { split; cbn; try done; rewrite H3; [rewrite P0|rewrite P1]; reflexivity. }
  destruct (sc_run_inv _ _ _ _ _ _ H0 Hr Hff) as [Hp Hw Hl Hrd Hg Hd].
  rewrite zlen_buffered in *. split; [done|]. split; [destruct (_ =? _); lia|]. split; [done|]. split; [done|].
  split; [|split].
  - intros El ch. rewrite El in Hl. destruct Hl as [Hb _]. unfold PutChar. rewrite Hb. cbn [negb ASSERT].
    destruct (Schedule_pending ConsoleWriteDone this ConsoleTime ConsoleWriteInt s ltac:(done)) as (s4 & E4 & _).
    rewrite bind_Ok, E4, bind_Ok. by eexists _, _.
  - intros El. rewrite El in Hl. destruct (putBusy (console sc)); [right; done|left; lia].
  - destruct (Z.eqb_spec (incoming (console sc)) EOF); lia.
Qed.

(** The character "a" is typed and read. *)
Definition quiet : sys unit := mkSys new_Interrupt new_Statistics tt.

Lemma SynchConsole_correct_witness :
  exists sc0 s1 sc s, new_SynchConsole 7 quiet = Ok (sc0, s1) /\
    sc_run 7 [Typed 97; Got 97] (sc0, s1) (sc, s) /\
    typed [Typed 97; Got 97] = got [Typed 97; Got 97] ++ buffered (console sc).
Proof.
  destruct (new_SynchConsole 7 quiet) as [[sc0 s1]|] eqn:E0; [|discriminate E0].
  pose proof E0 as E1. vm_compute in E1. injection E1 as E1 E2.
  assert (exists sc s, sc_run 7 [Typed 97; Got 97] (sc0, s1) (sc, s)) as (sc & s & Hr).
  { subst sc0 s1. eexists _, _. 
    eapply (sc_more _ [Typed 97] [Got 97]); [eapply (sc_more _ [Typed 97] []);
      [eapply (sc_more _ [] [Typed 97]); [apply sc_none|apply (read_interrupt 7 _ _ quiet (Char 97) true)]
      |apply get_enters]|apply get_returns]; try reflexivity.
    exists [], (100, mkPending ConsoleReadPoll 7 100 ConsoleReadInt), []. split; [reflexivity|]. by split. }
  exists sc0, s1, sc, s. split; [reflexivity|]. split; [exact Hr|].
  destruct (SynchConsole_correct 7 [Typed 97; Got 97] quiet sc0 s1 sc s eq_refl eq_refl E0 Hr) as [H _].
  - intros Hin. set_solver.
  - exact H.
Defined.

(** The character 0xFF is taken for an empty buffer: the next one replaces it,
    and is returned first. *)
Lemma char_255_reordered :
  exists sc0 s1 st, new_SynchConsole 7 quiet = Ok (sc0, s1) /\
    sc_run 7 [Typed (-1); Typed 97; Got 97; Got (-1)] (sc0, s1) st.
Proof.
  destruct (new_SynchConsole 7 quiet) as [[sc0 s1]|] eqn:E0; [|discriminate E0].
  vm_compute in E0. injection E0 as <- <-. eexists _, _, _. split; [reflexivity|].
  eapply (sc_more _ [Typed (-1); Typed 97; Got 97] [Got (-1)]);
    [eapply (sc_more _ [Typed (-1); Typed 97; Got 97] []);
    [eapply (sc_more _ [Typed (-1); Typed 97] [Got 97]);
    [eapply (sc_more _ [Typed (-1); Typed 97] []);
    [eapply (sc_more _ [Typed (-1)] [Typed 97]);
    [eapply (sc_more _ [] [Typed (-1)]);
    [apply sc_none|apply (read_interrupt 7 _ _ quiet (Char 255) true)]
    |apply (read_interrupt 7 _ _ (count_char_read quiet) (Char 97) true)]
    |apply get_enters]|apply get_returns]|apply get_enters]|apply get_returns]; try reflexivity.
  all: exists [], (100, mkPending ConsoleReadPoll 7 100 ConsoleReadInt), []; split; [reflexivity|]; by split.
Qed.
