(* ===== verification/ConsoleTest.v ===== *)
(** * ConsoleTest: the console tests of userprog/progtest.cc

    Two threads that echo what is typed until a q: [SynchConsoleTest] on the
    synchronous console, and [ConsoleTest] on the device itself, with semaphores of
    its own.  The steps of the thread interleave with the interrupts; a run of the
    second is a run of the first. *)

From S2P Require Import Prelude Machine NList Interrupt Console.

Definition quit : Z := 113.

Section tests.
Context {W : Type} (this : Z).

(** ** SynchConsoleTest *)

(** Where its thread is: before and in GetChar, before and in PutChar. *)
Inductive sc_point := AtGet | InGet | AtPut (ch : Z) | InPut (ch : Z) | Returned.

Implicit Types (st : SynchConsole * sys W).

Inductive SynchConsoleTest_step : list event -> sc_point * (SynchConsole * sys W) -> sc_point * (SynchConsole * sys W) -> Prop :=
  | sct_get st st' :
      lock st.1 = None -> sc_step this [] st st' -> lock st'.1 = Some Getting ->
      SynchConsoleTest_step [] (AtGet, st) (InGet, st')
  | sct_got st st' ch :
      lock st.1 = Some Getting -> sc_step this [Got ch] st st' -> lock st'.1 = None ->
      SynchConsoleTest_step [Got ch] (InGet, st) (AtPut ch, st')
  | sct_put st st' ch :
      lock st.1 = None -> sc_step this [Put ch] st st' -> lock st'.1 = Some Putting ->
      SynchConsoleTest_step [Put ch] (AtPut ch, st) (InPut ch, st')
  | sct_done st st' ch :
      lock st.1 = Some Putting -> sc_step this [] st st' -> lock st'.1 = None ->
      SynchConsoleTest_step [] (InPut ch, st) (if ch =? quit then Returned else AtGet, st')
  | sct_other ev p st st' :                              (* an interrupt, or another thread *)
      sc_step this ev st st' -> lock st'.1 = lock st.1 -> got ev = [] -> put ev = [] ->
      SynchConsoleTest_step ev (p, st) (p, st').

Inductive SynchConsoleTest_run : list event -> sc_point * (SynchConsole * sys W) -> sc_point * (SynchConsole * sys W) -> Prop :=
  | sct_none x : SynchConsoleTest_run [] x x
  | sct_more tr ev x y z :
      SynchConsoleTest_run tr x y -> SynchConsoleTest_step ev y z -> SynchConsoleTest_run (tr ++ ev) x z.

(** ** ConsoleTest *)

(** In [readAvail->P()], in [writeDone->P()], or back. *)
Inductive ct_point := WaitRead | WaitWrite (ch : Z) | Quit.

Record console_test := mkTest {
  t_console : Console;
  readAvail : Z;
  writeDone : Z;
  t_point : ct_point
}.

Definition new_ConsoleTest (s : sys W) : res (console_test * sys W) :=
  '(c, s) ← new_Console this 0 s; mret (mkTest c 0 0 WaitRead, s).

(** The handlers: V. *)
Definition t_ReadAvail (t : console_test) : console_test :=
  mkTest (t_console t) (readAvail t + 1) (writeDone t) (t_point t).
Definition t_WriteDone (t : console_test) : console_test :=
  mkTest (t_console t) (readAvail t) (writeDone t + 1) (t_point t).
Definition set_device (t : console_test) c := mkTest c (readAvail t) (writeDone t) (t_point t).

Inductive ConsoleTest_step : list event -> console_test * sys W -> console_test * sys W -> Prop :=
  | ct_echo t s ch c c' s' :                              (* past readAvail->P(), up to writeDone->P() *)
      t_point t = WaitRead -> readAvail t > 0 ->
      GetChar (t_console t) = (ch, c) -> PutChar this ch c s = Ok (c', s') ->
      ConsoleTest_step [Got ch; Put ch] (t, s) (mkTest c' (readAvail t - 1) (writeDone t) (WaitWrite ch), s')
  | ct_done t s ch :
      t_point t = WaitWrite ch -> writeDone t > 0 ->
      ConsoleTest_step [] (t, s)
        (mkTest (t_console t) (readAvail t) (writeDone t - 1) (if ch =? quit then Quit else WaitRead), s)
  | ct_read_interrupt t s s1 p b c s2 :
      taken ConsoleReadPoll s s1 -> CheckCharAvail this p (t_console t) s1 = Ok (b, (c, s2)) ->
      ConsoleTest_step (match p, b with Char ch, true => [Typed (s8 ch)] | _, _ => [] end) (t, s)
        (if b then t_ReadAvail (set_device t c) else set_device t c, s2)
  | ct_write_interrupt t s s1 c s2 :
      taken ConsoleWriteDone s s1 -> WriteDone (t_console t) s1 = (c, s2) ->
      ConsoleTest_step [] (t, s) (t_WriteDone (set_device t c), s2)
  | ct_other t s s' :
      pending_of ConsoleReadPoll s' = pending_of ConsoleReadPoll s ->
      pending_of ConsoleWriteDone s' = pending_of ConsoleWriteDone s ->
      ConsoleTest_step [] (t, s) (t, s').

Inductive ConsoleTest_run : list event -> console_test * sys W -> console_test * sys W -> Prop :=
  | ct_none x : ConsoleTest_run [] x x
  | ct_more tr ev x y z : ConsoleTest_run tr x y -> ConsoleTest_step ev y z -> ConsoleTest_run (tr ++ ev) x z.

(** ** A run of ConsoleTest is a run of SynchConsoleTest *)

Definition as_point (p : ct_point) : sc_point :=
  match p with WaitRead => AtGet | WaitWrite ch => InPut ch | Quit => Returned end.
Definition as_console (t : console_test) : SynchConsole :=
  mkSynchConsole (t_console t) (match t_point t with WaitWrite _ => Some Putting | _ => None end) (readAvail t) (writeDone t).
Definition as_test (x : console_test * sys W) : sc_point * (SynchConsole * sys W) := (as_point (t_point x.1), (as_console x.1, x.2)).

Lemma sct_run_app tr1 tr2 x y z :
  SynchConsoleTest_run tr1 x y -> SynchConsoleTest_run tr2 y z -> SynchConsoleTest_run (tr1 ++ tr2) x z.
Proof.
  intros H1 H2. induction H2 as [y|tr ev y z w Hr IH Hs]; [by rewrite app_nil_r|].
  rewrite app_assoc. eapply sct_more; [by apply IH|exact Hs].
Qed.

Lemma sct_one ev x y : SynchConsoleTest_step ev x y -> SynchConsoleTest_run ev x y.
Proof. intros Hs. apply (sct_more [] ev x x y); [apply sct_none|exact Hs]. Qed.

Lemma ConsoleTest_simulated ev x y : ConsoleTest_step ev x y -> SynchConsoleTest_run ev (as_test x) (as_test y).
Proof.
  intros [t s ch c c' s' Hp Hr Hg Hput|t s ch Hp Hw|t s s1 p b c s2 Ht Hc|t s s1 c s2 Ht Hc|t s s' H1 H2];
    unfold as_test, as_console; cbn [fst snd t_console readAvail writeDone t_point]; try rewrite Hp.
  - apply (sct_run_app [] [Got ch; Put ch] _ (InGet, (mkSynchConsole (t_console t) (Some Getting) (readAvail t) (writeDone t), s))).
    { apply sct_one, sct_get; [done| |done]. by apply (get_enters this (mkSynchConsole (t_console t) None (readAvail t) (writeDone t))). }
    apply (sct_run_app [Got ch] [Put ch] _ (AtPut ch, (mkSynchConsole c None (readAvail t - 1) (writeDone t), s))); apply sct_one.
    + apply sct_got; [done| |done]. by apply (get_returns this (mkSynchConsole (t_console t) (Some Getting) (readAvail t) (writeDone t))).
    + apply sct_put; [done| |done]. by apply (put_enters this (mkSynchConsole c None (readAvail t - 1) (writeDone t))).
  - apply sct_one. cbn [as_point].
    assert (as_point (if ch =? quit then Quit else WaitRead) = if ch =? quit then Returned else AtGet) as -> by by destruct (ch =? quit).
    assert (match (if ch =? quit then Quit else WaitRead) with WaitWrite _ => Some Putting | _ => None end = None) as -> by by destruct (ch =? quit).
    apply sct_done; [done| |done]. by apply (put_returns this (mkSynchConsole (t_console t) (Some Putting) (readAvail t) (writeDone t))).
  - apply sct_one.
    replace (t_point (if b then t_ReadAvail (set_device t c) else set_device t c)) with (t_point t) by by destruct b.
    apply sct_other; [|done|by destruct p, b..].
    pose proof (read_interrupt this (as_console t) s s1 p b c s2 Ht Hc) as Hs. by destruct b.
  - apply sct_one, sct_other; try done. by apply (write_interrupt this (as_console t) s s1 c s2).
  - apply sct_one, sct_other; try done. by apply rest_of_system.
Qed.

Lemma ConsoleTest_run_simulated tr x y : ConsoleTest_run tr x y -> SynchConsoleTest_run tr (as_test x) (as_test y).
Proof.
  induction 1 as [x|tr ev x y z Hr IH Hs]; [apply sct_none|].
  eapply sct_run_app; [exact IH|by apply ConsoleTest_simulated].
Qed.

(** ** What the thread has done *)

Definition sct_inv (p : sc_point) (tr : list event) : Prop :=
  match p with
  | AtGet | InGet => got tr = put tr /\ quit ∉ put tr
  | AtPut ch => got tr = put tr ++ [ch] /\ quit ∉ put tr
  | InPut ch => got tr = put tr /\ exists l, put tr = l ++ [ch] /\ quit ∉ l
  | Returned => got tr = put tr /\ exists l, put tr = l ++ [quit] /\ quit ∉ l
  end.

Lemma sct_step_inv tr ev x y : sct_inv x.1 tr -> SynchConsoleTest_step ev x y -> sct_inv y.1 (tr ++ ev).
Proof.
  assert (got (tr ++ ev) = got tr ++ got ev) as Hg by apply flat_map_app.
  assert (put (tr ++ ev) = put tr ++ put ev) as Hp by apply flat_map_app.
  intros Hi Hs. destruct Hs as [st st' _ _ _|st st' ch _ _ _|st st' ch _ _ _|st st' ch _ _ _|ev p st st' _ _ Eg Ep];
    cbn [fst sct_inv] in *; unfold sct_inv in *; rewrite Hg, Hp.
  - by cbn; rewrite !app_nil_r.
  - destruct Hi as [-> Hq]. cbn. by rewrite app_nil_r.
  - destruct Hi as [-> Hq]. cbn. rewrite app_nil_r. split; [done|by exists (put tr)].
  - cbn. rewrite !app_nil_r. destruct Hi as (Hgp & l & Hl & Hq). destruct (Z.eqb_spec ch quit) as [->|Hne].
    + split; [done|by exists l].
    + split; [done|]. rewrite Hl, not_elem_of_app, list_elem_of_singleton. by split.
  - by rewrite Eg, Ep, !app_nil_r.
Qed.

Lemma sct_run_inv tr x y : x.1 = AtGet -> SynchConsoleTest_run tr x y ->
  sct_inv y.1 tr /\ sc_run this tr x.2 y.2 /\
  (match y.1 with InGet => lock y.2.1 = Some Getting | InPut _ => lock y.2.1 = Some Putting | _ => lock y.2.1 = None end \/ lock x.2.1 <> None).
Proof.
  intros Hx. induction 1 as [x|tr ev x y z Hr IH Hs].
  - rewrite Hx. split; [|split; [apply sc_none|destruct (lock x.2.1); [by right|by left]]]. split; [done|apply not_elem_of_nil].
  - destruct (IH Hx) as (Hi & Hr' & Hl). split; [by eapply sct_step_inv|].
    destruct Hs as [st st' ? Hs ?|st st' ch ? Hs ?|st st' ch ? Hs ?|st st' ch ? Hs ?|ev p st st' Hs El ? ?]; cbn [fst snd] in *;
      (split; [by eapply sc_more|]); try by left.
    + by destruct (ch =? quit); left.
    + destruct Hl as [Hl|]; [left|by right]. destruct p; cbn in *; congruence.
Qed.
End tests.

(** C38: the console test echoes what is typed, up to the first q.  In every
    history of its thread and of the interrupts (in which 0xFF, which the device
    takes for EOF, is not typed): the display shows what was typed, in order and
    without loss, except at most one character still in the device; there is no q
    on it while the test waits for input, and when the test is back the last
    character shown is the first q typed.  Until then it is never stuck: if no
    character has come, polling goes on; when one has, PutChar takes it; and the
    end of an output is signalled or on its way. *)
Theorem ConsoleTest_correct {W} this tr (s0 : sys W) t0 s1 t s :
  pending_of ConsoleReadPoll s0 = 0%nat -> pending_of ConsoleWriteDone s0 = 0%nat ->
  new_ConsoleTest this s0 = Ok (t0, s1) -> ConsoleTest_run this tr (t0, s1) (t, s) -> Typed EOF ∉ tr ->
  let c := t_console t in
  typed tr = display c ++ buffered c /\
  match t_point t with
  | WaitRead => quit ∉ display c /\
      (if readAvail t =? 0 then buffered c = [] /\ pending_of ConsoleReadPoll s = 1%nat
       else exists ch t' s', ConsoleTest_step this [Got ch; Put ch] (t, s) (t', s'))
  | WaitWrite ch => (exists l, display c = l ++ [ch] /\ quit ∉ l) /\
      (writeDone t > 0 \/ pending_of ConsoleWriteDone s = 1%nat)
  | Quit => exists l, display c = l ++ [quit] /\ quit ∉ l
  end.
Proof.
  intros P0 P1 E Hr Hff c. unfold new_ConsoleTest, new_Console in E.
  destruct (Schedule_pending ConsoleReadPoll this ConsoleTime ConsoleReadInt s0 ltac:(done)) as (s3 & E3 & H3).
  rewrite E3, !bind_Ok in E. injection E as <- <-.
  apply ConsoleTest_run_simulated, sct_run_inv in Hr as (Hi & Hr & _); [|done]. cbn [as_test fst snd t_point as_console t_console] in Hi, Hr.
  assert (sc_inv [] (mkSynchConsole (mkConsole [] 0 false EOF) None 0 0) s3) as H0
    by (split; cbn; try done; rewrite H3; [rewrite P0|rewrite P1]; reflexivity).
  destruct (sc_run_inv _ _ _ _ _ _ H0 Hr Hff) as [Hp Hw Hl Hrd Hg Hd]. cbn [as_console console lock SynchReadAvail SynchWriteDone] in *.
  fold c in Hw, Hl, Hrd, Hg, Hd. rewrite Hd. destruct (t_point t) as [|ch|] eqn:Ep; cbn [as_point sct_inv] in Hi; destruct Hi as [Hgp Hq].
  - split; [by rewrite <- Hgp|]. split; [done|]. destruct (Z.eqb_spec (readAvail t) 0) as [Hz|Hz].
    + split; [|done]. rewrite Hz in Hrd. destruct (buffered c); [done|]. unfold zlen in Hrd. cbn in Hrd. lia.
    + destruct Hl as [Hb _]. destruct (Schedule_pending ConsoleWriteDone this ConsoleTime ConsoleWriteInt s ltac:(done)) as (s4 & E4 & _).
      eexists _, _, s4. eapply ct_echo; [done|unfold zlen in Hrd; lia|reflexivity|]. unfold PutChar. cbn [putBusy]. fold c.
      rewrite Hb. cbn [negb ASSERT]. by rewrite bind_Ok, E4, bind_Ok.
  - split; [by rewrite <- Hgp|]. split; [done|]. destruct (putBusy c); [by right|left; lia].
  - split; [by rewrite <- Hgp|]. done.
Qed.

(** A q is typed, echoed, and the test is back. *)
Lemma ConsoleTest_correct_witness :
  exists t0 s1 t s, new_ConsoleTest 7 quiet = Ok (t0, s1) /\
    ConsoleTest_run 7 [Typed 113; Got 113; Put 113] (t0, s1) (t, s) /\ t_point t = Quit /\ display (t_console t) = [113].
Proof.
  destruct (new_ConsoleTest 7 quiet) as [[t0 s1]|] eqn:E0; [|discriminate E0].
  pose proof E0 as E1. vm_compute in E1. injection E1 as E1 E2.
  assert (exists t s, ConsoleTest_run 7 [Typed 113; Got 113; Put 113] (t0, s1) (t, s) /\ t_point t = Quit) as (t & s & Hr & Hq).
  { subst t0 s1. eexists _, _. split.
    - eapply (ct_more _ [Typed 113; Got 113; Put 113] []); [eapply (ct_more _ [Typed 113; Got 113; Put 113] []);
        [eapply (ct_more _ [Typed 113] [Got 113; Put 113]); [eapply (ct_more _ [] [Typed 113]);
        [apply ct_none|apply (ct_read_interrupt 7 _ _ quiet (Char 113) true); [exists [], (100, mkPending ConsoleReadPoll 7 100 ConsoleReadInt), []; by split_and!|reflexivity]]|
         eapply ct_echo; reflexivity]|
         eapply ct_write_interrupt; [|reflexivity]]|apply (ct_done 7 _ _ 113); reflexivity].
      eexists [_], _, []. split; [reflexivity|]. split; reflexivity.
    - reflexivity. }
  exists t0, s1, t, s. split; [reflexivity|]. split; [exact Hr|]. split; [exact Hq|].
  destruct (ConsoleTest_correct 7 [Typed 113; Got 113; Put 113] quiet t0 s1 t s eq_refl eq_refl E0 Hr) as [Ht H]; [set_solver|].
  rewrite Hq in H. destruct H as (l & Hd & _). rewrite Hd in Ht |- *. by destruct l as [|x [|y l]].
Defined.
