(* ===== verification/Network.v ===== *)
(** * Network: machine/network.h and machine/network.cc

    The network device: packets of a fixed size on a socket, one in the receive
    buffer at a time, announced by interrupts.  Whether the emulation loses a
    packet, and what the socket holds when it is polled, are inputs of the model. *)

From S2P Require Import Prelude Machine NList Interrupt.

Record PacketHeader := mkPacket { to : Z; from : Z; plength : Z (* unsigned *) }.

Definition MaxWireSize : Z := 64.
Definition sizeof_PacketHeader : Z := 12.
Definition MaxPacketSize : Z := MaxWireSize - sizeof_PacketHeader.

Record Network := mkNetwork {
  ident : Z;
  handlerArg : Z;
  sendBusy : bool;
  inHdr : PacketHeader;
  inbox : list Z        (* char[MaxPacketSize] *)
}.

(** A header as it is stored in memory, and back. *)
Definition header_bytes (h : PacketHeader) : list Z :=
  le_bytes 4 (to h) ++ le_bytes 4 (from h) ++ le_bytes 4 (plength h).
Definition header_of_bytes (bs : list Z) : PacketHeader :=
  mkPacket (s32 (le_value (take 4 bs))) (s32 (le_value (take 4 (drop 4 bs))))
    (le_value (take 4 (drop 8 bs))).

Definition set_length (h : PacketHeader) n := mkPacket (to h) (from h) n.

Section network.
Context {W : Type} (new_char : Z -> list Z).
Implicit Types (n : Network) (s : sys W).

Definition count_sent s : sys W :=
  let st := stats s in
  mkSys (intr s) (mkStatistics (totalTicks st) (idleTicks st) (systemTicks st) (userTicks st)
    (numDiskReads st) (numDiskWrites st) (numConsoleCharsRead st) (numConsoleCharsWritten st)
    (numPageFaults st) (s32 (numPacketsSent st + 1)) (numPacketsRecvd st)) (world s).
Definition count_received s : sys W :=
  let st := stats s in
  mkSys (intr s) (mkStatistics (totalTicks st) (idleTicks st) (systemTicks st) (userTicks st)
    (numDiskReads st) (numDiskWrites st) (numConsoleCharsRead st) (numConsoleCharsWritten st)
    (numPageFaults st) (numPacketsSent st) (s32 (numPacketsRecvd st + 1))) (world s).

(** The constructor; the members it does not set are those of [garbage]. *)
Definition new_Network (this addr callArg : Z) (garbage : Network) s : res (Network * sys W) :=
  s ← Schedule NetworkReadPoll this NetworkTime NetworkRecvInt s;
  mret (mkNetwork addr callArg false (set_length (inHdr garbage) 0) (inbox garbage), s).

(** [packet]: the next packet of the socket, if there is one.  The result says
    whether it was read (and the read handler called). *)
Definition CheckPktAvail (this : Z) (packet : option (list Z)) n s : res (bool * (Network * sys W)) :=
  s ← Schedule NetworkReadPoll this NetworkTime NetworkRecvInt s;
  if negb (plength (inHdr n) =? 0) then mret (false, (n, s))
  else match packet with
  | None => mret (false, (n, s))
  | Some buffer =>
      _ ← ASSERT (zlen buffer =? MaxWireSize);
      let hdr := header_of_bytes buffer in
      _ ← ASSERT ((to hdr =? ident n) && (plength hdr <=? MaxPacketSize));
      data ← zread buffer sizeof_PacketHeader (plength hdr);
      box ← zwrite (inbox n) 0 data;
      mret (true, (mkNetwork (ident n) (handlerArg n) (sendBusy n) hdr box, count_received s))
  end.

(** The write handler is always called. *)
Definition SendDone n s : Network * sys W :=
  (mkNetwork (ident n) (handlerArg n) false (inHdr n) (inbox n), count_sent s).

(** The machine a packet is sent to, and the packet; None when it is lost. *)
Definition Send (this : Z) (hdr : PacketHeader) (data : list Z) (lost : bool) n s
    : res (option (Z * list Z) * sys W) :=
  _ ← ASSERT (negb (sendBusy n) && (plength hdr >? 0) && (plength hdr <=? MaxPacketSize)
              && (from hdr =? ident n));
  s ← Schedule NetworkSendDone this NetworkTime NetworkSendInt s;
  if lost then mret (None, s)
  else
    buffer ← zwrite (new_char MaxWireSize) 0 (header_bytes hdr);
    bytes ← zread data 0 (plength hdr);
    buffer ← zwrite buffer sizeof_PacketHeader bytes;
    mret (Some (to hdr, buffer), s).

(** The header, and what is copied into [data]. *)
Definition Receive n : res (PacketHeader * list Z * Network) :=
  let hdr := inHdr n in
  let n := mkNetwork (ident n) (handlerArg n) (sendBusy n) (set_length hdr 0) (inbox n) in
  if negb (plength hdr =? 0) then data ← zread (inbox n) 0 (plength hdr); mret (hdr, data, n)
  else mret (hdr, [], n).
End network.

(** ** Two machines *)

(** A sender, a receiver, and the socket of the receiver between them, which
    keeps packets in order. *)
Record link (W : Type) := mkLink {
  sender : Network; sender_sys : sys W;
  wire : list (list Z);
  receiver : Network; receiver_sys : sys W
}.
Arguments mkLink {W}. Arguments sender {W}. Arguments sender_sys {W}. Arguments wire {W}.
Arguments receiver {W}. Arguments receiver_sys {W}.

Inductive event := Sent (h : PacketHeader) (data : list Z) | Received (h : PacketHeader) (data : list Z).

Section link.
Context {W : Type} (new_char : Z -> list Z) (this : Z).

(** [Sent] is a packet that is not lost; the interrupts are the [SendDone] and
    [CheckPktAvail] of the two machines; the rest of either system does anything. *)
Inductive link_step : list event -> link W -> link W -> Prop :=
  | link_send a sa q b sb hdr data lost out sa' :
      to hdr = ident b -> is_s32 (to hdr) -> is_s32 (from hdr) ->
      Send new_char this hdr data lost a sa = Ok (out, sa') ->
      link_step (if lost then [] else [Sent hdr (take (Z.to_nat (plength hdr)) data)])
        (mkLink a sa q b sb)
        (mkLink a sa' (match out with Some (_, p) => q ++ [p] | None => q end) b sb)
  | link_send_done a sa q b sb a' sa' :
      SendDone a sa = (a', sa') -> link_step [] (mkLink a sa q b sb) (mkLink a' sa' q b sb)
  | link_poll a sa q b sb read b' sb' :
      CheckPktAvail this (head q) b sb = Ok (read, (b', sb')) ->
      link_step [] (mkLink a sa q b sb) (mkLink a sa (if read then tail q else q) b' sb')
  | link_receive a sa q b sb hdr data b' :
      Receive b = Ok (hdr, data, b') ->
      link_step (if plength hdr =? 0 then [] else [Received hdr data])
        (mkLink a sa q b sb) (mkLink a sa q b' sb)
  | link_rest a sa q b sb sa' sb' :
      link_step [] (mkLink a sa q b sb) (mkLink a sa' q b sb').

Inductive link_run : list event -> link W -> link W -> Prop :=
  | link_none l : link_run [] l l
  | link_more tr ev l l1 l2 : link_run tr l l1 -> link_step ev l1 l2 -> link_run (tr ++ ev) l l2.
End link.

Definition sent (tr : list event) : list (PacketHeader * list Z) :=
  flat_map (fun e => match e with Sent h d => [(h, d)] | _ => [] end) tr.
Definition received (tr : list event) : list (PacketHeader * list Z) :=
  flat_map (fun e => match e with Received h d => [(h, d)] | _ => [] end) tr.

(** The packet in the buffer of a device. *)
Definition held (n : Network) : list (PacketHeader * list Z) :=
  if plength (inHdr n) =? 0 then [] else [(inHdr n, take (Z.to_nat (plength (inHdr n))) (inbox n))].

(** What a packet on the wire says. *)
Definition packet_of (p : list Z) : PacketHeader * list Z :=
  let h := header_of_bytes p in (h, take (Z.to_nat (plength h)) (drop (Z.to_nat sizeof_PacketHeader) p)).

(** ** Packets *)

Lemma take_le_bytes v rest : take 4 (le_bytes 4 v ++ rest) = le_bytes 4 v.
Proof. done. Qed.
Lemma drop_le_bytes v rest : drop 4 (le_bytes 4 v ++ rest) = rest.
Proof. done. Qed.

Lemma header_of_bytes_bytes h rest :
  is_s32 (to h) -> is_s32 (from h) -> 0 <= plength h < 2 ^ 32 -> header_of_bytes (header_bytes h ++ rest) = h.
Proof.
  intros Ht Hf Hl. unfold header_of_bytes, header_bytes. rewrite <- !app_assoc.
  change 8%nat with (4 + 4)%nat. rewrite <- drop_drop, !drop_le_bytes, !take_le_bytes, !le_value_bytes.
  change (8 * Z.of_nat 4) with 32. rewrite (Z.mod_small (plength h)) by done.
  destruct h as [t f n]. cbn in *. f_equal; word_lia.
Qed.

Lemma zlen_header_bytes h : zlen (header_bytes h) = sizeof_PacketHeader.
Proof. done. Qed.

Section delivery.
Context {W : Type} (new_char : Z -> list Z) (this : Z).
Context (Hnew : zlen (new_char MaxWireSize) = MaxWireSize).

(** A packet for the machine [i] that was put on the wire by [Send]. *)
Definition good_packet (i : Z) (p : list Z) : Prop :=
  zlen p = MaxWireSize /\ to (header_of_bytes p) = i /\ 0 < plength (header_of_bytes p) <= MaxPacketSize.

Lemma Schedule_ok h a ty (s : sys W) : exists s', Schedule h a NetworkTime ty s = Ok s'.
Proof. unfold Schedule. by eexists. Qed.

Lemma Send_packet hdr data lost n (s : sys W) out s' :
  is_s32 (to hdr) -> is_s32 (from hdr) -> Send new_char this hdr data lost n s = Ok (out, s') ->
  if lost then out = None
  else exists p, out = Some (to hdr, p) /\ good_packet (to hdr) p /\
    packet_of p = (hdr, take (Z.to_nat (plength hdr)) data).
Proof using Hnew.
  intros Ht Hf E. unfold Send in E. apply bind_inv in E as (u & Ha & E). apply ASSERT_inv in Ha.
  apply andb_prop in Ha as [[[_ H1]%andb_prop H2]%andb_prop _]. reflect_Z.
  apply bind_inv in E as (s1 & _ & E). destruct lost; [by apply Ok_inj in E; injection E as <- _|].
  apply bind_inv in E as (b1 & E1 & E). apply bind_inv in E as (bs & E2 & E). apply bind_inv in E as (b2 & E3 & E).
  apply Ok_inj in E. injection E as <- <-. exists b2. split; [done|].
  pose proof (zlen_zwrite _ _ _ _ E3) as L3. rewrite (zlen_zwrite _ _ _ _ E1), Hnew in L3.
  pose proof (zlen_zread _ _ _ _ E2) as Lb. apply zread_inv in E2 as (_ & _ & _ & Ebs). rewrite drop_0 in Ebs.
  apply zwrite_inv in E1 as (_ & _ & E1). apply zwrite_inv in E3 as (_ & _ & E3).
  assert (exists rest, b2 = header_bytes hdr ++ bs ++ rest) as [rest Eb].
  { eexists. rewrite E3 at 1. rewrite E1 at 1. rewrite take_0, app_nil_l.
    change (Z.to_nat sizeof_PacketHeader) with (List.length (header_bytes hdr)). rewrite take_app_length. reflexivity. }
  assert (header_of_bytes b2 = hdr) as Eh.
  { rewrite Eb. apply header_of_bytes_bytes; [done|done|].
    unfold MaxPacketSize, MaxWireSize, sizeof_PacketHeader in H2. lia. }
  split; [split; [done|]; rewrite Eh; split; [done|lia]|].
  unfold packet_of. rewrite Eh. f_equal. rewrite Eb, drop_app_length', take_app_le, take_ge;
    [exact Ebs|unfold zlen in Lb; lia|unfold zlen in Lb; lia|done].
Qed.

Record link_inv (tr : list event) (l : link W) : Prop := {
  li_order : sent tr = received tr ++ held (receiver l) ++ map packet_of (wire l);
  li_wire : Forall (good_packet (ident (receiver l))) (wire l);
  li_inbox : zlen (inbox (receiver l)) = MaxPacketSize;
  li_hdr : 0 <= plength (inHdr (receiver l)) <= MaxPacketSize
}.

(** Polling in a good state. *)
Lemma poll_ok i q n (s : sys W) :
  Forall (good_packet i) q -> ident n = i -> zlen (inbox n) = MaxPacketSize ->
  exists read n' s', CheckPktAvail this (head q) n s = Ok (read, (n', s')) /\
    ident n' = ident n /\ zlen (inbox n') = MaxPacketSize /\
    (if (read : bool) then held n = [] /\ (exists p q', q = p :: q' /\ held n' = [packet_of p] /\
       inHdr n' = header_of_bytes p)
     else n' = n).
Proof.
  intros Hq Hi Hb. unfold CheckPktAvail. destruct (Schedule_ok NetworkReadPoll this NetworkRecvInt s) as [s1 ->].
  rewrite bind_Ok. destruct (Z.eqb_spec (plength (inHdr n)) 0) as [Hz|Hz]; cbn [negb]; [|by eexists _, _, _].
  destruct q as [|p q]; cbn [head]; [by eexists _, _, _|]. apply Forall_cons in Hq as [(Hl & Ht & Hlen) _].
  rewrite (proj2 (Z.eqb_eq _ _) Hl). cbn [ASSERT]. rewrite bind_Ok. cbv zeta.
  rewrite ASSERT_true; [rewrite bind_Ok|].
  2:{ apply andb_true_intro. split; [apply Z.eqb_eq; congruence|apply Z.leb_le; lia]. }
  unfold MaxPacketSize, MaxWireSize, sizeof_PacketHeader in *.
  rewrite zread_Ok, bind_Ok by lia. set (d := take _ _).
  assert (zlen d = plength (header_of_bytes p)) as Ld.
  { unfold d, zlen in *. rewrite length_take, length_drop. lia. }
  destruct (zwrite (inbox n) 0 d) as [box|e] eqn:Ew; [|by rewrite zwrite_Ok in Ew by lia].
  rewrite bind_Ok. eexists true, _, _. split; [reflexivity|]. cbn [ident inbox]. split; [done|].
  split; [by rewrite (zlen_zwrite _ _ _ _ Ew)|]. unfold held. cbn [inHdr inbox]. rewrite Hz, Z.eqb_refl.
  split; [done|]. exists p, q. split; [done|].
  rewrite (proj2 (Z.eqb_neq (plength (header_of_bytes p)) 0)) by lia. split; [|done].
  do 2 f_equal. unfold packet_of. f_equal. apply zwrite_inv in Ew as (_ & _ & ->).
  rewrite take_0, app_nil_l, take_app_le, take_ge by (unfold zlen in Ld; lia). done.
Qed.

Lemma link_step_inv tr ev l l' :
  link_inv tr l -> link_step new_char this ev l l' ->
  link_inv (tr ++ ev) l' /\ ident (receiver l') = ident (receiver l).
Proof using Hnew.
  intros [Ho Hw Hb Hh] Hs.
  assert (sent (tr ++ ev) = sent tr ++ sent ev) as Es by apply flat_map_app.
  assert (received (tr ++ ev) = received tr ++ received ev) as Er by apply flat_map_app.
  inversion Hs as [a sa q b sb hdr data lost out sa' Ht Ht32 Hf32 E|a sa q b sb a' sa' E|a sa q b sb rd b' sb' E
    |a sa q b sb hdr data b' E|a sa q b sb sa' sb']; subst; clear Hs;
    cbn [receiver wire] in *.
  - pose proof (Send_packet _ _ _ _ _ _ _ Ht32 Hf32 E) as Hp. destruct lost.
    + subst out. split; [|done]. split; cbn; rewrite ?app_nil_r; done.
    + destruct Hp as (p & -> & Hg & Ep). split; [|done]. split; cbn; try done.
      * rewrite Es, Er, Ho, map_app. cbn. by rewrite Ep, app_nil_r, <- !app_assoc.
      * apply Forall_app. split; [done|]. constructor; [|done]. by rewrite <- Ht.
  - split; [|done]. split; cbn; rewrite ?app_nil_r; done.
  - destruct (poll_ok (ident b) q b sb Hw eq_refl Hb) as (rd' & b2 & s2 & E2 & Hi & Hb2 & Hr).
    rewrite E in E2. injection E2 as <- <- <-. split; [|done]. destruct rd.
    + destruct Hr as (Hn & p & q' & -> & Hh' & Eh). cbn [tail]. apply Forall_cons in Hw as [Hp Hw].
      split; cbn [receiver wire]; rewrite ?app_nil_r; try done.
      * rewrite Ho, Hn, Hh'. done.
      * by rewrite Hi.
      * rewrite Eh. destruct Hp as (_ & _ & Hp). lia.
    + subst b'. split; cbn [receiver wire]; rewrite ?app_nil_r; done.
  - unfold Receive in E. unfold held in Ho. revert E Ho.
    destruct (Z.eqb_spec (plength (inHdr b)) 0) as [Hz|Hz]; cbn [negb]; intros E Ho.
    + injection E as <- <- <-. rewrite Hz, Z.eqb_refl. split; [|done].
      split; cbn; rewrite ?app_nil_r; try done; lia.
    + unfold MaxPacketSize, MaxWireSize, sizeof_PacketHeader in *.
      cbv zeta in E. cbn [inbox] in E.
      rewrite (zread_Ok (inbox b) 0 (plength (inHdr b))), bind_Ok in E by lia. injection E as <- <- <-.
      rewrite (proj2 (Z.eqb_neq _ _) Hz) in *. split; [|done]. split; cbn; try done.
      rewrite Es, Er, Ho. cbn. rewrite drop_0, app_nil_r, <- app_assoc. done.
  - split; [|done]. split; cbn; rewrite ?app_nil_r; done.
Qed.
End delivery.

Lemma link_run_inv {W} new_char this tr (l l' : link W) :
  zlen (new_char MaxWireSize) = MaxWireSize -> link_inv [] l -> link_run new_char this tr l l' ->
  link_inv tr l' /\ ident (receiver l') = ident (receiver l).
Proof.
  intros Hnew H0 Hr. induction Hr as [|tr ev l l1 l2 Hr IH Hs]; [done|].
  destruct (IH H0) as [Hi Ei]. destruct (link_step_inv _ _ Hnew _ _ _ _ Hi Hs) as [Hi' Ei'].
  split; [exact Hi'|congruence].
Qed.

Lemma sendBusy_never {W} new_char this tr (l l' : link W) :
  link_run new_char this tr l l' -> sendBusy (sender l) = false -> sendBusy (sender l') = false.
Proof.
  intros Hr H0. induction Hr as [|tr ev l l1 l2 Hr IH Hs]; [done|].
  specialize (IH H0). inversion Hs as [| a sa q b sb a' sa' E| | |]; subst; try exact IH.
  by injection E as <- <-.
Qed.

(** The network delivers in order, and each packet once.  In every history of
    sends, interrupts and receives between a sender and a new device, the packets
    that were sent and not lost are those received, then the one in the buffer of
    the device, then those in the socket, in order and with their headers and
    data; polling never aborts; and the sender is never busy, so that a packet can
    be sent before the previous one is done. *)
Theorem Network_delivers {W} new_char this tr addr callArg garbage (s0 : sys W) b0 sb0 a sa l :
  zlen (new_char MaxWireSize) = MaxWireSize -> zlen (inbox garbage) = MaxPacketSize ->
  new_Network this addr callArg garbage s0 = Ok (b0, sb0) ->
  link_run new_char this tr (mkLink a sa [] b0 sb0) l ->
  sent tr = received tr ++ held (receiver l) ++ map packet_of (wire l) /\
  (zlen (held (receiver l)) <= 1 /\ ident (receiver l) = addr) /\
  (exists read n s, CheckPktAvail this (head (wire l)) (receiver l) (receiver_sys l) = Ok (read, (n, s))) /\
  (sendBusy a = false -> sendBusy (sender l) = false).
Proof.
  intros Hnew Hb E Hr. unfold new_Network in E.
  destruct (Schedule_ok NetworkReadPoll this NetworkRecvInt s0) as [s1 E1]. rewrite E1, bind_Ok in E.
  injection E as <- <-.
  assert (link_inv [] (mkLink a sa [] (mkNetwork addr callArg false (set_length (inHdr garbage) 0) (inbox garbage)) s1))
    as H0 by (split; [reflexivity|constructor|exact Hb|done]).
  destruct (link_run_inv _ _ _ _ _ Hnew H0 Hr) as [[Ho Hw Hb' Hh] Ei].
  cbn [receiver ident] in Ei. split; [exact Ho|]. split; [split; [|exact Ei]|split].
  - unfold held. by destruct (_ =? _).
  - destruct (poll_ok new_char this _ (wire l) (receiver l) (receiver_sys l) Hw eq_refl Hb') as (r & n & s & E & _).
    by exists r, n, s.
  - intros Ha. by apply (sendBusy_never _ _ _ _ _ Hr).
Qed.

(** Machine 1 sends two bytes to machine 2. *)
Definition wire_char (n : Z) : list Z := replicate (Z.to_nat n) 255.
Definition machine_net (addr : Z) : Network := mkNetwork addr 0 false (mkPacket 0 0 0) (replicate 52 0).
Definition hello : PacketHeader := mkPacket 2 1 2.

Lemma Network_delivers_witness :
  exists b0 sb0 l, new_Network 7 2 0 (machine_net 0) (mkSys new_Interrupt new_Statistics tt) = Ok (b0, sb0) /\
    link_run wire_char 7 [Sent hello [104; 105]; Received hello [104; 105]]
      (mkLink (machine_net 1) (mkSys new_Interrupt new_Statistics tt) [] b0 sb0) l /\
    sent [Sent hello [104; 105]; Received hello [104; 105]] =
      received [Sent hello [104; 105]; Received hello [104; 105]] ++ held (receiver l) ++ map packet_of (wire l).
Proof.
  destruct (new_Network 7 2 0 (machine_net 0) (mkSys new_Interrupt new_Statistics tt)) as [[b0 sb0]|] eqn:E0;
    [|discriminate E0].
  pose proof E0 as E1. vm_compute in E1. injection E1 as E1 E2.
  assert (exists l, link_run wire_char 7 [Sent hello [104; 105]; Received hello [104; 105]]
    (mkLink (machine_net 1) (mkSys new_Interrupt new_Statistics tt) [] b0 sb0) l) as [l Hr].
  { subst b0 sb0. eexists. eapply (link_more _ _ [Sent hello [104; 105]] [Received hello [104; 105]]).
    - eapply (link_more _ _ [Sent hello [104; 105]] []).
      + eapply (link_more _ _ [] [Sent hello [104; 105]]); [apply link_none|].
        apply (link_send _ _ _ _ _ _ _ hello [104; 105] false); [done|done|done|reflexivity].
      + apply link_poll. reflexivity.
    - apply (link_receive _ _ _ _ _ _ _ hello [104; 105]). reflexivity. }
  exists b0, sb0, l. split; [reflexivity|]. split; [exact Hr|].
  destruct (Network_delivers wire_char 7 _ 2 0 (machine_net 0) _ b0 sb0 _ _ l eq_refl eq_refl E0 Hr) as [H _].
  exact H.
Defined.
