(* ===== verification/Thread.v ===== *)
(** * Thread: threads/thread.h, thread.cc, scheduler.h, scheduler.cc

    Threads and the scheduler.  The kernel state holds every thread control
    block, the ready list, the thread on the CPU and the objects threads wait on
    (their operations are in Synch.v).  A thread is the list of the kernel calls
    it still has to make; SWITCH is the change of the current thread. *)

From S2P Require Import Prelude Machine Interrupt.

Inductive ThreadStatus := JUST_CREATED | RUNNING | READY | BLOCKED.

#[export] Instance ThreadStatus_eq_dec : EqDecision ThreadStatus.
Proof. solve_decision. Defined.

(** What a thread does next: calls of the kernel, and user-level computation,
    which leaves new values in the machine's registers. *)
Inductive cmd :=
  | CEnable                             (* InterruptEnable(), from ThreadRoot *)
  | CRestore                            (* the end of Yield: SetLevel(oldLevel) *)
  | CP (s : Z) | CV (s : Z)
  | CAcquire (l : Z) | CRelease (l : Z)
  | CAcquiring (l : Z)                  (* in the loop of Acquire *)
  | CWait (c l : Z) | CSignal (c l : Z) | CBroadcast (c l : Z)
  | CYield
  | CFork (t : Z)
  | CUser (regs : list Z)
  | CFinish.                            (* ThreadFinish(), from ThreadRoot *)

#[export] Instance cmd_eq_dec : EqDecision cmd.
Proof. solve_decision. Defined.

(** [STACK_FENCEPOST] is 0xdeadbeef as an int; the stack is the word at its far
    end, or NULL for the main thread. *)
Definition STACK_FENCEPOST : Z := s32 3735928559.

Record Thread := mkThread {
  status : ThreadStatus;
  priorityLevel : Z;
  stack : option Z;
  space : option Z;                     (* the address space, by number *)
  userRegisters : list Z;
  prog : list cmd;                      (* what it does from where it is *)
  in_SWITCH : bool;                     (* stopped inside SWITCH, not at ThreadRoot *)
  oldLevel : option IntStatus           (* the local of the call it is blocked in *)
}.

Record Semaphore := mkSemaphore { value : Z; squeue : list Z }.
Record Lock := mkLock { available : bool; ownerThread : option Z; lqueue : list Z }.

Record kernel := mkKernel {
  threads : gmap Z Thread;
  currentThread : Z;
  readyList : list Z;                   (* in order of insertion *)
  threadToBeDestroyed : option Z;
  level : IntStatus;
  sleeping : bool;                      (* in the while loop of Thread::Sleep *)
  registers : list Z;                   (* machine->registers *)
  page_table : option Z;                (* the space machine->pageTable belongs to *)
  sems : gmap Z Semaphore;
  locks : gmap Z Lock;
  conds : gmap Z (list Z)
}.

Definition set_threads (k : kernel) m := mkKernel m (currentThread k) (readyList k)
  (threadToBeDestroyed k) (level k) (sleeping k) (registers k) (page_table k) (sems k) (locks k) (conds k).
Definition set_current (k : kernel) t := mkKernel (threads k) t (readyList k)
  (threadToBeDestroyed k) (level k) (sleeping k) (registers k) (page_table k) (sems k) (locks k) (conds k).
Definition set_ready (k : kernel) q := mkKernel (threads k) (currentThread k) q
  (threadToBeDestroyed k) (level k) (sleeping k) (registers k) (page_table k) (sems k) (locks k) (conds k).
Definition set_destroy (k : kernel) o := mkKernel (threads k) (currentThread k) (readyList k)
  o (level k) (sleeping k) (registers k) (page_table k) (sems k) (locks k) (conds k).
Definition set_level (k : kernel) l := mkKernel (threads k) (currentThread k) (readyList k)
  (threadToBeDestroyed k) l (sleeping k) (registers k) (page_table k) (sems k) (locks k) (conds k).
Definition set_sleeping (k : kernel) b := mkKernel (threads k) (currentThread k) (readyList k)
  (threadToBeDestroyed k) (level k) b (registers k) (page_table k) (sems k) (locks k) (conds k).
Definition set_machine (k : kernel) r p := mkKernel (threads k) (currentThread k) (readyList k)
  (threadToBeDestroyed k) (level k) (sleeping k) r p (sems k) (locks k) (conds k).
Definition set_sems (k : kernel) m := mkKernel (threads k) (currentThread k) (readyList k)
  (threadToBeDestroyed k) (level k) (sleeping k) (registers k) (page_table k) m (locks k) (conds k).
Definition set_locks (k : kernel) m := mkKernel (threads k) (currentThread k) (readyList k)
  (threadToBeDestroyed k) (level k) (sleeping k) (registers k) (page_table k) (sems k) m (conds k).
Definition set_conds (k : kernel) m := mkKernel (threads k) (currentThread k) (readyList k)
  (threadToBeDestroyed k) (level k) (sleeping k) (registers k) (page_table k) (sems k) (locks k) m.

Definition set_status (th : Thread) s := mkThread s (priorityLevel th) (stack th) (space th)
  (userRegisters th) (prog th) (in_SWITCH th) (oldLevel th).
Definition set_userRegisters (th : Thread) r := mkThread (status th) (priorityLevel th) (stack th)
  (space th) r (prog th) (in_SWITCH th) (oldLevel th).
Definition set_in_SWITCH (th : Thread) b := mkThread (status th) (priorityLevel th) (stack th)
  (space th) (userRegisters th) (prog th) b (oldLevel th).
Definition set_prog (th : Thread) p o := mkThread (status th) (priorityLevel th) (stack th)
  (space th) (userRegisters th) p (in_SWITCH th) o.
Definition set_stack (th : Thread) s p := mkThread (status th) (priorityLevel th) s
  (space th) (userRegisters th) p (in_SWITCH th) (oldLevel th).

(** A pointer to a thread that was deleted, or never created, is dangling. *)
Definition get_thread (t : Z) (k : kernel) : res Thread :=
  match threads k !! t with Some th => Ok th | None => Err NullDeref end.
Definition put_thread (t : Z) (th : Thread) (k : kernel) : kernel :=
  set_threads k (<[t := th]> (threads k)).
Definition update_thread (t : Z) (f : Thread -> Thread) (k : kernel) : res kernel :=
  th ← get_thread t k; mret (put_thread t (f th) k).

(** [Thread(name)] and [Thread(name, priority)], where what they leave
    uninitialised is [garbage], and [Thread(name, parent)]. *)
Definition new_Thread (garbage : Thread) : Thread :=
  mkThread JUST_CREATED (priorityLevel garbage) None None (userRegisters garbage) [] false None.
Definition new_Thread_priority (garbage : Thread) (priority : Z) : Thread :=
  mkThread (status garbage) priority (stack garbage) (space garbage) (userRegisters garbage)
    [] false None.
Definition new_Thread_child : Thread :=
  mkThread JUST_CREATED 1 None None (replicate (Z.to_nat NumTotalRegs) 0) [] false None.

Section scheduler.
(** The order in which [std::priority_queue] holds threads of equal priority is
    not specified: [pick] is the position of its top in the list of the
    priorities, in order of insertion. *)
Context (pick : list Z -> nat).

Definition ReadyToRun (t : Z) (k : kernel) : res kernel :=
  k ← update_thread t (fun th => set_status th READY) k;
  mret (set_ready k (readyList k ++ [t])).

Definition priority (k : kernel) (t : Z) : Z :=
  from_option priorityLevel 0 (threads k !! t).

Definition FindNextToRun (k : kernel) : option Z * kernel :=
  match readyList k with
  | [] => (None, k)
  | _ =>
      let i := pick (priority k <$> readyList k) in
      (readyList k !! i, set_ready k (take i (readyList k) ++ drop (S i) (readyList k)))
  end.

Definition SaveUserState (k : kernel) : res kernel :=
  update_thread (currentThread k) (fun th => set_userRegisters th (registers k)) k.

Definition RestoreUserState (k : kernel) : res kernel :=
  th ← get_thread (currentThread k) k; mret (set_machine k (userRegisters th) (page_table k)).

Definition CheckOverflow (th : Thread) : res unit :=
  match stack th with
  | None => mret tt
  | Some w => ASSERT (w =? STACK_FENCEPOST)
  end.

(** [delete thread] *)
Definition delete_Thread (t : Z) (k : kernel) : res kernel :=
  _ ← get_thread t k;
  _ ← ASSERT (negb (t =? currentThread k));
  mret (set_threads k (delete t (threads k))).

(** What a thread does when SWITCH returns to it. *)
Definition after_SWITCH (k : kernel) : res kernel :=
  k ← match threadToBeDestroyed k with
      | Some t => k ← delete_Thread t k; mret (set_destroy k None)
      | None => mret k
      end;
  th ← get_thread (currentThread k) k;
  match space th with
  | Some a => k ← RestoreUserState k; mret (set_machine k (registers k) (Some a))
  | None => mret k
  end.

(** A thread that runs for the first time starts at ThreadRoot; the others
    return from SWITCH. *)
Definition Run (next : Z) (k : kernel) : res kernel :=
  old ← get_thread (currentThread k) k;
  k ← match space old with Some _ => SaveUserState k | None => mret k end;
  _ ← CheckOverflow old;
  k ← update_thread (currentThread k) (fun th => set_in_SWITCH th true) k;
  k ← update_thread next (fun th => set_status th RUNNING) (set_current k next);
  th ← get_thread next k;
  if in_SWITCH th then after_SWITCH k else mret k.

(** The thread [old] is current and about to return from, or be suspended in, a
    call that saved the interrupt level: entering the call, or going on with it
    after SWITCH returned. *)
Definition enter (k : kernel) : res (IntStatus * kernel) :=
  th ← get_thread (currentThread k) k;
  mret (default (level k) (oldLevel th), set_level k IntOff).

(** Returning: [SetLevel(oldLevel)], and the thread goes on with [rest]. *)
Definition leave (old : IntStatus) (rest : list cmd) (k : kernel) : res kernel :=
  k ← update_thread (currentThread k) (fun th => set_prog th rest None) k;
  mret (set_level k old).

(** Stopping inside a call, to go on at [rest] with the local [oldLevel]. *)
Definition suspend (old : IntStatus) (rest : list cmd) (k : kernel) : res kernel :=
  update_thread (currentThread k) (fun th => set_prog th rest (Some old)) k.

(** [Sleep]: up to its loop, and one turn of the loop.  When no thread is ready
    the loop calls [Interrupt::Idle], which lets devices interrupt (see [kstep]
    in Synch.v). *)
Definition Sleep (k : kernel) : res kernel :=
  _ ← ASSERT (bool_decide (level k = IntOff));
  k ← update_thread (currentThread k) (fun th => set_status th BLOCKED) k;
  mret (set_sleeping k true).

Definition Sleep_loop (k : kernel) : res kernel :=
  match FindNextToRun k with
  | (Some next, k) => Run next (set_sleeping k false)
  | (None, k) => mret k
  end.

Definition Yield (rest : list cmd) (k : kernel) : res kernel :=
  '(old, k) ← enter k;
  match FindNextToRun k with
  | (Some next, k) =>
      k ← suspend old (CRestore :: rest) k;
      k ← ReadyToRun (currentThread k) k;
      Run next k
  | (None, k) => leave old rest k
  end.

Definition Finish (k : kernel) : res kernel :=
  let k := set_level k IntOff in
  let k := set_destroy k (Some (currentThread k)) in
  k ← suspend IntOff [] k;
  Sleep k.

(** [StackAllocate]: ThreadRoot enables interrupts, runs [func], finishes. *)
Definition StackAllocate (func : list cmd) (th : Thread) : Thread :=
  set_stack th (Some STACK_FENCEPOST) (CEnable :: func ++ [CFinish]).

(** [thread->Fork(func)] by the current thread; the calls [func] makes are what
    the new thread's control block holds as its program. *)
Definition Fork (t : Z) (rest : list cmd) (k : kernel) : res kernel :=
  k ← update_thread t (fun th => StackAllocate (prog th) th) k;
  '(old, k) ← enter k;
  k ← ReadyToRun t k;
  leave old rest k.

Definition Scheduler_Print (k : kernel) : list Z := readyList k.
End scheduler.
