(* ===== verification/Synch.v ===== *)
(** * Synch: threads/synch.h and threads/synch.cc

    Semaphores, locks and condition variables.  Every operation runs with
    interrupts off; a thread that has to wait puts itself on the queue of the
    object and sleeps, and tries again when it is woken.  [kstep] is one step of
    the whole kernel: a call of the current thread, a device interrupt, the end
    of a time slice, or a turn of the loop in Thread::Sleep. *)

From S2P Require Import Prelude Machine Interrupt Thread.

Definition get_sem (s : Z) (k : kernel) : res Semaphore :=
  match sems k !! s with Some x => Ok x | None => Err NullDeref end.
Definition get_lock (l : Z) (k : kernel) : res Lock :=
  match locks k !! l with Some x => Ok x | None => Err NullDeref end.
Definition get_cond (c : Z) (k : kernel) : res (list Z) :=
  match conds k !! c with Some x => Ok x | None => Err NullDeref end.
Definition put_sem (s : Z) (x : Semaphore) (k : kernel) : kernel := set_sems k (<[s := x]> (sems k)).
Definition put_lock (l : Z) (x : Lock) (k : kernel) : kernel := set_locks k (<[l := x]> (locks k)).
Definition put_cond (c : Z) (q : list Z) (k : kernel) : kernel := set_conds k (<[c := q]> (conds k)).

Definition new_Semaphore (initialValue : Z) : Semaphore := mkSemaphore initialValue [].
Definition new_Lock : Lock := mkLock true None [].
Definition new_Condition : list Z := [].

(** [thread = queue->Remove(); if (thread != NULL) scheduler->ReadyToRun(thread);] *)
Definition wake_first (q : list Z) (k : kernel) : res (list Z * kernel) :=
  match q with
  | [] => mret ([], k)
  | t :: q => k ← ReadyToRun t k; mret (q, k)
  end.

Definition P (s : Z) (rest : list cmd) (k : kernel) : res kernel :=
  '(old, k) ← enter k;
  sem ← get_sem s k;
  if value sem =? 0 then
    let k := put_sem s (mkSemaphore (value sem) (squeue sem ++ [currentThread k])) k in
    k ← suspend old (CP s :: rest) k;
    Sleep k
  else leave old rest (put_sem s (mkSemaphore (s32 (value sem - 1)) (squeue sem)) k).

(** V between its two calls of SetLevel. *)
Definition V_body (s : Z) (k : kernel) : res kernel :=
  sem ← get_sem s k;
  '(q, k) ← wake_first (squeue sem) k;
  mret (put_sem s (mkSemaphore (s32 (value sem + 1)) q) k).

Definition V (s : Z) (rest : list cmd) (k : kernel) : res kernel :=
  '(old, k) ← enter k; k ← V_body s k; leave old rest k.

(** [while (!available)], from its test. *)
Definition Acquire_loop (l : Z) (old : IntStatus) (rest : list cmd) (k : kernel) : res kernel :=
  lk ← get_lock l k;
  if negb (available lk) then
    let k := put_lock l (mkLock (available lk) (ownerThread lk) (lqueue lk ++ [currentThread k])) k in
    k ← suspend old (CAcquiring l :: rest) k;
    Sleep k
  else leave old rest (put_lock l (mkLock false (Some (currentThread k)) (lqueue lk)) k).

Definition isHeldByCurrentThread (lk : Lock) (k : kernel) : bool :=
  bool_decide (ownerThread lk = Some (currentThread k)).

Definition Acquire (l : Z) (rest : list cmd) (k : kernel) : res kernel :=
  '(old, k) ← enter k;
  lk ← get_lock l k;
  _ ← ASSERT (negb (isHeldByCurrentThread lk k));
  Acquire_loop l old rest k.

(** Acquire going on after Sleep. *)
Definition Acquiring (l : Z) (rest : list cmd) (k : kernel) : res kernel :=
  '(old, k) ← enter k; Acquire_loop l old rest k.

Definition Release_body (l : Z) (k : kernel) : res kernel :=
  lk ← get_lock l k;
  _ ← ASSERT (negb (available lk) || isHeldByCurrentThread lk k);
  '(q, k) ← wake_first (lqueue lk) k;
  mret (put_lock l (mkLock true None q) k).

Definition Release (l : Z) (rest : list cmd) (k : kernel) : res kernel :=
  '(old, k) ← enter k; k ← Release_body l k; leave old rest k.

Definition Wait (c l : Z) (rest : list cmd) (k : kernel) : res kernel :=
  '(old, k) ← enter k;
  lk ← get_lock l k;
  _ ← ASSERT (isHeldByCurrentThread lk k);
  k ← Release_body l k;
  q ← get_cond c k;
  let k := put_cond c (q ++ [currentThread k]) k in
  k ← suspend old (CAcquire l :: rest) k;
  Sleep k.

Definition Signal (c l : Z) (rest : list cmd) (k : kernel) : res kernel :=
  '(old, k) ← enter k;
  lk ← get_lock l k;
  _ ← ASSERT (isHeldByCurrentThread lk k);
  q ← get_cond c k;
  '(q, k) ← wake_first q k;
  leave old rest (put_cond c q k).

(** [while (!queue->IsEmpty())]: [n] bounds the number of turns. *)
Fixpoint broadcast_loop (n : nat) (c : Z) (k : kernel) : res kernel :=
  q ← get_cond c k;
  match q, n with
  | [], _ => mret k
  | _, O => Err OutOfFuel
  | _, S n => '(q, k) ← wake_first q k; broadcast_loop n c (put_cond c q k)
  end.

Definition Broadcast (c l : Z) (rest : list cmd) (k : kernel) : res kernel :=
  '(old, k) ← enter k;
  lk ← get_lock l k;
  _ ← ASSERT (isHeldByCurrentThread lk k);
  q ← get_cond c k;
  k ← broadcast_loop (length q) c k;
  leave old rest k.

(** User-level instructions change the machine's registers. *)
Definition User (regs : list Z) (rest : list cmd) (k : kernel) : res kernel :=
  k ← update_thread (currentThread k) (fun th => set_prog th rest (oldLevel th)) k;
  mret (set_machine k regs (page_table k)).

Section kernel.
Context (pick : list Z -> nat).

(** The current thread goes on: its next call. *)
Definition exec (k : kernel) : res kernel :=
  th ← get_thread (currentThread k) k;
  match prog th with
  | [] => Err NullDeref
  | c :: rest =>
      match c with
      | CEnable => leave IntOn rest k
      | CRestore => '(old, k) ← enter k; leave old rest k
      | CP s => P s rest k
      | CV s => V s rest k
      | CAcquire l => Acquire l rest k
      | CAcquiring l => Acquiring l rest k
      | CRelease l => Release l rest k
      | CWait c l => Wait c l rest k
      | CSignal c l => Signal c l rest k
      | CBroadcast c l => Broadcast c l rest k
      | CYield => Yield pick rest k
      | CFork t => Fork t rest k
      | CUser regs => User regs rest k
      | CFinish => Finish k
      end
  end.

(** The next call of the current thread. *)
Definition next_cmd (k : kernel) : option cmd :=
  match threads k !! currentThread k with Some th => head (prog th) | None => None end.

(** Fewer than [2^31 - 1] signals are pending, and a thread is forked once. *)
Definition no_overflow (k : kernel) : Prop :=
  forall s sem, sems k !! s = Some sem -> value sem < 2 ^ 31 - 1.
Definition fork_once (k : kernel) : Prop :=
  forall t, next_cmd k = Some (CFork t) ->
    exists th, threads k !! t = Some th /\ status th = JUST_CREATED.

(** One step of the kernel.  Device interrupts are taken when interrupts are
    enabled, or in Interrupt::Idle when no thread is ready; the end of a time
    slice makes the current thread yield. *)
Inductive kstep : kernel -> kernel -> Prop :=
  | step_exec k k' :
      sleeping k = false -> no_overflow k -> fork_once k -> exec k = Ok k' -> kstep k k'
  | step_sleep k k' :
      sleeping k = true -> readyList k <> [] -> Sleep_loop pick k = Ok k' -> kstep k k'
  | step_device s k k' :
      (sleeping k = false /\ level k = IntOn) \/ (sleeping k = true /\ readyList k = []) ->
      no_overflow k -> V_body s k = Ok k' -> kstep k k'
  | step_slice k k' th :
      sleeping k = false -> level k = IntOn -> threads k !! currentThread k = Some th ->
      Yield pick (prog th) k = Ok k' -> kstep k k'
  | step_create t p k :
      sleeping k = false -> threads k !! t = None ->
      kstep k (put_thread t (set_prog new_Thread_child p None) k).
End kernel.
