(* ===== verification/KernelInv.v ===== *)
(** * KernelInv: the invariant of the thread system

    What Thread.v and Synch.v maintain: every thread is in one place (on the CPU,
    on the ready list, or on one queue, according to its status), and no wakeup
    is lost.  The invariant is stated on a view of the kernel, in which the
    objects threads wait on are uniform, and shown for the few changes of the
    view all operations are made of. *)

From S2P Require Import Prelude Machine Interrupt Thread Synch.

(** The objects threads wait on, and the call a woken thread goes on with. *)
Inductive wobj := WSem (s : Z) | WLock (l : Z) | WCond (c : Z).

#[export] Instance wobj_eq_dec : EqDecision wobj.
Proof. solve_decision. Defined.

Definition waits_at (w : wobj) (p : list cmd) : Prop :=
  match w with
  | WSem s => head p = Some (CP s)
  | WLock l => head p = Some (CAcquiring l)
  | WCond _ => exists l, head p = Some (CAcquire l)
  end.

(** [retries w th]: [th] stopped inside the call that waits for [w]. *)
Definition retries (w : wobj) (th : Thread) : bool :=
  match oldLevel th, prog th, w with
  | Some _, CP s' :: _, WSem s => s' =? s
  | Some _, CAcquiring l' :: _, WLock l => l' =? l
  | _, _, _ => false
  end.

Record view := mkView {
  vm : gmap Z Thread;
  vcur : Z;
  vslp : bool;
  vready : list Z;
  vQ : wobj -> list Z;        (* the queue of an object *)
  vC : wobj -> Z;             (* how many waiters it could serve *)
  vd : option Z;
  vl : IntStatus
}.

Definition runnable (v : view) : list Z := (if vslp v then [] else [vcur v]) ++ vready v.

Definition retries_at (m : gmap Z Thread) (w : wobj) (t : Z) : bool :=
  from_option (retries w) false (m !! t).

(** The number of runnable threads that will look at [w] again. *)
Definition woken (v : view) (w : wobj) : Z :=
  zlen (filter (fun t => retries_at (vm v) w t = true) (runnable v)).

Record wfv (v : view) : Prop := {
  v_cur : exists th, vm v !! vcur v = Some th /\
    (vslp v = false -> status th = RUNNING /\ (oldLevel th <> None -> vl v = IntOff));
  v_slp : vslp v = true -> vl v = IntOff;
  v_run : forall t th, vm v !! t = Some th -> status th = RUNNING -> t = vcur v /\ vslp v = false;
  v_rdup : NoDup (vready v);
  v_ready : forall t, t ∈ vready v <-> exists th, vm v !! t = Some th /\ status th = READY;
  v_wait : forall w t, t ∈ vQ v w -> exists th, vm v !! t = Some th /\ status th = BLOCKED /\
    oldLevel th <> None /\ waits_at w (prog th);
  v_qdup : forall w, NoDup (vQ v w);
  v_one : forall w w' t, t ∈ vQ v w -> t ∈ vQ v w' -> w = w';
  v_dead : forall t, vd v = Some t -> exists th, vm v !! t = Some th /\ status th = BLOCKED /\
    (forall w, t ∉ vQ v w);
  v_credit : forall w, vQ v w <> [] -> vC v w <= woken v w
}.

(** ** Counting *)

Lemma filter_le {A} (f g : A -> bool) (l : list A) :
  (forall x, x ∈ l -> f x = true -> g x = true) ->
  zlen (filter (fun x => f x = true) l) <= zlen (filter (fun x => g x = true) l).
Proof.
  unfold zlen. induction l as [|x l IH]; intros H; [done|]. rewrite !filter_cons.
  assert (forall y, y ∈ l -> f y = true -> g y = true) as Hl by (intros y Hy; apply H; by right).
  specialize (IH Hl). specialize (H x ltac:(left)).
  repeat case_decide; cbn [length]; try lia. exfalso. auto.
Qed.

Lemma zlen_filter_perm {A} (f : A -> bool) (l l' : list A) :
  l ≡ₚ l' -> zlen (filter (fun x => f x = true) l) = zlen (filter (fun x => f x = true) l').
Proof. intros HP. unfold zlen. by rewrite HP. Qed.

Lemma zlen_filter_cons {A} (f : A -> bool) x (l : list A) :
  zlen (filter (fun x => f x = true) (x :: l)) =
  (if f x then 1 else 0) + zlen (filter (fun x => f x = true) l).
Proof.
  rewrite filter_cons. unfold zlen. case_decide as Hx.
  - rewrite Hx. cbn [length]. lia.
  - by destruct (f x).
Qed.

Lemma woken_nonneg v w : 0 <= woken v w.
Proof. unfold woken. apply zlen_nonneg. Qed.

Lemma retries_waits w th :
  waits_at w (prog th) -> oldLevel th <> None ->
  match w with WCond _ => True | _ => retries w th = true end.
Proof.
  intros Hw Ho. unfold retries. destruct (oldLevel th); [|done].
  destruct w as [s|l|c]; simpl in *; try done; destruct (prog th) as [|x p]; try done;
    simpl in Hw; injection Hw as ->; apply Z.eqb_refl.
Qed.

Lemma retries_cond c th : retries (WCond c) th = false.
Proof. unfold retries. destruct (oldLevel th), (prog th) as [|[] p]; done. Qed.

(** A thread stopped in one call retries one object only. *)
Lemma retries_inj w w' th : retries w th = true -> retries w' th = true -> w = w'.
Proof.
  unfold retries. destruct (oldLevel th); [|done]. destruct (prog th) as [|[] p]; try done;
    destruct w, w'; try done; intros ?%Z.eqb_eq ?%Z.eqb_eq; by subst.
Qed.

(** ** Changes of the view *)

Definition qset (Q : wobj -> list Z) (w : wobj) (q : list Z) : wobj -> list Z :=
  fun w' => if decide (w' = w) then q else Q w'.

Lemma qset_eq Q w q : qset Q w q w = q.
Proof. unfold qset. by rewrite decide_True. Qed.
Lemma qset_ne Q w w' q : w' <> w -> qset Q w q w' = Q w'.
Proof. intros. unfold qset. by rewrite decide_False. Qed.

(** Case analysis on the thread a lookup is about. *)
Ltac lookup_case t t' :=
  destruct (decide (t = t')) as [->|?];
  [rewrite ?lookup_insert_eq, ?lookup_delete_eq in *
  |rewrite ?lookup_insert_ne, ?lookup_delete_ne in * by done].

(** The counts do not look at threads that are not in the list. *)
Lemma count_insert m t th w (l : list Z) :
  t ∉ l -> zlen (filter (fun x => retries_at (<[t := th]> m) w x = true) l) =
           zlen (filter (fun x => retries_at m w x = true) l).
Proof.
  intros Ht. apply Z.le_antisymm; apply filter_le; intros x Hx; unfold retries_at;
    rewrite lookup_insert_ne by (intros ->; done); done.
Qed.

Lemma retries_at_eq m w t th : m !! t = Some th -> retries_at m w t = retries w th.
Proof. unfold retries_at. by intros ->. Qed.

Section changes.
Context (v : view) (Hv : wfv v).

Lemma cur_running th : vslp v = false -> vm v !! vcur v = Some th -> status th = RUNNING.
Proof. intros Hs E. destruct (v_cur v Hv) as (th' & E' & H). rewrite E in E'. simplify_eq. by apply H. Qed.

Lemma cur_not_ready : vslp v = false -> vcur v ∉ vready v.
Proof.
  intros Hs Hin. apply (v_ready v Hv) in Hin as (th & E & Hst).
  pose proof (cur_running th Hs E). congruence.
Qed.

Lemma cur_not_waiting w : vslp v = false -> vcur v ∉ vQ v w.
Proof.
  intros Hs Hin. apply (v_wait v Hv) in Hin as (th & E & Hst & _).
  pose proof (cur_running th Hs E). congruence.
Qed.

(** The changes that touch neither status nor program. *)
Definition same_thread (o o' : option Thread) : Prop :=
  match o, o' with
  | Some th, Some th' => status th' = status th /\ prog th' = prog th /\ oldLevel th' = oldLevel th
  | None, None => True
  | _, _ => False
  end.

Lemma wfv_frame m' :
  (forall t, same_thread (vm v !! t) (m' !! t)) ->
  wfv (mkView m' (vcur v) (vslp v) (vready v) (vQ v) (vC v) (vd v) (vl v)).
Proof.
  intros Hm.
  assert (forall t th, vm v !! t = Some th -> exists th', m' !! t = Some th' /\
    status th' = status th /\ prog th' = prog th /\ oldLevel th' = oldLevel th) as Hf.
  { intros t th E. specialize (Hm t). rewrite E in Hm. unfold same_thread in Hm.
    destruct (m' !! t) as [th'|]; [|done]. by exists th'. }
  assert (forall t th', m' !! t = Some th' -> exists th, vm v !! t = Some th /\
    status th' = status th /\ prog th' = prog th /\ oldLevel th' = oldLevel th) as Hb.
  { intros t th' E. specialize (Hm t). rewrite E in Hm. unfold same_thread in Hm.
    destruct (vm v !! t) as [th|]; [|done]. by exists th. }
  destruct Hv as [H1 H2 H3 H4 H5 H6 H7 H8 H9 H10]. split; simpl; try done.
  - destruct H1 as (th & E & H). apply Hf in E as (th' & E' & Hs & _ & Ho). exists th'.
    split; [done|]. by rewrite Hs, Ho.
  - intros t th' E' Hst. apply Hb in E' as (th & E & Hs & _). rewrite Hs in Hst. by eapply H3.
  - intros t. rewrite H5. split.
    + intros (th & E & Hst). apply Hf in E as (th' & E' & Hs & _). exists th'. split; congruence.
    + intros (th' & E' & Hst). apply Hb in E' as (th & E & Hs & _). exists th. split; congruence.
  - intros w t Ht. apply H6 in Ht as (th & E & ? & ? & ?).
    apply Hf in E as (th' & E' & Hs & Hp & Ho). exists th'. rewrite Hs, Hp, Ho. done.
  - intros t Ht. apply H9 in Ht as (th & E & ? & ?). apply Hf in E as (th' & E' & Hs & _). exists th'. by rewrite Hs.
  - intros w Hw. etransitivity; [by apply H10|]. unfold woken. simpl. apply filter_le.
    intros t _. unfold retries_at. specialize (Hm t). unfold same_thread in Hm.
    destruct (vm v !! t) as [th|], (m' !! t) as [th'|]; try done. destruct Hm as (_ & Hp & Ho).
    unfold retries. simpl. unfold retries. by rewrite Hp, Ho.
Qed.

(** The current thread blocks on [w]. *)
Lemma wfv_block w th th' :
  vslp v = false -> vm v !! vcur v = Some th -> vC v w = 0 ->
  status th' = BLOCKED -> oldLevel th' <> None -> waits_at w (prog th') ->
  (forall w', retries w' th = true -> w' = w) ->
  wfv (mkView (<[vcur v := th']> (vm v)) (vcur v) true (vready v)
         (qset (vQ v) w (vQ v w ++ [vcur v])) (vC v) (vd v) IntOff).
Proof.
  intros Hs E HC Hst Ho Hw Hr. pose proof (cur_running th Hs E) as Hrun.
  pose proof (cur_not_ready Hs) as Hnr. pose proof (fun w => cur_not_waiting w Hs) as Hnw.
  destruct Hv as [H1 H2 H3 H4 H5 H6 H7 H8 H9 H10]. split; simpl; try done.
  - exists th'. rewrite lookup_insert_eq. split; [done|]. by intros ?.
  - intros t thx Et Hx. lookup_case t (vcur v); [simplify_eq; congruence|].
    destruct (H3 t thx Et Hx). done.
  - intros t. rewrite H5. lookup_case t (vcur v); [|done].
    split; intros (x & Ex & Hx); simplify_eq; congruence.
  - intros w' t Ht. unfold qset in Ht. case_decide as Hd.
    + subst w'. apply elem_of_app in Ht as [Ht| ->%list_elem_of_singleton].
      * lookup_case t (vcur v); [by apply Hnw in Ht|]. by apply H6.
      * rewrite lookup_insert_eq. by exists th'.
    + lookup_case t (vcur v); [by apply Hnw in Ht|]. by apply H6.
  - intros w'. unfold qset. case_decide; [|apply H7]. subst. apply NoDup_app.
    split_and!; [apply H7| |apply NoDup_singleton].
    intros x Hx ->%list_elem_of_singleton. by apply Hnw in Hx.
  - intros w1 w2 t H' H''. unfold qset in *.
    assert (forall wx, t ∈ vQ v wx -> t <> vcur v) as Hne by (intros wx Hx ->; by apply Hnw in Hx).
    repeat case_decide; subst; rewrite ?elem_of_app, ?list_elem_of_singleton in *;
      naive_solver.
  - intros t Ht. apply H9 in Ht as (thd & Ed & Hsd & Hq).
    assert (t <> vcur v) by (intros ->; congruence). rewrite lookup_insert_ne by done.
    exists thd. split_and!; try done. intros w'. unfold qset. case_decide; [|apply Hq].
    rewrite elem_of_app, list_elem_of_singleton. intros [Hx|Hx]; [by apply Hq in Hx|done].
  - intros w' Hne. destruct (decide (w' = w)) as [->|Hd]; [rewrite HC; apply woken_nonneg|].
    rewrite qset_ne in Hne by done. specialize (H10 w' Hne). unfold woken, runnable in *.
    rewrite Hs in H10. simpl in *. rewrite zlen_filter_cons in H10.
    rewrite count_insert by done. rewrite (retries_at_eq _ _ _ _ E) in H10.
    destruct (retries w' th) eqn:Er; [|lia]. apply Hr in Er. done.
Qed.

(** The first waiter of [w] becomes ready. *)
Lemma wfv_wake w t q th th' C' :
  vQ v w = t :: q -> vm v !! t = Some th ->
  status th' = READY -> prog th' = prog th -> oldLevel th' = oldLevel th ->
  (forall w', w' <> w -> C' w' = vC v w') -> C' w <= vC v w + 1 ->
  match w with WCond _ => C' w <= 0 | _ => True end ->
  wfv (mkView (<[t := th']> (vm v)) (vcur v) (vslp v) (vready v ++ [t]) (qset (vQ v) w q) C'
         (vd v) (vl v)).
Proof.
  intros HQ E Hst Hp Ho HC HCw Hcond.
  assert (t ∈ vQ v w) as Hin by (rewrite HQ; by left).
  destruct (v_wait v Hv w t Hin) as (th0 & Ex & Hb & Hold & Hw).
  assert (th0 = th) by congruence. subst th0. clear Ex.
  assert (t ∉ vready v) as Hnr.
  { intros Hr. apply (v_ready v Hv) in Hr as (? & ? & ?). congruence. }
  assert (forall w' x, x ∈ qset (vQ v) w q w' -> x ∈ vQ v w' /\ x <> t) as Hq.
  { intros w' x. unfold qset. case_decide as Hd; intros Hx.
    - subst w'. pose proof (v_qdup v Hv w) as Hnd. rewrite HQ in Hnd |- *.
      apply NoDup_cons in Hnd as [Hnd _]. split; [by right|]. by intros ->.
    - split; [done|]. intros ->. apply Hd. by apply (v_one v Hv w' w t). }
  destruct Hv as [H1 H2 H3 H4 H5 H6 H7 H8 H9 H10]. split; simpl; try done.
  - destruct H1 as (thc & Ec & Hc). lookup_case t (vcur v); [|by exists thc].
    exists th'. split; [done|]. intros Hs. destruct (Hc Hs) as [Hr _]. congruence.
  - intros x thx Et Hx. lookup_case x t; [simplify_eq; congruence|]. by apply (H3 x thx).
  - apply NoDup_app. split_and!; [done| |apply NoDup_singleton].
    by intros x Hx ->%list_elem_of_singleton.
  - intros x. rewrite elem_of_app, list_elem_of_singleton, H5. lookup_case x t.
    + split; [|by right]. intros _. by exists th'.
    + split; [intros [?|?]; done|by left].
  - intros w' x Hx. apply Hq in Hx as [Hx Hne]. rewrite lookup_insert_ne by done. by apply H6.
  - intros w'. unfold qset. case_decide; [|apply H7]. subst. specialize (H7 w).
    rewrite HQ in H7. by apply NoDup_cons in H7 as [_ ?].
  - intros w1 w2 x Hx Hx'. apply Hq in Hx as [Hx _]. apply Hq in Hx' as [Hx' _]. by apply (H8 w1 w2 x).
  - intros x Hd. apply H9 in Hd as (thd & Ed & Hsd & Hnq).
    assert (x <> t) by (intros ->; by apply Hnq in Hin). rewrite lookup_insert_ne by done.
    exists thd. split_and!; try done. intros w' Hx. apply Hq in Hx as [Hx _]. by apply Hnq in Hx.
  - intros w' Hne.
    assert (woken v w' + (if retries w' th then 1 else 0) <=
      woken (mkView (<[t := th']> (vm v)) (vcur v) (vslp v) (vready v ++ [t]) (qset (vQ v) w q) C'
        (vd v) (vl v)) w') as Hwk.
    { unfold woken, runnable. simpl. rewrite app_assoc.
      rewrite (zlen_filter_perm _ (_ ++ [t]) (t :: (if vslp v then [] else [vcur v]) ++ vready v))
        by (by rewrite Permutation_app_comm).
      rewrite zlen_filter_cons.
      rewrite (retries_at_eq _ w' t th') by apply lookup_insert_eq.
      assert (retries w' th' = retries w' th) as -> by (unfold retries; by rewrite Hp, Ho).
      rewrite Z.add_comm, count_insert; [lia|]. rewrite elem_of_app. intros [Hx|Hx]; [|done].
      destruct H1 as (thc & Ec & Hc). destruct (vslp v); [by apply elem_of_nil in Hx|].
      apply list_elem_of_singleton in Hx as ->. destruct (Hc eq_refl) as [Hr _]. congruence. }
    destruct (decide (w' = w)) as [->|Hd].
    + pose proof (retries_waits w th Hw Hold) as Hr.
      assert (vC v w <= woken v w) by (apply H10; by rewrite HQ).
      destruct w; [rewrite Hr in Hwk; lia|rewrite Hr in Hwk; lia|].
      pose proof (woken_nonneg v (WCond c)). destruct (retries _ th); lia.
    + rewrite qset_ne in Hne by done. rewrite HC by done. specialize (H10 w' Hne).
      destruct (retries w' th); lia.
Qed.

(** Nobody waits for [w]: its credit may change. *)
Lemma wfv_skip C' :
  (forall w, vQ v w <> [] -> C' w <= vC v w) ->
  wfv (mkView (vm v) (vcur v) (vslp v) (vready v) (vQ v) C' (vd v) (vl v)).
Proof.
  intros HC. destruct Hv as [H1 H2 H3 H4 H5 H6 H7 H8 H9 H10]. split; simpl; try done.
  intros w Hw. specialize (HC w Hw). specialize (H10 w Hw). unfold woken, runnable in *. simpl. lia.
Qed.

(** The current thread goes on with something else. *)
Lemma wfv_go th th' C' l :
  vslp v = false -> vm v !! vcur v = Some th -> status th' = RUNNING ->
  (oldLevel th' <> None -> l = IntOff) ->
  (forall w, vQ v w <> [] -> C' w <= vC v w - (if retries w th then 1 else 0)) ->
  wfv (mkView (<[vcur v := th']> (vm v)) (vcur v) false (vready v) (vQ v) C' (vd v) l).
Proof.
  intros Hs E Hst Ho HC. pose proof (cur_running th Hs E) as Hrun.
  pose proof (cur_not_ready Hs) as Hnr. pose proof (fun w => cur_not_waiting w Hs) as Hnw.
  destruct Hv as [H1 H2 H3 H4 H5 H6 H7 H8 H9 H10]. split; simpl; try done.
  - exists th'. by rewrite lookup_insert_eq.
  - intros t thx Et Hx. lookup_case t (vcur v); [done|]. by destruct (H3 t thx Et Hx).
  - intros t. rewrite H5. lookup_case t (vcur v); [|done].
    split; intros (x & Ex & Hx); simplify_eq; congruence.
  - intros w' t Ht. lookup_case t (vcur v); [by apply Hnw in Ht|]. by apply H6.
  - intros t Ht. apply H9 in Ht as (thd & Ed & Hsd & Hq).
    assert (t <> vcur v) by (intros ->; congruence). rewrite lookup_insert_ne by done. by exists thd.
  - intros w' Hne. specialize (H10 w' Hne). specialize (HC w' Hne). unfold woken, runnable in *.
    rewrite Hs in H10. simpl in *. rewrite zlen_filter_cons in H10 |- *.
    rewrite count_insert by done. rewrite (retries_at_eq _ _ _ _ E) in H10.
    destruct (retries w' th), (retries_at _ w' _); lia.
Qed.

(** The current thread joins the ready list and looks for another (Yield). *)
Lemma wfv_requeue th th' :
  vslp v = false -> vm v !! vcur v = Some th -> status th' = READY ->
  (forall w, retries w th = false) ->
  wfv (mkView (<[vcur v := th']> (vm v)) (vcur v) true (vready v ++ [vcur v]) (vQ v) (vC v)
    (vd v) IntOff).
Proof.
  intros Hs E Hst Hr. pose proof (cur_running th Hs E) as Hrun.
  pose proof (cur_not_ready Hs) as Hnr. pose proof (fun w => cur_not_waiting w Hs) as Hnw.
  destruct Hv as [H1 H2 H3 H4 H5 H6 H7 H8 H9 H10]. split; simpl; try done.
  - exists th'. by rewrite lookup_insert_eq.
  - intros t thx Et Hx. lookup_case t (vcur v); [simplify_eq; congruence|].
    by destruct (H3 t thx Et Hx).
  - apply NoDup_app. split_and!; [done| |apply NoDup_singleton].
    by intros x Hx ->%list_elem_of_singleton.
  - intros x. rewrite elem_of_app, list_elem_of_singleton, H5. lookup_case x (vcur v).
    + split; [|by right]. intros _. by exists th'.
    + split; [intros [?|?]; done|by left].
  - intros w' t Ht. lookup_case t (vcur v); [by apply Hnw in Ht|]. by apply H6.
  - intros t Ht. apply H9 in Ht as (thd & Ed & Hsd & Hq).
    assert (t <> vcur v) by (intros ->; congruence). rewrite lookup_insert_ne by done. by exists thd.
  - intros w' Hne. specialize (H10 w' Hne). unfold woken, runnable in *. rewrite Hs in H10.
    simpl in *. rewrite (zlen_filter_perm _ (vready v ++ [vcur v]) (vcur v :: vready v))
      by (by rewrite Permutation_app_comm).
    rewrite zlen_filter_cons in H10 |- *. rewrite count_insert by done.
    rewrite (retries_at_eq _ _ _ _ E), Hr in H10. destruct (retries_at _ w' _); lia.
Qed.

(** The current thread finishes. *)
Lemma wfv_finish th th' :
  vslp v = false -> vm v !! vcur v = Some th -> status th' = BLOCKED ->
  (forall w, retries w th = false) ->
  wfv (mkView (<[vcur v := th']> (vm v)) (vcur v) true (vready v) (vQ v) (vC v)
    (Some (vcur v)) IntOff).
Proof.
  intros Hs E Hst Hr. pose proof (cur_running th Hs E) as Hrun.
  pose proof (cur_not_ready Hs) as Hnr. pose proof (fun w => cur_not_waiting w Hs) as Hnw.
  destruct Hv as [H1 H2 H3 H4 H5 H6 H7 H8 H9 H10]. split; simpl; try done.
  - exists th'. by rewrite lookup_insert_eq.
  - intros t thx Et Hx. lookup_case t (vcur v); [simplify_eq; congruence|].
    by destruct (H3 t thx Et Hx).
  - intros x. rewrite H5. lookup_case x (vcur v); [|done].
    split; intros (y & Ey & Hy); simplify_eq; congruence.
  - intros w' t Ht. lookup_case t (vcur v); [by apply Hnw in Ht|]. by apply H6.
  - intros t Ht. simplify_eq. exists th'. by rewrite lookup_insert_eq.
  - intros w' Hne. specialize (H10 w' Hne). unfold woken, runnable in *. rewrite Hs in H10.
    simpl in *. rewrite zlen_filter_cons, (retries_at_eq _ _ _ _ E), Hr in H10.
    rewrite count_insert by done. lia.
Qed.

(** A ready thread gets the CPU. *)
Lemma wfv_dispatch next th th' ready :
  vslp v = true -> vready v ≡ₚ next :: ready -> vm v !! next = Some th ->
  status th' = RUNNING -> prog th' = prog th -> oldLevel th' = oldLevel th ->
  wfv (mkView (<[next := th']> (vm v)) next false ready (vQ v) (vC v) (vd v) (vl v)).
Proof.
  intros Hs HP E Hst Hp Ho. destruct Hv as [H1 H2 H3 H4 H5 H6 H7 H8 H9 H10].
  pose proof H4 as Hnd. rewrite HP in Hnd. apply NoDup_cons in Hnd as [Hnn Hnd].
  assert (status th = READY) as Hrd.
  { assert (next ∈ vready v) as Hin by (rewrite HP; by left).
    apply H5 in Hin as (x & Ex & Hx). congruence. }
  split; simpl; try done.
  - exists th'. rewrite lookup_insert_eq. split; [done|]. intros _. split; [done|]. auto.
  - intros t thx Et Hx. lookup_case t next; [done|].
    destruct (H3 t thx Et Hx) as [_ Hf]. congruence.
  - intros x. assert (x ∈ ready <-> x ∈ vready v /\ x <> next) as ->.
    { rewrite HP, elem_of_cons. split; [|naive_solver]. intros Hx. split; [by right|]. by intros ->. }
    rewrite H5. lookup_case x next.
    + split; [by intros [_ ?]|]. intros (y & Ey & Hy). simplify_eq. congruence.
    + split; [by intros [? _]|]. intros ?. by split.
  - intros w' t Ht. apply H6 in Ht as (x & Ex & Hx & Hw). lookup_case t next; [congruence|]. by exists x.
  - intros t Ht. apply H9 in Ht as (x & Ex & Hx & Hq). lookup_case t next; [congruence|]. by exists x.
  - intros w' Hne. specialize (H10 w' Hne). unfold woken, runnable in *. rewrite Hs in H10.
    simpl in *. rewrite (zlen_filter_perm _ _ _ HP) in H10. rewrite zlen_filter_cons in H10 |- *.
    rewrite count_insert by done. rewrite (retries_at_eq _ _ _ _ E) in H10.
    rewrite (retries_at_eq _ w' next th') by apply lookup_insert_eq.
    assert (retries w' th' = retries w' th) as -> by (unfold retries; by rewrite Hp, Ho). done.
Qed.

(** The carcass of a finished thread goes. *)
Lemma wfv_delete t :
  vd v = Some t -> vslp v = false -> t <> vcur v /\
  wfv (mkView (delete t (vm v)) (vcur v) false (vready v) (vQ v) (vC v) None (vl v)).
Proof.
  intros Hd Hs. destruct Hv as [H1 H2 H3 H4 H5 H6 H7 H8 H9 H10].
  destruct (H9 t Hd) as (th & E & Hst & Hq). destruct H1 as (thc & Ec & Hc).
  assert (t <> vcur v) as Hne by (intros ->; destruct (Hc Hs); congruence).
  split; [done|]. split; simpl; try done.
  - exists thc. rewrite lookup_delete_ne by done. auto.
  - intros x thx Ex Hx. lookup_case x t; [done|]. by destruct (H3 x thx Ex Hx).
  - intros x. rewrite H5. lookup_case x t; [|done].
    split; intros (y & Ey & Hy); simplify_eq; congruence.
  - intros w' x Hx. assert (x <> t) by (intros ->; by apply Hq in Hx).
    rewrite lookup_delete_ne by done. by apply H6.
  - intros w' Hw. specialize (H10 w' Hw). etransitivity; [exact H10|]. unfold woken, runnable.
    simpl. rewrite Hs. apply filter_le. intros x Hx. unfold retries_at.
    assert (x <> t) as Hxt.
    { intros ->. apply elem_of_cons in Hx as [Hx|Hx]; [done|].
      apply H5 in Hx as (y & Ey & Hy). congruence. }
    by rewrite lookup_delete_ne.
Qed.

(** A thread is created, and a created thread is forked. *)
Lemma wfv_create t th' :
  vm v !! t = None -> status th' = JUST_CREATED ->
  wfv (mkView (<[t := th']> (vm v)) (vcur v) (vslp v) (vready v) (vQ v) (vC v) (vd v) (vl v)).
Proof.
  intros E Hst. destruct Hv as [H1 H2 H3 H4 H5 H6 H7 H8 H9 H10]. split; simpl; try done.
  - destruct H1 as (thc & Ec & Hc). exists thc. rewrite lookup_insert_ne by congruence. auto.
  - intros x thx Ex Hx. lookup_case x t; [simplify_eq; congruence|]. by apply (H3 x thx).
  - intros x. rewrite H5. lookup_case x t; [|done].
    split; intros (y & Ey & Hy); simplify_eq; congruence.
  - intros w' x Hx. apply H6 in Hx as (y & Ey & Hy). lookup_case x t; [congruence|]. by exists y.
  - intros x Hx. apply H9 in Hx as (y & Ey & Hy). lookup_case x t; [congruence|]. by exists y.
  - intros w' Hw. specialize (H10 w' Hw). etransitivity; [exact H10|]. unfold woken. simpl.
    apply filter_le. intros x Hx. unfold retries_at. lookup_case x t; [by rewrite E|done].
Qed.

Lemma wfv_fork t th th' :
  vm v !! t = Some th -> status th = JUST_CREATED -> t <> vcur v ->
  status th' = READY -> wfv (mkView (<[t := th']> (vm v)) (vcur v) (vslp v) (vready v ++ [t])
    (vQ v) (vC v) (vd v) (vl v)).
Proof.
  intros E Hst Hne Hst'. destruct Hv as [H1 H2 H3 H4 H5 H6 H7 H8 H9 H10].
  assert (t ∉ vready v) as Hnr by (intros Hx; apply H5 in Hx as (? & ? & ?); congruence).
  split; simpl; try done.
  - destruct H1 as (thc & Ec & Hc). exists thc. rewrite lookup_insert_ne by congruence. auto.
  - intros x thx Ex Hx. lookup_case x t; [simplify_eq; congruence|]. by apply (H3 x thx).
  - apply NoDup_app. split_and!; [done| |apply NoDup_singleton].
    by intros x Hx ->%list_elem_of_singleton.
  - intros x. rewrite elem_of_app, list_elem_of_singleton, H5. lookup_case x t.
    + split; [|by right]. intros _. by exists th'.
    + split; [intros [?|?]; done|by left].
  - intros w' x Hx. apply H6 in Hx as (y & Ey & Hy & Hr). lookup_case x t; [congruence|]. by exists y.
  - intros x Hx. apply H9 in Hx as (y & Ey & Hy & Hr). lookup_case x t; [congruence|]. by exists y.
  - intros w' Hw. specialize (H10 w' Hw). unfold woken, runnable in *. simpl. rewrite app_assoc.
    rewrite (zlen_filter_perm _ (_ ++ [t]) (t :: (if vslp v then [] else [vcur v]) ++ vready v))
      by (by rewrite Permutation_app_comm).
    rewrite zlen_filter_cons, count_insert.
    + destruct (retries_at _ w' _); lia.
    + rewrite elem_of_app. intros [Hx|Hx]; [|done]. destruct (vslp v); [by apply elem_of_nil in Hx|].
      by apply list_elem_of_singleton in Hx.
Qed.
End changes.

(** ** The view of a kernel *)

Definition queue (k : kernel) (w : wobj) : list Z :=
  match w with
  | WSem s => from_option squeue [] (sems k !! s)
  | WLock l => from_option lqueue [] (locks k !! l)
  | WCond c => default [] (conds k !! c)
  end.

(** How many waiters an object could serve at once. *)
Definition credit (k : kernel) (w : wobj) : Z :=
  match w with
  | WSem s => from_option value 0 (sems k !! s)
  | WLock l => from_option (fun lk => if available lk then 1 else 0) 0 (locks k !! l)
  | WCond c => 0
  end.

(** The invariant with the credits [C]. *)
Definition wfc (k : kernel) (C : wobj -> Z) : Prop :=
  wfv (mkView (threads k) (currentThread k) (sleeping k) (readyList k) (queue k) C
         (threadToBeDestroyed k) (level k)).

Record kwf (k : kernel) : Prop := {
  kw_view : wfc k (credit k);
  kw_sem : forall s sem, sems k !! s = Some sem -> 0 <= value sem < 2 ^ 31;
  kw_lock : forall l lk, locks k !! l = Some lk -> available lk = true <-> ownerThread lk = None
}.

(** The objects that wait queues and credits are read from. *)
Definition objects_wf (k : kernel) : Prop :=
  (forall s sem, sems k !! s = Some sem -> 0 <= value sem < 2 ^ 31) /\
  (forall l lk, locks k !! l = Some lk -> available lk = true <-> ownerThread lk = None).

Lemma wfv_ext v v' :
  wfv v -> vm v' = vm v -> vcur v' = vcur v -> vslp v' = vslp v -> vready v' = vready v ->
  vd v' = vd v -> vl v' = vl v -> (forall w, vQ v' w = vQ v w) ->
  (forall w, vQ v w <> [] -> vC v' w <= vC v w) -> wfv v'.
Proof.
  destruct v as [m cu sl re Q C d l], v' as [m' cu' sl' re' Q' C' d' l']. simpl.
  intros [H1 H2 H3 H4 H5 H6 H7 H8 H9 H10] -> -> -> -> -> -> HQ HC. simpl in *.
  split; simpl; try done.
  - intros w t. rewrite HQ. apply H6.
  - intros w. rewrite HQ. apply H7.
  - intros w w' t. rewrite !HQ. apply H8.
  - intros t Ht. apply H9 in Ht as (th & ? & ? & Hq). exists th. split_and!; try done.
    intros w. rewrite HQ. apply Hq.
  - intros w. rewrite HQ. intros Hw. specialize (HC w Hw). specialize (H10 w Hw).
    unfold woken, runnable in *. simpl in *. lia.
Qed.

Lemma queue_put_sem s x k w : queue (put_sem s x k) w = qset (queue k) (WSem s) (squeue x) w.
Proof.
  unfold qset, put_sem. destruct (decide (w = WSem s)) as [->|Hd]; [simpl; by rewrite lookup_insert_eq|].
  destruct w; simpl; try done. rewrite lookup_insert_ne by congruence. done.
Qed.

Lemma queue_put_lock l x k w : queue (put_lock l x k) w = qset (queue k) (WLock l) (lqueue x) w.
Proof.
  unfold qset, put_lock. destruct (decide (w = WLock l)) as [->|Hd]; [simpl; by rewrite lookup_insert_eq|].
  destruct w; simpl; try done. rewrite lookup_insert_ne by congruence. done.
Qed.

Lemma queue_put_cond c x k w : queue (put_cond c x k) w = qset (queue k) (WCond c) x w.
Proof.
  unfold qset, put_cond. destruct (decide (w = WCond c)) as [->|Hd]; [simpl; by rewrite lookup_insert_eq|].
  destruct w; simpl; try done. rewrite lookup_insert_ne by congruence. done.
Qed.

Lemma credit_put_sem s x k w :
  credit (put_sem s x k) w = if decide (w = WSem s) then value x else credit k w.
Proof.
  unfold put_sem. destruct (decide (w = WSem s)) as [->|Hd]; [simpl; by rewrite lookup_insert_eq|].
  destruct w; simpl; try done. rewrite lookup_insert_ne by congruence. done.
Qed.

Lemma credit_put_lock l x k w :
  credit (put_lock l x k) w =
    if decide (w = WLock l) then (if available x then 1 else 0) else credit k w.
Proof.
  unfold put_lock. destruct (decide (w = WLock l)) as [->|Hd]; [simpl; by rewrite lookup_insert_eq|].
  destruct w; simpl; try done. rewrite lookup_insert_ne by congruence. done.
Qed.

Lemma qset_id Q w w' : qset Q w (Q w) w' = Q w'.
Proof. unfold qset. by case_decide; subst. Qed.

Lemma get_thread_Ok t k th : get_thread t k = Ok th -> threads k !! t = Some th.
Proof. unfold get_thread. destruct (threads k !! t); [|done]. by intros [= ->]. Qed.

Lemma update_thread_inv t f k k' :
  update_thread t f k = Ok k' ->
  exists th, threads k !! t = Some th /\ k' = put_thread t (f th) k.
Proof.
  unfold update_thread. intros H. inv_res. apply get_thread_Ok in E. by eexists.
Qed.

Lemma enter_inv k old k' :
  enter k = Ok (old, k') -> exists th, threads k !! currentThread k = Some th /\
    old = default (level k) (oldLevel th) /\ k' = set_level k IntOff.
Proof. unfold enter. intros H. inv_res. apply get_thread_Ok in E. by eexists. Qed.

Lemma leave_inv old rest k k' :
  leave old rest k = Ok k' -> exists th, threads k !! currentThread k = Some th /\
    k' = set_level (put_thread (currentThread k) (set_prog th rest None) k) old.
Proof. unfold leave. intros H. inv_res. apply update_thread_inv in E as (th & ? & ->). by exists th. Qed.

Lemma suspend_inv old rest k k' :
  suspend old rest k = Ok k' -> exists th, threads k !! currentThread k = Some th /\
    k' = put_thread (currentThread k) (set_prog th rest (Some old)) k.
Proof. unfold suspend. intros H. apply update_thread_inv in H as (th & ? & ->). by exists th. Qed.

Lemma Sleep_inv k k' :
  Sleep k = Ok k' -> exists th, threads k !! currentThread k = Some th /\ level k = IntOff /\
    k' = set_sleeping (put_thread (currentThread k) (set_status th BLOCKED) k) true.
Proof.
  unfold Sleep. intros H. inv_res. apply update_thread_inv in E0 as (th & ? & ->).
  apply bool_decide_eq_true in E. by exists th.
Qed.

Lemma ReadyToRun_inv t k k' :
  ReadyToRun t k = Ok k' -> exists th, threads k !! t = Some th /\
    k' = set_ready (put_thread t (set_status th READY) k) (readyList k ++ [t]).
Proof. unfold ReadyToRun. intros H. inv_res. apply update_thread_inv in E as (th & ? & ->). by exists th. Qed.

Lemma get_sem_Ok s k x : get_sem s k = Ok x -> sems k !! s = Some x.
Proof. unfold get_sem. destruct (sems k !! s); [|done]. by intros [= ->]. Qed.
Lemma get_lock_Ok s k x : get_lock s k = Ok x -> locks k !! s = Some x.
Proof. unfold get_lock. destruct (locks k !! s); [|done]. by intros [= ->]. Qed.
Lemma get_cond_Ok s k x : get_cond s k = Ok x -> conds k !! s = Some x.
Proof. unfold get_cond. destruct (conds k !! s); [|done]. by intros [= ->]. Qed.

(** Invert the operations of Thread.v in the context. *)
Ltac inv_ops :=
  repeat (inv_res; match goal with
  | H : enter _ = Ok ?p |- _ => is_var p; destruct p as [? ?]
  | H : wake_first _ _ = Ok ?p |- _ => is_var p; destruct p as [? ?]
  | H : enter _ = Ok (_, _) |- _ => apply enter_inv in H as (? & ? & ? & ?); subst
  | H : leave _ _ _ = Ok _ |- _ => apply leave_inv in H as (? & ? & ?); subst
  | H : suspend _ _ _ = Ok _ |- _ => apply suspend_inv in H as (? & ? & ?); subst
  | H : Sleep _ = Ok _ |- _ => apply Sleep_inv in H as (? & ? & ? & ?); subst
  | H : ReadyToRun _ _ = Ok _ |- _ => apply ReadyToRun_inv in H as (? & ? & ?); subst
  | H : update_thread _ _ _ = Ok _ |- _ => apply update_thread_inv in H as (? & ? & ?); subst
  | H : get_thread _ _ = Ok _ |- _ => apply get_thread_Ok in H
  | H : get_sem _ _ = Ok _ |- _ => apply get_sem_Ok in H
  | H : get_lock _ _ = Ok _ |- _ => apply get_lock_Ok in H
  | H : get_cond _ _ = Ok _ |- _ => apply get_cond_Ok in H
  end); inv_res.

(** ** The pieces of the operations keep the invariant *)

(** [k'] is [k] up to the objects. *)
Definition same_cpu (k k' : kernel) : Prop :=
  threads k' = threads k /\ currentThread k' = currentThread k /\ sleeping k' = sleeping k /\
  readyList k' = readyList k /\ threadToBeDestroyed k' = threadToBeDestroyed k /\
  level k' = level k.

Lemma wfc_cur k C th :
  wfc k C -> sleeping k = false -> threads k !! currentThread k = Some th -> status th = RUNNING.
Proof. intros Hw Hs E. exact (cur_running _ Hw th Hs E). Qed.

Lemma wfc_off k C : wfc k C -> wfc (set_level k IntOff) C.
Proof.
  intros [H1 H2 H3 H4 H5 H6 H7 H8 H9 H10]. split; simpl in *; try done.
  destruct H1 as (th & E & H). exists th. split; [done|]. intros Hs. destruct (H Hs). by split.
Qed.

Lemma wfc_credit k C C' :
  wfc k C -> (forall w, queue k w <> [] -> C' w <= C w) -> wfc k C'.
Proof. intros H HC. exact (wfv_skip _ H C' HC). Qed.

Lemma wfc_leave k C C' old rest th k' :
  wfc k C -> sleeping k = false -> threads k !! currentThread k = Some th ->
  (forall w, queue k w <> [] -> C' w <= C w - (if retries w th then 1 else 0)) ->
  leave old rest k = Ok k' -> wfc k' C'.
Proof.
  intros Hw Hs E HC Hl. apply leave_inv in Hl as (th' & E' & ->).
  assert (th' = th) by congruence. subst th'.
  pose proof (wfc_cur _ _ _ Hw Hs E) as Hr.
  pose proof (wfv_go _ Hw th (set_prog th rest None) C' old Hs E Hr ltac:(done) HC) as H.
  simpl in H. unfold wfc. simpl. by rewrite Hs.
Qed.

Lemma wfc_block k C w k1 old p th k2 k3 :
  wfc k C -> sleeping k = false -> threads k !! currentThread k = Some th -> C w = 0 ->
  waits_at w p -> (forall w', retries w' th = true -> w' = w) -> same_cpu k k1 ->
  (forall w', queue k1 w' = qset (queue k) w (queue k w ++ [currentThread k]) w') ->
  suspend old p k1 = Ok k2 -> Sleep k2 = Ok k3 -> wfc k3 C.
Proof.
  intros Hw Hs E HC Hp Hr (E1 & E2 & E3 & E4 & E5 & E6) HQ Hsu Hsl.
  apply suspend_inv in Hsu as (th1 & Eth1 & ->). apply Sleep_inv in Hsl as (th2 & Eth2 & Hlv & ->).
  simpl in Eth2. rewrite lookup_insert_eq in Eth2. injection Eth2 as <-.
  rewrite E1, E2, E in Eth1. injection Eth1 as <-.
  assert (retries w th = retries w th) by done.
  pose proof (wfv_block _ Hw w th (set_status (set_prog th p (Some old)) BLOCKED) Hs E HC
    eq_refl ltac:(done) Hp Hr) as H'. simpl in H'.
  eapply wfv_ext; [exact H'|..]; simpl; rewrite ?E1, ?E2, ?insert_insert_eq; try done.
Qed.

Lemma wfc_wake k C w q k1 k2 C' :
  wfc k C -> wake_first (queue k w) k = Ok (q, k1) -> same_cpu k1 k2 ->
  (forall w', queue k2 w' = qset (queue k) w q w') ->
  (forall w', w' <> w -> C' w' = C w') ->
  (queue k w <> [] -> C' w <= C w + 1) -> (forall c, w = WCond c -> C' w <= 0) ->
  wfc k2 C' /\ (forall t, threads k1 !! t = threads k !! t \/
    (t ∈ queue k w /\ exists th, threads k !! t = Some th /\ threads k1 !! t = Some (set_status th READY))).
Proof.
  intros Hw Hwk (E1 & E2 & E3 & E4 & E5 & E6) HQ HC HCw Hcond.
  destruct (queue k w) as [|t q'] eqn:Eq; simpl in Hwk; inv_res.
  - split; [|by left]. eapply wfv_ext; [exact Hw|..]; simpl; try done.
    + intros w'. rewrite HQ. unfold qset. case_decide; [by subst|done].
    + intros w' Hne. destruct (decide (w' = w)) as [->|]; [done|]. by rewrite HC.
  - apply ReadyToRun_inv in E as (th & Eth & ->). split.
    + pose proof (wfv_wake _ Hw w t q th (set_status th READY) C' Eq Eth eq_refl eq_refl eq_refl HC
        (HCw ltac:(done))) as H. simpl in H.
      eapply wfv_ext; [apply H|..]; simpl; try done.
      destruct w; [done|done|]. by apply Hcond with c.
    + intros x. simpl. destruct (decide (x = t)) as [->|].
      * right. split; [by left|]. exists th. by rewrite lookup_insert_eq.
      * left. by rewrite lookup_insert_ne.
Qed.

(** ** The operations keep the invariant *)

Lemma retries_head w th :
  retries w th = true ->
  match head (prog th) with
  | Some (CP s) => w = WSem s | Some (CAcquiring l) => w = WLock l | _ => False
  end.
Proof.
  unfold retries. destruct (oldLevel th); [|done]. destruct (prog th) as [|[] p]; simpl; try done;
    destruct w; try done; intros ?%Z.eqb_eq; by subst.
Qed.

Lemma objects_put_sem k s x :
  objects_wf k -> 0 <= value x < 2 ^ 31 -> objects_wf (put_sem s x k).
Proof.
  intros [H1 H2] Hx. split; [|exact H2]. intros s' x' E. simpl in E.
  apply lookup_insert_Some in E as [[-> ->]|[_ E]]; [done|by eapply H1].
Qed.

Lemma objects_put_lock k l x :
  objects_wf k -> (available x = true <-> ownerThread x = None) -> objects_wf (put_lock l x k).
Proof.
  intros [H1 H2] Hx. split; [exact H1|]. intros s' x' E. simpl in E.
  apply lookup_insert_Some in E as [[-> ->]|[_ E]]; [done|by eapply H2].
Qed.

Lemma kwf_objects k : kwf k -> objects_wf k.
Proof. intros [_ ? ?]. by split. Qed.

Lemma wake_first_same q k q' k' :
  wake_first q k = Ok (q', k') ->
  currentThread k' = currentThread k /\ sleeping k' = sleeping k /\ level k' = level k /\
  sems k' = sems k /\ locks k' = locks k /\ conds k' = conds k /\
  threadToBeDestroyed k' = threadToBeDestroyed k /\ q' = tail q.
Proof.
  unfold wake_first. intros H. destruct q; inv_ops; done.
Qed.

Ltac same_cpu_tac := repeat split; reflexivity.

Lemma P_wf k s rest th k' :
  kwf k -> sleeping k = false -> threads k !! currentThread k = Some th ->
  head (prog th) = Some (CP s) -> P s rest k = Ok k' -> kwf k'.
Proof.
  intros Hk Hs E Hp H. pose proof (kw_view _ Hk) as Hw. pose proof (kwf_objects _ Hk) as Ho.
  unfold P in H. apply bind_inv in H as ([old k0] & E0 & H). apply enter_inv in E0 as (th0 & _ & _ & ->).
  apply bind_inv in H as (sem & Es & H). apply get_sem_Ok in Es. simpl in Es.
  pose proof (kw_sem _ Hk s sem Es) as Hv.
  assert (forall w, retries w th = true -> w = WSem s) as Hr.
  { intros w Hr. apply retries_head in Hr. by rewrite Hp in Hr. }
  assert (forall w, queue k w = qset (queue k) (WSem s) (squeue sem) w) as HQ.
  { intros w. rewrite <- (qset_id (queue k) (WSem s) w). simpl. by rewrite Es. }
  destruct (Z.eqb_spec (value sem) 0) as [H0|H0]; cbv zeta in H.
  - apply bind_inv in H as (k2 & Hsu & Hsl).
    assert (wfc k' (credit k)) as Hw'.
    { refine (wfc_block (set_level k IntOff) (credit k) (WSem s) _ old _ th k2 k' _ Hs E _ _ Hr
        _ _ Hsu Hsl).
      - by apply wfc_off.
      - simpl. by rewrite Es.
      - done.
      - same_cpu_tac.
      - intros w. rewrite queue_put_sem. simpl. by rewrite Es. }
    apply suspend_inv in Hsu as (? & _ & ->). apply Sleep_inv in Hsl as (? & _ & _ & ->).
    assert (objects_wf (put_sem s (mkSemaphore (value sem) (squeue sem ++ [currentThread k])) k))
      as [O1 O2] by by apply objects_put_sem.
    split; [|exact O1|exact O2]. eapply wfc_credit; [exact Hw'|]. intros w _.
    change (credit (put_sem s (mkSemaphore (value sem) (squeue sem ++ [currentThread k])) k) w <=
      credit k w). rewrite credit_put_sem. case_decide; [subst; simpl; by rewrite Es|done].
  - set (k1 := put_sem s _ _) in H.
    assert (wfc k1 (credit k)) as Hw1.
    { eapply wfv_ext; [apply (wfc_off _ _ Hw)|..]; simpl; try done.
      intros w. unfold k1. rewrite queue_put_sem. symmetry. apply HQ. }
    pose proof (wfc_leave k1 (credit k) (credit k1) old rest th k' Hw1 Hs E) as Hl.
    pose proof H as Hlv. apply leave_inv in Hlv as (? & _ & ->).
    assert (s32 (value sem - 1) = value sem - 1) as Hs32 by (apply s32_id; word_lia).
    assert (objects_wf k1) as [O1 O2] by (apply objects_put_sem; [done|simpl; lia]).
    split; [|exact O1|exact O2]. apply Hl; [|done]. intros w _.
    unfold k1. rewrite credit_put_sem. change (credit (set_level k IntOff) w) with (credit k w).
    case_decide as Hd.
    + subst. simpl. rewrite Es, Hs32. simpl. destruct (retries _ th); lia.
    + destruct (retries w th) eqn:Er; [by apply Hr in Er|lia].
Qed.

(** A wakeup seen by a thread that goes on. *)
Lemma wake_current k C w q k1 th :
  wfc k C -> sleeping k = false -> threads k !! currentThread k = Some th ->
  (forall t, threads k1 !! t = threads k !! t \/
    (t ∈ queue k w /\ exists th, threads k !! t = Some th /\ threads k1 !! t = Some (set_status th READY))) ->
  wake_first (queue k w) k = Ok (q, k1) -> threads k1 !! currentThread k1 = Some th.
Proof.
  intros Hw Hs E Ht Hk. pose proof (wake_first_same _ _ _ _ Hk) as (-> & _).
  destruct (Ht (currentThread k)) as [->|[Hin _]]; [done|].
  exfalso. by eapply (cur_not_waiting _ Hw w Hs).
Qed.

Lemma V_body_wf k s k' :
  wfc k (credit k) -> objects_wf k -> no_overflow k -> V_body s k = Ok k' ->
  wfc k' (credit k') /\ objects_wf k' /\ currentThread k' = currentThread k /\
  sleeping k' = sleeping k /\ level k' = level k /\
  (sleeping k = false -> threads k' !! currentThread k = threads k !! currentThread k).
Proof.
  intros Hw Ho Hov H. unfold V_body in H. apply bind_inv in H as (sem & Es & H).
  apply get_sem_Ok in Es. apply bind_inv in H as ([q k1] & Ewk & H). unfold mret, res_ret in H.
  apply Ok_inj in H. subst k'. set (k2 := put_sem _ _ _).
  pose proof (wake_first_same _ _ _ _ Ewk) as (Hc & Hsl & Hlv & Hse & Hlo & Hco & _).
  assert (squeue sem = queue k (WSem s)) as Eq by (simpl; by rewrite Es). rewrite Eq in Ewk.
  pose proof (proj1 Ho s sem Es) as Hv. pose proof (Hov s sem Es) as Hlt.
  assert (s32 (value sem + 1) = value sem + 1) as Hs32 by (apply s32_id; word_lia).
  destruct (wfc_wake k (credit k) (WSem s) q k1 k2 (credit k2) Hw Ewk) as [Hw2 Ht].
  - same_cpu_tac.
  - intros w. unfold k2. rewrite queue_put_sem. unfold qset. case_decide; [done|].
    destruct w; simpl; by rewrite ?Hse, ?Hlo, ?Hco.
  - intros w Hne. unfold k2. rewrite credit_put_sem. case_decide; [done|].
    destruct w; simpl; by rewrite ?Hse, ?Hlo, ?Hco.
  - intros _. unfold k2. rewrite credit_put_sem. case_decide; [|done]. simpl. rewrite Es, Hs32.
    simpl. lia.
  - done.
  - split; [done|]. split; [|split_and!; try done].
    + apply objects_put_sem; [|simpl; lia]. destruct Ho as [O1 O2]. split; by rewrite ?Hse, ?Hlo.
    + intros Hs. simpl. destruct (Ht (currentThread k)) as [->|[Hin _]]; [done|].
      exfalso. by eapply (cur_not_waiting _ Hw (WSem s) Hs).
Qed.

(** Leaving a call whose effect on the objects is already counted. *)
Lemma leave_wf k old rest th k' :
  wfc k (credit k) -> objects_wf k -> sleeping k = false ->
  threads k !! currentThread k = Some th -> (forall w, retries w th = false) ->
  leave old rest k = Ok k' -> kwf k'.
Proof.
  intros Hw [O1 O2] Hs E Hr H. pose proof H as H'. apply leave_inv in H' as (? & _ & ->).
  split; [|exact O1|exact O2]. eapply (wfc_leave k (credit k) _ old rest th); try done.
  intros w _. rewrite Hr. simpl.
  change (credit k w <= credit k w - 0). lia.
Qed.

Lemma off_wfc k : wfc k (credit k) -> wfc (set_level k IntOff) (credit (set_level k IntOff)).
Proof. exact (wfc_off k (credit k)). Qed.

Lemma V_wf k s rest th k' :
  kwf k -> sleeping k = false -> threads k !! currentThread k = Some th -> no_overflow k ->
  (forall w, retries w th = false) -> V s rest k = Ok k' -> kwf k'.
Proof.
  intros Hk Hs E Hov Hr H. unfold V in H. apply bind_inv in H as ([old k0] & E0 & H).
  apply enter_inv in E0 as (th0 & _ & _ & ->). apply bind_inv in H as (k1 & Hb & H).
  destruct (V_body_wf _ _ _ (off_wfc _ (kw_view _ Hk)) (kwf_objects _ Hk) Hov Hb) as
    (Hw & Ho & Hc & Hsl & _ & Ht).
  eapply leave_wf; [exact Hw|exact Ho|by rewrite Hsl| |exact Hr|exact H].
  rewrite Hc. simpl in Ht |- *. by rewrite Ht.
Qed.

Lemma Acquire_loop_wf k l old rest th k' :
  kwf k -> sleeping k = false -> threads k !! currentThread k = Some th ->
  (forall w, retries w th = true -> w = WLock l) ->
  Acquire_loop l old rest (set_level k IntOff) = Ok k' -> kwf k'.
Proof.
  intros Hk Hs E Hr H. pose proof (kw_view _ Hk) as Hw. pose proof (kwf_objects _ Hk) as Ho.
  unfold Acquire_loop in H. apply bind_inv in H as (lk & El & H). apply get_lock_Ok in El. simpl in El.
  pose proof (kw_lock _ Hk l lk El) as Hiff.
  destruct (available lk) eqn:Ea; cbv zeta in H; cbn [negb] in H.
  - set (k1 := put_lock l _ _) in H.
    assert (wfc k1 (credit k)) as Hw1.
    { eapply wfv_ext; [apply (wfc_off _ _ Hw)|..]; simpl; try done.
      intros w. unfold k1. rewrite queue_put_lock. simpl. unfold qset. case_decide; [subst|done].
      simpl. by rewrite El. }
    pose proof (wfc_leave k1 (credit k) (credit k1) old rest th k' Hw1 Hs E) as Hlv.
    assert (objects_wf k1) as [O1 O2] by by apply objects_put_lock.
    pose proof H as H'. apply leave_inv in H' as (? & _ & ->).
    split; [|exact O1|exact O2]. apply Hlv; [|done]. intros w _.
    unfold k1. rewrite credit_put_lock. change (credit (set_level k IntOff) w) with (credit k w).
    case_decide as Hd.
    + subst. simpl. rewrite El. simpl. rewrite Ea. destruct (retries _ th); lia.
    + destruct (retries w th) eqn:Er; [by apply Hr in Er|lia].
  - apply bind_inv in H as (k2 & Hsu & Hsl). set (lk' := mkLock _ _ _) in Hsu.
    assert (wfc k' (credit k)) as Hw'.
    { refine (wfc_block (set_level k IntOff) (credit k) (WLock l) _ old _ th k2 k' _ Hs E _ _ Hr
        _ _ Hsu Hsl).
      - by apply wfc_off.
      - simpl. rewrite El. simpl. by rewrite Ea.
      - done.
      - same_cpu_tac.
      - intros w. rewrite queue_put_lock. simpl. by rewrite El. }
    apply suspend_inv in Hsu as (? & _ & ->). apply Sleep_inv in Hsl as (? & _ & _ & ->).
    assert (objects_wf (put_lock l lk' k)) as [O1 O2] by by apply objects_put_lock.
    split; [|exact O1|exact O2]. eapply wfc_credit; [exact Hw'|]. intros w _.
    change (credit (put_lock l lk' k) w <= credit k w).
    rewrite credit_put_lock. case_decide; [subst; simpl; rewrite El; simpl; by rewrite Ea|done].
Qed.

Lemma Acquire_wf k l rest th k' :
  kwf k -> sleeping k = false -> threads k !! currentThread k = Some th ->
  (forall w, retries w th = true -> w = WLock l) ->
  Acquire l rest k = Ok k' \/ Acquiring l rest k = Ok k' -> kwf k'.
Proof.
  intros Hk Hs E Hr [H|H]; unfold Acquire, Acquiring in H; apply bind_inv in H as ([old k0] & E0 & H);
    apply enter_inv in E0 as (th0 & _ & _ & ->).
  - apply bind_inv in H as (lk & _ & H). apply bind_inv in H as (u & _ & H).
    by eapply Acquire_loop_wf.
  - by eapply Acquire_loop_wf.
Qed.

Lemma Release_body_wf k l k' :
  wfc k (credit k) -> objects_wf k -> Release_body l k = Ok k' ->
  wfc k' (credit k') /\ objects_wf k' /\ currentThread k' = currentThread k /\
  sleeping k' = sleeping k /\ level k' = level k /\ conds k' = conds k /\
  (sleeping k = false -> threads k' !! currentThread k = threads k !! currentThread k).
Proof.
  intros Hw Ho H. unfold Release_body in H. apply bind_inv in H as (lk & El & H).
  apply get_lock_Ok in El. apply bind_inv in H as (u & _ & H).
  apply bind_inv in H as ([q k1] & Ewk & H). unfold mret, res_ret in H.
  apply Ok_inj in H. subst k'. set (k2 := put_lock _ _ _).
  pose proof (wake_first_same _ _ _ _ Ewk) as (Hc & Hsl & Hlv & Hse & Hlo & Hco & _).
  assert (lqueue lk = queue k (WLock l)) as Eq by (simpl; by rewrite El). rewrite Eq in Ewk.
  destruct (wfc_wake k (credit k) (WLock l) q k1 k2 (credit k2) Hw Ewk) as [Hw2 Ht].
  - same_cpu_tac.
  - intros w. unfold k2. rewrite queue_put_lock. unfold qset. case_decide; [done|].
    destruct w; simpl; by rewrite ?Hse, ?Hlo, ?Hco.
  - intros w Hne. unfold k2. rewrite credit_put_lock. case_decide; [done|].
    destruct w; simpl; by rewrite ?Hse, ?Hlo, ?Hco.
  - intros _. unfold k2. rewrite credit_put_lock. case_decide; [|done]. simpl. rewrite El.
    simpl. destruct (available lk); lia.
  - done.
  - split; [done|]. split; [|split_and!; try done].
    + apply objects_put_lock; [|done]. destruct Ho as [O1 O2]. split; by rewrite ?Hse, ?Hlo.
    + intros Hs. simpl. destruct (Ht (currentThread k)) as [->|[Hin _]]; [done|].
      exfalso. by eapply (cur_not_waiting _ Hw (WLock l) Hs).
Qed.

Lemma Release_wf k l rest th k' :
  kwf k -> sleeping k = false -> threads k !! currentThread k = Some th ->
  (forall w, retries w th = false) -> Release l rest k = Ok k' -> kwf k'.
Proof.
  intros Hk Hs E Hr H. unfold Release in H. apply bind_inv in H as ([old k0] & E0 & H).
  apply enter_inv in E0 as (th0 & _ & _ & ->). apply bind_inv in H as (k1 & Hb & H).
  destruct (Release_body_wf _ _ _ (off_wfc _ (kw_view _ Hk)) (kwf_objects _ Hk) Hb) as
    (Hw & Ho & Hc & Hsl & _ & _ & Ht).
  eapply leave_wf; [exact Hw|exact Ho|by rewrite Hsl| |exact Hr|exact H].
  rewrite Hc. simpl in Ht |- *. by rewrite Ht.
Qed.

Lemma Wait_wf k c l rest th k' :
  kwf k -> sleeping k = false -> threads k !! currentThread k = Some th ->
  (forall w, retries w th = false) -> Wait c l rest k = Ok k' -> kwf k'.
Proof.
  intros Hk Hs E Hr H. unfold Wait in H. apply bind_inv in H as ([old k0] & E0 & H).
  apply enter_inv in E0 as (th0 & _ & _ & ->). apply bind_inv in H as (lk & _ & H).
  apply bind_inv in H as (u & _ & H). apply bind_inv in H as (k1 & Hb & H).
  destruct (Release_body_wf _ _ _ (off_wfc _ (kw_view _ Hk)) (kwf_objects _ Hk) Hb) as
    (Hw & Ho & Hc & Hsl & _ & Hco & Ht).
  apply bind_inv in H as (q & Eq & H). apply get_cond_Ok in Eq. cbv zeta in H.
  apply bind_inv in H as (k2 & Hsu & Hsleep).
  assert (threads k1 !! currentThread k1 = Some th) as E1 by (rewrite Hc; simpl in *; by rewrite Ht).
  assert (wfc k' (credit k1)) as Hw'.
  { refine (wfc_block k1 (credit k1) (WCond c) _ old _ th k2 k' Hw _ E1 eq_refl _ _ _ _ Hsu Hsleep).
    - by rewrite Hsl.
    - by exists l.
    - intros w Hx. by rewrite Hr in Hx.
    - same_cpu_tac.
    - intros w. rewrite queue_put_cond. simpl. by rewrite Eq. }
  apply suspend_inv in Hsu as (? & _ & ->). apply Sleep_inv in Hsleep as (? & _ & _ & ->).
  destruct Ho as [O1 O2]. split; [|exact O1|exact O2]. eapply wfc_credit; [exact Hw'|].
  intros w _. by destruct w.
Qed.

(** Waking one waiter of a condition. *)
Lemma wake_cond_wf k c q q' k1 :
  wfc k (credit k) -> objects_wf k -> sleeping k = false -> conds k !! c = Some q ->
  wake_first q k = Ok (q', k1) ->
  let k2 := put_cond c q' k1 in
  wfc k2 (credit k2) /\ objects_wf k2 /\ sleeping k2 = false /\
  currentThread k2 = currentThread k /\
  threads k2 !! currentThread k = threads k !! currentThread k.
Proof.
  intros Hw Ho Hs Eq Ewk k2.
  pose proof (wake_first_same _ _ _ _ Ewk) as (Hc & Hsl & Hlv & Hse & Hlo & Hco & _).
  assert (q = queue k (WCond c)) as Eq' by (simpl; by rewrite Eq). rewrite Eq' in Ewk.
  destruct (wfc_wake k (credit k) (WCond c) q' k1 k2 (credit k2) Hw Ewk) as [Hw2 Ht].
  - same_cpu_tac.
  - intros w. unfold k2. rewrite queue_put_cond. unfold qset. case_decide; [done|].
    destruct w; simpl; by rewrite ?Hse, ?Hlo, ?Hco.
  - intros w Hne. destruct w; simpl; by rewrite ?Hse, ?Hlo.
  - intros _. simpl. lia.
  - intros c' [= <-]. simpl. lia.
  - split; [done|]. split; [destruct Ho as [O1 O2]; split; simpl; by rewrite ?Hse, ?Hlo|].
    split_and!; try done; simpl; [by rewrite Hsl|].
    destruct (Ht (currentThread k)) as [->|[Hin _]]; [done|].
    exfalso. by eapply (cur_not_waiting _ Hw (WCond c) Hs).
Qed.

Lemma Signal_wf k c l rest th k' :
  kwf k -> sleeping k = false -> threads k !! currentThread k = Some th ->
  (forall w, retries w th = false) -> Signal c l rest k = Ok k' -> kwf k'.
Proof.
  intros Hk Hs E Hr H. unfold Signal in H. apply bind_inv in H as ([old k0] & E0 & H).
  apply enter_inv in E0 as (th0 & _ & _ & ->). apply bind_inv in H as (lk & _ & H).
  apply bind_inv in H as (u & _ & H). apply bind_inv in H as (q & Eq & H). apply get_cond_Ok in Eq.
  apply bind_inv in H as ([q' k1] & Ewk & H).
  destruct (wake_cond_wf _ _ _ _ _ (off_wfc _ (kw_view _ Hk)) (kwf_objects _ Hk) Hs Eq Ewk) as
    (Hw & Ho & Hsl & Hc & Ht).
  eapply leave_wf; [exact Hw|exact Ho|exact Hsl| |exact Hr|exact H]. rewrite Hc, Ht. exact E.
Qed.

Lemma broadcast_loop_wf c n : forall k k',
  wfc k (credit k) -> objects_wf k -> sleeping k = false -> broadcast_loop n c k = Ok k' ->
  wfc k' (credit k') /\ objects_wf k' /\ sleeping k' = false /\
  currentThread k' = currentThread k /\
  threads k' !! currentThread k = threads k !! currentThread k.
Proof.
  induction n as [|n IH]; intros k k' Hw Ho Hs H; cbn [broadcast_loop] in H;
    apply bind_inv in H as (q & Eq & H); apply get_cond_Ok in Eq; destruct q as [|t q];
    try (apply Ok_inj in H; subst k'; done); [done|].
  apply bind_inv in H as ([q' k1] & Ewk & H).
  destruct (wake_cond_wf _ _ _ _ _ Hw Ho Hs Eq Ewk) as (Hw' & Ho' & Hsl & Hc & Ht).
  destruct (IH _ _ Hw' Ho' Hsl H) as (Hw2 & Ho2 & Hs2 & Hc2 & Ht2).
  split_and!; try done; [by rewrite Hc2|]. rewrite Hc in Ht2. by rewrite Ht2.
Qed.

Lemma Broadcast_wf k c l rest th k' :
  kwf k -> sleeping k = false -> threads k !! currentThread k = Some th ->
  (forall w, retries w th = false) -> Broadcast c l rest k = Ok k' -> kwf k'.
Proof.
  intros Hk Hs E Hr H. unfold Broadcast in H. apply bind_inv in H as ([old k0] & E0 & H).
  apply enter_inv in E0 as (th0 & _ & _ & ->). apply bind_inv in H as (lk & _ & H).
  apply bind_inv in H as (u & _ & H). apply bind_inv in H as (q & _ & H).
  apply bind_inv in H as (k1 & Hb & H).
  destruct (broadcast_loop_wf _ _ _ _ (off_wfc _ (kw_view _ Hk)) (kwf_objects _ Hk) Hs Hb) as
    (Hw & Ho & Hsl & Hc & Ht).
  eapply leave_wf; [exact Hw|exact Ho|exact Hsl| |exact Hr|exact H]. rewrite Hc, Ht. exact E.
Qed.

(** ** The scheduler keeps the invariant *)

(** [k'] has the objects of [k]. *)
Definition same_objects (k k' : kernel) : Prop :=
  sems k' = sems k /\ locks k' = locks k /\ conds k' = conds k.

Lemma same_objects_queue k k' w : same_objects k k' -> queue k' w = queue k w.
Proof. intros (E1 & E2 & E3). destruct w; simpl; by rewrite ?E1, ?E2, ?E3. Qed.
Lemma same_objects_credit k k' w : same_objects k k' -> credit k' w = credit k w.
Proof. intros (E1 & E2 & E3). destruct w; simpl; by rewrite ?E1, ?E2, ?E3. Qed.
Lemma same_objects_wf k k' : same_objects k k' -> objects_wf k -> objects_wf k'.
Proof. intros (E1 & E2 & E3) [O1 O2]. split; by rewrite ?E1, ?E2. Qed.

(** What [after_SWITCH] and [Run] do to everything but the registers. *)
Lemma after_SWITCH_inv k k' :
  after_SWITCH k = Ok k' ->
  same_objects k k' /\ currentThread k' = currentThread k /\ sleeping k' = sleeping k /\
  readyList k' = readyList k /\ level k' = level k /\ threadToBeDestroyed k' = None /\
  threads k' = match threadToBeDestroyed k with Some t => delete t (threads k) | None => threads k end.
Proof.
  unfold after_SWITCH. intros H. apply bind_inv in H as (k1 & E1 & H).
  assert (same_objects k k1 /\ currentThread k1 = currentThread k /\ sleeping k1 = sleeping k /\
    readyList k1 = readyList k /\ level k1 = level k /\ threadToBeDestroyed k1 = None /\
    threads k1 = match threadToBeDestroyed k with Some t => delete t (threads k) | None => threads k end)
    as H1.
  { destruct (threadToBeDestroyed k) as [t|] eqn:Et.
    - apply bind_inv in E1 as (k0 & E0 & E1). apply Ok_inj in E1. subst k1.
      unfold delete_Thread in E0. inv_res. done.
    - apply Ok_inj in E1. by subst k1. }
  apply bind_inv in H as (th & _ & H). destruct (space th) as [a|].
  - apply bind_inv in H as (k2 & E2 & H). apply Ok_inj in H. subst k'.
    unfold RestoreUserState in E2. apply bind_inv in E2 as (th' & _ & E2). apply Ok_inj in E2. by subst k2.
  - apply Ok_inj in H. by subst k'.
Qed.

Lemma same_thread_put (m : gmap Z Thread) t th th' :
  m !! t = Some th -> status th' = status th -> prog th' = prog th -> oldLevel th' = oldLevel th ->
  forall x, same_thread (m !! x) (<[t := th']> m !! x).
Proof.
  intros E H1 H2 H3 x. lookup_case x t; [by rewrite E|]. unfold same_thread.
  by destruct (m !! x).
Qed.

Lemma same_thread_trans a b c : same_thread a b -> same_thread b c -> same_thread a c.
Proof.
  unfold same_thread. destruct a, b, c; try done. intros (? & ? & ?) (? & ? & ?).
  split_and!; congruence.
Qed.

Lemma same_thread_refl a : same_thread a a.
Proof. by destruct a. Qed.

Lemma Run_inv next k k' :
  Run next k = Ok k' ->
  exists m th, (forall t, same_thread (threads k !! t) (m !! t)) /\ m !! next = Some th /\
    same_objects k k' /\ currentThread k' = next /\ sleeping k' = sleeping k /\
    readyList k' = readyList k /\ level k' = level k /\
    let m' := <[next := set_status th RUNNING]> m in
    (threads k' = m' /\ threadToBeDestroyed k' = threadToBeDestroyed k) \/
    (exists t, threadToBeDestroyed k = Some t /\ threads k' = delete t m' /\
       threadToBeDestroyed k' = None).
Proof.
  unfold Run. intros H. apply bind_inv in H as (old & Eold & H). apply get_thread_Ok in Eold.
  apply bind_inv in H as (k1 & E1 & H). apply bind_inv in H as (u & _ & H).
  apply bind_inv in H as (k2 & E2 & H). apply update_thread_inv in E2 as (th2 & Eth2 & ->).
  apply bind_inv in H as (k3 & E3 & H). apply update_thread_inv in E3 as (th3 & Eth3 & ->).
  assert ((forall t, same_thread (threads k !! t) (threads k1 !! t)) /\ same_objects k k1 /\
    currentThread k1 = currentThread k /\ sleeping k1 = sleeping k /\ readyList k1 = readyList k /\
    level k1 = level k /\ threadToBeDestroyed k1 = threadToBeDestroyed k)
    as (Hsame & Hso & Hc & Hsl & Hr & Hl & Hd).
  { destruct (space old).
    - apply update_thread_inv in E1 as (th1 & Eth1 & ->). split; [|done].
      by apply same_thread_put with th1.
    - apply Ok_inj in E1. subst k1. split; [intros t; apply same_thread_refl|done]. }
  simpl in Eth3. exists (<[currentThread k1 := set_in_SWITCH th2 true]> (threads k1)), th3.
  split; [|split; [exact Eth3|]].
  { intros t. eapply same_thread_trans; [apply Hsame|]. by apply same_thread_put with th2. }
  apply bind_inv in H as (th & _ & H). destruct (in_SWITCH th).
  - apply after_SWITCH_inv in H as (H1 & H2 & H3 & H4 & H5 & H6 & H7). simpl in *.
    rewrite H2, H3, H4, H5, H7. split_and!; try done.
    + destruct H1 as (A & B & C), Hso as (A' & B' & C'). simpl in *. split_and!; congruence.
    + rewrite Hd. destruct (threadToBeDestroyed k) as [t|]; [right; by exists t|by left].
  - apply Ok_inj in H. subst k'. simpl. split_and!; try done. by left.
Qed.

(** Dispatching from a state in which the CPU looks for a thread. *)
Lemma Run_wf k C next k' :
  wfv (mkView (threads k) (currentThread k) true (next :: readyList k) (queue k) C
         (threadToBeDestroyed k) IntOff) ->
  sleeping k = false -> level k = IntOff -> Run next k = Ok k' ->
  wfc k' C /\ same_objects k k' /\ level k' = IntOff /\ sleeping k' = false /\
  currentThread k' = next.
Proof.
  intros Hw Hs Hlv H.
  apply Run_inv in H as (m & th & Hm & Eth & Hso & Hc & Hsl & Hr & Hl & Hcase).
  split; [|split_and!; try done; congruence].
  pose proof (wfv_frame _ Hw m Hm) as Hw1. simpl in Hw1.
  pose proof (wfv_dispatch _ Hw1 next th (set_status th RUNNING) (readyList k) eq_refl
    (reflexivity _) Eth eq_refl eq_refl eq_refl) as Hw2. simpl in Hw2.
  destruct Hcase as [[Ht Hd]|(t & Ed & Ht & Hd)].
  - eapply wfv_ext; [exact Hw2|..]; simpl; try congruence; [|done].
    intros w. by apply same_objects_queue.
  - destruct (wfv_delete _ Hw2 t Ed eq_refl) as [_ Hw3]. simpl in Hw3.
    eapply wfv_ext; [exact Hw3|..]; simpl; try congruence; [|done].
    intros w. by apply same_objects_queue.
Qed.

(** The order of the ready list does not matter. *)
Lemma wfv_perm v r :
  wfv v -> vready v ≡ₚ r ->
  wfv (mkView (vm v) (vcur v) (vslp v) r (vQ v) (vC v) (vd v) (vl v)).
Proof.
  intros [H1 H2 H3 H4 H5 H6 H7 H8 H9 H10] HP. split; simpl; try done.
  - by rewrite <- HP.
  - intros x. by rewrite <- HP.
  - intros w Hw. etransitivity; [by apply H10|]. unfold woken, runnable. simpl.
    apply Z.eq_le_incl, zlen_filter_perm. by rewrite HP.
Qed.

Section kernel_wf.
Context (pick : list Z -> nat).
(** The top of the priority queue is one of its elements. *)
Context (pick_lt : forall q, q <> [] -> (pick q < length q)%nat).

Lemma FindNextToRun_spec k :
  match readyList k with
  | [] => FindNextToRun pick k = (None, k)
  | _ => exists next rest, FindNextToRun pick k = (Some next, set_ready k rest) /\
           readyList k ≡ₚ next :: rest
  end.
Proof.
  unfold FindNextToRun. destruct (readyList k) as [|t q] eqn:E; [done|].
  set (i := pick _). assert (i < length (t :: q))%nat as Hi.
  { assert (priority k <$> t :: q <> []) as Hne by (cbn; congruence).
    pose proof (pick_lt _ Hne) as Hi. by rewrite length_fmap in Hi. }
  destruct (lookup_lt_is_Some_2 (t :: q) i Hi) as [next En]. exists next, (take i (t :: q) ++ drop (S i) (t :: q)).
  rewrite En. split; [done|]. rewrite <- (take_drop_middle (t :: q) i next En) at 1.
  by rewrite <- Permutation_middle.
Qed.

Lemma kwf_same k k' :
  wfc k' (credit k) -> objects_wf k -> same_objects k k' -> kwf k'.
Proof.
  intros Hw Ho Hso. destruct (same_objects_wf _ _ Hso Ho) as [O1 O2]. split; [|exact O1|exact O2].
  eapply wfc_credit; [exact Hw|]. intros w _. by rewrite (same_objects_credit _ _ _ Hso).
Qed.

Lemma Sleep_loop_wf k k' :
  kwf k -> sleeping k = true -> Sleep_loop pick k = Ok k' -> kwf k'.
Proof.
  intros Hk Hs H. pose proof (kw_view _ Hk) as Hw. unfold Sleep_loop in H.
  pose proof (FindNextToRun_spec k) as HF. destruct (readyList k) as [|t q] eqn:Er.
  - rewrite HF in H. apply Ok_inj in H. by subst k'.
  - destruct HF as (next & rest & HF & HP). rewrite HF in H.
    assert (level k = IntOff) as Hl by (by apply (v_slp _ Hw)).
    destruct (Run_wf (set_sleeping (set_ready k rest) false) (credit k) next k') as (Hw' & Hso & _).
    + unfold wfc in Hw. rewrite Hs, Hl in Hw. exact (wfv_perm _ (next :: rest) Hw ltac:(by rewrite <- HP, <- Er)).
    + done.
    + done.
    + exact H.
    + apply (kwf_same k); [exact Hw'|by apply kwf_objects|exact Hso].
Qed.

Lemma Yield_wf k rest th k' :
  kwf k -> sleeping k = false -> threads k !! currentThread k = Some th ->
  (forall w, retries w th = false) -> Yield pick rest k = Ok k' -> kwf k'.
Proof.
  intros Hk Hs E Hr H. pose proof (kw_view _ Hk) as Hw. unfold Yield in H.
  apply bind_inv in H as ([old k0] & E0 & H). apply enter_inv in E0 as (th0 & _ & _ & ->).
  pose proof (FindNextToRun_spec (set_level k IntOff)) as HF. simpl in HF.
  destruct (readyList k) as [|t q] eqn:Er.
  - rewrite HF in H. eapply leave_wf; [exact (off_wfc _ Hw)| |exact Hs|exact E|exact Hr|exact H].
    exact (kwf_objects _ Hk).
  - destruct HF as (next & rest' & HF & HP). rewrite HF in H.
    apply bind_inv in H as (k1 & Hsu & H). apply suspend_inv in Hsu as (th1 & Eth1 & ->).
    simpl in Eth1. assert (th1 = th) by congruence. subst th1.
    apply bind_inv in H as (k2 & Hrd & H). apply ReadyToRun_inv in Hrd as (th2 & Eth2 & ->).
    simpl in Eth2. rewrite lookup_insert_eq in Eth2. injection Eth2 as <-.
    set (th' := set_status (set_prog th (CRestore :: rest) (Some old)) READY) in H.
    pose proof (wfv_requeue _ Hw th th' Hs E eq_refl Hr) as Hw1. simpl in Hw1.
    match type of H with Run _ ?k0 = _ =>
      destruct (Run_wf k0 (credit k) next k') as (Hw' & Hso & _); [|exact Hs|done|exact H|] end.
    + simpl. rewrite insert_insert_eq. rewrite Er in Hw1.
      apply (wfv_perm _ (next :: rest' ++ [currentThread k])) in Hw1; [exact Hw1|].
      exact (Permutation_app_tail [currentThread k] HP).
    + apply (kwf_same k); [exact Hw'|by apply kwf_objects|]. exact Hso.
Qed.

Lemma Fork_wf k t rest th tt k' :
  kwf k -> sleeping k = false -> threads k !! currentThread k = Some th ->
  (forall w, retries w th = false) -> threads k !! t = Some tt -> status tt = JUST_CREATED ->
  Fork t rest k = Ok k' -> kwf k'.
Proof.
  intros Hk Hs E Hr Et Hst H. pose proof (kw_view _ Hk) as Hw. unfold Fork in H.
  apply bind_inv in H as (k1 & E1 & H). apply update_thread_inv in E1 as (t1 & Et1 & ->).
  assert (t1 = tt) by congruence. subst t1.
  apply bind_inv in H as ([old k0] & E0 & H). apply enter_inv in E0 as (th0 & _ & _ & ->).
  apply bind_inv in H as (k2 & E2 & H). apply ReadyToRun_inv in E2 as (t2 & Et2 & ->).
  simpl in Et2. rewrite lookup_insert_eq in Et2. injection Et2 as <-.
  assert (t <> currentThread k) as Hne.
  { intros ->. pose proof (wfc_cur _ _ _ Hw Hs E). congruence. }
  set (tt' := set_status (StackAllocate (prog tt) tt) READY) in H.
  pose proof (wfv_fork _ (wfc_off _ _ Hw) t tt tt' Et Hst Hne eq_refl) as Hw1. simpl in Hw1.
  refine (leave_wf _ old rest th k' _ _ _ _ Hr H).
  - eapply wfv_ext; [exact Hw1|..]; simpl; try done. by rewrite insert_insert_eq.
  - exact (kwf_objects _ Hk).
  - exact Hs.
  - simpl. by rewrite !lookup_insert_ne.
Qed.

Lemma Finish_wf k th k' :
  kwf k -> sleeping k = false -> threads k !! currentThread k = Some th ->
  (forall w, retries w th = false) -> Finish k = Ok k' -> kwf k'.
Proof.
  intros Hk Hs E Hr H. pose proof (kw_view _ Hk) as Hw. unfold Finish in H. cbv zeta in H.
  apply bind_inv in H as (k1 & Hsu & Hsl). apply suspend_inv in Hsu as (th1 & Eth1 & ->).
  simpl in Eth1. assert (th1 = th) by congruence. subst th1.
  apply Sleep_inv in Hsl as (th2 & Eth2 & _ & ->). simpl in Eth2.
  rewrite lookup_insert_eq in Eth2. injection Eth2 as <-.
  destruct (kwf_objects _ Hk) as [O1 O2]. split; [|exact O1|exact O2].
  pose proof (wfv_finish _ Hw th (set_status (set_prog th [] (Some IntOff)) BLOCKED) Hs E eq_refl Hr)
    as Hw1. simpl in Hw1.
  eapply wfv_ext; [exact Hw1|..]; simpl; try done. by rewrite insert_insert_eq.
Qed.

Lemma User_wf k regs rest th k' :
  kwf k -> sleeping k = false -> threads k !! currentThread k = Some th ->
  (forall w, retries w th = false) -> User regs rest k = Ok k' -> kwf k'.
Proof.
  intros Hk Hs E Hr H. pose proof (kw_view _ Hk) as Hw. unfold User in H.
  apply bind_inv in H as (k1 & E1 & H). apply update_thread_inv in E1 as (th1 & Eth1 & ->).
  assert (th1 = th) by congruence. subst th1. apply Ok_inj in H. subst k'.
  destruct (kwf_objects _ Hk) as [O1 O2]. split; [|exact O1|exact O2].
  pose proof (wfc_cur _ _ _ Hw Hs E) as Hrun.
  assert (oldLevel th <> None -> level k = IntOff) as Ho.
  { destruct (v_cur _ Hw) as (x & Ex & Hx). simpl in *. rewrite E in Ex. injection Ex as <-. by apply Hx. }
  pose proof (wfv_go _ Hw th (set_prog th rest (oldLevel th)) (credit k) (level k) Hs E Hrun Ho) as Hw1.
  simpl in Hw1. eapply wfv_ext; [apply Hw1|..]; simpl; try done.
  intros w _. rewrite Hr. lia.
Qed.

Lemma exec_wf k k' :
  kwf k -> sleeping k = false -> no_overflow k -> fork_once k -> exec pick k = Ok k' -> kwf k'.
Proof.
  intros Hk Hs Hov Hf H. unfold exec in H. apply bind_inv in H as (th & E & H).
  apply get_thread_Ok in E. destruct (prog th) as [|c rest] eqn:Ep; [done|].
  pose proof (fun w => retries_head w th) as Hr. rewrite Ep in Hr. simpl in Hr.
  destruct c; try (assert (forall w, retries w th = false) as Hr' by
    (intros w; destruct (retries w th) eqn:Er; [by apply Hr in Er|done])).
  - refine (leave_wf k IntOn rest th k' (kw_view _ Hk) (kwf_objects _ Hk) Hs E Hr' H).
  - apply bind_inv in H as ([old k0] & E0 & H). apply enter_inv in E0 as (th0 & _ & _ & ->).
    exact (leave_wf _ old rest th k' (off_wfc _ (kw_view _ Hk)) (kwf_objects _ Hk) Hs E Hr' H).
  - eapply P_wf; try done. by rewrite Ep.
  - by eapply V_wf.
  - eapply (Acquire_wf k l); [done..| |by left]. intros w Hw. by rewrite Hr' in Hw.
  - by eapply Release_wf.
  - eapply (Acquire_wf k l); [done..| |by right]. intros w Hw. exact (Hr w Hw).
  - by eapply Wait_wf.
  - by eapply Signal_wf.
  - by eapply Broadcast_wf.
  - by eapply Yield_wf.
  - destruct (Hf t) as (tt & Et & Hst); [unfold next_cmd; by rewrite E, Ep|].
    by eapply (Fork_wf k t).
  - by eapply User_wf.
  - by eapply Finish_wf.
Qed.

Lemma kstep_wf k k' : kwf k -> kstep pick k k' -> kwf k'.
Proof.
  intros Hk Hstep. destruct Hstep as [k k' Hs Hov Hf H|k k' Hs Hne H|s k k' Hc Hov H|k k' th Hs Hl E H|
    t p k Hs E].
  - by eapply exec_wf.
  - by eapply Sleep_loop_wf.
  - destruct (V_body_wf _ _ _ (kw_view _ Hk) (kwf_objects _ Hk) Hov H) as (Hw & [O1 O2] & _). by split.
  - eapply Yield_wf; try done. intros w. destruct (retries w th) eqn:Er; [|done]. exfalso.
    destruct (v_cur _ (kw_view _ Hk)) as (x & Ex & Hx). simpl in *. rewrite E in Ex. injection Ex as <-.
    destruct (Hx Hs) as [_ Ho]. rewrite Ho in Hl; [done|]. intros Hn. unfold retries in Er.
    by rewrite Hn in Er.
  - destruct (kwf_objects _ Hk) as [O1 O2]. split; [|exact O1|exact O2].
    exact (wfv_create _ (kw_view _ Hk) t (set_prog new_Thread_child p None) E eq_refl).
Qed.
End kernel_wf.
