(* ===== verification/KernelProps.v ===== *)
(** * KernelProps: what the thread system guarantees

    The properties of Thread.v and Synch.v that clients rely on, from the
    invariant of KernelInv.v. *)

From S2P Require Import Prelude Machine Interrupt Thread Synch KernelInv.

(** ** Which operations change a lock *)

(** One step of a lock, by thread [cur] whose next call is [c]. *)
Inductive lock_step (cur : Z) (c : option cmd) (l : Z) (lk lk' : Lock) : Prop :=
  | lock_same :
      ownerThread lk' = ownerThread lk -> available lk' = available lk -> lock_step cur c l lk lk'
  | lock_taken :
      c = Some (CAcquire l) \/ c = Some (CAcquiring l) ->
      available lk = true -> available lk' = false -> ownerThread lk' = Some cur ->
      lock_step cur c l lk lk'
  | lock_freed :
      c = Some (CRelease l) \/ (exists cv, c = Some (CWait cv l)) ->
      available lk' = true -> ownerThread lk' = None -> lock_step cur c l lk lk'.

Definition locks_step (k k' : kernel) : Prop :=
  forall l lk, locks k !! l = Some lk -> exists lk', locks k' !! l = Some lk' /\
    lock_step (currentThread k) (next_cmd k) l lk lk'.

Lemma locks_step_same k k' : locks k' = locks k -> locks_step k k'.
Proof. intros E l lk El. exists lk. rewrite E. split; [done|]. by constructor. Qed.

Lemma locks_step_put k k' l x :
  locks k' = <[l := x]> (locks k) ->
  (forall lk, locks k !! l = Some lk -> lock_step (currentThread k) (next_cmd k) l lk x) ->
  locks_step k k'.
Proof.
  intros E H l' lk El. rewrite E. destruct (decide (l' = l)) as [->|Hne].
  - rewrite lookup_insert_eq. exists x. auto.
  - rewrite lookup_insert_ne by done. exists lk. split; [done|]. by constructor.
Qed.

Lemma wake_first_locks q k q' k' : wake_first q k = Ok (q', k') -> locks k' = locks k.
Proof. intros H. apply wake_first_same in H as (_ & _ & _ & _ & ? & _). done. Qed.

Lemma broadcast_loop_locks c n : forall k k', broadcast_loop n c k = Ok k' -> locks k' = locks k.
Proof.
  induction n as [|n IH]; intros k k' H; cbn [broadcast_loop] in H;
    apply bind_inv in H as (q & _ & H); destruct q as [|t q];
    try (apply Ok_inj in H; by subst k'); [done|].
  apply bind_inv in H as ([q' k1] & Ewk & H). apply IH in H. rewrite H. simpl.
  by apply wake_first_locks in Ewk.
Qed.

Lemma Run_locks next k k' : Run next k = Ok k' -> locks k' = locks k.
Proof. intros H. apply Run_inv in H as (m & th & _ & _ & (_ & E & _) & _). exact E. Qed.

Lemma Acquire_loop_locks l old rest k k' :
  Acquire_loop l old rest k = Ok k' -> exists lk x, locks k !! l = Some lk /\
    locks k' = <[l := x]> (locks k) /\
    ((ownerThread x = ownerThread lk /\ available x = available lk) \/
     (available lk = true /\ available x = false /\ ownerThread x = Some (currentThread k))).
Proof.
  unfold Acquire_loop. intros H. apply bind_inv in H as (lk & El & H). apply get_lock_Ok in El.
  exists lk. destruct (available lk) eqn:Ea; cbn [negb] in H; cbv zeta in H; inv_ops; simpl.
  - eexists; split_and!; [done|done|]. right. done.
  - eexists; split_and!; [done|done|]. by left.
Qed.

Lemma Release_body_locks l k k' :
  Release_body l k = Ok k' -> exists x, locks k' = <[l := x]> (locks k) /\
    available x = true /\ ownerThread x = None /\ currentThread k' = currentThread k.
Proof.
  unfold Release_body. intros H. apply bind_inv in H as (lk & El & H).
  apply bind_inv in H as (u & _ & H). apply bind_inv in H as ([q k1] & Ewk & H).
  apply Ok_inj in H. subst k'. apply wake_first_same in Ewk as (Hc & _ & _ & _ & Hl & _).
  eexists. simpl. by rewrite Hl.
Qed.

(** The locks after waking threads. *)
Ltac woken_locks := match goal with
  | H : wake_first _ _ = Ok _ |- _ => by apply wake_first_locks in H
  | H : broadcast_loop _ _ _ = Ok _ |- _ => by apply broadcast_loop_locks in H
  end.

Section locks.
Context (pick : list Z -> nat).

Lemma FindNextToRun_locks k o k1 : FindNextToRun pick k = (o, k1) -> locks k1 = locks k.
Proof. unfold FindNextToRun. destruct (readyList k); by intros [= _ <-]. Qed.

Lemma Yield_locks rest k k' : Yield pick rest k = Ok k' -> locks k' = locks k.
Proof.
  unfold Yield. intros H. apply bind_inv in H as ([old k0] & E0 & H).
  apply enter_inv in E0 as (th0 & _ & _ & ->).
  destruct (FindNextToRun pick (set_level k IntOff)) as [[next|] k1] eqn:EF.
  - apply bind_inv in H as (k2 & Hsu & H). apply bind_inv in H as (k3 & Hrd & H).
    apply Run_locks in H. rewrite H. inv_ops. simpl.
    by apply FindNextToRun_locks in EF.
  - apply leave_inv in H as (? & _ & ->). by apply FindNextToRun_locks in EF.
Qed.

Lemma exec_locks k k' : exec pick k = Ok k' -> locks_step k k'.
Proof.
  unfold exec. intros H. apply bind_inv in H as (th & E & H). apply get_thread_Ok in E.
  destruct (prog th) as [|c rest] eqn:Ep; [done|].
  assert (next_cmd k = Some c) as Hc by (unfold next_cmd; by rewrite E, Ep).
  destruct c.
  - apply locks_step_same. by inv_ops.
  - apply locks_step_same. by inv_ops.
  - apply locks_step_same. unfold P in H. inv_ops. destruct (_ =? _); cbv zeta in *; by inv_ops.
  - apply locks_step_same. unfold V, V_body in H. inv_ops. woken_locks.
  - unfold Acquire in H. apply bind_inv in H as ([old k0] & E0 & H).
    apply enter_inv in E0 as (th0 & _ & _ & ->). apply bind_inv in H as (lk & El & H).
    apply bind_inv in H as (u & _ & H). apply Acquire_loop_locks in H as (lk' & x & Elk & Ex & Hx).
    simpl in *. apply locks_step_put with l x; [done|]. intros lk2 E2. rewrite E2 in Elk.
    simplify_eq. destruct Hx as [[? ?]|(? & ? & ?)]; [by constructor|]. apply lock_taken; auto.
  - apply bind_inv in H as ([old k0] & E0 & H). apply enter_inv in E0 as (th0 & _ & _ & ->).
    apply bind_inv in H as (k1 & Hb & H). apply Release_body_locks in Hb as (x & Ex & Ha & Ho & _).
    apply leave_inv in H as (? & _ & ->). simpl in *. apply locks_step_put with l x; [done|].
    intros lk _. apply lock_freed; auto.
  - unfold Acquiring in H. apply bind_inv in H as ([old k0] & E0 & H).
    apply enter_inv in E0 as (th0 & _ & _ & ->).
    apply Acquire_loop_locks in H as (lk' & x & Elk & Ex & Hx).
    simpl in *. apply locks_step_put with l x; [done|]. intros lk2 E2. rewrite E2 in Elk.
    simplify_eq. destruct Hx as [[? ?]|(? & ? & ?)]; [by constructor|]. apply lock_taken; auto.
  - unfold Wait in H. apply bind_inv in H as ([old k0] & E0 & H).
    apply enter_inv in E0 as (th0 & _ & _ & ->). apply bind_inv in H as (lk & _ & H).
    apply bind_inv in H as (u & _ & H). apply bind_inv in H as (k1 & Hb & H).
    apply Release_body_locks in Hb as (x & Ex & Ha & Ho & _). cbv zeta in H. inv_ops. simpl in *.
    apply locks_step_put with l x; [done|]. intros lk1 _. apply lock_freed; eauto.
  - apply locks_step_same. unfold Signal in H. inv_ops. woken_locks.
  - apply locks_step_same. unfold Broadcast in H. inv_ops. woken_locks.
  - apply locks_step_same. by apply Yield_locks in H.
  - apply locks_step_same. unfold Fork in H. by inv_ops.
  - apply locks_step_same. unfold User in H. by inv_ops.
  - apply locks_step_same. unfold Finish in H. by inv_ops.
Qed.
End locks.

(** ** A scheduler to run examples *)

(** The first element of least value, one order a priority queue can have. *)
Fixpoint first_min (q : list Z) : nat :=
  match q with
  | [] => 0
  | p :: q' => if decide (Forall (fun x => p <= x) q') then 0 else S (first_min q')
  end.

(** What a priority queue guarantees of its top. *)
Definition least (pick : list Z -> nat) : Prop :=
  forall q, q <> [] -> exists p, q !! pick q = Some p /\ Forall (fun x => p <= x) q.

Lemma least_lt pick : least pick -> forall q, q <> [] -> (pick q < length q)%nat.
Proof. intros H q Hq. destruct (H q Hq) as (p & E & _). by eapply lookup_lt_Some. Qed.

Lemma first_min_least : least first_min.
Proof.
  intros q. induction q as [|p q IH]; [done|]. intros _. cbn [first_min].
  destruct (decide (Forall (fun x => p <= x) q)) as [HF|HF].
  - exists p. split; [done|]. by constructor.
  - apply not_Forall_Exists, Exists_exists in HF as (x & Hx & Hlt); [|apply _].
    destruct IH as (m & Em & HF); [by intros ->; apply elem_of_nil in Hx|].
    exists m. split; [done|]. constructor; [|done]. rewrite Forall_forall in HF.
    specialize (HF x Hx). simpl in Hlt. lia.
Qed.

(** [n] steps without devices, time slices or creations. *)
Definition step_ok (k : kernel) : bool :=
  bool_decide (map_Forall (fun _ sem => value sem < 2 ^ 31 - 1) (sems k)) &&
  match next_cmd k with
  | Some (CFork t) =>
      from_option (fun th => bool_decide (status th = JUST_CREATED)) false (threads k !! t)
  | _ => true
  end.

Fixpoint simulate (n : nat) (k : kernel) : res kernel :=
  match n with
  | O => mret k
  | S n =>
      k ← (if sleeping k then
             _ ← ASSERT (bool_decide (readyList k <> [])); Sleep_loop first_min k
           else _ ← ASSERT (step_ok k); exec first_min k);
      simulate n k
  end.

Lemma step_ok_sound k : step_ok k = true -> no_overflow k /\ fork_once k.
Proof.
  unfold step_ok. intros [H1 H2]%andb_prop. apply bool_decide_eq_true in H1. split.
  - intros s sem E. exact (H1 s sem E).
  - intros t E. rewrite E in H2. destruct (threads k !! t) as [th|]; [|done].
    apply bool_decide_eq_true in H2. by exists th.
Qed.

Lemma simulate_steps n : forall k k', simulate n k = Ok k' -> rtc (kstep first_min) k k'.
Proof.
  induction n as [|n IH]; intros k k' H; cbn [simulate] in H.
  { apply Ok_inj in H. by subst k'. }
  apply bind_inv in H as (k1 & E & H). apply rtc_l with k1; [|by apply IH].
  destruct (sleeping k) eqn:Hs; apply bind_inv in E as (u & Ea & E); apply ASSERT_inv in Ea.
  - apply bool_decide_eq_true in Ea. by apply step_sleep.
  - apply step_ok_sound in Ea as [H1 H2]. by apply step_exec.
Qed.

(** The main thread and two others, of priority 1, on a semaphore and a lock. *)
Definition thread_of (st : ThreadStatus) (p : list cmd) : Thread :=
  mkThread st 1 (Some STACK_FENCEPOST) None (replicate (Z.to_nat NumTotalRegs) 0) p false None.

Definition sample_kernel (p0 p1 p2 : list cmd) : kernel :=
  mkKernel (<[0 := thread_of RUNNING p0]> (<[1 := thread_of READY p1]> {[2 := thread_of READY p2]}))
    0 [1; 2] None IntOn false (replicate (Z.to_nat NumTotalRegs) 0) None
    {[0 := new_Semaphore 0]} {[0 := new_Lock]} {[0 := new_Condition]}.

Lemma sample_queue p0 p1 p2 w : queue (sample_kernel p0 p1 p2) w = [].
Proof. destruct w as [x|x|x]; simpl; rewrite lookup_singleton; by case_decide. Qed.

Lemma sample_kernel_wf p0 p1 p2 : kwf (sample_kernel p0 p1 p2).
Proof.
  assert (forall t th, threads (sample_kernel p0 p1 p2) !! t = Some th ->
    (t = 0 /\ th = thread_of RUNNING p0) \/ (t = 1 /\ th = thread_of READY p1) \/
    (t = 2 /\ th = thread_of READY p2)) as Hth.
  { intros t th E. simpl in E. apply lookup_insert_Some in E as [[<- <-]|[_ E]]; [by left|].
    apply lookup_insert_Some in E as [[<- <-]|[_ E]]; [auto|].
    apply lookup_singleton_Some in E as [<- <-]. auto. }
  split.
  - split; cbn [vm vcur vslp vready vQ vC vd vl]; try done.
    + exists (thread_of RUNNING p0). done.
    + intros t th E Hst. apply Hth in E as [[-> ->]|[[-> ->]|[-> ->]]]; done.
    + by apply (bool_decide_unpack _).
    + intros t. split.
      * intros Ht. assert (t = 1 \/ t = 2) as [-> | ->] by
          (simpl in Ht; rewrite !elem_of_cons, elem_of_nil in Ht; naive_solver);
          [by exists (thread_of READY p1)|by exists (thread_of READY p2)].
      * intros (th & E & Hst). apply Hth in E as [[-> ->]|[[-> ->]|[-> ->]]]; [done|left|right; left].
    + intros w t Ht. rewrite sample_queue in Ht. by apply elem_of_nil in Ht.
    + intros w. rewrite sample_queue. constructor.
    + intros w w' t Ht. rewrite sample_queue in Ht. by apply elem_of_nil in Ht.
    + intros w Hne. by rewrite sample_queue in Hne.
  - intros s sem E. simpl in E. apply lookup_singleton_Some in E as [<- <-]. done.
  - intros l lk E. simpl in E. apply lookup_singleton_Some in E as [<- <-]. done.
Qed.

(** ** Every thread in one place, no wakeup lost *)

Lemma steps_wf pick k k' : least pick -> kwf k -> rtc (kstep pick) k k' -> kwf k'.
Proof.
  intros Hp Hk Hs. induction Hs as [|k k1 k2 Hs _ IH]; [done|]. apply IH.
  by apply (kstep_wf pick (least_lt pick Hp) k).
Qed.

(** On the CPU or ready. *)
Definition on_ready (k : kernel) (t : Z) : Prop :=
  (t = currentThread k /\ sleeping k = false) \/ t ∈ readyList k.

Lemma runnable_nodup k C : wfc k C -> NoDup (runnable (mkView (threads k) (currentThread k)
  (sleeping k) (readyList k) (queue k) C (threadToBeDestroyed k) (level k))).
Proof.
  intros Hw. unfold runnable. simpl. pose proof (v_rdup _ Hw) as Hnd. simpl in Hnd.
  destruct (sleeping k) eqn:Hs; [done|]. simpl. apply NoDup_cons. split; [|done].
  exact (cur_not_ready _ Hw Hs).
Qed.

(** What the credit of an object means. *)
Lemma credit_served k w :
  kwf k -> queue k w <> [] ->
  exists ts, NoDup ts /\ credit k w <= zlen ts /\ forall t, t ∈ ts -> on_ready k t /\
    exists th, threads k !! t = Some th /\ retries w th = true.
Proof.
  intros Hk Hq. pose proof (kw_view _ Hk) as Hw. pose proof (v_credit _ Hw w Hq) as Hc.
  eexists. split_and!; [|exact Hc|].
  - apply NoDup_filter. exact (runnable_nodup _ _ Hw).
  - intros t Ht. apply list_elem_of_filter in Ht as [Hr Ht]. split.
    + unfold runnable in Ht. simpl in Ht. apply elem_of_app in Ht as [Ht|Ht]; [left|by right].
      destruct (sleeping k); [by apply elem_of_nil in Ht|]. by apply list_elem_of_singleton in Ht.
    + unfold retries_at in Hr. simpl in Hr. destruct (threads k !! t) as [th|]; [|done]. by exists th.
Qed.

Lemma retries_sem s th : retries (WSem s) th = true -> head (prog th) = Some (CP s).
Proof.
  intros H. apply retries_head in H. destruct (head (prog th)) as [[]|]; try done. by injection H as ->.
Qed.
Lemma retries_lock l th : retries (WLock l) th = true -> head (prog th) = Some (CAcquiring l).
Proof.
  intros H. apply retries_head in H. destruct (head (prog th)) as [[]|]; try done. by injection H as ->.
Qed.

(** C3: every thread is in one place.  In every reachable state of the kernel
    (calls, device interrupts, time slices and creations in any order) the one
    RUNNING thread is the current one, the READY threads are exactly those on the
    ready list, each once, and a thread that is not BLOCKED is on no wait queue,
    a BLOCKED one on at most one, once. *)
Theorem one_place pick k k' t th :
  least pick -> kwf k -> rtc (kstep pick) k k' -> threads k' !! t = Some th ->
  match status th with
  | RUNNING => t = currentThread k' /\ sleeping k' = false
  | READY => t ∈ readyList k'
  | BLOCKED | JUST_CREATED => t ∉ readyList k'
  end /\
  (status th <> BLOCKED -> forall w, t ∉ queue k' w) /\
  (forall w w', t ∈ queue k' w -> t ∈ queue k' w' -> w = w') /\
  NoDup (readyList k') /\ (forall w, NoDup (queue k' w)).
Proof.
  intros Hp Hk Hs E. pose proof (kw_view _ (steps_wf _ _ _ Hp Hk Hs)) as Hw.
  assert (t ∈ readyList k' -> status th = READY) as Hr.
  { intros Ht. apply (v_ready _ Hw) in Ht as (th' & E' & ?). simpl in E'. congruence. }
  split; [|split_and!].
  - destruct (status th) eqn:Est; try (intros Ht; apply Hr in Ht; congruence).
    + exact (v_run _ Hw t th E Est).
    + apply (v_ready _ Hw). by exists th.
  - intros Hb w Ht. apply (v_wait _ Hw) in Ht as (th' & E' & ? & _). simpl in E'. congruence.
  - intros w w'. exact (v_one _ Hw w w' t).
  - exact (v_rdup _ Hw).
  - exact (v_qdup _ Hw).
Qed.

Definition crowd : kernel := sample_kernel [CP 0] [CP 0; CFinish] [CV 0; CFinish].

Lemma one_place_witness :
  exists k' th, simulate 5 crowd = Ok k' /\ threads k' !! 0 = Some th /\ status th = READY /\
    0 ∈ readyList k'.
Proof.
  assert (exists k', simulate 5 crowd = Ok k') as [k' E] by (eexists; vm_compute; reflexivity).
  assert (exists th, threads k' !! 0 = Some th /\ status th = READY) as (th & Eth & Hst).
  { vm_compute in E. apply Ok_inj in E. subst k'. eexists. split; vm_compute; reflexivity. }
  exists k', th. split; [exact E|]. split; [exact Eth|]. split; [exact Hst|].
  pose proof (one_place first_min crowd k' 0 th first_min_least (sample_kernel_wf _ _ _)
    (simulate_steps 5 _ _ E) Eth) as [H _]. rewrite Hst in H. exact H.
Defined.

(** C2: no wakeup is lost.  In every reachable state, when threads wait in P of a
    semaphore, at least as many threads as its value says are ready (or running)
    and about to look at the semaphore again; when threads wait for a lock that
    is free, one is ready and about to look at the lock again. *)
Theorem no_lost_wakeup pick k k' :
  least pick -> kwf k -> rtc (kstep pick) k k' ->
  (forall s sem, sems k' !! s = Some sem -> squeue sem <> [] ->
     exists ts, NoDup ts /\ 0 <= value sem <= zlen ts /\ forall t, t ∈ ts -> on_ready k' t /\
       exists th, threads k' !! t = Some th /\ head (prog th) = Some (CP s)) /\
  (forall l lk, locks k' !! l = Some lk -> lqueue lk <> [] -> available lk = true ->
     exists t th, on_ready k' t /\ threads k' !! t = Some th /\
       head (prog th) = Some (CAcquiring l)).
Proof.
  intros Hp Hk Hs. pose proof (steps_wf _ _ _ Hp Hk Hs) as Hk'. split.
  - intros s sem E Hq. destruct (credit_served k' (WSem s) Hk') as (ts & Hnd & Hc & Hts).
    { simpl. by rewrite E. }
    simpl in Hc. rewrite E in Hc. exists ts. split; [done|]. split.
    + pose proof (kw_sem _ Hk' s sem E). simpl in Hc. lia.
    + intros t Ht. destruct (Hts t Ht) as (Ho & th & Eth & Hr). split; [done|].
      exists th. split; [done|]. by apply retries_sem.
  - intros l lk E Hq Ha. destruct (credit_served k' (WLock l) Hk') as (ts & Hnd & Hc & Hts).
    { simpl. by rewrite E. }
    simpl in Hc. rewrite E in Hc. simpl in Hc. rewrite Ha in Hc.
    destruct ts as [|t ts]; [by vm_compute in Hc|].
    destruct (Hts t ltac:(left)) as (Ho & th & Eth & Hr). exists t, th. split_and!; try done.
    by apply retries_lock.
Qed.

Lemma no_lost_wakeup_witness :
  exists k' sem ts, simulate 6 crowd = Ok k' /\ sems k' !! 0 = Some sem /\ squeue sem = [1] /\
    value sem = 1 /\ 1 <= zlen ts /\ forall t, t ∈ ts -> on_ready k' t.
Proof.
  assert (exists k', simulate 6 crowd = Ok k') as [k' E] by (eexists; vm_compute; reflexivity).
  assert (exists sem, sems k' !! 0 = Some sem /\ squeue sem = [1] /\ value sem = 1)
    as (sem & Es & Hq & Hv).
  { vm_compute in E. apply Ok_inj in E. subst k'. eexists. split; [vm_compute; reflexivity|].
    split; reflexivity. }
  destruct (no_lost_wakeup first_min crowd k' first_min_least (sample_kernel_wf _ _ _)
    (simulate_steps 6 _ _ E)) as [H _].
  destruct (H 0 sem Es) as (ts & _ & Hc & Hts); [rewrite Hq; discriminate|].
  exists k', sem, ts. rewrite Hv in Hc. split_and!; try assumption; [lia|].
  intros t Ht. exact (proj1 (Hts t Ht)).
Defined.

(** ** Locks *)

Lemma kstep_locks pick k k' : kstep pick k k' ->
  locks k' = locks k \/ (sleeping k = false /\ locks_step k k').
Proof.
  intros [k0 k1 Hs _ _ H|k0 k1 _ _ H|s k0 k1 _ _ H|k0 k1 th _ _ _ H|t p k0 _ _]; [right|left..].
  - split; [done|]. by apply exec_locks with pick.
  - unfold Sleep_loop in H. destruct (FindNextToRun pick k0) as [[next|] k2] eqn:EF;
      apply FindNextToRun_locks in EF; [by apply Run_locks in H; rewrite H|].
    apply Ok_inj in H. by subst k1.
  - unfold V_body in H. inv_ops. woken_locks.
  - by apply Yield_locks in H.
  - done.
Qed.

(** C19: who owns a lock.  In one step of a well-formed kernel the owner of a lock
    only changes in two ways: a free lock goes to the current thread when that
    thread is in Acquire, and a held lock becomes free when the current thread
    releases it or waits on a condition with it.  So a lock has one owner at a
    time, and no device, time slice or other call takes it away. *)
Theorem lock_ownership pick k k' l lk :
  kwf k -> kstep pick k k' -> locks k !! l = Some lk ->
  exists lk', locks k' !! l = Some lk' /\
    match ownerThread lk, ownerThread lk' with
    | None, None => available lk' = true
    | Some o, Some o' => o' = o /\ available lk' = false
    | None, Some o => o = currentThread k /\ sleeping k = false /\ available lk' = false /\
        (next_cmd k = Some (CAcquire l) \/ next_cmd k = Some (CAcquiring l))
    | Some o, None => sleeping k = false /\ available lk' = true /\
        (next_cmd k = Some (CRelease l) \/ exists c, next_cmd k = Some (CWait c l))
    end.
Proof.
  intros Hk Hs E. pose proof (kw_lock _ Hk l lk E) as Hav.
  assert (forall o, ownerThread lk = Some o -> available lk = false) as Hbusy.
  { intros o Ho. destruct (available lk); [|done]. destruct Hav as [Hav _].
    rewrite Hav in Ho by done. done. }
  apply kstep_locks in Hs as [El|[Hs Hst]].
  - exists lk. rewrite El. split; [done|]. destruct (ownerThread lk) as [o|].
    + split; [done|]. by apply (Hbusy o).
    + by apply Hav.
  - destruct (Hst l lk E) as (lk' & E' & H). exists lk'. split; [done|].
    destruct H as [Ho Ha|Hc Ha Ha' Ho|Hc Ha Ho]; rewrite Ho.
    + rewrite Ha. destruct (ownerThread lk) as [o|]; [|by apply Hav].
      split; [done|]. by apply (Hbusy o).
    + destruct (ownerThread lk) as [o|] eqn:Eo; [|auto]. by rewrite (Hbusy o) in Ha.
    + destruct (ownerThread lk) as [o|]; [|done]. auto.
Qed.

Lemma lock_ownership_witness :
  exists k', kstep first_min (sample_kernel [CAcquire 0] [] []) k' /\
    exists lk', locks k' !! 0 = Some lk' /\
      (ownerThread lk' = None \/ ownerThread lk' = Some 0).
Proof.
  assert (exists k', exec first_min (sample_kernel [CAcquire 0] [] []) = Ok k') as [k' E]
    by (eexists; vm_compute; reflexivity).
  assert (kstep first_min (sample_kernel [CAcquire 0] [] []) k') as Hs.
  { assert (step_ok (sample_kernel [CAcquire 0] [] []) = true) as Hok by (vm_compute; reflexivity).
    apply step_ok_sound in Hok as [H1 H2]. apply step_exec; [reflexivity|exact H1|exact H2|exact E]. }
  exists k'. split; [exact Hs|].
  destruct (lock_ownership first_min _ k' 0 new_Lock (sample_kernel_wf _ _ _) Hs
    ltac:(vm_compute; reflexivity)) as (lk' & El & H). exists lk'. split; [exact El|].
  simpl in H. destruct (ownerThread lk') as [o|]; [right|left; reflexivity].
  destruct H as [-> _]. reflexivity.
Defined.

(** The object a lock operation leaves: the first waiter is ready. *)
Lemma wake_first_Ok q k :
  (forall t, t ∈ q -> is_Some (threads k !! t)) ->
  exists k', wake_first q k = Ok (tail q, k') /\ same_objects k k' /\
    currentThread k' = currentThread k /\ level k' = level k /\
    readyList k' = readyList k ++ take 1 q /\
    (forall t, t ∈ q -> is_Some (threads k' !! t)) /\
    (forall t, head q = Some t -> exists th, threads k' !! t = Some th /\ status th = READY) /\
    (forall t, head q <> Some t -> threads k' !! t = threads k !! t).
Proof.
  intros Hq. destruct q as [|t q]; simpl.
  - exists k. rewrite app_nil_r. split_and!; try done.
  - destruct (Hq t ltac:(left)) as [th E]. unfold ReadyToRun, update_thread, get_thread. rewrite E.
    eexists. split; [reflexivity|]. simpl. split_and!; try done.
    + intros u Hu. by apply lookup_insert_is_Some'; right; apply Hq.
    + intros u [= ->]. rewrite lookup_insert_eq. by eexists.
    + intros u Hu. rewrite lookup_insert_ne; [done|congruence].
Qed.

Lemma leave_Ok old rest k :
  is_Some (threads k !! currentThread k) ->
  exists k', leave old rest k = Ok k' /\ same_objects k k' /\ readyList k' = readyList k /\
    level k' = old /\
    forall t, t <> currentThread k -> threads k' !! t = threads k !! t.
Proof.
  intros [th E]. unfold leave, update_thread, get_thread. rewrite E. eexists.
  split; [reflexivity|]. simpl. split_and!; try done. intros t Ht. by rewrite lookup_insert_ne.
Qed.

Lemma enter_Ok k th :
  threads k !! currentThread k = Some th ->
  enter k = Ok (default (level k) (oldLevel th), set_level k IntOff).
Proof. intros E. unfold enter, get_thread. by rewrite E. Qed.

Lemma suspend_Sleep_Ok old p k :
  is_Some (threads k !! currentThread k) -> level k = IntOff ->
  exists k1 k', suspend old p k = Ok k1 /\ Sleep k1 = Ok k' /\ same_objects k k' /\ sleeping k' = true.
Proof.
  intros [th E] Hl. unfold suspend, Sleep, update_thread, get_thread. rewrite E.
  eexists _, _. split; [reflexivity|]. simpl. rewrite Hl, lookup_insert_eq. by split.
Qed.

(** Acquire by a thread that does not own the lock, Release of a held lock. *)
Lemma Acquire_Ok k l rest lk th :
  threads k !! currentThread k = Some th -> locks k !! l = Some lk ->
  ownerThread lk <> Some (currentThread k) -> exists k', Acquire l rest k = Ok k'.
Proof.
  intros E El Ho. unfold Acquire. rewrite (enter_Ok k th E), bind_Ok. unfold get_lock. simpl. rewrite El.
  rewrite bind_Ok. unfold isHeldByCurrentThread. rewrite bool_decide_eq_false_2 by exact Ho.
  rewrite ASSERT_true, bind_Ok by done. unfold Acquire_loop, get_lock. simpl. rewrite El, bind_Ok.
  destruct (available lk); cbn [negb]; cbv zeta.
  - edestruct leave_Ok as (k' & E' & _); [|eexists; exact E']. by exists th.
  - edestruct suspend_Sleep_Ok as (k1 & k' & E1 & E2 & _); [| |exists k'; rewrite E1, bind_Ok; exact E2];
      [by exists th|done].
Qed.

Lemma Release_Ok k l rest lk th :
  kwf k -> sleeping k = false -> threads k !! currentThread k = Some th ->
  locks k !! l = Some lk -> available lk = false -> exists k', Release l rest k = Ok k' /\
     locks k' !! l = Some (mkLock true None (tail (lqueue lk))) /\
     readyList k' = readyList k ++ take 1 (lqueue lk) /\
     (forall t, head (lqueue lk) = Some t -> exists th, threads k' !! t = Some th /\
        status th = READY).
Proof.
  intros Hk Hs E El Ha. pose proof (kw_view _ Hk) as Hw.
  unfold Release, Release_body. rewrite (enter_Ok k th E), bind_Ok. unfold get_lock. simpl.
  rewrite El, bind_Ok, Ha. rewrite ASSERT_true, bind_Ok by done.
  destruct (wake_first_Ok (lqueue lk) (set_level k IntOff)) as
    (k1 & E1 & (_ & Eo & _) & Ec & _ & Er & _ & Hh & Hne).
  { intros t Ht. assert (t ∈ queue k (WLock l)) as Hq by (simpl; by rewrite El).
    apply (v_wait _ Hw) in Hq as (x & Ex & _). by exists x. }
  rewrite E1, bind_Ok. simpl in Ec, Er.
  assert (head (lqueue lk) <> Some (currentThread k)) as Hcur.
  { intros Hhd. destruct (lqueue lk) as [|t q] eqn:Eq; [done|]. injection Hhd as ->.
    apply (cur_not_waiting _ Hw (WLock l) Hs). simpl. rewrite El. simpl. rewrite Eq. left. }
  destruct (leave_Ok (default (level k) (oldLevel th)) rest
    (put_lock l (mkLock true None (tail (lqueue lk))) k1)) as (k' & E' & (_ & El' & _) & Er' & _ & Hoth).
  { simpl. rewrite Ec, (Hne _ Hcur). by exists th. }
  unfold mret, res_ret. rewrite bind_Ok. exists k'. split; [exact E'|]. split; [|split].
  - rewrite El'. simpl. by rewrite lookup_insert_eq.
  - by rewrite Er'.
  - intros t Ht. destruct (Hh t Ht) as (x & Ex & Hst). exists x. rewrite Hoth; [by simpl|].
    simpl. rewrite Ec. congruence.
Qed.

(** What the assertions of a lock refuse.  Acquire aborts exactly when the
    caller already owns the lock; otherwise it returns or sleeps.  Release aborts
    exactly when the lock is free; a held lock is freed whoever calls Release (the
    assertion lets any thread through while the lock is held), and the first
    waiter becomes ready. *)
Theorem lock_errors k l rest lk :
  kwf k -> sleeping k = false -> locks k !! l = Some lk ->
  (Acquire l rest k = Err AssertFailed <-> ownerThread lk = Some (currentThread k)) /\
  (ownerThread lk <> Some (currentThread k) -> exists k', Acquire l rest k = Ok k') /\
  (Release l rest k = Err AssertFailed <-> available lk = true) /\
  (available lk = false -> exists k', Release l rest k = Ok k' /\
     locks k' !! l = Some (mkLock true None (tail (lqueue lk))) /\
     readyList k' = readyList k ++ take 1 (lqueue lk) /\
     (forall t, head (lqueue lk) = Some t -> exists th, threads k' !! t = Some th /\
        status th = READY)).
Proof.
  intros Hk Hs El. pose proof (kw_view _ Hk) as Hw. destruct (v_cur _ Hw) as (th & E & _). simpl in E.
  pose proof (fun Ho => Acquire_Ok k l rest lk th E El Ho) as HA.
  pose proof (Release_Ok k l rest lk th Hk Hs E El) as HR.
  split; [|split; [exact HA|split; [|exact HR]]].
  - split.
    + intros H. destruct (decide (ownerThread lk = Some (currentThread k))) as [|Hne]; [done|].
      destruct (HA Hne). congruence.
    + intros Ho. unfold Acquire. rewrite (enter_Ok k th E), bind_Ok. unfold get_lock. simpl.
      rewrite El, bind_Ok. unfold isHeldByCurrentThread. by rewrite bool_decide_eq_true_2.
  - split.
    + intros H. destruct (available lk); [done|]. destruct (HR eq_refl) as (? & ? & _). congruence.
    + intros Ha. unfold Release, Release_body. rewrite (enter_Ok k th E), bind_Ok. unfold get_lock.
      simpl. rewrite El, bind_Ok, Ha. unfold isHeldByCurrentThread.
      rewrite (proj1 (kw_lock _ Hk l lk El) Ha). by rewrite bool_decide_eq_false_2.
Qed.

Lemma lock_errors_witness :
  exists k k', simulate 1 (sample_kernel [CAcquire 0; CYield] [] []) = Ok k /\
    Acquire 0 [] k = Err AssertFailed /\ Release 0 [] k = Ok k'.
Proof.
  assert (exists k, simulate 1 (sample_kernel [CAcquire 0; CYield] [] []) = Ok k) as [k E]
    by (eexists; vm_compute; reflexivity).
  assert (sleeping k = false /\ locks k !! 0 = Some (mkLock false (Some 0) []) /\
    currentThread k = 0) as (Hs & El & Hc).
  { vm_compute in E. apply Ok_inj in E. subst k. split; [reflexivity|]. split; reflexivity. }
  destruct (lock_errors k 0 [] _ (steps_wf _ _ _ first_min_least (sample_kernel_wf _ _ _)
    (simulate_steps 1 _ _ E)) Hs El) as (HA & _ & _ & HR).
  destruct (HR eq_refl) as (k' & Ek & _). exists k, k'. split; [exact E|]. split; [|exact Ek].
  apply HA. rewrite Hc. reflexivity.
Defined.

(** ** Broadcast *)

Lemma broadcast_loop_Ok c q : forall k,
  conds k !! c = Some q -> (forall t, t ∈ q -> is_Some (threads k !! t)) ->
  exists k', broadcast_loop (length q) c k = Ok k' /\ conds k' !! c = Some [] /\
    currentThread k' = currentThread k /\ readyList k' = readyList k ++ q /\
    (forall t, t ∉ q -> threads k' !! t = threads k !! t) /\
    (forall t, t ∈ q -> exists th, threads k' !! t = Some th /\ status th = READY).
Proof.
  induction q as [|t q IH]; intros k Ec Hq; cbn [length broadcast_loop];
    unfold get_cond; rewrite Ec, bind_Ok.
  - exists k. rewrite app_nil_r. split_and!; try done. intros t Ht. by apply elem_of_nil in Ht.
  - destruct (wake_first_Ok (t :: q) k Hq) as (k1 & E1 & (_ & _ & Eco) & Ecu & _ & Er & Hk1 & Hh & Hne).
    rewrite E1, bind_Ok. cbn [tail] in *.
    destruct (IH (put_cond c q k1)) as (k' & E' & Ec' & Ecu' & Er' & Hn' & Hy').
    { simpl. by rewrite lookup_insert_eq. }
    { intros u Hu. apply Hk1. by right. }
    exists k'. split; [exact E'|]. split; [exact Ec'|]. split; [by rewrite Ecu'|]. split.
    { rewrite Er'. simpl. rewrite Er. simpl. by rewrite <- app_assoc. }
    split.
    + intros u Hu. apply not_elem_of_cons in Hu as [Hu1 Hu2]. rewrite Hn' by done. apply Hne.
      simpl. congruence.
    + intros u Hu. destruct (decide (u ∈ q)) as [Hin|Hin]; [by apply Hy'|].
      rewrite Hn' by done. apply Hh. apply elem_of_cons in Hu as [->|]; done.
Qed.

(** Broadcast wakes everybody.  Called by the owner of the lock, Broadcast
    ends, leaves the condition's queue empty, and puts the threads that waited on
    the ready list in the order they came, each READY, whatever their number;
    called by any other thread it aborts, like Wait and Signal. *)
Theorem Broadcast_wakes_all k c l rest lk q :
  kwf k -> sleeping k = false -> locks k !! l = Some lk -> conds k !! c = Some q ->
  (ownerThread lk <> Some (currentThread k) ->
     Broadcast c l rest k = Err AssertFailed /\ Signal c l rest k = Err AssertFailed /\
     Wait c l rest k = Err AssertFailed) /\
  (ownerThread lk = Some (currentThread k) ->
     exists k', Broadcast c l rest k = Ok k' /\ conds k' !! c = Some [] /\
       readyList k' = readyList k ++ q /\
       forall t, t ∈ q -> exists th, threads k' !! t = Some th /\ status th = READY).
Proof.
  intros Hk Hs El Ec. pose proof (kw_view _ Hk) as Hw. destruct (v_cur _ Hw) as (th & E & _). simpl in E.
  unfold Broadcast, Signal, Wait. rewrite (enter_Ok k th E), !bind_Ok. unfold get_lock. simpl.
  rewrite El, !bind_Ok. unfold isHeldByCurrentThread. simpl. split; intros Ho.
  - by rewrite bool_decide_eq_false_2.
  - rewrite bool_decide_eq_true_2, ASSERT_true, bind_Ok by done.
    change (get_cond c (set_level k IntOff)) with (get_cond c k). unfold get_cond. rewrite Ec, bind_Ok.
    destruct (broadcast_loop_Ok c q (set_level k IntOff) Ec) as (k1 & E1 & Ec1 & Ecu & Er & Hn & Hy).
    { intros t Ht. assert (t ∈ queue k (WCond c)) as Hq by (simpl; by rewrite Ec).
      apply (v_wait _ Hw) in Hq as (x & Ex & _). by exists x. }
    rewrite E1, bind_Ok. simpl in Ecu, Er.
    assert (currentThread k ∉ q) as Hcq.
    { intros Hin. apply (cur_not_waiting _ Hw (WCond c) Hs). simpl. by rewrite Ec. }
    destruct (leave_Ok (default (level k) (oldLevel th)) rest k1) as
      (k' & E' & (_ & _ & Ec') & Er' & _ & Hoth).
    { rewrite Ecu, Hn by done. by exists th. }
    exists k'. split; [exact E'|]. rewrite Ec', Er'. split; [done|]. split; [done|].
    intros t Ht. rewrite Hoth by (rewrite Ecu; congruence). by apply Hy.
Qed.

Lemma Broadcast_wakes_all_witness :
  exists k k', simulate 7 (sample_kernel [CAcquire 0; CWait 0 0] [CAcquire 0; CWait 0 0]
      [CAcquire 0; CBroadcast 0 0]) = Ok k /\ conds k !! 0 = Some [0; 1] /\
    Broadcast 0 0 [] k = Ok k' /\ readyList k' = [0; 1].
Proof.
  assert (exists k, simulate 7 (sample_kernel [CAcquire 0; CWait 0 0] [CAcquire 0; CWait 0 0]
      [CAcquire 0; CBroadcast 0 0]) = Ok k) as [k E] by (eexists; vm_compute; reflexivity).
  assert (sleeping k = false /\ locks k !! 0 = Some (mkLock false (Some 2) []) /\
    currentThread k = 2 /\ conds k !! 0 = Some [0; 1] /\ readyList k = []) as (Hs & El & Hc & Ec & Er).
  { vm_compute in E. apply Ok_inj in E. subst k. split_and!; reflexivity. }
  destruct (Broadcast_wakes_all k 0 0 [] _ _ (steps_wf _ _ _ first_min_least (sample_kernel_wf _ _ _)
    (simulate_steps 7 _ _ E)) Hs El Ec) as (_ & H).
  destruct H as (k' & Ek & _ & Hr & _); [rewrite Hc; reflexivity|].
  exists k, k'. split; [exact E|]. split; [exact Ec|]. split; [exact Ek|]. rewrite Hr, Er. reflexivity.
Defined.
