(* ===== verification/Dispatch.v ===== *)
(** * Dispatch: the context switch and the registers of user programs

    What Scheduler::Run does to the machine and to the two threads, that the loop
    of Thread::Sleep always ends in a dispatch of the most urgent ready thread,
    and that the registers of a user program are its own. *)

From S2P Require Import Prelude Machine Interrupt Thread Synch KernelInv KernelProps.

(** ** What Run does *)

(** The old thread's control block when SWITCH stops it. *)
Definition saved (k : kernel) (old : Thread) : Thread :=
  set_in_SWITCH (match space old with
                 | Some _ => set_userRegisters old (registers k)
                 | None => old
                 end) true.

Definition switched (k : kernel) (next : Z) (old x : Thread) : gmap Z Thread :=
  <[next := set_status x RUNNING]> (<[currentThread k := saved k old]> (threads k)).

(** What the caller of Run finds when it returns. *)
Definition dispatched (k : kernel) (next : Z) (old x : Thread) (k' : kernel) : Prop :=
  currentThread k' = next /\ sleeping k' = sleeping k /\ readyList k' = readyList k /\
  level k' = level k /\ same_objects k k' /\
  if in_SWITCH x then
    threads k' = match threadToBeDestroyed k with
                 | Some t => delete t (switched k next old x)
                 | None => switched k next old x
                 end /\
    threadToBeDestroyed k' = None /\
    registers k' = (match space x with Some _ => userRegisters x | None => registers k end) /\
    page_table k' = (match space x with Some a => Some a | None => page_table k end)
  else
    threads k' = switched k next old x /\ threadToBeDestroyed k' = threadToBeDestroyed k /\
    registers k' = registers k /\ page_table k' = page_table k.

Lemma get_thread_eq t k th : threads k !! t = Some th -> get_thread t k = Ok th.
Proof. unfold get_thread. by intros ->. Qed.
Lemma update_thread_eq t f k th :
  threads k !! t = Some th -> update_thread t f k = Ok (put_thread t (f th) k).
Proof. unfold update_thread. intros H. by rewrite (get_thread_eq _ _ _ H), bind_Ok. Qed.

Lemma after_SWITCH_Ok k x :
  threads k !! currentThread k = Some x ->
  (forall t, threadToBeDestroyed k = Some t -> t <> currentThread k /\ is_Some (threads k !! t)) ->
  exists k', after_SWITCH k = Ok k' /\
    registers k' = (match space x with Some _ => userRegisters x | None => registers k end) /\
    page_table k' = (match space x with Some a => Some a | None => page_table k end).
Proof.
  intros E Hd. unfold after_SWITCH, delete_Thread, RestoreUserState.
  destruct (threadToBeDestroyed k) as [t|].
  - destruct (Hd t eq_refl) as (Hne & th & Eth).
    rewrite (get_thread_eq _ _ _ Eth), bind_Ok, (proj2 (Z.eqb_neq _ _) Hne). cbn [negb].
    rewrite ASSERT_true by done. unfold mret, res_ret. rewrite !bind_Ok.
    rewrite (get_thread_eq _ _ x) by (simpl; by rewrite lookup_delete_ne).
    rewrite bind_Ok. destruct (space x) as [a|]; [|by eexists].
    rewrite !bind_Ok. by eexists.
  - unfold mret, res_ret. rewrite bind_Ok, (get_thread_eq _ _ _ E), bind_Ok.
    destruct (space x) as [a|]; [|by eexists].
    rewrite !bind_Ok. by eexists.
Qed.

Lemma Run_Ok k next old x :
  threads k !! currentThread k = Some old -> CheckOverflow old = Ok tt ->
  <[currentThread k := saved k old]> (threads k) !! next = Some x ->
  (in_SWITCH x = true -> forall t, threadToBeDestroyed k = Some t ->
     t <> next /\ is_Some (threads k !! t)) ->
  exists k', Run next k = Ok k' /\ dispatched k next old x k'.
Proof.
  intros Eold Eck Ex Hd. unfold Run. rewrite (get_thread_eq _ _ _ Eold), bind_Ok.
  set (k1 := put_thread (currentThread k) (match space old with
    Some _ => set_userRegisters old (registers k) | None => old end) k).
  assert ((match space old with Some _ => SaveUserState k | None => mret k end) = Ok k1) as ->.
  { unfold k1, SaveUserState. destruct (space old); [by rewrite (update_thread_eq _ _ _ old)|].
    unfold put_thread. rewrite insert_id by done. by destruct k. }
  rewrite bind_Ok, Eck, bind_Ok. erewrite update_thread_eq by (simpl; by rewrite lookup_insert_eq).
  rewrite bind_Ok. fold (saved k old). unfold k1, put_thread at 1. simpl.
  rewrite insert_insert_eq. erewrite update_thread_eq by exact Ex. rewrite bind_Ok.
  erewrite get_thread_eq by (simpl; by rewrite lookup_insert_eq).
  rewrite bind_Ok. fold (switched k next old x). unfold dispatched.
  destruct (in_SWITCH (set_status x RUNNING)) eqn:Es; simpl in Es; rewrite Es.
  2: { eexists. split; [reflexivity|]. done. }
  match goal with |- context [after_SWITCH ?K] =>
    destruct (after_SWITCH_Ok K (set_status x RUNNING)) as (k' & E & Hr & Hp) end.
  { simpl. by rewrite lookup_insert_eq. }
  { simpl. intros t Ht. destruct (Hd Es t Ht) as (Hne & Hs). split; [done|].
    rewrite lookup_insert_ne by done. by apply lookup_insert_is_Some'; right. }
  exists k'. split; [exact E|]. apply after_SWITCH_inv in E as (? & ? & ? & ? & ? & ? & ?). simpl in *.
  done.
Qed.

(** The converse: what Run needs, and what it then does. *)
Lemma Run_dispatched k next k' :
  Run next k = Ok k' -> exists old x,
    threads k !! currentThread k = Some old /\
    <[currentThread k := saved k old]> (threads k) !! next = Some x /\
    dispatched k next old x k'.
Proof.
  intros H. pose proof H as H0. unfold Run in H0.
  apply bind_inv in H0 as (old & Eold & H0). apply get_thread_Ok in Eold.
  apply bind_inv in H0 as (k1 & E1 & H0). apply bind_inv in H0 as ([] & Eck & H0).
  apply bind_inv in H0 as (k2 & E2 & H0). apply update_thread_inv in E2 as (th2 & Eth2 & ->).
  apply bind_inv in H0 as (k3 & E3 & H0). apply update_thread_inv in E3 as (x & Ex & ->).
  assert (k1 = put_thread (currentThread k) (match space old with
    Some _ => set_userRegisters old (registers k) | None => old end) k) as ->.
  { unfold SaveUserState in E1. destruct (space old).
    - apply update_thread_inv in E1 as (o & Eo & ->). congruence.
    - apply Ok_inj in E1. subst k1. unfold put_thread. rewrite insert_id by done. by destruct k. }
  simpl in Eth2, Ex. rewrite lookup_insert_eq in Eth2. injection Eth2 as <-.
  fold (saved k old) in Ex. rewrite insert_insert_eq in Ex.
  exists old, x. split; [done|]. split; [done|].
  destruct (Run_Ok k next old x Eold Eck Ex) as (k'' & E & Hds); [|congruence].
  intros Hsw t Ht. apply bind_inv in H0 as (th & Eth & H0). apply get_thread_Ok in Eth.
  simpl in Eth. rewrite lookup_insert_eq in Eth. injection Eth as <-. simpl in H0. rewrite Hsw in H0.
  unfold after_SWITCH in H0. simpl in H0. rewrite Ht in H0.
  apply bind_inv in H0 as (k4 & E4 & _). apply bind_inv in E4 as (k5 & E5 & _).
  unfold delete_Thread in E5. inv_res. apply negb_true_iff, Z.eqb_neq in E0. simpl in E0.
  apply get_thread_Ok in E. simpl in E. split; [done|].
  rewrite lookup_insert_ne in E by done. rewrite insert_insert_eq in E.
  destruct (decide (t = currentThread k)) as [->|Hne]; [by exists old|].
  rewrite lookup_insert_ne in E by done. by eexists.
Qed.

(** ** The loop of Sleep ends in a dispatch *)

(** [next] is the most urgent of the ready threads. *)
Definition most_urgent (k : kernel) (next : Z) : Prop :=
  next ∈ readyList k /\ forall t, t ∈ readyList k -> priority k next <= priority k t.

Lemma FindNextToRun_least pick k :
  least pick -> readyList k <> [] ->
  exists next rest, FindNextToRun pick k = (Some next, set_ready k rest) /\
    readyList k ≡ₚ next :: rest /\ most_urgent k next.
Proof.
  intros Hp Hne. unfold FindNextToRun.
  destruct (Hp (priority k <$> readyList k)) as (p & Ep & HF).
  { intros E. by apply fmap_nil_inv in E. }
  apply list_lookup_fmap_Some in Ep as (next & -> & En).
  destruct (readyList k) as [|t q] eqn:Er; [done|]. rewrite <- Er in *.
  eexists next, _. split; [by rewrite En|]. split.
  - rewrite <- (take_drop_middle (readyList k) _ next En) at 1. by rewrite <- Permutation_middle.
  - split; [by eapply list_elem_of_lookup_2|]. intros t' Ht. rewrite Forall_fmap in HF.
    rewrite Forall_forall in HF. by apply HF.
Qed.

(** What is on the CPU after the dispatch of [next], and who is gone: if it stopped
    in SWITCH, it has the registers and the page table of its address space, and the
    thread that had finished is deleted, and no other; if it runs for the first time
    nobody is deleted. *)
Definition restored (k : kernel) (next : Z) (k' : kernel) : Prop :=
  forall x, threads k !! next = Some x ->
    if decide (next = currentThread k \/ in_SWITCH x = true) then
      (forall a, space x = Some a ->
         registers k' = (if decide (next = currentThread k) then registers k else userRegisters x) /\
         page_table k' = Some a) /\
      threadToBeDestroyed k' = None /\
      forall t, threads k' !! t = None <-> threads k !! t = None \/ threadToBeDestroyed k = Some t
    else
      registers k' = registers k /\ page_table k' = page_table k /\
      threadToBeDestroyed k' = threadToBeDestroyed k /\
      forall t, threads k' !! t = None <-> threads k !! t = None.

(** The threads that stay: who gets the CPU, who loses it, and the others. *)
Definition left_alone (k k' : kernel) : Prop :=
  forall t, t <> currentThread k -> t <> currentThread k' -> threadToBeDestroyed k <> Some t ->
    threads k' !! t = threads k !! t.

Lemma switched_None k next old x t :
  threads k !! currentThread k = Some old -> is_Some (threads k !! next) ->
  switched k next old x !! t = None <-> threads k !! t = None.
Proof.
  intros Eo [y En]. unfold switched.
  destruct (decide (t = next)) as [->|Hn]; [rewrite lookup_insert_eq, En; done|rewrite lookup_insert_ne by done].
  destruct (decide (t = currentThread k)) as [->|Hc]; [rewrite lookup_insert_eq, Eo; done|by rewrite lookup_insert_ne].
Qed.

(** What Run leaves is what [restored] says. *)
Lemma dispatched_restored k next old thn k' :
  threads k !! currentThread k = Some old -> threads k !! next = Some thn ->
  dispatched k next old (if decide (next = currentThread k) then saved k thn else thn) k' ->
  restored k next k' /\ left_alone k k'.
Proof.
  intros Eo En (Hc & _ & _ & _ & _ & Hds).
  set (x := if decide (next = currentThread k) then saved k thn else thn) in *.
  assert (in_SWITCH x = true <-> next = currentThread k \/ in_SWITCH thn = true) as Hsw.
  { unfold x. case_decide; simpl; tauto. }
  assert (is_Some (threads k !! next)) as Hs by by eexists. split.
  - intros y Ey. assert (y = thn) as -> by congruence. destruct (decide (next = currentThread k \/ in_SWITCH thn = true)) as [Hd|Hd].
    + rewrite <- Hsw in Hd. rewrite Hd in Hds. destruct Hds as (Et & Htd & Hr & Hp). split; [|split; [exact Htd|]].
      * intros a Ha. rewrite Hr, Hp. unfold x. case_decide; simpl; unfold saved; rewrite Ha; simpl; rewrite ?Ha; done.
      * intros t. rewrite Et. destruct (threadToBeDestroyed k) as [d|]; [|rewrite switched_None by done; naive_solver].
        destruct (decide (t = d)) as [->|Hne]; [rewrite lookup_delete_eq; naive_solver|].
        rewrite lookup_delete_ne, switched_None by done. naive_solver.
    + rewrite <- Hsw in Hd. apply not_true_is_false in Hd. rewrite Hd in Hds. destruct Hds as (Et & Htd & Hr & Hp).
      split_and!; try done. intros t. by rewrite Et, switched_None.
  - intros t H1 H2 H3. rewrite Hc in H2.
    assert (switched k next old x !! t = threads k !! t) as Et.
    { unfold switched. by rewrite !lookup_insert_ne. }
    destruct (in_SWITCH x); destruct Hds as (-> & _); [|done]. destruct (threadToBeDestroyed k) as [d|]; [|done].
    rewrite lookup_delete_ne by congruence. done.
Qed.

(** C18: a sleeping thread gives the CPU away.  In every well-formed state of the
    kernel (KernelInv.v), when the current thread sleeps and some thread is ready, the
    loop of Sleep never faults (as long as the stack of
    the sleeping thread is intact): it dispatches the most urgent ready thread,
    takes exactly that one off the ready list, and marks it RUNNING.  If it had
    been switched out, its user registers and its page table are back, and the
    thread that had finished, if there is one, is deleted; no other thread
    disappears.  If it runs for the first time, none does, and the finished one goes
    on waiting to be deleted.  The threads that neither lose nor get the CPU are left
    alone. *)
Theorem dispatch_correct pick k :
  least pick -> kwf k -> sleeping k = true -> readyList k <> [] ->
  (forall th, threads k !! currentThread k = Some th -> CheckOverflow th = Ok tt) ->
  exists k', Sleep_loop pick k = Ok k' /\ most_urgent k (currentThread k') /\
    readyList k ≡ₚ currentThread k' :: readyList k' /\ sleeping k' = false /\
    (exists th, threads k' !! currentThread k' = Some th /\ status th = RUNNING) /\
    restored k (currentThread k') k' /\ left_alone k k'.
Proof.
  intros Hp Hk Hs Hne Hck. pose proof (kw_view _ Hk) as Hw.
  destruct (FindNextToRun_least pick k Hp Hne) as (next & rest & EF & HP & Hmu).
  destruct (v_cur _ Hw) as (old & Eold & _). simpl in Eold.
  destruct Hmu as (Hin & Hmin). pose proof Hin as Hin'.
  apply (v_ready _ Hw) in Hin' as (thn & En & Hst). simpl in En.
  set (k0 := set_sleeping (set_ready k rest) false).
  set (x := if decide (next = currentThread k) then saved k0 thn else thn).
  assert (<[currentThread k := saved k0 old]> (threads k) !! next = Some x) as Ex.
  { unfold x. case_decide as Hd; [|by rewrite lookup_insert_ne].
    subst next. rewrite lookup_insert_eq. congruence. }
  destruct (Run_Ok k0 next old x Eold (Hck old Eold) Ex) as (k' & E & Hds).
  { intros _ t Ht. apply (v_dead _ Hw) in Ht as (th & Et & Hb & _). simpl in Et.
    split; [intros ->; congruence|by exists th]. }
  exists k'. unfold Sleep_loop. rewrite EF. split; [exact E|].
  pose proof (dispatched_restored k0 next old thn k' Eold En Hds) as Hres.
  destruct Hds as (Ec & Esl & Er & _ & _ & Hds). rewrite Ec, Esl, Er. simpl. split_and!; try done; [|apply Hres..].
  unfold switched in Hds. destruct (in_SWITCH x).
  - destruct Hds as (-> & _). destruct (threadToBeDestroyed k0) as [t|] eqn:Et.
    + apply (v_dead _ Hw) in Et as (th & Et & Hb & _). simpl in Et.
      rewrite lookup_delete_ne by (intros ->; congruence).
      rewrite lookup_insert_eq. by eexists.
    + rewrite lookup_insert_eq. by eexists.
  - destruct Hds as (-> & _). rewrite lookup_insert_eq. by eexists.
Qed.

Lemma dispatch_correct_witness :
  exists k1 k', simulate 1 (sample_kernel [CP 0] [CYield] [CYield]) = Ok k1 /\
    sleeping k1 = true /\ Sleep_loop first_min k1 = Ok k' /\ most_urgent k1 (currentThread k').
Proof.
  assert (exists k1, simulate 1 (sample_kernel [CP 0] [CYield] [CYield]) = Ok k1) as [k1 E]
    by (eexists; vm_compute; reflexivity).
  assert (sleeping k1 = true /\ readyList k1 = [1; 2] /\ (forall th,
    threads k1 !! currentThread k1 = Some th -> CheckOverflow th = Ok tt)) as (Hs & Hr & Hck).
  { vm_compute in E. apply Ok_inj in E. subst k1. split; [reflexivity|]. split; [reflexivity|].
    intros th Eth. vm_compute in Eth. injection Eth as <-. vm_compute. reflexivity. }
  destruct (dispatch_correct first_min k1 first_min_least
    (steps_wf _ _ _ first_min_least (sample_kernel_wf _ _ _) (simulate_steps 1 _ _ E)) Hs
    ltac:(rewrite Hr; discriminate) Hck) as (k' & Ek & Hmu & _).
  exists k1, k'. split; [exact E|]. split; [exact Hs|]. split; [exact Ek|exact Hmu].
Defined.

(** ** The registers of a user program are its own *)

(** What the kernel keeps of the user side of the threads. *)
Definition ustate (th : Thread) : option Z * list Z * bool :=
  (space th, userRegisters th, in_SWITCH th).

Definition uview (k : kernel) : list Z * Z * gmap Z (option Z * list Z * bool) :=
  (registers k, currentThread k, ustate <$> threads k).

Lemma uview_put t th th' k :
  threads k !! t = Some th -> ustate th' = ustate th -> uview (put_thread t th' k) = uview k.
Proof.
  intros E Hu. unfold uview. simpl. rewrite fmap_insert, Hu, insert_id; [done|].
  by rewrite lookup_fmap, E.
Qed.

Lemma enter_uview k old k' : enter k = Ok (old, k') -> uview k' = uview k.
Proof. intros H. by apply enter_inv in H as (th & _ & _ & ->). Qed.
Lemma leave_uview old rest k k' : leave old rest k = Ok k' -> uview k' = uview k.
Proof. intros H. apply leave_inv in H as (th & E & ->). by apply uview_put with th. Qed.
Lemma suspend_uview old rest k k' : suspend old rest k = Ok k' -> uview k' = uview k.
Proof. intros H. apply suspend_inv in H as (th & E & ->). by apply uview_put with th. Qed.
Lemma Sleep_uview k k' : Sleep k = Ok k' -> uview k' = uview k.
Proof. intros H. apply Sleep_inv in H as (th & E & _ & ->). by apply uview_put with th. Qed.
Lemma ReadyToRun_uview t k k' : ReadyToRun t k = Ok k' -> uview k' = uview k.
Proof. intros H. apply ReadyToRun_inv in H as (th & E & ->). by apply uview_put with th. Qed.
Lemma wake_first_uview q k q' k' : wake_first q k = Ok (q', k') -> uview k' = uview k.
Proof.
  destruct q as [|t q]; simpl; intros H; [by inv_res|]. inv_res. by apply ReadyToRun_uview in E.
Qed.
Lemma broadcast_loop_uview c n : forall k k', broadcast_loop n c k = Ok k' -> uview k' = uview k.
Proof.
  induction n as [|n IH]; intros k k' H; cbn [broadcast_loop] in H;
    apply bind_inv in H as (q & _ & H); destruct q as [|t q];
    try (apply Ok_inj in H; by subst k'); [done|].
  apply bind_inv in H as ([q' k1] & Ewk & H). apply IH in H. rewrite H.
  by apply wake_first_uview in Ewk.
Qed.

(** Split a hypothesis at its binds and collect what the parts do to [uview]. *)
Ltac uviews :=
  repeat match goal with
  | H : (_ ≫= _) = Ok _ |- _ => apply bind_inv in H as (? & ? & H); cbv beta in H
  | H : (let _ := _ in _) = Ok _ |- _ => cbv zeta in H
  | H : _ ?p = Ok _ |- _ => is_var p; match type of p with prod _ _ => destruct p end; cbn beta iota in H
  | H : (if ?b then _ else _) = Ok _ |- _ => destruct b
  | H : mret _ = Ok _ |- _ => apply Ok_inj in H; subst
  | H : enter _ = Ok ?p |- _ => is_var p; destruct p
  | H : enter _ = Ok _ |- _ => apply enter_uview in H
  | H : leave _ _ _ = Ok _ |- _ => apply leave_uview in H
  | H : suspend _ _ _ = Ok _ |- _ => apply suspend_uview in H
  | H : Sleep _ = Ok _ |- _ => apply Sleep_uview in H
  | H : ReadyToRun _ _ = Ok _ |- _ => apply ReadyToRun_uview in H
  | H : wake_first _ _ = Ok ?p |- _ => is_var p; destruct p
  | H : wake_first _ _ = Ok _ |- _ => apply wake_first_uview in H
  | H : broadcast_loop _ _ _ = Ok _ |- _ => apply broadcast_loop_uview in H
  end.

(** Changes to the objects, the interrupt level and the ready list do not show. *)
Lemma uview_put_sem s x k : uview (put_sem s x k) = uview k.
Proof. done. Qed.
Lemma uview_put_lock l x k : uview (put_lock l x k) = uview k.
Proof. done. Qed.
Lemma uview_put_cond c x k : uview (put_cond c x k) = uview k.
Proof. done. Qed.

Ltac uview_tac :=
  uviews; repeat (match goal with H : uview ?k = _ |- context [uview ?k] => rewrite H; clear H end;
    rewrite ?uview_put_sem, ?uview_put_lock, ?uview_put_cond);
  try reflexivity.

Lemma V_body_uview s k k' : V_body s k = Ok k' -> uview k' = uview k.
Proof. unfold V_body. intros H. uviews. rewrite uview_put_sem. uview_tac. Qed.

Lemma Release_body_uview l k k' : Release_body l k = Ok k' -> uview k' = uview k.
Proof. unfold Release_body. intros H. uviews. rewrite uview_put_lock. uview_tac. Qed.

Lemma exec_uview pick k k' th :
  threads k !! currentThread k = Some th -> exec pick k = Ok k' ->
  match head (prog th) with Some CYield | Some (CUser _) => True | _ => uview k' = uview k end.
Proof.
  intros E H. unfold exec in H. rewrite (get_thread_eq _ _ _ E), bind_Ok in H.
  destruct (prog th) as [|c rest]; [done|]. simpl. destruct c; try exact I.
  - uview_tac.
  - uview_tac.
  - unfold P in H. uview_tac.
  - unfold V in H. apply bind_inv in H as ([old k0] & E0 & H).
    apply bind_inv in H as (k1 & E1 & H). apply V_body_uview in E1. uview_tac.
  - unfold Acquire, Acquire_loop in H. uview_tac.
  - unfold Release in H. apply bind_inv in H as ([old k0] & E0 & H).
    apply bind_inv in H as (k1 & E1 & H). apply Release_body_uview in E1. uview_tac.
  - unfold Acquiring, Acquire_loop in H. uview_tac.
  - unfold Wait in H. apply bind_inv in H as ([old k0] & E0 & H).
    apply bind_inv in H as (lk & _ & H). apply bind_inv in H as (u & _ & H).
    apply bind_inv in H as (k1 & E1 & H). apply Release_body_uview in E1. uview_tac.
  - unfold Signal in H. uview_tac.
  - unfold Broadcast in H. uview_tac.
  - unfold Fork in H. apply bind_inv in H as (k1 & E1 & H).
    apply update_thread_inv in E1 as (th1 & E1 & ->).
    assert (uview (put_thread t (StackAllocate (prog th1) th1) k) = uview k) as E2
      by (by apply uview_put with th1).
    uview_tac.
  - unfold Finish in H. cbv zeta in H. uviews. uview_tac.
Qed.

(** The registers of the user program of thread [t]: the machine's while it is
    current, the copy in its control block while it is not. *)
Definition user_regs (k : kernel) (t : Z) : option (list Z) :=
  if decide (t = currentThread k) then Some (registers k) else userRegisters <$> threads k !! t.

(** [t] runs a user program in the address space [a]: it is current, or was
    switched out. *)
Definition in_user (k : kernel) (t a : Z) : Prop :=
  exists th, threads k !! t = Some th /\ space th = Some a /\
    (t = currentThread k \/ in_SWITCH th = true).

Lemma uview_private k k' t a :
  uview k' = uview k -> in_user k t a -> in_user k' t a /\ user_regs k' t = user_regs k t.
Proof.
  intros [= Er Ec Em] (th & E & Hsp & Hsw).
  pose proof (f_equal (fun m => m !! t) Em) as Et. simpl in Et. rewrite !lookup_fmap, E in Et.
  destruct (threads k' !! t) as [th'|] eqn:E'; [|done]. injection Et as E1 E2 E3. split.
  - exists th'. rewrite Ec, E3. split; [done|]. split; [congruence|done].
  - unfold user_regs. rewrite Ec, Er, E, E'. simpl. by rewrite E2.
Qed.

Lemma Run_private next k k' t a :
  Run next k = Ok k' -> in_user k t a -> is_Some (threads k' !! t) ->
  in_user k' t a /\ user_regs k' t = user_regs k t.
Proof.
  intros H (th & E & Hsp & Hsw) Hs. apply Run_dispatched in H as (old & x & Eold & Ex & Hds).
  destruct Hds as (Hc & _ & _ & _ & _ & Hds). unfold in_user, user_regs. rewrite Hc.
  assert (forall y, threads k' !! t = Some y -> switched k next old x !! t = Some y) as Hsub.
  { intros y Ey. destruct (in_SWITCH x); [|by rewrite (proj1 Hds) in Ey].
    rewrite (proj1 Hds) in Ey. destruct (threadToBeDestroyed k); [|done].
    by apply lookup_delete_Some in Ey as [_ ?]. }
  destruct Hs as [y Ey]. specialize (Hsub y Ey). unfold switched in Hsub.
  assert (<[currentThread k := saved k old]> (threads k) !! t =
    Some (if decide (t = currentThread k) then saved k th else th)) as Et.
  { case_decide as Hd; [|by rewrite lookup_insert_ne].
    rewrite Hd, lookup_insert_eq. congruence. }
  destruct (decide (t = next)) as [->|Hne].
  - rewrite Et in Ex. injection Ex as <-. rewrite lookup_insert_eq in Hsub. injection Hsub as <-.
    split.
    + eexists. split; [exact Ey|]. split; [|by left]. case_decide; [|done].
      unfold saved. by rewrite Hsp.
    + case_decide as Hd.
      * unfold saved in Hds. rewrite Hsp in Hds. simpl in Hds. rewrite Hsp in Hds.
        f_equal. tauto.
      * destruct Hsw as [?|Hsw]; [done|]. rewrite Hsw, Hsp in Hds. rewrite E. simpl. f_equal. tauto.
  - rewrite lookup_insert_ne, Et in Hsub by done. injection Hsub as <-. split.
    + eexists. split; [exact Ey|]. case_decide; [|split; [done|]; destruct Hsw; auto].
      unfold saved. rewrite Hsp. auto.
    + rewrite Ey, E. simpl. case_decide; [|done]. unfold saved. by rewrite Hsp.
Qed.

Lemma FindNextToRun_uview pick k o k1 : FindNextToRun pick k = (o, k1) -> uview k1 = uview k.
Proof. unfold FindNextToRun. destruct (readyList k); by intros [= _ <-]. Qed.

Lemma Yield_private pick rest k k' t a :
  Yield pick rest k = Ok k' -> in_user k t a -> is_Some (threads k' !! t) ->
  in_user k' t a /\ user_regs k' t = user_regs k t.
Proof.
  intros H Hu Hs. unfold Yield in H. apply bind_inv in H as ([old k0] & E0 & H).
  apply enter_uview in E0. destruct (FindNextToRun pick k0) as [[next|] k1] eqn:EF;
    apply FindNextToRun_uview in EF.
  - apply bind_inv in H as (k2 & E2 & H). apply bind_inv in H as (k3 & E3 & H).
    apply suspend_uview in E2. apply ReadyToRun_uview in E3.
    destruct (uview_private k k3 t a) as (Hu3 & <-); [congruence|done|].
    by apply (Run_private next k3).
  - apply leave_uview in H. apply uview_private; [congruence|done].
Qed.

(** A step in which the program of [t] makes no user-level computation, and after
    which [t] still exists. *)
Definition quiet (pick : list Z -> nat) (t : Z) (k k' : kernel) : Prop :=
  kstep pick k k' /\ (currentThread k = t -> forall regs, next_cmd k <> Some (CUser regs)) /\
  is_Some (threads k' !! t).

Lemma quiet_private pick t a k k' :
  quiet pick t k k' -> in_user k t a -> in_user k' t a /\ user_regs k' t = user_regs k t.
Proof.
  intros (Hs & Hq & Hex) Hu. destruct Hs as [k k' _ _ _ H|k k' _ _ H|s k k' _ _ H|k k' th _ _ _ H|u p k _ Hn].
  - pose proof H as H0. unfold exec in H0. apply bind_inv in H0 as (th & E & H0).
    apply get_thread_Ok in E. pose proof (exec_uview pick k k' th E H) as Hv. unfold next_cmd in Hq.
    rewrite E in Hq. destruct (prog th) as [|c rest]; [done|]. simpl in Hv.
    destruct c; try (by apply uview_private).
    + by apply (Yield_private pick rest k).
    + unfold User in H0. apply bind_inv in H0 as (k1 & E1 & H0). apply Ok_inj in H0. subst k'.
      apply update_thread_inv in E1 as (th1 & E1 & ->).
      assert (t <> currentThread k) as Hne by (intros ->; by apply (Hq eq_refl regs)).
      destruct Hu as (y & Ey & Hsp & Hsw). unfold in_user, user_regs. simpl.
      rewrite lookup_insert_ne by done. split; [by exists y|]. by case_decide.
  - unfold Sleep_loop in H. destruct (FindNextToRun pick k) as [[next|] k1] eqn:EF;
      apply FindNextToRun_uview in EF.
    + destruct (uview_private k (set_sleeping k1 false) t a) as (Hu1 & <-); [exact EF|done|].
      by apply (Run_private next (set_sleeping k1 false)).
    + apply Ok_inj in H. subst k'. by apply uview_private.
  - apply V_body_uview in H. by apply uview_private.
  - by apply (Yield_private pick (prog th) k).
  - destruct Hu as (y & Ey & Hsp & Hsw). assert (t <> u) as Hne by congruence.
    unfold in_user, user_regs. simpl. rewrite lookup_insert_ne by done.
    split; [by exists y|done].
Qed.

(** C6: a user program's registers are its own.  Whatever the other threads and
    the devices do, however often the CPU is switched away from the program and
    back, and wherever the kernel keeps them, the registers of a thread that runs
    a user program change only when that program itself computes; in particular
    they are the machine's registers whenever the thread is current. *)
Theorem user_registers_private pick t a k k' :
  in_user k t a -> rtc (quiet pick t) k k' ->
  in_user k' t a /\ user_regs k' t = user_regs k t.
Proof.
  intros Hu Hs. induction Hs as [k|k k1 k2 Hs _ IH]; [done|].
  destruct (quiet_private _ _ _ _ _ Hs Hu) as (Hu1 & <-). by apply IH.
Qed.

(** [simulate] with the conditions of [quiet]. *)
Fixpoint simulate_quiet (t : Z) (n : nat) (k : kernel) : res kernel :=
  match n with
  | O => mret k
  | S n =>
      k1 ← simulate 1 k;
      _ ← ASSERT (match next_cmd k with
                  | Some (CUser _) => negb (currentThread k =? t)
                  | _ => true
                  end && bool_decide (is_Some (threads k1 !! t)) && negb (sleeping k));
      simulate_quiet t n k1
  end.

Lemma simulate_quiet_sound t n : forall k k',
  simulate_quiet t n k = Ok k' -> rtc (quiet first_min t) k k'.
Proof.
  induction n as [|n IH]; intros k k' H; cbn [simulate_quiet] in H.
  { apply Ok_inj in H. by subst k'. }
  apply bind_inv in H as (k1 & E & H). apply bind_inv in H as (u & Ea & H).
  apply ASSERT_inv in Ea. apply andb_prop in Ea as [[Ea Eb]%andb_prop Ec].
  apply rtc_l with k1; [|by apply IH]. apply bool_decide_eq_true in Eb.
  split; [|split; [|done]].
  - cbn [simulate] in E. apply bind_inv in E as (k2 & E & E2). apply Ok_inj in E2. subst k2.
    apply negb_true_iff in Ec. rewrite Ec in E. apply bind_inv in E as (v & Ev & E).
    apply ASSERT_inv, step_ok_sound in Ev as [H1 H2]. by apply step_exec.
  - intros Ht regs Hn. rewrite Hn in Ea. by apply negb_true_iff, Z.eqb_neq in Ea.
Qed.

(** The main thread runs a user program in space 7 and yields to a thread that
    overwrites the machine's registers. *)
Definition user_kernel : kernel :=
  let k := sample_kernel [] [CUser [1; 2; 3]; CYield; CYield] [CYield] in
  put_thread 0 (mkThread RUNNING 1 None (Some 7) [] [CYield; CYield] false None)
    (set_machine k [40; 41; 42] (Some 7)).

Lemma user_registers_private_witness :
  exists k', simulate_quiet 0 3 user_kernel = Ok k' /\ registers k' = [1; 2; 3] /\
    currentThread k' <> 0 /\ user_regs k' 0 = Some [40; 41; 42].
Proof.
  assert (exists k', simulate_quiet 0 3 user_kernel = Ok k') as [k' E]
    by (eexists; vm_compute; reflexivity).
  assert (registers k' = [1; 2; 3] /\ currentThread k' <> 0) as [Hr Hc].
  { vm_compute in E. apply Ok_inj in E. subst k'. split; [reflexivity|discriminate]. }
  assert (in_user user_kernel 0 7) as Hu.
  { eexists. split; [vm_compute; reflexivity|]. split; [reflexivity|]. left. reflexivity. }
  exists k'. split; [exact E|]. split; [exact Hr|]. split; [exact Hc|].
  destruct (user_registers_private first_min 0 7 user_kernel k' Hu (simulate_quiet_sound _ _ _ _ E))
    as [_ ->].
  vm_compute. reflexivity.
Defined.

(** ** A carcass that is never deleted *)

(** The thread that finishes is deleted when SWITCH returns to another thread, not
    when another thread runs for the first time: if that one finishes too, the
    first is forgotten. *)
Lemma carcass_leak :
  exists k', simulate 5 (sample_kernel [CP 0] [CFinish] [CFinish]) = Ok k' /\
    threadToBeDestroyed k' = Some 2 /\ sleeping k' = true /\
    exists th, threads k' !! 1 = Some th /\ status th = BLOCKED /\ prog th = [].
Proof.
  eexists. split; [vm_compute; reflexivity|]. split; [reflexivity|]. split; [reflexivity|].
  eexists. split; [vm_compute; reflexivity|]. split; reflexivity.
Qed.
