(* ===== verification/Progs.v ===== *)
(** * Progs: what a step of the kernel does to the programs of the threads

    Lemmas on Thread.v and Synch.v for the components that run on threads, such as
    the synchronised list: which thread goes on with which calls, and what becomes
    of the owner of a lock and of the queue of a condition. *)

From S2P Require Import Prelude Machine Interrupt Thread Synch KernelInv KernelProps.

(** What a thread still has to do. *)
Definition prog_of (k : kernel) (t : Z) : option (list cmd) := prog <$> threads k !! t.

(** No thread that has been forked is new again. *)
Definition no_newer (k k' : kernel) : Prop :=
  forall t th', threads k' !! t = Some th' -> status th' = JUST_CREATED ->
    exists th, threads k !! t = Some th /\ status th = JUST_CREATED.

(** No program changes; the program of [t] becomes [p], and no other changes. *)
Record keeps (k k' : kernel) : Prop := {
  ke_prog : forall t, prog_of k' t = prog_of k t;
  ke_new : no_newer k k'
}.
Record moves (t : Z) (p : list cmd) (k k' : kernel) : Prop := {
  mo_prog : prog_of k' t = Some p;
  mo_other : forall x, x <> t -> prog_of k' x = prog_of k x;
  mo_new : no_newer k k'
}.

(** [rest] of the state: what the calls of this file leave alone. *)
Definition aside (k k' : kernel) : Prop :=
  currentThread k' = currentThread k /\ threadToBeDestroyed k' = threadToBeDestroyed k.

Lemma no_newer_trans k k1 k2 : no_newer k k1 -> no_newer k1 k2 -> no_newer k k2.
Proof. intros H1 H2 t th E Hs. destruct (H2 t th E Hs) as (th1 & E1 & Hs1). by apply (H1 t th1). Qed.

Lemma keeps_trans k k1 k2 : keeps k k1 -> keeps k1 k2 -> keeps k k2.
Proof.
  intros [H1 N1] [H2 N2]. split; [intros t; by rewrite H2|by eapply no_newer_trans].
Qed.

Lemma moves_after t p k k1 k2 : keeps k k1 -> moves t p k1 k2 -> moves t p k k2.
Proof.
  intros [H1 N1] [H2 O2 N2]. split; [done| |by eapply no_newer_trans].
  intros x Hx. by rewrite O2.
Qed.

Lemma moves_then t p k k1 k2 : moves t p k k1 -> keeps k1 k2 -> moves t p k k2.
Proof.
  intros [H1 O1 N1] [H2 N2]. split; [by rewrite H2| |by eapply no_newer_trans].
  intros x Hx. by rewrite H2, O1.
Qed.

Lemma keeps_same k k' : threads k' = threads k -> keeps k k'.
Proof.
  intros E. unfold prog_of. split; [intros t; unfold prog_of; by rewrite E|].
  intros t th'. rewrite E. eauto.
Qed.

Lemma moves_put k k' t th th' p :
  threads k !! t = Some th -> threads k' = <[t := th']> (threads k) -> prog th' = p ->
  (status th' = JUST_CREATED -> status th = JUST_CREATED) -> moves t p k k'.
Proof.
  intros E E' Hp Hs. split; unfold prog_of.
  - by rewrite E', lookup_insert_eq, <- Hp.
  - intros x Hx. by rewrite E', lookup_insert_ne.
  - intros x y. rewrite E'. intros [[-> <-]|[_ Ey]]%lookup_insert_Some Hst; eauto.
Qed.

Lemma keeps_put k k' t th th' :
  threads k !! t = Some th -> threads k' = <[t := th']> (threads k) -> prog th' = prog th ->
  (status th' = JUST_CREATED -> status th = JUST_CREATED) -> keeps k k'.
Proof.
  intros E E' Hp Hs. destruct (moves_put k k' t th th' (prog th) E E' Hp Hs) as [H1 H2 H3].
  split; [|done]. intros x. destruct (decide (x = t)) as [->|]; [|auto]. rewrite H1.
  unfold prog_of. by rewrite E.
Qed.

Lemma leave_moves old rest k k' :
  leave old rest k = Ok k' ->
  moves (currentThread k) rest k k' /\ aside k k' /\ locks k' = locks k /\ conds k' = conds k.
Proof.
  intros H. apply leave_inv in H as (th & E & ->).
  split; [by eapply (moves_put k _ _ th (set_prog th rest None))|done].
Qed.

Lemma suspend_moves old p k k' :
  suspend old p k = Ok k' ->
  moves (currentThread k) p k k' /\ aside k k' /\ locks k' = locks k /\ conds k' = conds k.
Proof.
  intros H. apply suspend_inv in H as (th & E & ->).
  split; [by eapply (moves_put k _ _ th (set_prog th p (Some old)))|done].
Qed.

Lemma Sleep_keeps k k' :
  Sleep k = Ok k' -> keeps k k' /\ aside k k' /\ locks k' = locks k /\ conds k' = conds k.
Proof.
  intros H. apply Sleep_inv in H as (th & E & _ & ->).
  split; [by eapply (keeps_put k _ _ th (set_status th BLOCKED))|done].
Qed.

Lemma ReadyToRun_keeps t k k' :
  ReadyToRun t k = Ok k' -> keeps k k' /\ aside k k' /\ locks k' = locks k /\ conds k' = conds k.
Proof.
  intros H. apply ReadyToRun_inv in H as (th & E & ->).
  split; [by eapply (keeps_put k _ t th (set_status th READY))|done].
Qed.

Lemma wake_first_keeps q k q' k' :
  wake_first q k = Ok (q', k') ->
  keeps k k' /\ aside k k' /\ locks k' = locks k /\ conds k' = conds k /\ q' = tail q.
Proof.
  destruct q as [|t q]; simpl; intros H; inv_res.
  - split; [by apply keeps_same|done].
  - apply ReadyToRun_keeps in E as (? & ? & ? & ?). done.
Qed.

Lemma aside_trans k k1 k2 : aside k k1 -> aside k1 k2 -> aside k k2.
Proof. intros [H1 H2] [H3 H4]. split; congruence. Qed.

Lemma suspend_Sleep_moves old p k k1 k' :
  suspend old p k = Ok k1 -> Sleep k1 = Ok k' ->
  moves (currentThread k) p k k' /\ aside k k' /\ locks k' = locks k /\ conds k' = conds k.
Proof.
  intros H1 H2. apply suspend_moves in H1 as (M & A & L & C). apply Sleep_keeps in H2 as (K & A' & L' & C').
  split; [by eapply moves_then|]. split; [by eapply aside_trans|]. split; congruence.
Qed.

(** ** The calls *)

Lemma Acquire_loop_moves l old rest k k' :
  Acquire_loop l old rest k = Ok k' ->
  aside k k' /\ conds k' = conds k /\ exists lk x, locks k !! l = Some lk /\
    locks k' = <[l := x]> (locks k) /\
    ((moves (currentThread k) rest k k' /\ available lk = true /\ ownerThread x = Some (currentThread k)) \/
     (moves (currentThread k) (CAcquiring l :: rest) k k' /\ ownerThread x = ownerThread lk)).
Proof.
  unfold Acquire_loop. intros H. apply bind_inv in H as (lk & El & H). apply get_lock_Ok in El.
  destruct (available lk) eqn:Ea; cbn [negb] in H; cbv zeta in H.
  - apply leave_moves in H as (M & A & L & C).
    split; [exact A|]. split; [exact C|]. exists lk. eexists. split; [done|]. split; [exact L|].
    left. split; [|done]. eapply moves_after; [|exact M]. by apply keeps_same.
  - apply bind_inv in H as (k1 & Hsu & Hsl).
    destruct (suspend_Sleep_moves _ _ _ _ _ Hsu Hsl) as (M & A & L & C).
    split; [exact A|]. split; [exact C|]. exists lk. eexists. split; [done|]. split; [exact L|].
    right. split; [|done]. eapply moves_after; [|exact M]. by apply keeps_same.
Qed.

Lemma Release_body_keeps l k k' :
  Release_body l k = Ok k' -> keeps k k' /\ aside k k' /\ conds k' = conds k /\
    exists x, locks k' = <[l := x]> (locks k) /\ ownerThread x = None.
Proof.
  unfold Release_body. intros H. apply bind_inv in H as (lk & El & H).
  apply bind_inv in H as (u & _ & H). apply bind_inv in H as ([q k1] & Ewk & H).
  apply Ok_inj in H. subst k'. apply wake_first_keeps in Ewk as (K & A & L & C & _).
  split; [eapply keeps_trans; [exact K|by apply keeps_same]|]. split; [exact A|]. split; [exact C|].
  eexists. simpl. by rewrite L.
Qed.

Lemma broadcast_loop_keeps c n : forall k k',
  broadcast_loop n c k = Ok k' ->
  keeps k k' /\ aside k k' /\ locks k' = locks k /\ forall c', c' <> c -> conds k' !! c' = conds k !! c'.
Proof.
  induction n as [|n IH]; intros k k' H; cbn [broadcast_loop] in H;
    apply bind_inv in H as (q & _ & H); destruct q as [|t q];
    try (apply Ok_inj in H; subst k'; split; [by apply keeps_same|done]); [done|].
  apply bind_inv in H as ([q' k1] & Ewk & H). apply wake_first_keeps in Ewk as (K & A & L & C & _).
  apply IH in H as (K2 & A2 & L2 & C2). split; [|split; [|split]].
  - eapply keeps_trans; [exact K|]. eapply keeps_trans; [|exact K2]. by apply keeps_same.
  - exact (aside_trans _ _ _ A A2).
  - by rewrite L2.
  - intros c' Hc. rewrite C2 by done. simpl. by rewrite lookup_insert_ne, C by done.
Qed.

Section calls.
Context (pick : list Z -> nat) (k k' : kernel) (rest : list cmd).

(** The current thread is not sleeping and this is the call it makes. *)
Definition calls (c : cmd) : Prop := prog_of k (currentThread k) = Some (c :: rest).

Lemma calls_exec c :
  calls c -> exec pick k = Ok k' -> exists th, threads k !! currentThread k = Some th /\ prog th = c :: rest.
Proof.
  unfold calls, prog_of. intros E _. destruct (threads k !! currentThread k) as [th|]; [|done].
  injection E as E. by exists th.
Qed.

(** Enter a call in the hypothesis [H : exec pick k = Ok k']. *)
Ltac enter_call := match goal with
  | Hc : calls ?c, H : exec pick k = Ok k' |- _ =>
      let th := fresh "th" in let E := fresh "E" in let Ep := fresh "Ep" in
      destruct (calls_exec c Hc H) as (th & E & Ep); unfold exec, get_thread in H;
      rewrite E, bind_Ok, Ep in H
  end;
  match goal with H : _ = Ok k' |- _ =>
    try (let old := fresh "old" in let k0 := fresh "k" in let E0 := fresh "E" in
      let th0 := fresh "th" in
      first [unfold Acquire in H|unfold Acquiring in H|unfold Release in H|unfold Wait in H
        |unfold Signal in H|unfold Broadcast in H|unfold P in H|unfold V in H|idtac];
      apply bind_inv in H as ([old k0] & E0 & H); apply enter_inv in E0 as (th0 & _ & _ & ->)) end.

Lemma CAcquire_moves l c :
  c = CAcquire l \/ c = CAcquiring l -> calls c -> exec pick k = Ok k' ->
  aside k k' /\ conds k' = conds k /\ exists lk x, locks k !! l = Some lk /\
    locks k' = <[l := x]> (locks k) /\
    ((moves (currentThread k) rest k k' /\ available lk = true /\ ownerThread x = Some (currentThread k)) \/
     (moves (currentThread k) (CAcquiring l :: rest) k k' /\ ownerThread x = ownerThread lk)).
Proof.
  intros Hl Hc H.
  assert (exists old, Acquire_loop l old rest (set_level k IntOff) = Ok k') as (old & Ho).
  { destruct Hl as [-> | ->]; enter_call; [|by exists old].
    apply bind_inv in H as (lk & _ & H). apply bind_inv in H as (u & _ & H). by exists old. }
  apply Acquire_loop_moves in Ho as (A & C & lk & x & El & Ex & Hx). simpl in *.
  split; [exact A|]. split; [exact C|]. exists lk, x. split; [done|]. split; [done|].
  destruct Hx as [(M & ?)|(M & ?)]; [left|right]; (split; [|done]);
    (eapply moves_after; [|exact M]); by apply keeps_same.
Qed.

Lemma CRelease_moves l :
  calls (CRelease l) -> exec pick k = Ok k' ->
  moves (currentThread k) rest k k' /\ aside k k' /\ conds k' = conds k /\
  exists x, locks k' = <[l := x]> (locks k) /\ ownerThread x = None.
Proof.
  intros Hc H. enter_call. apply bind_inv in H as (k1 & Hb & H).
  apply Release_body_keeps in Hb as (K & A & C & x & Ex & Ho).
  apply leave_moves in H as (M & A' & L & C'). simpl in *. destruct A as [Ac Ad]. simpl in *.
  rewrite Ac in M. split; [|split; [|split]].
  - eapply moves_after; [|exact M]. eapply keeps_trans; [|exact K]. by apply keeps_same.
  - destruct A'. split; congruence.
  - congruence.
  - exists x. split; [congruence|done].
Qed.

Lemma CWait_moves c l :
  calls (CWait c l) -> exec pick k = Ok k' ->
  moves (currentThread k) (CAcquire l :: rest) k k' /\ aside k k' /\
  (exists x, locks k' = <[l := x]> (locks k) /\ ownerThread x = None) /\
  exists q, conds k !! c = Some q /\ conds k' = <[c := q ++ [currentThread k]]> (conds k).
Proof.
  intros Hc H. enter_call. apply bind_inv in H as (lk & El & H). apply bind_inv in H as (u & _ & H).
  apply bind_inv in H as (k1 & Hb & H). apply Release_body_keeps in Hb as (K & A & C & x & Ex & Ho).
  apply bind_inv in H as (q & Eq & H). apply get_cond_Ok in Eq. cbv zeta in H.
  apply bind_inv in H as (k2 & Hsu & Hsl).
  destruct (suspend_Sleep_moves _ _ _ _ _ Hsu Hsl) as (M & A' & L & C').
  destruct A as [Ac Ad]. simpl in *. rewrite Ac in M, C'. split; [|split; [|split]].
  - eapply moves_after; [|exact M]. eapply keeps_trans; [|eapply keeps_trans; [exact K|]];
      by apply keeps_same.
  - destruct A'. simpl in *. split; congruence.
  - exists x. split; [congruence|done].
  - exists q. rewrite C in Eq, C'. done.
Qed.

Lemma CSignal_moves c l :
  calls (CSignal c l) -> exec pick k = Ok k' ->
  moves (currentThread k) rest k k' /\ aside k k' /\ locks k' = locks k /\
  exists q, conds k !! c = Some q /\ conds k' = <[c := tail q]> (conds k).
Proof.
  intros Hc H. enter_call. apply bind_inv in H as (lk & El & H). apply bind_inv in H as (u & _ & H).
  apply bind_inv in H as (q & Eq & H). apply get_cond_Ok in Eq.
  apply bind_inv in H as ([q' k1] & Ewk & H). apply wake_first_keeps in Ewk as (K & A & L & C & ->).
  apply leave_moves in H as (M & A' & L' & C'). destruct A as [Ac Ad]. simpl in *. rewrite Ac in M.
  split; [|split; [|split]].
  - eapply moves_after; [|exact M]. eapply keeps_trans; [|eapply keeps_trans; [exact K|]];
      by apply keeps_same.
  - destruct A'. simpl in *. split; congruence.
  - congruence.
  - exists q. rewrite C in C'. done.
Qed.

Lemma CBroadcast_moves c l :
  calls (CBroadcast c l) -> exec pick k = Ok k' ->
  moves (currentThread k) rest k k' /\ aside k k' /\ locks k' = locks k /\
  forall c', c' <> c -> conds k' !! c' = conds k !! c'.
Proof.
  intros Hc H. enter_call. apply bind_inv in H as (lk & El & H). apply bind_inv in H as (u & _ & H).
  apply bind_inv in H as (q & Eq & H). apply bind_inv in H as (k1 & Hb & H).
  apply broadcast_loop_keeps in Hb as (K & A & L & C). apply leave_moves in H as (M & A' & L' & C').
  destruct A as [Ac Ad]. simpl in *. rewrite Ac in M. split; [|split; [|split]].
  - eapply moves_after; [|exact M]. eapply keeps_trans; [|exact K]. by apply keeps_same.
  - destruct A'. split; congruence.
  - congruence.
  - intros c' Hne. rewrite C'. by apply C.
Qed.

Lemma CRestore_moves :
  calls CRestore -> exec pick k = Ok k' ->
  moves (currentThread k) rest k k' /\ aside k k' /\ locks k' = locks k /\ conds k' = conds k.
Proof.
  intros Hc H. enter_call. apply leave_moves in H as (M & A & L & C).
  split; [|done]. eapply moves_after; [|exact M]. by apply keeps_same.
Qed.
End calls.

(** ** Changing threads *)

(** The program of everyone but [t] is what it was, or the thread is deleted. *)
Definition spares (t : Z) (k k' : kernel) : Prop :=
  forall x, x <> t -> prog_of k' x = prog_of k x \/
    (prog_of k' x = None /\ threadToBeDestroyed k = Some x).

Lemma Run_keeps next k k' :
  Run next k = Ok k' ->
  (forall x, prog_of k' x = prog_of k x \/ (prog_of k' x = None /\ threadToBeDestroyed k = Some x)) /\
  no_newer k k' /\ locks k' = locks k /\ conds k' = conds k /\
  (threadToBeDestroyed k' = threadToBeDestroyed k \/ threadToBeDestroyed k' = None).
Proof.
  intros H. apply Run_inv in H as (m & th & Hm & Eth & (_ & L & C) & _ & _ & _ & _ & Hcase).
  assert (forall x, prog <$> (<[next := set_status th RUNNING]> m !! x) = prog_of k x) as Hp.
  { intros x. pose proof (Hm x) as Hx. unfold prog_of. lookup_case x next.
    - rewrite Eth in Hx. unfold same_thread in Hx. destruct (threads k !! next); [|done].
      simpl. f_equal. apply Hx.
    - unfold same_thread in Hx. destruct (threads k !! x), (m !! x); try done. simpl. f_equal. apply Hx. }
  assert (forall x y, <[next := set_status th RUNNING]> m !! x = Some y -> status y = JUST_CREATED ->
    exists th0, threads k !! x = Some th0 /\ status th0 = JUST_CREATED) as Hn.
  { intros x y [[-> <-]|[_ Ey]]%lookup_insert_Some Hst; [done|]. pose proof (Hm x) as Hx.
    rewrite Ey in Hx. unfold same_thread in Hx. destruct (threads k !! x) as [th0|]; [|done].
    exists th0. split; [done|]. destruct Hx as [Hx _]. congruence. }
  split; [|split; [|split; [exact L|split; [exact C|]]]].
  - intros x. unfold prog_of at 1 3. destruct Hcase as [[E _]|(t & Ed & E & _)]; rewrite E.
    + left. apply Hp.
    + lookup_case x t; [by right|]. left. apply Hp.
  - intros x y Ey. apply Hn. destruct Hcase as [[E _]|(t & Ed & E & _)]; rewrite E in Ey; [done|].
    by apply lookup_delete_Some in Ey as [_ ?].
  - destruct Hcase as [[_ ?]|(t & _ & _ & ?)]; auto.
Qed.

Section switching.
Context (pick : list Z -> nat).

Lemma FindNextToRun_same k o k1 :
  FindNextToRun pick k = (o, k1) -> threads k1 = threads k /\ aside k k1 /\ locks k1 = locks k /\ conds k1 = conds k.
Proof. unfold FindNextToRun. destruct (readyList k); by intros [= _ <-]. Qed.

Lemma Yield_moves rest k k' :
  Yield pick rest k = Ok k' ->
  (forall p, prog_of k' (currentThread k) = Some p -> p = rest \/ p = CRestore :: rest) /\
  (prog_of k' (currentThread k) = None -> threadToBeDestroyed k = Some (currentThread k)) /\
  spares (currentThread k) k k' /\ no_newer k k' /\ locks k' = locks k /\ conds k' = conds k /\
  (threadToBeDestroyed k' = threadToBeDestroyed k \/ threadToBeDestroyed k' = None).
Proof.
  unfold Yield. intros H. apply bind_inv in H as ([old k0] & E0 & H).
  apply enter_inv in E0 as (th0 & _ & _ & ->).
  destruct (FindNextToRun pick (set_level k IntOff)) as [[next|] k1] eqn:EF;
    apply FindNextToRun_same in EF as (Et & [Ac Ad] & L1 & C1); simpl in *.
  - apply bind_inv in H as (k2 & Hsu & H). apply bind_inv in H as (k3 & Hrd & H).
    apply suspend_moves in Hsu as (M & [Ac2 Ad2] & L2 & C2).
    apply ReadyToRun_keeps in Hrd as (K & [Ac3 Ad3] & L3 & C3).
    apply Run_keeps in H as (Hp & Hn & L4 & C4 & Hd). rewrite Ac in M.
    destruct (moves_then _ _ _ _ _ M K) as [M1 M2 M3].
    assert (threadToBeDestroyed k3 = threadToBeDestroyed k) as Ed by congruence. rewrite Ed in *.
    split_and!; try congruence.
    + intros p Ep. destruct (Hp (currentThread k)) as [E|[E _]]; [|congruence].
      rewrite E, M1 in Ep. injection Ep as <-. by right.
    + intros E. destruct (Hp (currentThread k)) as [E'|[_ ?]]; [|done]. congruence.
    + intros x Hx. destruct (Hp x) as [->|[? ?]]; [left|by right].
      rewrite M2 by done. unfold prog_of. by rewrite Et.
    + eapply no_newer_trans; [|exact Hn]. eapply no_newer_trans; [|exact M3].
      apply keeps_same. by rewrite Et.
  - apply leave_moves in H as ([M1 M2 M3] & [Ac2 Ad2] & L2 & C2). rewrite Ac in *.
    split_and!; try congruence.
    + intros p Ep. rewrite M1 in Ep. injection Ep as <-. by left.
    + intros x Hx. left. rewrite M2 by done. unfold prog_of. by rewrite Et.
    + eapply no_newer_trans; [|exact M3]. apply keeps_same. by rewrite Et.
    + left. congruence.
Qed.

Lemma Sleep_loop_moves k k' :
  Sleep_loop pick k = Ok k' ->
  (forall x, prog_of k' x = prog_of k x \/ (prog_of k' x = None /\ threadToBeDestroyed k = Some x)) /\
  no_newer k k' /\ locks k' = locks k /\ conds k' = conds k /\
  (threadToBeDestroyed k' = threadToBeDestroyed k \/ threadToBeDestroyed k' = None).
Proof.
  unfold Sleep_loop. intros H. destruct (FindNextToRun pick k) as [[next|] k1] eqn:EF;
    apply FindNextToRun_same in EF as (Et & [Ac Ad] & L1 & C1).
  - apply Run_keeps in H as (Hp & Hn & L & C & Hd). simpl in *. rewrite Ad in *. split_and!; try congruence.
    + intros x. destruct (Hp x) as [->|?]; [left|by right]. unfold prog_of. simpl. by rewrite Et.
    + eapply no_newer_trans; [|exact Hn]. apply keeps_same. simpl. by rewrite Et.
  - apply Ok_inj in H. subst k'. split_and!; try done; try (left; congruence).
    + intros x. left. unfold prog_of. by rewrite Et.
    + apply keeps_same. by rewrite Et.
Qed.

Lemma V_body_keeps s k k' :
  V_body s k = Ok k' -> keeps k k' /\ aside k k' /\ locks k' = locks k /\ conds k' = conds k.
Proof.
  unfold V_body. intros H. apply bind_inv in H as (sem & _ & H). apply bind_inv in H as ([q k1] & Ewk & H).
  apply Ok_inj in H. subst k'. apply wake_first_keeps in Ewk as (K & A & L & C & _).
  split; [|done]. eapply keeps_trans; [exact K|]. by apply keeps_same.
Qed.
End switching.

(** ** Threads that do not use a lock [l] and a condition [c] *)

Section foreign.
Context (pick : list Z -> nat) (l c : Z).

Definition uses (cm : cmd) : bool :=
  match cm with
  | CAcquire l' | CAcquiring l' | CRelease l' => l' =? l
  | CWait c' l' | CSignal c' l' | CBroadcast c' l' => (c' =? c) || (l' =? l)
  | _ => false
  end.

Definition foreign (p : list cmd) : Prop := Forall (fun cm => uses cm = false) p.

Definition owner (k : kernel) : option Z := locks k !! l ≫= ownerThread.

(** A step in which [t] does something else: the lock and the condition stay as
    they are, and so do the programs of the other threads, except one that is
    deleted and one that is started. *)
Record foreign_step (t : Z) (k k' : kernel) : Prop := {
  fs_prog : forall p, prog_of k' t = Some p -> foreign p;
  fs_other : forall x, x <> t -> prog_of k' x = prog_of k x \/
    (prog_of k' x = None /\ threadToBeDestroyed k = Some x) \/
    (exists th, threads k !! x = Some th /\ status th = JUST_CREATED /\
       prog_of k' x = Some (CEnable :: prog th ++ [CFinish]));
  fs_new : no_newer k k';
  fs_owner : owner k' = owner k;
  fs_queue : conds k' !! c = conds k !! c;
  fs_dead : threadToBeDestroyed k' = threadToBeDestroyed k \/ threadToBeDestroyed k' = None \/
    threadToBeDestroyed k' = Some t
}.

Lemma moves_foreign t p k k' :
  moves t p k k' -> foreign p -> owner k' = owner k -> conds k' !! c = conds k !! c ->
  (threadToBeDestroyed k' = threadToBeDestroyed k \/ threadToBeDestroyed k' = Some t) ->
  foreign_step t k k'.
Proof.
  intros [M1 M2 M3] Hp Ho Hq Hd. split; try done.
  - intros p' Ep. rewrite M1 in Ep. by injection Ep as <-.
  - intros x Hx. left. by apply M2.
  - tauto.
Qed.

Lemma same_owner k k' : locks k' = locks k -> owner k' = owner k.
Proof. unfold owner. by intros ->. Qed.
Lemma put_owner k k' l' x : l' <> l -> locks k' = <[l' := x]> (locks k) -> owner k' = owner k.
Proof. unfold owner. intros Hne ->. by rewrite lookup_insert_ne. Qed.

Lemma Fork_foreign t rest k k' :
  foreign rest -> (exists th, threads k !! t = Some th /\ status th = JUST_CREATED) ->
  Fork t rest k = Ok k' -> foreign_step (currentThread k) k k'.
Proof.
  intros Hr (th & Eth & Hst) H. unfold Fork in H.
  apply bind_inv in H as (k1 & E1 & H). apply update_thread_inv in E1 as (th1 & Eth1 & ->).
  assert (th1 = th) by congruence. subst th1.
  apply bind_inv in H as ([old k0] & E0 & H). apply enter_inv in E0 as (th0 & _ & _ & ->).
  apply bind_inv in H as (k2 & Hrd & H). apply ReadyToRun_keeps in Hrd as (K & [Ac Ad] & L & C).
  apply leave_moves in H as (M & [Ac2 Ad2] & L2 & C2). simpl in *. rewrite Ac in M.
  destruct (moves_after _ _ _ _ _ K M) as [M1 M2 M3]. split.
  - intros p Ep. rewrite M1 in Ep. by injection Ep as <-.
  - intros x Hx. rewrite M2 by done. unfold prog_of. simpl. lookup_case x t; [|by left].
    right. right. by exists th.
  - eapply no_newer_trans; [|exact M3]. eapply moves_put; [exact Eth|reflexivity|reflexivity|done].
  - apply same_owner. simpl in *. congruence.
  - simpl in *. by rewrite C2, C.
  - left. simpl in *. congruence.
Qed.

Lemma Yield_foreign rest k k' :
  foreign rest -> Yield pick rest k = Ok k' -> foreign_step (currentThread k) k k'.
Proof.
  intros Hr H. destruct (Yield_moves pick rest k k' H) as (Hp & _ & Hs & Hn & L & C & Hd).
  split; try done.
  - intros p Ep. destruct (Hp p Ep) as [-> | ->]; [done|by constructor].
  - intros x Hx. destruct (Hs x Hx) as [?|?]; auto.
  - by apply same_owner.
  - by rewrite C.
  - tauto.
Qed.

Lemma exec_foreign k k' p :
  fork_once k -> prog_of k (currentThread k) = Some p -> foreign p -> exec pick k = Ok k' ->
  foreign_step (currentThread k) k k'.
Proof.
  intros Hf Hp Hfo H. destruct p as [|cm rest].
  { exfalso. unfold prog_of in Hp. unfold exec, get_thread in H.
    destruct (threads k !! currentThread k) as [th|]; [|done]. injection Hp as Hp.
    rewrite bind_Ok, Hp in H. done. }
  pose proof Hp as Hcall. fold (calls k rest cm) in Hcall. inversion Hfo as [|? ? Hu Hr]; subst.
  assert (forall p' k0 k1 k2, foreign p' -> keeps k k0 -> aside k k0 -> locks k0 = locks k ->
    conds k0 = conds k -> moves (currentThread k) p' k0 k1 -> aside k0 k1 -> locks k1 = locks k0 ->
    conds k1 = conds k0 -> k2 = k1 -> foreign_step (currentThread k) k k2) as Hmv.
  { intros p' k0 k1 k2 Hp' K [_ D] L C M [_ D1] L1 C1 ->.
    eapply moves_foreign; [by eapply moves_after|done|apply same_owner; congruence|congruence|left; congruence]. }
  destruct (calls_exec pick k k' rest cm Hcall H) as (th & E & Ep). pose proof H as H0.
  unfold exec, get_thread in H0. rewrite E, bind_Ok, Ep in H0.
  destruct cm; simpl in Hu; try apply orb_false_elim in Hu as [Hu1 Hu2]; reflect_Z.
  - apply leave_moves in H0 as (M & A & L & C).
    by apply (Hmv rest k k' k'); try done; apply keeps_same.
  - destruct (CRestore_moves pick k k' rest Hcall H) as (M & A & L & C).
    by apply (Hmv rest k k' k'); try done; apply keeps_same.
  - unfold P in H0. apply bind_inv in H0 as ([old k0] & E0 & H0). apply enter_inv in E0 as (th0 & _ & _ & ->).
    apply bind_inv in H0 as (sem & _ & H0). destruct (value sem =? 0); cbv zeta in H0.
    + apply bind_inv in H0 as (k1 & Hsu & Hsl).
      destruct (suspend_Sleep_moves _ _ _ _ _ Hsu Hsl) as (M & A & L & C).
      by eapply Hmv; [..|exact M|exact A|exact L|exact C|reflexivity]; try done; apply keeps_same.
    + apply leave_moves in H0 as (M & A & L & C).
      by eapply Hmv; [..|exact M|exact A|exact L|exact C|reflexivity]; try done; apply keeps_same.
  - unfold V in H0. apply bind_inv in H0 as ([old k0] & E0 & H0). apply enter_inv in E0 as (th0 & _ & _ & ->).
    apply bind_inv in H0 as (k1 & Hv & H0). apply V_body_keeps in Hv as (K & [A1 A2] & L1 & C1).
    apply leave_moves in H0 as (M & A & L & C). simpl in *. rewrite A1 in M.
    by eapply Hmv; [..|exact M|exact A|exact L|exact C|reflexivity]; try done;
      eapply keeps_trans; [|exact K]; apply keeps_same.
  - destruct (CAcquire_moves pick k k' rest l0 _ (or_introl eq_refl) Hcall H) as ([_ D] & C & lk & x & El & Ex & Hx).
    destruct Hx as [(M & _)|(M & _)]; (eapply moves_foreign; [exact M| |by eapply put_owner|by rewrite C|by left]).
    + done.
    + constructor; [by apply Z.eqb_neq|done].
  - destruct (CRelease_moves pick k k' rest l0 Hcall H) as (M & [_ D] & C & x & Ex & _).
    eapply moves_foreign; [exact M|done|by eapply put_owner|by rewrite C|by left].
  - destruct (CAcquire_moves pick k k' rest l0 _ (or_intror eq_refl) Hcall H) as ([_ D] & C & lk & x & El & Ex & Hx).
    destruct Hx as [(M & _)|(M & _)]; (eapply moves_foreign; [exact M| |by eapply put_owner|by rewrite C|by left]).
    + done.
    + constructor; [by apply Z.eqb_neq|done].
  - destruct (CWait_moves pick k k' rest c0 l0 Hcall H) as (M & [_ D] & (x & Ex & _) & q & Eq & Cq).
    eapply moves_foreign; [exact M| |by eapply put_owner|by rewrite Cq, lookup_insert_ne|by left].
    constructor; [by apply Z.eqb_neq|done].
  - destruct (CSignal_moves pick k k' rest c0 l0 Hcall H) as (M & [_ D] & L & q & Eq & Cq).
    eapply moves_foreign; [exact M|done|by apply same_owner|by rewrite Cq, lookup_insert_ne|by left].
  - destruct (CBroadcast_moves pick k k' rest c0 l0 Hcall H) as (M & [_ D] & L & Cq).
    eapply moves_foreign; [exact M|done|by apply same_owner|apply Cq; congruence|by left].
  - by apply (Yield_foreign rest).
  - apply (Fork_foreign t rest); [done| |done]. apply Hf. unfold next_cmd. by rewrite E, Ep.
  - unfold User in H0. apply bind_inv in H0 as (k1 & E1 & H0). apply Ok_inj in H0. subst k'.
    apply update_thread_inv in E1 as (th1 & E1 & ->).
    eapply moves_foreign; [by eapply (moves_put k _ _ th1)|done|done|done|by left].
  - unfold Finish in H0. cbv zeta in H0. apply bind_inv in H0 as (k1 & Hsu & Hsl).
    destruct (suspend_Sleep_moves _ _ _ _ _ Hsu Hsl) as (M & [_ D] & L & C).
    eapply (moves_foreign _ []); [eapply moves_after; [|exact M]; by apply keeps_same|constructor
      |by apply same_owner|by rewrite C|by right].
Qed.
End foreign.
