(* ===== verification/SynchList.v ===== *)
(** * SynchList: threads/synchlist.h and threads/synchlist.cc

    A list that threads share: the list of NList.v in a monitor made of a lock and
    a condition.  The methods run on the kernel of Thread.v and Synch.v: a thread
    in a method is a list of statements, of which those that call the kernel
    become the program of the thread, while the others work on the list.  Between
    two calls of the kernel a thread is not interrupted, because simulated time
    only advances in the kernel, so such a statement is one step. *)

From S2P Require Import Prelude NList Machine Interrupt Thread Synch KernelInv KernelProps Progs.

Inductive stmt :=
  | SAcquire | SRelease | SSignal       (* lock->Acquire(), lock->Release(), listEmpty->Signal(lock) *)
  | SWhileEmpty                         (* while (list->IsEmpty()) listEmpty->Wait(lock); *)
  | SAppend (it : Z)                    (* list->Append(item) *)
  | SRemove                             (* item = list->Remove(); ASSERT(item != NULL) *)
  | SMapcar.                            (* list->Mapcar(func) *)

(** The fields [lock] and [listEmpty] are the numbers of kernel objects. *)
Record SynchList := mkSynchList { slist : List; lock : Z; listEmpty : Z }.

(** The methods. *)
Definition SynchList_Append (it : Z) : list stmt := [SAcquire; SAppend it; SSignal; SRelease].
Definition SynchList_Remove : list stmt := [SAcquire; SWhileEmpty; SRemove; SRelease].
Definition SynchList_Mapcar : list stmt := [SAcquire; SMapcar; SRelease].

Inductive method := MAppend (it : Z) | MRemove | MMapcar.

Definition body (m : method) : list stmt :=
  match m with
  | MAppend it => SynchList_Append it
  | MRemove => SynchList_Remove
  | MMapcar => SynchList_Mapcar
  end.

(** [code]: for a thread in a method, the statements left, and the program of its
    caller. *)
Record state := mkState {
  kern : kernel;
  cells : heap;
  sl : SynchList;
  code : gmap Z (list stmt * list cmd)
}.

Inductive event := Appended (it : Z) | Removed (it : Z) | Mapped (its : list Z).

(** The constructor, with the numbers of the new lock and the new condition. *)
Definition new_SynchList (l c : Z) (k : kernel) : SynchList * kernel :=
  (mkSynchList new_List l c, put_cond c new_Condition (put_lock l new_Lock k)).

(** The current thread goes on with the program [p] and the statements [ss]. *)
Definition goto (p : list cmd) (ss : list stmt) (rest : list cmd) (s : state) : res state :=
  k ← User (registers (kern s)) p (kern s);
  mret (mkState k (cells s) (sl s) (<[currentThread (kern s) := (ss, rest)]> (code s))).

Definition set_list (h : heap) (l : List) (s : state) : state :=
  mkState (kern s) h (mkSynchList l (lock (sl s)) (listEmpty (sl s))) (code s).

(** The current thread executes its next statement. *)
Definition run_code (s : state) : res (list event * state) :=
  match code s !! currentThread (kern s) with
  | None => Err NullDeref
  | Some ([], rest) =>
      k ← User (registers (kern s)) rest (kern s);
      mret ([], mkState k (cells s) (sl s) (delete (currentThread (kern s)) (code s)))
  | Some (st :: ss, rest) =>
      match st with
      | SAcquire => s ← goto [CAcquire (lock (sl s))] ss rest s; mret ([], s)
      | SRelease => s ← goto [CRelease (lock (sl s))] ss rest s; mret ([], s)
      | SSignal => s ← goto [CSignal (listEmpty (sl s)) (lock (sl s))] ss rest s; mret ([], s)
      | SWhileEmpty =>
          s ← (if IsEmpty (slist (sl s))
               then goto [CWait (listEmpty (sl s)) (lock (sl s))] (st :: ss) rest s
               else goto [] ss rest s);
          mret ([], s)
      | SAppend it =>
          '(h, l) ← Append (cells s) (slist (sl s)) it;
          s ← goto [] ss rest (set_list h l s); mret ([Appended it], s)
      | SRemove =>
          '(it, (h, l)) ← Remove (cells s) (slist (sl s));
          _ ← ASSERT (negb (it =? 0));
          s ← goto [] ss rest (set_list h l s); mret ([Removed it], s)
      | SMapcar =>
          its ← Mapcar (cells s) (slist (sl s));
          s ← goto [] ss rest s; mret ([Mapped its], s)
      end
  end.

(** The current thread calls a method, if it is not in one already, nor in a call
    of the kernel. *)
Definition call (m : method) (s : state) : res state :=
  th ← get_thread (currentThread (kern s)) (kern s);
  _ ← ASSERT (bool_decide (code s !! currentThread (kern s) = None) && bool_decide (oldLevel th = None));
  goto [] (body m) (prog th) s.

(** One step: of the kernel (the threads it creates use the list only through its
    methods), a call of a method, or a statement of one. *)
Inductive sl_step (pick : list Z -> nat) : list event -> state -> state -> Prop :=
  | sl_kernel s k :
      kstep pick (kern s) k ->
      (forall t p, threads (kern s) !! t = None -> prog_of k t = Some p ->
         foreign (lock (sl s)) (listEmpty (sl s)) p) ->
      sl_step pick [] s (mkState k (cells s) (sl s) (code s))
  | sl_call m s s' :
      sleeping (kern s) = false -> call m s = Ok s' -> sl_step pick [] s s'
  | sl_code ev s s' :
      sleeping (kern s) = false -> prog_of (kern s) (currentThread (kern s)) = Some [] ->
      run_code s = Ok (ev, s') -> sl_step pick ev s s'.

Inductive sl_run (pick : list Z -> nat) : list event -> state -> state -> Prop :=
  | sl_none s : sl_run pick [] s s
  | sl_more tr ev s s1 s2 :
      sl_run pick tr s s1 -> sl_step pick ev s1 s2 -> sl_run pick (tr ++ ev) s s2.

(** ** Histories *)

Definition appended (tr : list event) : list Z :=
  flat_map (fun e => match e with Appended it => [it] | _ => [] end) tr.
Definition removed (tr : list event) : list Z :=
  flat_map (fun e => match e with Removed it => [it] | _ => [] end) tr.

(** Every Mapcar saw the items that were on the list, in order. *)
Definition snapshots (tr : list event) : Prop :=
  forall tr1 its tr2, tr = tr1 ++ Mapped its :: tr2 -> appended tr1 = removed tr1 ++ its.

(** The list holds the items [es]. *)
Definition items (s : state) (es : list Z) : Prop :=
  exists ps ks, represents (cells s) (slist (sl s)) ps ks /\ ks.*2 = es.

(** Where a thread in a method can be: its program (after the end of a Yield), its
    statements, and whether it holds the lock then; [e]: the list is empty. *)
Fixpoint strip (p : list cmd) : list cmd :=
  match p with CRestore :: p => strip p | _ => p end.

Section monitor.
Context (l c : Z).

Inductive point (e : bool) : list cmd -> list stmt -> bool -> Prop :=
  | pt_called m : point e [] (body m) false
  | pt_entering m cm : cm = CAcquire l \/ cm = CAcquiring l -> point e [cm] (tail (body m)) false
  | pt_append it : point e [] [SAppend it; SSignal; SRelease] true
  | pt_signal : point e [] [SSignal; SRelease] true
  | pt_signalling : point e [CSignal c l] [SRelease] true
  | pt_loop : point e [] [SWhileEmpty; SRemove; SRelease] true
  | pt_waiting : e = true -> point e [CWait c l] [SWhileEmpty; SRemove; SRelease] true
  | pt_remove : e = false -> point e [] [SRemove; SRelease] true
  | pt_mapcar : point e [] [SMapcar; SRelease] true
  | pt_release : point e [] [SRelease] true
  | pt_releasing : point e [CRelease l] [] true
  | pt_return : point e [] [] false.

Definition is_nil {A} (es : list A) : bool := match es with [] => true | _ => false end.

(** What is known of a thread in a method. *)
Definition client_ok (k : kernel) (es : list Z) (t : Z) (ss : list stmt) (rest : list cmd) : Prop :=
  foreign l c rest /\
  (exists p b, prog_of k t = Some p /\ point (is_nil es) (strip p) ss b /\ (b = true <-> owner l k = Some t)) /\
  (forall th, threads k !! t = Some th -> status th <> JUST_CREATED).

Definition waiters (k : kernel) : list Z := default [] (conds k !! c).

(** A thread that will look at the list again, or will wake one that does. *)
Definition wakes (s : state) (t : Z) : Prop :=
  exists ss rest p, code s !! t = Some (ss, rest) /\ prog_of (kern s) t = Some p /\ t ∉ waiters (kern s) /\
    (ss = SynchList_Remove \/ (ss = tail SynchList_Remove /\ strip p <> [CWait c l]) \/ ss = [SRemove; SRelease] \/
     ss = [SSignal; SRelease] \/ strip p = [CSignal c l]).

(** There is one such thread for each of [n] items. *)
Definition budget (s : state) (n : Z) : Prop :=
  exists ts, NoDup ts /\ n <= zlen ts /\ forall t, t ∈ ts -> wakes s t.

Record sl_inv (tr : list event) (es : list Z) (s : state) : Prop := {
  i_names : lock (sl s) = l /\ listEmpty (sl s) = c;
  i_wf : kwf (kern s);
  i_objects : is_Some (locks (kern s) !! l) /\ is_Some (conds (kern s) !! c);
  i_items : items s es;
  i_history : appended tr = removed tr ++ es;
  i_maps : snapshots tr;
  i_client : forall t ss rest, code s !! t = Some (ss, rest) -> client_ok (kern s) es t ss rest;
  i_foreign : forall t p, code s !! t = None -> prog_of (kern s) t = Some p -> foreign l c p;
  i_owner : forall t, owner l (kern s) = Some t -> is_Some (code s !! t);
  i_dead : forall t, threadToBeDestroyed (kern s) = Some t -> code s !! t = None;
  i_wait : forall t, t ∈ waiters (kern s) -> exists rest, code s !! t = Some (tail SynchList_Remove, rest);
  i_budget : waiters (kern s) <> [] -> budget s (zlen es)
}.

(** ** The invariant, one thread at a time *)

Lemma point_outside e e' p ss : point e p ss false -> point e' p ss false.
Proof. intros H. inversion H; subst; by constructor. Qed.

Lemma client_same k k' es es' t ss rest :
  client_ok k es t ss rest -> prog_of k' t = prog_of k t -> no_newer k k' ->
  (owner l k' = Some t <-> owner l k = Some t) -> (es' = es \/ owner l k <> Some t) ->
  client_ok k' es' t ss rest.
Proof.
  intros (Hf & (p & b & Ep & Hp & Hb) & Hn) E Hnew Ho Hes. split; [done|]. split.
  - exists p, b. rewrite E. split; [done|]. split; [|by rewrite Hb, Ho].
    destruct Hes as [->|Hno]; [done|]. destruct b; [exfalso; tauto|]. by eapply point_outside.
  - intros th Eth Hst. destruct (Hnew t th Eth Hst) as (th0 & E0 & Hs0). by apply (Hn th0).
Qed.

(** A step of the thread [cur]: what has to be checked. *)
Lemma inv_step tr es s tr' es' s' cur :
  sl_inv tr es s -> kwf (kern s') ->
  lock (sl s') = lock (sl s) /\ listEmpty (sl s') = listEmpty (sl s) ->
  (forall x, x <> cur -> code s' !! x = code s !! x) ->
  (forall x, x <> cur -> prog_of (kern s') x = prog_of (kern s) x) ->
  no_newer (kern s) (kern s') ->
  threadToBeDestroyed (kern s') = threadToBeDestroyed (kern s) -> threadToBeDestroyed (kern s) <> Some cur ->
  is_Some (locks (kern s') !! l) /\ is_Some (conds (kern s') !! c) ->
  items s' es' -> appended tr' = removed tr' ++ es' -> snapshots tr' ->
  match code s' !! cur with
  | Some (ss, rest) => client_ok (kern s') es' cur ss rest
  | None => forall p, prog_of (kern s') cur = Some p -> foreign l c p
  end ->
  (forall x, x <> cur -> owner l (kern s') = Some x <-> owner l (kern s) = Some x) ->
  (owner l (kern s') = Some cur -> is_Some (code s' !! cur)) ->
  (es' = es \/ owner l (kern s) = Some cur) ->
  (forall t, t ∈ waiters (kern s') -> exists rest, code s' !! t = Some (tail SynchList_Remove, rest)) ->
  (waiters (kern s') <> [] -> budget s' (zlen es')) ->
  sl_inv tr' es' s'.
Proof.
  intros [In Iw Io Ii Ih Im Ic If Iow Id Iwt Ib] Hk [En1 En2] Hcode Hprog Hnew Hd Hdc Hobj Hit Hh Hm Hcur Ho Hoc
    Hes Hwt Hb.
  split; try done.
  - rewrite En1, En2. exact In.
  - intros t ss rest E. destruct (decide (t = cur)) as [->|Hne]; [by rewrite E in Hcur|].
    rewrite Hcode in E by done. eapply client_same; [by apply Ic|by apply Hprog|done|by apply Ho|].
    destruct Hes as [->|Hes]; [by left|right]. congruence.
  - intros t p E Ep. destruct (decide (t = cur)) as [->|Hne]; [rewrite E in Hcur; by apply Hcur|].
    rewrite Hcode in E by done. rewrite Hprog in Ep by done. by apply (If t).
  - intros t Et. destruct (decide (t = cur)) as [->|Hne]; [by apply Hoc|].
    rewrite Hcode by done. apply Iow. by apply Ho.
  - intros t Et. assert (t <> cur) as Hne by congruence. rewrite Hcode by done. apply Id. congruence.
Qed.

(** A step that only moves threads that are outside, or that return from a Yield. *)
Lemma inv_mild_client tr es s k' :
  sl_inv tr es s -> kwf k' ->
  (forall t th', is_Some (code s !! t) -> threads k' !! t = Some th' -> status th' = JUST_CREATED ->
     exists th, threads (kern s) !! t = Some th /\ status th = JUST_CREATED) ->
  (forall t ss rest, code s !! t = Some (ss, rest) -> exists p p',
     prog_of (kern s) t = Some p /\ prog_of k' t = Some p' /\ strip p' = strip p) ->
  (forall t p, code s !! t = None -> prog_of k' t = Some p -> foreign l c p) ->
  owner l k' = owner l (kern s) -> is_Some (locks k' !! l) -> conds k' !! c = conds (kern s) !! c ->
  (forall t, threadToBeDestroyed k' = Some t -> code s !! t = None) ->
  sl_inv tr es (mkState k' (cells s) (sl s) (code s)).
Proof.
  intros [In Iw Io Ii Ih Im Ic If Iow Id Iwt Ib] Hk Hnew Hp Hf Ho Hl Hq Hd.
  assert (waiters k' = waiters (kern s)) as Ew by (unfold waiters; by rewrite Hq).
  split; try done; cbn [kern code sl].
  - split; [done|]. rewrite Hq. apply Io.
  - intros t ss rest E. destruct (Ic t ss rest E) as (Hfr & (p & b & Ep & Hpt & Hb) & Hn).
    destruct (Hp t ss rest E) as (p1 & p' & E1 & E' & Hs). rewrite Ep in E1. injection E1 as <-.
    split; [done|]. split.
    + exists p', b. rewrite E', Hs, Ho. done.
    + intros th Eth Hst. destruct (Hnew t th (mk_is_Some _ _ E) Eth Hst) as (th0 & E0 & Hs0). by apply (Hn th0).
  - intros t. rewrite Ho. apply Iow.
  - rewrite Ew. exact Iwt.
  - rewrite Ew. intros Hne. destruct (Ib Hne) as (ts & Hnd & Hn & Hts). exists ts. split; [done|].
    split; [done|]. intros t Ht. destruct (Hts t Ht) as (ss & rest & p & Ec & Ep & Hnw & Hss).
    destruct (Hp t ss rest Ec) as (p1 & p' & E1 & E' & Hs). rewrite Ep in E1. injection E1 as <-.
    exists ss, rest, p'. cbn [kern code]. rewrite Ew, Hs. done.
Qed.

Lemma inv_mild tr es s k' :
  sl_inv tr es s -> kwf k' -> no_newer (kern s) k' ->
  (forall t ss rest, code s !! t = Some (ss, rest) -> exists p p',
     prog_of (kern s) t = Some p /\ prog_of k' t = Some p' /\ strip p' = strip p) ->
  (forall t p, code s !! t = None -> prog_of k' t = Some p -> foreign l c p) ->
  owner l k' = owner l (kern s) -> is_Some (locks k' !! l) -> conds k' !! c = conds (kern s) !! c ->
  (forall t, threadToBeDestroyed k' = Some t -> code s !! t = None) ->
  sl_inv tr es (mkState k' (cells s) (sl s) (code s)).
Proof. intros Hinv Hk Hnew. apply inv_mild_client; [done|done|]. intros t th' _. apply Hnew. Qed.

(** The threads of a budget other than [cur]. *)
Lemma budget_others s n cur :
  budget s n -> exists ts, NoDup ts /\ cur ∉ ts /\ n - 1 <= zlen ts /\
    (n <= zlen ts \/ wakes s cur) /\ forall t, t ∈ ts -> wakes s t.
Proof.
  intros (ts & Hnd & Hn & Hts). destruct (decide (cur ∈ ts)) as [Hin|Hin].
  - destruct (list_elem_of_split _ _ Hin) as (l1 & l2 & ->). exists (l1 ++ l2).
    rewrite NoDup_app, NoDup_cons in Hnd. unfold zlen in *. rewrite length_app in Hn. simpl in Hn. split_and!.
    + apply NoDup_app. set_solver.
    + set_solver.
    + rewrite length_app. lia.
    + right. by apply Hts.
    + intros t Ht. apply Hts. set_solver.
  - exists ts. split_and!; try done; [lia|by left].
Qed.

(** What the others do for a list does not depend on what [cur] does. *)
Lemma wakes_other s s' cur t :
  t <> cur -> code s' !! t = code s !! t -> prog_of (kern s') t = prog_of (kern s) t ->
  (forall x, x ∈ waiters (kern s') -> x ∈ waiters (kern s) \/ x = cur) -> wakes s t -> wakes s' t.
Proof.
  intros Hne Ec Ep Hw (ss & rest & p & E1 & E2 & Hn & Hss). exists ss, rest, p.
  rewrite Ec, Ep. split_and!; try done. intros Hin. destruct (Hw t Hin); [done|congruence].
Qed.

(** A step of [cur] keeps the budget when [cur] takes no item more than its own
    share, and hands on its share otherwise. *)
Lemma budget_step s s' cur n n' :
  budget s n -> n' <= n -> (wakes s cur -> wakes s' cur \/ n' <= n - 1) ->
  (forall x, x <> cur -> code s' !! x = code s !! x) ->
  (forall x, x <> cur -> prog_of (kern s') x = prog_of (kern s) x) ->
  (forall x, x ∈ waiters (kern s') -> x ∈ waiters (kern s) \/ x = cur) ->
  budget s' n'.
Proof.
  intros Hb Hn Hcur Hc Hp Hw. destruct (budget_others s n cur Hb) as (ts & Hnd & Hni & Hn1 & Hn2 & Hts).
  assert (forall t, t ∈ ts -> wakes s' t) as Hts'.
  { intros t Ht. assert (t <> cur) as Hne by (intros ->; done).
    apply (wakes_other s s' cur); auto. }
  assert (n' <= zlen ts \/ wakes s' cur) as Hor.
  { destruct Hn2 as [?|Hwc]; [left; lia|]. destruct (Hcur Hwc) as [?|?]; [by right|left; lia]. }
  destruct Hor as [?|Hwc]; [by exists ts|]. exists (cur :: ts). split; [by constructor|].
  split; [unfold zlen in *; simpl; lia|]. intros t [->|Ht]%elem_of_cons; auto.
Qed.

(** ** Steps of the kernel *)

Lemma current_free k th :
  kwf k -> sleeping k = false -> threads k !! currentThread k = Some th ->
  status th = RUNNING /\ currentThread k ∉ waiters k /\ threadToBeDestroyed k <> Some (currentThread k).
Proof.
  intros Hk Hs E. pose proof (kw_view _ Hk) as Hw. pose proof (wfc_cur _ _ _ Hw Hs E) as Hr.
  split; [done|]. split.
  - intros Hin. destruct (v_wait _ Hw (WCond c) (currentThread k) Hin) as (x & Ex & Hb & _).
    simpl in Ex. congruence.
  - intros Hd. destruct (v_dead _ Hw _ Hd) as (x & Ex & Hb & _). simpl in Ex. congruence.
Qed.

Lemma entered e m : point e [] (tail (body m)) true.
Proof. destruct m; [apply pt_append|apply pt_loop|apply pt_mapcar]. Qed.

Lemma point_holding e cm ss b :
  point e [cm] ss b -> cm <> CAcquire l -> cm <> CAcquiring l -> b = true.
Proof. intros H H1 H2. inversion H; subst; naive_solver. Qed.

(** A waiting thread is not about to wait. *)
Lemma waiter_prog k t p : kwf k -> t ∈ waiters k -> prog_of k t = Some p -> strip p <> [CWait c l].
Proof.
  intros Hk Hin Ep. destruct (v_wait _ (kw_view _ Hk) (WCond c) t Hin) as (th & E & _ & _ & l' & Hh).
  simpl in E. unfold prog_of in Ep. rewrite E in Ep. injection Ep as <-.
  destruct (prog th) as [|cm p]; [done|]. injection Hh as ->. done.
Qed.

Lemma owner_put k k' x : locks k' = <[l := x]> (locks k) -> owner l k' = ownerThread x.
Proof. unfold owner. intros ->. by rewrite lookup_insert_eq. Qed.

Section exec.
Context (pick : list Z -> nat) (Hpick : least pick).
Context (tr : list event) (es : list Z) (s : state) (k' : kernel).
Context (Hinv : sl_inv tr es s) (Hk' : kwf k').
Context (Hs : sleeping (kern s) = false) (Hx : exec pick (kern s) = Ok k').
Context (Hlk : is_Some (locks k' !! l)).

Lemma exec_outside :
  fork_once (kern s) -> code s !! currentThread (kern s) = None ->
  sl_inv tr es (mkState k' (cells s) (sl s) (code s)).
Proof.
  intros Hf Hc. destruct Hinv as [In Iw Io Ii Ih Im Ic If Iow Id Iwt Ib].
  assert (exists p, prog_of (kern s) (currentThread (kern s)) = Some p) as [p Ep].
  { destruct (v_cur _ (kw_view _ Iw)) as (th & E & _). simpl in E. unfold prog_of. rewrite E. by eexists. }
  destruct (exec_foreign pick l c (kern s) k' p Hf Ep (If _ p Hc Ep) Hx) as [F1 F2 F3 F4 F5 F6].
  apply inv_mild; try done.
  - intros t ss rest E. destruct (Ic t ss rest E) as (_ & (q & b & Eq & _) & Hn).
    assert (t <> currentThread (kern s)) as Hne by congruence.
    destruct (F2 t Hne) as [E'|[[_ E']|(th & Eth & Hst & _)]].
    + exists q, q. rewrite E'. done.
    + rewrite (Id t E') in E. done.
    + by destruct (Hn th Eth).
  - intros t q E Eq. destruct (decide (t = currentThread (kern s))) as [->|Hne]; [by apply F1|].
    destruct (F2 t Hne) as [E'|[[E' _]|(th & Eth & Hst & E')]]; rewrite E' in Eq; [by apply (If t)|done|].
    injection Eq as <-. constructor; [done|]. apply Forall_app. split; [|by repeat constructor].
    apply (If t); [done|]. unfold prog_of. by rewrite Eth.
  - intros t Et. destruct F6 as [E|[E|E]]; rewrite E in Et; [by apply Id|done|]. injection Et as <-. done.
Qed.

Section inside.
Context (ss : list stmt) (rest : list cmd) (Hcode : code s !! currentThread (kern s) = Some (ss, rest)).

(** A call of the kernel by a thread in a method, in terms of the thread's next
    program and whether it then holds the lock. *)
Lemma exec_inside p b :
  moves (currentThread (kern s)) p (kern s) k' -> aside (kern s) k' ->
  point (is_nil es) (strip p) ss b -> (b = true <-> owner l k' = Some (currentThread (kern s))) ->
  (forall x, x <> currentThread (kern s) -> owner l k' = Some x <-> owner l (kern s) = Some x) ->
  is_Some (conds k' !! c) ->
  (forall t, t ∈ waiters k' -> exists rest, code s !! t = Some (tail SynchList_Remove, rest)) ->
  (waiters k' <> [] -> budget (mkState k' (cells s) (sl s) (code s)) (zlen es)) ->
  sl_inv tr es (mkState k' (cells s) (sl s) (code s)).
Proof.
  intros [M1 M2 M3] [A1 A2] Hp Hb Ho Hcd Hw Hbu. pose proof Hinv as [In Iw Io Ii Ih Im Ic If Iow Id Iwt Ib].
  destruct (Ic _ _ _ Hcode) as (Hfr & (p0 & b0 & Ep0 & _) & Hst).
  assert (exists th, threads (kern s) !! currentThread (kern s) = Some th) as [th Eth].
  { unfold prog_of in Ep0. destruct (threads (kern s) !! _); [by eexists|done]. }
  destruct (current_free _ _ Iw Hs Eth) as (_ & _ & Hd).
  apply (inv_step tr es s tr es _ (currentThread (kern s))); cbn [kern code sl]; try done.
  - rewrite Hcode. split; [done|]. split; [by exists p, b|]. intros th' E' Hst'.
    destruct (M3 _ _ E' Hst') as (th0 & E0 & Hs0). by apply (Hst th0).
  - by left.
Qed.

End inside.

Lemma same_waiters : conds k' = conds (kern s) -> waiters k' = waiters (kern s).
Proof. unfold waiters. by intros ->. Qed.

Lemma exec_acquire ss rest m cm :
  code s !! currentThread (kern s) = Some (ss, rest) ->
  cm = CAcquire l \/ cm = CAcquiring l -> calls (kern s) [] cm -> ss = tail (body m) ->
  sl_inv tr es (mkState k' (cells s) (sl s) (code s)).
Proof.
  intros Hcode Hcm Hcall ->. pose proof Hinv as [In Iw Io Ii Ih Im Ic If Iow Id Iwt Ib].
  destruct (CAcquire_moves pick (kern s) k' [] l cm Hcm Hcall Hx) as (A & C & lk & x & El & Ex & Hor).
  destruct (Ic _ _ _ Hcode) as (_ & (p0 & b0 & Ep0 & Hp0 & Hb0) & _). rewrite Hcall in Ep0. injection Ep0 as <-.
  assert (owner l (kern s) <> Some (currentThread (kern s))) as Hno.
  { intros Ho. apply Hb0 in Ho. subst b0. destruct Hcm as [-> | ->]; inversion Hp0. }
  pose proof (same_waiters C) as Ew. pose proof (owner_put _ _ _ Ex) as Eo.
  assert (is_Some (conds k' !! c)) as Hcd by (rewrite C; apply Io).
  assert (forall p, moves (currentThread (kern s)) p (kern s) k' -> p = [] \/ p = [CAcquiring l] ->
    waiters k' <> [] -> budget (mkState k' (cells s) (sl s) (code s)) (zlen es)) as Hbu.
  { intros p [M1 M2 _] Hp Hw. rewrite Ew in Hw.
    apply (budget_step s _ (currentThread (kern s)) (zlen es) (zlen es)); cbn [kern code]; try done;
      [by apply Ib| |rewrite Ew; tauto].
    intros (ss & r & q & E1 & E2 & E3 & E4). rewrite Hcode in E1. injection E1 as <- <-.
    rewrite Hcall in E2. injection E2 as <-. left. exists (tail (body m)), rest, p. cbn [kern code].
    rewrite Ew. split_and!; try done. destruct E4 as [?|[[? _]|[?|[?|E4]]]]; try tauto.
    - right. left. split; [done|]. by destruct Hp as [-> | ->].
    - exfalso. destruct Hcm as [-> | ->]; done. }
  destruct Hor as [(M & Hav & Hox)|(M & Hox)].
  - apply (exec_inside _ rest Hcode [] true); try done; [apply entered|by rewrite Eo, Hox| |by rewrite Ew|exact (Hbu [] M (or_introl eq_refl))].
    intros t Hne. rewrite Eo, Hox. unfold owner. rewrite El. simpl.
    rewrite (proj1 (kw_lock _ Iw l lk El) Hav). split; [congruence|done].
  - assert (owner l k' = owner l (kern s)) as Eo' by (rewrite Eo, Hox; unfold owner; by rewrite El).
    apply (exec_inside _ rest Hcode [CAcquiring l] false); try done; [apply pt_entering; by right| | |by rewrite Ew
      |exact (Hbu [CAcquiring l] M (or_intror eq_refl))]; rewrite Eo'; [split; [done|tauto]|done].
Qed.

Lemma exec_release ss rest :
  code s !! currentThread (kern s) = Some (ss, rest) ->
  calls (kern s) [] (CRelease l) -> ss = [] -> sl_inv tr es (mkState k' (cells s) (sl s) (code s)).
Proof.
  intros Hcode Hcall ->. pose proof Hinv as [In Iw Io Ii Ih Im Ic If Iow Id Iwt Ib].
  destruct (CRelease_moves pick (kern s) k' [] l Hcall Hx) as (M & A & C & x & Ex & Hox).
  destruct (Ic _ _ _ Hcode) as (_ & (p0 & b0 & Ep0 & Hp0 & Hb0) & _). rewrite Hcall in Ep0. injection Ep0 as <-.
  assert (owner l (kern s) = Some (currentThread (kern s))) as Ho 
    by (apply Hb0; by eapply point_holding).
  pose proof (same_waiters C) as Ew. pose proof (owner_put _ _ _ Ex) as Eo. rewrite Hox in Eo.
  apply (exec_inside _ rest Hcode [] false); try done.
  - apply pt_return.
  - rewrite Eo. split; done.
  - intros t Hne. rewrite Eo, Ho. split; congruence.
  - rewrite C. apply Io.
  - by rewrite Ew.
  - intros Hw. rewrite Ew in Hw. destruct M as [M1 M2 _].
    apply (budget_step s _ (currentThread (kern s)) (zlen es) (zlen es)); cbn [kern code]; try done;
      [by apply Ib| |rewrite Ew; tauto].
    intros (ss & r & q & E1 & E2 & E3 & E4). rewrite Hcode in E1. injection E1 as <- <-.
    rewrite Hcall in E2. injection E2 as <-. exfalso. naive_solver.
Qed.

Lemma exec_wait ss rest :
  code s !! currentThread (kern s) = Some (ss, rest) ->
  calls (kern s) [] (CWait c l) -> ss = tail SynchList_Remove -> es = [] ->
  sl_inv tr es (mkState k' (cells s) (sl s) (code s)).
Proof.
  intros Hcode Hcall Hss He. pose proof Hinv as [In Iw Io Ii Ih Im Ic If Iow Id Iwt Ib].
  destruct (CWait_moves pick (kern s) k' [] c l Hcall Hx) as (M & A & (x & Ex & Hox) & q & Eq & Cq).
  destruct (Ic _ _ _ Hcode) as (_ & (p0 & b0 & Ep0 & Hp0 & Hb0) & _). rewrite Hcall in Ep0. injection Ep0 as <-.
  assert (owner l (kern s) = Some (currentThread (kern s))) as Ho 
    by (apply Hb0; by eapply point_holding).
  pose proof (owner_put _ _ _ Ex) as Eo. rewrite Hox in Eo.
  assert (waiters k' = waiters (kern s) ++ [currentThread (kern s)]) as Ew.
  { unfold waiters. by rewrite Cq, lookup_insert_eq, Eq. }
  apply (exec_inside _ rest Hcode [CAcquire l] false); try done.
  - rewrite Hss. apply (pt_entering _ MRemove). by left.
  - rewrite Eo. split; done.
  - intros t Hne. rewrite Eo, Ho. split; congruence.
  - rewrite Cq, lookup_insert_eq. by eexists.
  - intros t. rewrite Ew, elem_of_app, list_elem_of_singleton. intros [Ht| ->]; [by apply Iwt|].
    exists rest. by rewrite <- Hss.
  - intros _. rewrite He. exists []. split; [constructor|]. split; [done|]. intros t Ht. by apply elem_of_nil in Ht.
Qed.

Lemma exec_signal ss rest :
  code s !! currentThread (kern s) = Some (ss, rest) ->
  calls (kern s) [] (CSignal c l) -> ss = [SRelease] -> sl_inv tr es (mkState k' (cells s) (sl s) (code s)).
Proof.
  intros Hcode Hcall ->. pose proof Hinv as [In Iw Io Ii Ih Im Ic If Iow Id Iwt Ib].
  destruct (CSignal_moves pick (kern s) k' [] c l Hcall Hx) as (M & A & L & q & Eq & Cq).
  destruct (Ic _ _ _ Hcode) as (_ & (p0 & b0 & Ep0 & Hp0 & Hb0) & _). rewrite Hcall in Ep0. injection Ep0 as <-.
  assert (owner l (kern s) = Some (currentThread (kern s))) as Ho 
    by (apply Hb0; by eapply point_holding).
  pose proof (same_owner l _ _ L) as Eo.
  assert (waiters (kern s) = q) as Ewq by (unfold waiters; by rewrite Eq).
  assert (waiters k' = tail q) as Ew by (unfold waiters; by rewrite Cq, lookup_insert_eq).
  apply (exec_inside _ rest Hcode [] true); try done.
  - apply pt_release.
  - rewrite Eo. split; done.
  - intros t Hne. by rewrite Eo.
  - rewrite Cq, lookup_insert_eq. by eexists.
  - intros t Ht. apply Iwt. rewrite Ewq. rewrite Ew in Ht. destruct q; [done|by right].
  - intros Hne. destruct q as [|t q]; [by rewrite Ew in Hne|]. rewrite Ewq in Ib.
    destruct (budget_others s _ (currentThread (kern s)) (Ib ltac:(done))) as (ts & Hnd & Hni & Hn1 & _ & Hts).
    assert (t ∈ waiters (kern s)) as Hin by (rewrite Ewq; left).
    pose proof (v_qdup _ (kw_view _ Iw) (WCond c)) as Hqd.
    change (NoDup (waiters (kern s))) in Hqd. rewrite Ewq in Hqd. apply NoDup_cons in Hqd as [Hqd _].
    assert (t <> currentThread (kern s)) as Htc.
    { intros ->. destruct (calls_exec pick _ k' _ _ Hcall Hx) as (th & Eth & _).
      by destruct (current_free _ _ Iw Hs Eth) as (_ & ? & _). }
    destruct M as [M1 M2 _]. exists (t :: ts). split.
    { constructor; [|done]. intros Ht. destruct (Hts t Ht) as (? & ? & ? & _ & _ & ? & _). done. }
    split; [unfold zlen in *; simpl; lia|]. intros x [->|Hx']%elem_of_cons.
    + destruct (Iwt t Hin) as (r & Er). destruct (Ic _ _ _ Er) as (_ & (p & b & Ep & _) & _).
      exists (tail SynchList_Remove), r, p. cbn [kern code]. rewrite M2, Ew by done. split_and!; try done.
      right. left. split; [done|]. by eapply waiter_prog.
    + assert (x <> currentThread (kern s)) as Hxc by (intros ->; done).
      eapply (wakes_other s); [exact Hxc|done|by apply M2| |by apply Hts].
      cbn [kern]. rewrite Ew, Ewq. intros y Hy. left. by right.
Qed.

Lemma exec_client ss rest :
  code s !! currentThread (kern s) = Some (ss, rest) -> sl_inv tr es (mkState k' (cells s) (sl s) (code s)).
Proof.
  intros Hcode. pose proof Hinv as [In Iw Io Ii Ih Im Ic If Iow Id Iwt Ib].
  destruct (Ic _ _ _ Hcode) as (_ & (p & b & Ep & Hp & Hb) & _). destruct p as [|cm p].
  { exfalso. unfold prog_of in Ep. unfold exec, get_thread in Hx.
    destruct (threads (kern s) !! currentThread (kern s)) as [th|]; [|done]. injection Ep as Ep.
    rewrite bind_Ok, Ep in Hx. done. }
  destruct (decide (cm = CRestore)) as [->|Hcm].
  - destruct (CRestore_moves pick (kern s) k' p Ep Hx) as ([M1 M2 M3] & [A1 A2] & L & C).
    apply inv_mild; try done.
    + intros t ss0 rest0 E. destruct (decide (t = currentThread (kern s))) as [->|Hne].
      * by exists (CRestore :: p), p.
      * destruct (Ic _ _ _ E) as (_ & (q & b0 & Eq & _) & _). exists q, q. by rewrite M2.
    + intros t q E Eq. assert (t <> currentThread (kern s)) as Hne by congruence.
      rewrite M2 in Eq by done. by apply (If t).
    + by apply same_owner.
    + by rewrite C.
    + intros t. rewrite A2. apply Id.
  - assert (strip (cm :: p) = cm :: p) as Estrip by (destruct cm; done). rewrite Estrip in Hp.
    inversion Hp; subst.
    + by apply (exec_acquire (tail (body m)) rest m cm).
    + by apply (exec_signal [SRelease] rest).
    + apply (exec_wait (tail SynchList_Remove) rest); try done. by destruct es.
    + by apply (exec_release [] rest).
Qed.
End exec.

Lemma kernel_step pick tr es s k' :
  least pick -> sl_inv tr es s -> kstep pick (kern s) k' ->
  (forall t p, threads (kern s) !! t = None -> prog_of k' t = Some p -> foreign l c p) ->
  sl_inv tr es (mkState k' (cells s) (sl s) (code s)).
Proof.
  intros Hpick Hinv Hst Hcr. pose proof (i_wf _ _ _ Hinv) as Hk.
  pose proof (kstep_wf pick (least_lt pick Hpick) _ _ Hk Hst) as Hk'.
  assert (is_Some (locks k' !! l)) as Hlk.
  { destruct (i_objects _ _ _ Hinv) as [[lk El] _].
    destruct (kstep_locks _ _ _ Hst) as [E|[_ Hl]]; [rewrite E; by eexists|].
    destruct (Hl l lk El) as (lk' & ? & _). by eexists. }
  pose proof Hinv as [In Iw Io Ii Ih Im Ic If Iow Id Iwt Ib].
  assert (forall t ss rest, code s !! t = Some (ss, rest) -> exists p, prog_of (kern s) t = Some p) as Hpc.
  { intros t ss rest E. destruct (Ic _ _ _ E) as (_ & (p & b & Ep & _) & _). by exists p. }
  remember (kern s) as k0 eqn:Ek0. destruct Hst as [k0 k1 Hs Hov Hf H|k0 k1 Hs Hne H|sm k0 k1 _ Hov H
    |k0 k1 th Hs Hl E H|t p k0 Hs E]; subst k0.
  - destruct (code s !! currentThread (kern s)) as [[ss rest]|] eqn:Ec.
    + by apply (exec_client pick tr es s k1 Hinv Hk' Hs H Hlk ss rest).
    + by apply (exec_outside pick tr es s k1 Hinv Hk' H Hlk).
  - destruct (Sleep_loop_moves pick _ _ H) as (Hp & Hn & L & C & Hd). apply inv_mild; try done.
    + intros t ss rest E. destruct (Hpc _ _ _ E) as [p Ep]. exists p, p.
      destruct (Hp t) as [->|[_ Ed]]; [done|]. rewrite (Id t Ed) in E. done.
    + intros t p E Ep. destruct (Hp t) as [E'|[E' _]]; rewrite E' in Ep; [by apply (If t)|done].
    + by apply same_owner.
    + by rewrite C.
    + intros t Et. destruct Hd as [Hd|Hd]; rewrite Hd in Et; [by apply Id|done].
  - destruct (V_body_keeps _ _ _ H) as ([Hp Hn] & [_ Hd] & L & C). apply inv_mild; try done.
    + intros t ss rest E. destruct (Hpc _ _ _ E) as [p Ep]. exists p, p. by rewrite Hp.
    + intros t p E. rewrite Hp. by apply If.
    + by apply same_owner.
    + by rewrite C.
    + intros t. rewrite Hd. apply Id.
  - destruct (current_free _ _ Hk Hs E) as (_ & _ & Hdc).
    destruct (Yield_moves pick _ _ _ H) as (Hc1 & Hc2 & Hp & Hn & L & C & Hd).
    assert (prog_of (kern s) (currentThread (kern s)) = Some (prog th)) as Epc
      by (unfold prog_of; by rewrite E).
    apply inv_mild; try done.
    + intros t ss rest Et. destruct (Hpc _ _ _ Et) as [p Ep].
      destruct (decide (t = currentThread (kern s))) as [->|Hne].
      * destruct (prog_of k1 (currentThread (kern s))) as [p'|] eqn:Ep'; [|by destruct (Hdc (Hc2 eq_refl))].
        exists (prog th), p'. split; [done|]. split; [done|]. by destruct (Hc1 p' eq_refl) as [-> | ->].
      * exists p, p. destruct (Hp t Hne) as [->|[_ Ed]]; [done|]. rewrite (Id t Ed) in Et. done.
    + intros t p Et Ep. destruct (decide (t = currentThread (kern s))) as [->|Hne].
      * pose proof (If _ _ Et Epc) as Hfo. destruct (Hc1 p Ep) as [-> | ->]; [done|by constructor].
      * destruct (Hp t Hne) as [E'|[E' _]]; rewrite E' in Ep; [by apply (If t)|done].
    + by apply same_owner.
    + by rewrite C.
    + intros t Et. destruct Hd as [Hd|Hd]; rewrite Hd in Et; [by apply Id|done].
  - assert (forall x, x <> t -> prog_of (put_thread t (set_prog new_Thread_child p None) (kern s)) x =
      prog_of (kern s) x) as Hp.
    { intros x Hx. unfold prog_of. simpl. by rewrite lookup_insert_ne. }
    assert (forall x, is_Some (code s !! x) -> x <> t) as Hne.
    { intros x [[ss rest] Ex] ->. destruct (Hpc _ _ _ Ex) as [q Eq]. unfold prog_of in Eq. by rewrite E in Eq. }
    apply inv_mild_client; try done.
    + intros x th' Hx Eth. simpl in Eth. rewrite lookup_insert_ne in Eth by (symmetry; by apply Hne).
      by exists th'.
    + intros x ss rest Ex. destruct (Hpc _ _ _ Ex) as [q Eq]. exists q, q. rewrite Hp; [done|].
      apply Hne. by eexists.
    + intros x q Ex Eq. destruct (decide (x = t)) as [->|Hx]; [by apply (Hcr t)|].
      rewrite Hp in Eq by done. by apply (If x).
Qed.

(** ** Statements *)

Lemma User_moves k p th :
  kwf k -> sleeping k = false -> threads k !! currentThread k = Some th ->
  oldLevel th = None \/ prog th = [] ->
  exists k', User (registers k) p k = Ok k' /\ kwf k' /\ moves (currentThread k) p k k' /\ aside k k' /\
    locks k' = locks k /\ conds k' = conds k.
Proof.
  intros Hk Hs E Ho.
  assert (exists k', User (registers k) p k = Ok k') as [k' Hu].
  { unfold User, update_thread, get_thread. rewrite E, !bind_Ok. by eexists. }
  exists k'. split; [done|]. split.
  { refine (User_wf k _ p th k' Hk Hs E _ Hu). intros w. unfold retries.
    destruct Ho as [-> | ->]; [done|]. by destruct (oldLevel th). }
  unfold User in Hu. apply bind_inv in Hu as (k1 & E1 & Hu). apply Ok_inj in Hu. subst k'.
  apply update_thread_inv in E1 as (th1 & Eth & ->). rewrite E in Eth. injection Eth as <-.
  split; [by eapply (moves_put k _ _ th)|done].
Qed.

Section code.
Context (tr : list event) (es : list Z) (s : state).
Context (Hinv : sl_inv tr es s) (Hs : sleeping (kern s) = false).
Abbreviation cur := (currentThread (kern s)).

Lemma inv_code p k' tr' es' s' :
  kern s' = k' -> moves cur p (kern s) k' -> aside (kern s) k' ->
  locks k' = locks (kern s) -> conds k' = conds (kern s) -> kwf k' ->
  lock (sl s') = lock (sl s) /\ listEmpty (sl s') = listEmpty (sl s) ->
  (forall x, x <> cur -> code s' !! x = code s !! x) ->
  items s' es' -> appended tr' = removed tr' ++ es' -> snapshots tr' ->
  match code s' !! cur with
  | Some (ss, rest) => foreign l c rest /\ exists b, point (is_nil es') (strip p) ss b /\
      (b = true <-> owner l (kern s) = Some cur)
  | None => foreign l c p /\ owner l (kern s) <> Some cur
  end ->
  (es' = es \/ owner l (kern s) = Some cur) ->
  (budget s (zlen es) -> budget s' (zlen es')) ->
  sl_inv tr' es' s'.
Proof.
  intros <- [M1 M2 M3] [A1 A2] L C Hk Hn Hcode Hi Hh Hm Hcur Hes Hb.
  pose proof Hinv as [In Iw Io Ii Ih Im Ic If Iow Id Iwt Ib].
  destruct (v_cur _ (kw_view _ Iw)) as (th & Eth & Hth). simpl in Eth, Hth. destruct (Hth Hs) as [Hr _].
  destruct (current_free _ _ Iw Hs Eth) as (_ & Hw & Hd).
  pose proof (same_owner l _ _ L) as Eo. assert (waiters (kern s') = waiters (kern s)) as Ew
    by (unfold waiters; by rewrite C).
  apply (inv_step tr es s tr' es' s' cur); try done.
  - by rewrite L, C.
  - destruct (code s' !! cur) as [[ss rest]|] eqn:E.
    + destruct Hcur as (Hf & b & Hp & Hbo). split; [done|]. split; [exists p, b; by rewrite Eo|].
      intros th' E' Hst. destruct (M3 _ _ E' Hst) as (th0 & E0 & Hs0). congruence.
    + intros q. rewrite M1. intros [= <-]. apply Hcur.
  - intros x _. by rewrite Eo.
  - rewrite Eo. intros Ho. destruct (code s' !! cur) as [[ss rest]|] eqn:E; [by eexists|].
    by destruct Hcur as [_ ?].
  - intros t. rewrite Ew. intros Ht. rewrite Hcode by (intros ->; done). by apply Iwt.
  - rewrite Ew. intros Hne. by apply Hb, Ib.
Qed.

(** The budget of a thread that passes its share on. *)
Lemma budget_code p k' s' n n' :
  kern s' = k' -> moves cur p (kern s) k' -> conds k' = conds (kern s) -> n' <= n ->
  (forall x, x <> cur -> code s' !! x = code s !! x) ->
  (wakes s cur -> wakes s' cur \/ n' <= n - 1) -> budget s n -> budget s' n'.
Proof.
  intros <- [M1 M2 _] C Hn Hc Hw Hb. apply (budget_step s s' cur n n'); try done.
  unfold waiters. rewrite C. tauto.
Qed.

Lemma IsEmpty_items e : items s e -> IsEmpty (slist (sl s)) = is_nil e.
Proof.
  intros (ps & ks & Hr & <-). destruct ps as [|p ps].
  - by destruct (represents_nil _ _ _ Hr) as [-> ->].
  - rewrite (represents_cons _ _ _ _ _ Hr). pose proof (lseg_length _ _ _ _ (rep_lseg _ _ _ _ Hr)).
    by destruct ks.
Qed.

Lemma cur_waits : cur ∉ waiters (kern s).
Proof.
  pose proof (i_wf _ _ _ Hinv) as Iw. destruct (v_cur _ (kw_view _ Iw)) as (th & Eth & _). simpl in Eth.
  by destruct (current_free _ _ Iw Hs Eth) as (_ & Hw & _).
Qed.

(** [cur] looks at the list again or wakes a waiter after the statement. *)
Lemma wakes_code p k' s' ss rest :
  kern s' = k' -> moves cur p (kern s) k' -> conds k' = conds (kern s) -> code s' !! cur = Some (ss, rest) ->
  (ss = SynchList_Remove \/ (ss = tail SynchList_Remove /\ strip p <> [CWait c l]) \/ ss = [SRemove; SRelease] \/
     ss = [SSignal; SRelease] \/ strip p = [CSignal c l]) ->
  wakes s' cur.
Proof.
  intros <- [M1 _ _] C E Hss. exists ss, rest, p. split_and!; try done.
  pose proof cur_waits. unfold waiters. by rewrite C.
Qed.
End code.

Lemma appended_app tr tr' : appended (tr ++ tr') = appended tr ++ appended tr'.
Proof. apply flat_map_app. Qed.
Lemma removed_app tr tr' : removed (tr ++ tr') = removed tr ++ removed tr'.
Proof. apply flat_map_app. Qed.

Lemma snapshots_snoc tr e :
  snapshots tr -> (forall its, e = Mapped its -> appended tr = removed tr ++ its) -> snapshots (tr ++ [e]).
Proof.
  intros H He tr1 its tr2 E. destruct tr2 as [|e' tr2' _] using rev_ind.
  - apply app_inj_tail in E as [-> ->]. by apply He.
  - rewrite app_comm_cons, app_assoc in E. apply app_inj_tail in E as [-> _]. by apply (H tr1 its tr2').
Qed.

Section statements.
Context (tr : list event) (es : list Z) (s : state) (ss : list stmt) (rest : list cmd).
Context (Hinv : sl_inv tr es s) (Hs : sleeping (kern s) = false).
Context (Hprog : prog_of (kern s) (currentThread (kern s)) = Some []).
Context (Hcode : code s !! currentThread (kern s) = Some (ss, rest)).
Abbreviation cur := (currentThread (kern s)).

Lemma cur_User p : exists k', User (registers (kern s)) p (kern s) = Ok k' /\ kwf k' /\
  moves cur p (kern s) k' /\ aside (kern s) k' /\ locks k' = locks (kern s) /\ conds k' = conds (kern s).
Proof.
  unfold prog_of in Hprog. destruct (threads (kern s) !! cur) as [th|] eqn:E; [|done].
  injection Hprog as Ep. apply (User_moves _ p th); [apply Hinv|done|done|by right].
Qed.

(** The owner says whether the statement is one inside the monitor. *)
Lemma cur_owner : foreign l c rest /\
  exists b, point (is_nil es) [] ss b /\ (b = true <-> owner l (kern s) = Some cur).
Proof.
  destruct (i_client _ _ _ Hinv _ _ _ Hcode) as (Hf & (p & b & Ep & Hp & Hb) & _).
  rewrite Hprog in Ep. injection Ep as <-. split; [done|]. by exists b.
Qed.

Lemma go_list h' l' es' p ss' b ev :
  items (set_list h' l' s) es' -> appended (tr ++ ev) = removed (tr ++ ev) ++ es' -> snapshots (tr ++ ev) ->
  point (is_nil es') (strip p) ss' b -> (b = true <-> owner l (kern s) = Some cur) ->
  (es' = es \/ owner l (kern s) = Some cur) ->
  (forall k', moves cur p (kern s) k' -> conds k' = conds (kern s) -> budget s (zlen es) ->
     budget (mkState k' h' (mkSynchList l' (lock (sl s)) (listEmpty (sl s)))
               (<[cur := (ss', rest)]> (code s))) (zlen es')) ->
  exists s', goto p ss' rest (set_list h' l' s) = Ok s' /\ sl_inv (tr ++ ev) es' s'.
Proof.
  intros Hi Hh Hm Hp Hb Hes Hbu. destruct (cur_User p) as (k' & Eu & Hk & M & A & L & C).
  eexists. split; [unfold goto; cbn [kern set_list]; rewrite Eu; reflexivity|].
  apply (inv_code tr es s Hinv Hs p k'); cbn [kern cells sl code set_list lock listEmpty]; try done.
  - intros x Hx. by rewrite lookup_insert_ne.
  - rewrite lookup_insert_eq. split; [apply cur_owner|]. by exists b.
  - by apply Hbu.
Qed.

Lemma budget_zero s' n : n <= 0 -> budget s' n.
Proof.
  intros Hn. exists []. split; [constructor|]. split; [by rewrite Hn|]. intros t Ht. by apply elem_of_nil in Ht.
Qed.

(** A statement that leaves the list alone. *)
Lemma go p ss' b ev :
  appended ev = [] -> removed ev = [] -> snapshots (tr ++ ev) ->
  point (is_nil es) (strip p) ss' b -> (b = true <-> owner l (kern s) = Some cur) ->
  (wakes s cur -> es = [] \/ ss' = SynchList_Remove \/ (ss' = tail SynchList_Remove /\ strip p <> [CWait c l]) \/
     ss' = [SRemove; SRelease] \/ ss' = [SSignal; SRelease] \/ strip p = [CSignal c l]) ->
  exists s', goto p ss' rest s = Ok s' /\ sl_inv (tr ++ ev) es s'.
Proof.
  intros Ha Hr Hm Hp Hb Hw. assert (set_list (cells s) (slist (sl s)) s = s) as E by (by destruct s as [? ? [] ?]).
  pose proof (go_list (cells s) (slist (sl s)) es p ss' b ev) as H. rewrite E in H. apply H; try done.
  - apply Hinv.
  - rewrite appended_app, removed_app, Ha, Hr, !app_nil_r. apply Hinv.
  - by left.
  - intros k' M C Hbu. destruct (decide (es = [])) as [He|He]; [apply budget_zero; by rewrite He|].
    eapply (budget_code s p k'); [reflexivity|exact M|exact C|reflexivity| | |exact Hbu].
    + intros x Hx. cbn [code]. by rewrite lookup_insert_ne.
    + intros Hwc. left. destruct (Hw Hwc) as [?|Hss]; [done|].
      eapply (wakes_code tr es s Hinv Hs p k' _ ss' rest); try done. cbn [code]. apply lookup_insert_eq.
Qed.

Lemma wakes_cur : wakes s cur -> ss = SynchList_Remove \/ ss = tail SynchList_Remove \/
  ss = [SRemove; SRelease] \/ ss = [SSignal; SRelease].
Proof.
  intros (ss0 & r & p & E1 & E2 & _ & E3). rewrite Hcode in E1. injection E1 as <- <-.
  rewrite Hprog in E2. injection E2 as <-. destruct E3 as [?|[[? _]|[?|[?|?]]]]; auto. done.
Qed.
End statements.

Lemma items_append s es h' l' ps ks it :
  represents (cells s) (slist (sl s)) ps ks -> ks.*2 = es ->
  forall ps', represents h' l' ps' (l_append ks it) -> items (set_list h' l' s) (es ++ [it]).
Proof.
  intros _ <- ps' Hr. exists ps', (l_append ks it). split; [done|]. unfold l_append. by rewrite fmap_app.
Qed.

(** The next statement of a thread in a method. *)
Lemma code_step tr es s ss rest :
  sl_inv tr es s -> sleeping (kern s) = false -> prog_of (kern s) (currentThread (kern s)) = Some [] ->
  code s !! currentThread (kern s) = Some (ss, rest) -> 0 ∉ es ->
  exists ev s' es', run_code s = Ok (ev, s') /\ sl_inv (tr ++ ev) es' s'.
Proof.
  intros Hinv Hs Hprog Hcode H0. pose proof Hinv as [[En1 En2] Iw Io Ii Ih Im Ic If Iow Id Iwt Ib].
  destruct (cur_owner tr es s ss rest Hinv Hprog Hcode) as (Hf & b & Hp & Hb).
  pose proof (wakes_cur s ss rest Hprog Hcode) as Hwc.
  pose proof (go tr es s ss rest Hinv Hs Hprog Hcode) as Hgo.
  assert (snapshots (tr ++ [])) as Hm by (by rewrite app_nil_r).
  unfold run_code. rewrite Hcode.
  inversion Hp; subst; clear Hp.
  - destruct (Hgo [CAcquire l] (tail (body m)) false []) as (s' & E & Hi); try done;
      [apply pt_entering; by left| |].
    + intros Hw. destruct (Hwc Hw) as [E|[E|[E|E]]]; destruct m; try done. right. right. by left.
    + exists [], s', es. split; [|done]. rewrite En1. destruct m; simpl in *; by rewrite E.
  - destruct Ii as (ps & ks & Hr & Hes).
    destruct (Append_refines _ _ _ _ Hr it) as (h' & l' & ps' & Ea & Hr' & _).
    destruct (go_list tr es s _ rest Hinv Hs Hprog Hcode h' l' (es ++ [it]) [] [SSignal; SRelease] true [Appended it])
      as (s' & E & Hi); try done.
    + by eapply items_append.
    + rewrite appended_app, removed_app, Ih. simpl. by rewrite app_nil_r, app_assoc.
    + by apply snapshots_snoc.
    + apply pt_signal.
    + right. by apply Hb.
    + intros k' M C Hbu.
      destruct (budget_others s _ (currentThread (kern s)) Hbu) as (ts & Hnd & Hni & _ & Hn2 & Hts).
      destruct Hn2 as [Hn2|Hw]; [|apply Hwc in Hw; naive_solver].
      exists (currentThread (kern s) :: ts). split; [by constructor|]. split.
      { unfold zlen in *. rewrite length_app. simpl. lia. }
      intros t [->|Ht]%elem_of_cons.
      * eapply (wakes_code tr es s Hinv Hs [] k' _ [SSignal; SRelease] rest); try done;
          [cbn [code]; apply lookup_insert_eq|tauto].
      * assert (t <> currentThread (kern s)) as Hne by (intros ->; done). destruct M as [M1 M2 _].
        eapply (wakes_other s); [exact Hne| | | |by apply Hts]; cbn [kern code].
        -- by rewrite lookup_insert_ne.
        -- by apply M2.
        -- unfold waiters. rewrite C. tauto.
    + exists [Appended it], s', (es ++ [it]). split; [|done]. rewrite Ea, bind_Ok. by rewrite E.
  - destruct (Hgo [CSignal c l] [SRelease] true []) as (s' & E & Hi); try done; [apply pt_signalling|tauto|].
    exists [], s', es. split; [|done]. by rewrite En1, En2, E.
  - rewrite (IsEmpty_items s es Ii). destruct (is_nil es) eqn:Ee.
    + assert (es = []) as -> by by destruct es.
      destruct (Hgo [CWait c l] [SWhileEmpty; SRemove; SRelease] true []) as (s' & E & Hi); try done;
        [by apply pt_waiting|tauto|]. exists [], s', []. split; [|done]. by rewrite En1, En2, E.
    + destruct (Hgo [] [SRemove; SRelease] true []) as (s' & E & Hi); try done; [by apply pt_remove|tauto|].
      exists [], s', es. split; [|done]. by rewrite E.
  - destruct Ii as (ps & ks & Hr & Hes). destruct ks as [|[key it] ks]; [by subst es|]. simpl in Hes. subst es.
    destruct (SortedRemove_refines _ _ _ _ Hr) as (h' & l' & ps' & Hr' & _ & _ & Ea). simpl in Hr', Ea.
    assert (it <> 0) as Hit by (intros ->; apply H0; left).
    destruct (go_list tr _ s _ rest Hinv Hs Hprog Hcode h' l' ks.*2 [] [SRelease] true [Removed it])
      as (s' & E & Hi); try done.
    + by exists ps', ks.
    + rewrite appended_app, removed_app, Ih. simpl. by rewrite app_nil_r, <- app_assoc.
    + by apply snapshots_snoc.
    + apply pt_release.
    + right. by apply Hb.
    + intros k' M C Hbu.
      eapply (budget_code s [] k' _ (zlen (it :: ks.*2))); [reflexivity|exact M|exact C| | | |exact Hbu].
      * unfold zlen. simpl. lia.
      * intros x Hx. cbn [code]. by rewrite lookup_insert_ne.
      * intros _. right. unfold zlen. simpl. lia.
    + exists [Removed it], s', ks.*2. split; [|done]. unfold Remove. rewrite Ea. unfold mret, res_ret.
      rewrite !bind_Ok, (proj2 (Z.eqb_neq _ _) Hit). simpl. by rewrite E.
  - destruct Ii as (ps & ks & Hr & Hes). rewrite (Mapcar_refines _ _ _ _ Hr), Hes, bind_Ok.
    destruct (Hgo [] [SRelease] true [Mapped es]) as (s' & E & Hi); try done.
    + apply snapshots_snoc; [done|]. by intros its [= <-].
    + apply pt_release.
    + intros Hw. apply Hwc in Hw. naive_solver.
    + exists [Mapped es], s', es. split; [|done]. by rewrite E.
  - destruct (Hgo [CRelease l] [] true []) as (s' & E & Hi); try done; [apply pt_releasing| |].
    + intros Hw. apply Hwc in Hw. naive_solver.
    + exists [], s', es. split; [|done]. by rewrite En1, E.
  - destruct (cur_User tr es s Hinv Hs Hprog rest) as (k' & Eu & Hk & M & A & L & C). rewrite Eu, bind_Ok.
    eexists _, _, es. split; [reflexivity|]. rewrite app_nil_r.
    apply (inv_code tr es s Hinv Hs rest k'); cbn [kern cells sl code]; try done.
    + intros x Hx. by rewrite lookup_delete_ne.
    + rewrite lookup_delete_eq. split; [done|]. intros Ho. apply Hb in Ho. done.
    + by left.
    + eapply (budget_code s rest k'); [reflexivity|exact M|exact C|reflexivity| |].
      * intros x Hx. cbn [code]. by rewrite lookup_delete_ne.
      * intros Hw. apply Hwc in Hw. naive_solver.
Qed.

(** ** Histories of calls *)

Lemma call_step tr es s m s' :
  sl_inv tr es s -> sleeping (kern s) = false -> call m s = Ok s' -> sl_inv tr es s'.
Proof.
  intros Hinv Hs H. pose proof Hinv as [[En1 En2] Iw Io Ii Ih Im Ic If Iow Id Iwt Ib].
  unfold call in H. apply bind_inv in H as (th & Eth & H). apply get_thread_Ok in Eth.
  apply bind_inv in H as (u & Ha & H). apply ASSERT_inv, andb_prop in Ha as [Hc Ho].
  apply bool_decide_eq_true in Hc. apply bool_decide_eq_true in Ho.
  destruct (User_moves _ [] th Iw Hs Eth (or_introl Ho)) as (k' & Eu & Hk & M & A & L & C).
  unfold goto in H. rewrite Eu, bind_Ok in H. apply Ok_inj in H. subst s'.
  apply (inv_code tr es s Hinv Hs [] k'); cbn [kern cells sl code]; try done.
  - intros x Hx. by rewrite lookup_insert_ne.
  - rewrite lookup_insert_eq. split; [apply (If _ _ Hc); unfold prog_of; by rewrite Eth|].
    exists false. split; [apply pt_called|]. split; [done|]. intros Hw. apply Iow in Hw. rewrite Hc in Hw.
    by destruct Hw.
  - by left.
  - eapply (budget_code s [] k'); [reflexivity|exact M|exact C|reflexivity| |].
    + intros x Hx. cbn [code]. by rewrite lookup_insert_ne.
    + intros (ss & r & p & E & _). by rewrite Hc in E.
Qed.

Lemma appended_elem tr es s it : sl_inv tr es s -> it ∈ es -> Appended it ∈ tr.
Proof.
  intros Hi Hin. assert (it ∈ appended tr) as Ha
    by (rewrite (i_history _ _ _ Hi); apply elem_of_app; by right).
  unfold appended in Ha. apply list_elem_of_In, in_flat_map in Ha as (e & He & Hin').
  destruct e as [x| |]; simpl in Hin'; try done. destruct Hin' as [->|[]]. by apply list_elem_of_In.
Qed.

Lemma run_inv pick tr s0 s :
  least pick -> sl_inv [] [] s0 -> sl_run pick tr s0 s -> Appended 0 ∉ tr -> exists es, sl_inv tr es s.
Proof.
  intros Hp H0 Hr. induction Hr as [s|tr ev s s1 s2 Hr IH Hst]; intros Hz; [by exists []|].
  rewrite elem_of_app in Hz. destruct (IH H0 ltac:(tauto)) as (es & Hi). destruct Hst as [s1 k Hst Hcr|m s1 s2 Hs Hc|ev s1 s2 Hs Hpr Hc].
  - exists es. rewrite app_nil_r. apply (kernel_step pick); try done.
    destruct (i_names _ _ _ Hi) as [<- <-]. exact Hcr.
  - exists es. rewrite app_nil_r. by eapply call_step.
  - assert (0 ∉ es) as Hn by (intros Hin; apply Hz; left; by eapply appended_elem).
    destruct (code s1 !! currentThread (kern s1)) as [[ss rest]|] eqn:Ec.
    + destruct (code_step tr es s1 ss rest Hi Hs Hpr Ec Hn) as (ev' & s' & es' & E & Hi').
      rewrite E in Hc. injection Hc as <- <-. by exists es'.
    + unfold run_code in Hc. by rewrite Ec in Hc.
Qed.

Lemma new_kwf k : kwf k -> locks k !! l = None -> conds k !! c = None ->
  kwf (put_cond c new_Condition (put_lock l new_Lock k)).
Proof.
  intros [Hw Hs Hl] El Ec. split; [|exact Hs|].
  - eapply wfv_ext; [exact Hw|..]; cbn [vm vcur vslp vready vQ vC vd vl]; try done.
    + intros w. rewrite queue_put_cond. unfold qset. destruct (decide (w = WCond c)) as [->|Hd].
      * simpl. by rewrite Ec.
      * rewrite queue_put_lock. unfold qset. case_decide; [subst w; simpl; by rewrite El|done].
    + intros w Hne. change (credit (put_cond c new_Condition (put_lock l new_Lock k)) w)
        with (credit (put_lock l new_Lock k) w).
      rewrite credit_put_lock. case_decide as Hd; [|done]. subst w. simpl in Hne. by rewrite El in Hne.
  - intros l' lk E. simpl in E. apply lookup_insert_Some in E as [[<- <-]|[_ E]]; [done|by apply (Hl l')].
Qed.

Lemma new_inv k lst k' :
  kwf k -> locks k !! l = None -> conds k !! c = None ->
  (forall t p, prog_of k t = Some p -> foreign l c p) ->
  new_SynchList l c k = (lst, k') -> sl_inv [] [] (mkState k' ∅ lst ∅).
Proof.
  intros Hk El Ec Hf [= <- <-]. pose proof (kw_view _ Hk) as Hw. split; cbn [kern cells sl code]; try done.
  - by apply new_kwf.
  - simpl. rewrite !lookup_insert_eq. split; by eexists.
  - exists [], []. split; [apply new_List_represents|done].
  - intros tr1 its tr2 E. by destruct tr1.
  - intros t p _. apply Hf.
  - intros t E. unfold owner in E. simpl in E. by rewrite lookup_insert_eq in E.
  - intros t Ht. unfold waiters in Ht. simpl in Ht. rewrite lookup_insert_eq in Ht. by apply elem_of_nil in Ht.
  - intros Hne. unfold waiters in Hne. simpl in Hne. by rewrite lookup_insert_eq in Hne.
Qed.

(** [t] is between its Acquire and the end of its Release. *)
Definition in_monitor (s : state) (t : Z) : Prop :=
  exists ss rest p, code s !! t = Some (ss, rest) /\ prog_of (kern s) t = Some p /\
    ((strip p = [] /\ ss <> [] /\ head ss <> Some SAcquire) \/
     strip p = [CSignal c l] \/ strip p = [CWait c l] \/ strip p = [CRelease l]).

Lemma in_monitor_owner tr es s t : sl_inv tr es s -> in_monitor s t -> owner l (kern s) = Some t.
Proof.
  intros Hi (ss & rest & p & E & Ep & Hor). destruct (i_client _ _ _ Hi _ _ _ E) as (_ & (q & b & Eq & Hp & Hb) & _).
  rewrite Ep in Eq. injection Eq as <-. apply Hb. destruct Hor as [(Ec & Hne & Hh)|[Ec|[Ec|Ec]]]; rewrite Ec in Hp;
    [|by eapply point_holding..].
  inversion Hp; subst; try done. by destruct m.
Qed.

(** C5: the synchronised list is a queue between threads.  In every history of
    calls of its methods by any threads, interleaved in any way with other kernel
    calls, interrupts, time slices and creations (and with no NULL appended), the
    items removed are those appended, in order, followed by those on the list;
    every Mapcar saw the items on the list; at most one thread at a time is
    between Acquire and Release, and it owns the lock; the next statement of a
    thread in a method never fails (the assertion that the item removed is not
    NULL holds); and when threads wait for an item, there is for every item on the
    list another thread that is on its way to look at the list or to signal, so
    no item waits for a thread while a thread waits for an item. *)
Theorem SynchList_correct pick tr k lst k' s :
  least pick -> kwf k -> locks k !! l = None -> conds k !! c = None ->
  (forall t p, prog_of k t = Some p -> foreign l c p) -> new_SynchList l c k = (lst, k') ->
  sl_run pick tr (mkState k' ∅ lst ∅) s -> Appended 0 ∉ tr ->
  exists es, items s es /\ appended tr = removed tr ++ es /\ snapshots tr /\
    (forall t, in_monitor s t -> owner l (kern s) = Some t) /\
    (forall ss, sleeping (kern s) = false -> prog_of (kern s) (currentThread (kern s)) = Some [] ->
       code s !! currentThread (kern s) = Some ss -> exists ev s', run_code s = Ok (ev, s')) /\
    (waiters (kern s) <> [] -> exists ts, NoDup ts /\ zlen es <= zlen ts /\ forall t, t ∈ ts -> wakes s t).
Proof.
  intros Hp Hk El Ec Hf Hn Hr Hz. destruct (run_inv pick tr _ s Hp (new_inv _ _ _ Hk El Ec Hf Hn) Hr Hz) as (es & Hi).
  exists es. split; [apply Hi|]. split; [apply Hi|]. split; [apply Hi|]. split; [|split].
  - intros t. by apply in_monitor_owner with tr es.
  - intros [ss rest] Hs Hpr Hc. destruct (code_step tr es s ss rest Hi Hs Hpr Hc) as (ev & s' & _ & E & _).
    + intros Hin. apply Hz. by eapply appended_elem.
    + by exists ev, s'.
  - apply (i_budget _ _ _ Hi).
Qed.
End monitor.

(** ** A run *)

(** One step of a fixed schedule, in which the threads of [plan] call a method. *)
Definition kern_next (s : state) : res (list event * state) :=
  k ← (if sleeping (kern s) then
         _ ← ASSERT (bool_decide (readyList (kern s) <> [])); Sleep_loop first_min (kern s)
       else _ ← ASSERT (step_ok (kern s)); exec first_min (kern s));
  _ ← ASSERT (bool_decide (dom (threads k) ⊆ dom (threads (kern s))));
  mret ([], mkState k (cells s) (sl s) (code s)).

Definition sl_next (plan : gmap Z method) (s : state) : res (list event * (gmap Z method * state)) :=
  let t := currentThread (kern s) in
  match sleeping (kern s), code s !! t, plan !! t with
  | false, None, Some m => s ← call m s; mret ([], (delete t plan, s))
  | false, Some _, _ =>
      if decide (prog_of (kern s) t = Some []) then '(ev, s) ← run_code s; mret (ev, (plan, s))
      else '(ev, s) ← kern_next s; mret (ev, (plan, s))
  | _, _, _ => '(ev, s) ← kern_next s; mret (ev, (plan, s))
  end.

Fixpoint sl_simulate (n : nat) (tr : list event) (plan : gmap Z method) (s : state) :
    res (list event * (gmap Z method * state)) :=
  match n with
  | O => mret (tr, (plan, s))
  | S n => '(ev, (plan, s)) ← sl_next plan s; sl_simulate n (tr ++ ev) plan s
  end.

Lemma kern_next_sound s ev s' : kern_next s = Ok (ev, s') -> sl_step first_min ev s s'.
Proof.
  unfold kern_next. intros H. apply bind_inv in H as (k & E & H). apply bind_inv in H as (u & Hd & H).
  apply ASSERT_inv, bool_decide_eq_true in Hd. apply Ok_inj in H. injection H as <- <-.
  apply sl_kernel.
  - destruct (sleeping (kern s)) eqn:Hs; apply bind_inv in E as (u' & Ha & E); apply ASSERT_inv in Ha.
    + apply bool_decide_eq_true in Ha. by apply step_sleep.
    + apply step_ok_sound in Ha as [H1 H2]. by apply step_exec.
  - intros t p Et Ep. exfalso. apply not_elem_of_dom in Et. apply Et, Hd, elem_of_dom.
    unfold prog_of in Ep. destruct (threads k !! t); [by eexists|done].
Qed.

Lemma sl_next_sound plan s ev plan' s' :
  sl_next plan s = Ok (ev, (plan', s')) -> sl_step first_min ev s s'.
Proof.
  unfold sl_next. intros H.
  assert ((('(ev, s1) ← kern_next s; mret (ev, (plan, s1))) : res _) = Ok (ev, (plan', s')) ->
    sl_step first_min ev s s') as Hk.
  { intros E. apply bind_inv in E as ([ev1 s1] & E & E1). apply Ok_inj in E1. injection E1 as <- <- <-.
    by apply kern_next_sound. }
  destruct (sleeping (kern s)) eqn:Hs; [by apply Hk|].
  destruct (code s !! currentThread (kern s)) as [c|] eqn:Hc.
  - case_decide as Hp; [|by apply Hk]. apply bind_inv in H as ([ev1 s1] & E & E1). apply Ok_inj in E1.
    injection E1 as <- <- <-. by apply sl_code.
  - destruct (plan !! currentThread (kern s)) as [m|]; [|by apply Hk].
    apply bind_inv in H as (s1 & E & E1). apply Ok_inj in E1. injection E1 as <- <- <-. by apply (sl_call _ m).
Qed.

Lemma sl_simulate_sound n : forall tr plan s s0 tr' plan' s',
  sl_run first_min tr s0 s -> sl_simulate n tr plan s = Ok (tr', (plan', s')) -> sl_run first_min tr' s0 s'.
Proof.
  induction n as [|n IH]; intros tr plan s s0 tr' plan' s' Hr H; cbn [sl_simulate] in H.
  - apply Ok_inj in H. injection H as <- <- <-. exact Hr.
  - apply bind_inv in H as ([ev [plan1 s1]] & E & H). eapply IH; [|exact H].
    eapply sl_more; [exact Hr|]. by eapply sl_next_sound.
Qed.

(** The main thread waits for an item; another appends one, which the main thread
    then removes. *)
Definition two_threads : SynchList * kernel := new_SynchList 1 1 (sample_kernel [] [CFinish] [CFinish]).
Definition two_run (n : nat) : res (list event * (gmap Z method * state)) :=
  sl_simulate n [] (<[0 := MRemove]> {[1 := MAppend 7]}) (mkState two_threads.2 ∅ two_threads.1 ∅).

Lemma two_start : forall t p, prog_of (sample_kernel [] [CFinish] [CFinish]) t = Some p -> foreign 1 1 p.
Proof.
  intros t p E. unfold prog_of in E. simpl in E.
  destruct (_ !! t) as [th|] eqn:Eth; [|done]. injection E as <-.
  apply lookup_insert_Some in Eth as [[<- <-]|[_ Eth]]; [by repeat constructor|].
  apply lookup_insert_Some in Eth as [[<- <-]|[_ Eth]]; [by repeat constructor|].
  apply lookup_singleton_Some in Eth as [<- <-]. by repeat constructor.
Qed.

Lemma SynchList_correct_witness :
  exists plan s, two_run 22 = Ok ([Appended 7; Removed 7], (plan, s)) /\
    exists es, items s es /\ [7] = [7] ++ es.
Proof.
  assert (exists plan s, two_run 22 = Ok ([Appended 7; Removed 7], (plan, s))) as (plan & s & E)
    by (eexists _, _; vm_compute; reflexivity).
  exists plan, s. split; [exact E|].
  destruct (SynchList_correct 1 1 first_min [Appended 7; Removed 7] (sample_kernel [] [CFinish] [CFinish])
    two_threads.1 two_threads.2 s first_min_least (sample_kernel_wf _ _ _) eq_refl eq_refl two_start eq_refl)
    as (es & Hi & Ha & _).
  - exact (sl_simulate_sound 22 [] _ _ _ _ _ _ (sl_none _ _) E).
  - intros Hin. clear -Hin. rewrite !elem_of_cons, elem_of_nil in Hin.
    destruct Hin as [H|[H|[]]]; discriminate H.
  - exists es. split; [exact Hi|exact Ha].
Defined.
