(* ===== verification/FDList.v ===== *)
(** * FDList: userprog/fd_list.h and the FD_List part of userprog/addrspace.cc

    The open files of a process: a bitmap of the descriptors in use and an array
    of pointers.  A pointer is a number, 0 is NULL.  The methods hold the list's
    lock while they use the bitmap, so each is one step here. *)

From S2P Require Import Prelude BitMap.

(** The descriptors every process has (userprog/syscall.h). *)
Definition ConsoleInput : Z := 0.
Definition ConsoleOutput : Z := 1.

Record FD_List := mkFDList {
  fd_map : BitMap;
  fd_list : list Z;
  fd_size : Z
}.

(** [FD_List(i_size)]; what [new] returns is not initialised. *)
Definition new_FD_List (words pointers : list Z) (i_size : Z) : res FD_List :=
  m ← new_BitMap words i_size; mret (mkFDList m pointers i_size).

Definition fd_get (l : FD_List) (i : Z) : res Z :=
  if (i >=? 0) && (i <? fd_size l) then
    t ← Test (fd_map l) i;
    if (t : bool) then (fd_list l).[i] else mret 0
  else mret 0.

Definition fd_put (l : FD_List) (new_fd : Z) : res (Z * FD_List) :=
  '(i, m) ← Find (fd_map l);
  if negb (i =? -1) then
    xs ← (fd_list l).[i := new_fd];
    mret (i, mkFDList m xs (fd_size l))
  else mret (i, mkFDList m (fd_list l) (fd_size l)).

(** [garbage] is the uninitialised local [old_fd]. *)
Definition fd_remove (l : FD_List) (garbage i : Z) : res (Z * FD_List) :=
  if (i >=? 0) && (i <? fd_size l) then
    t ← Test (fd_map l) i;
    if (t : bool) then
      m ← Clear (fd_map l) i;
      old_fd ← (fd_list l).[i];
      xs ← (fd_list l).[i := 0];
      mret (old_fd, mkFDList m xs (fd_size l))
    else mret (garbage, l)
  else mret (garbage, l).

(** ** The table of descriptors it implements *)

Record wf_fds (l : FD_List) : Prop := {
  wf_fd_map : wf (fd_map l);
  wf_fd_bits : numBits (fd_map l) = fd_size l;
  wf_fd_len : zlen (fd_list l) = fd_size l
}.

(** [m] maps the descriptors in use to their files. *)
Definition fd_table (l : FD_List) (m : gmap Z Z) : Prop :=
  wf_fds l /\ dom m = marked (fd_map l) /\
  forall i f, m !! i = Some f -> znth (fd_list l) i = Some f.

Lemma fd_table_valid l m i f : fd_table l m -> m !! i = Some f -> valid_bit (fd_map l) i.
Proof.
  intros (_ & Hd & _) E. apply elem_of_dom_2 in E. rewrite Hd in E.
  by apply elem_of_marked in E as [? _].
Qed.

Lemma fd_index l i :
  wf_fds l -> (i >=? 0) && (i <? fd_size l) = true <-> valid_bit (fd_map l) i.
Proof. intros Hl. unfold valid_bit. rewrite (wf_fd_bits _ Hl), andb_true_iff. lia. Qed.

Lemma fd_test l m i :
  fd_table l m -> valid_bit (fd_map l) i ->
  Test (fd_map l) i = Ok (bool_decide (is_Some (m !! i))).
Proof.
  intros (Hl & Hd & _) Hi. rewrite Test_marked by (done || apply wf_fd_map, Hl).
  f_equal. apply bool_decide_ext. by rewrite <- Hd, elem_of_dom.
Qed.

Inductive fd_op := FdGet (i : Z) | FdPut (f : Z) | FdRemove (garbage i : Z).

Definition run_fd (l : FD_List) (o : fd_op) : res (Z * FD_List) :=
  match o with
  | FdGet i => f ← fd_get l i; mret (f, l)
  | FdPut f => fd_put l f
  | FdRemove g i => fd_remove l g i
  end.

(** The least descriptor below [n] that is free, or -1. *)
Definition spec_fd (n : Z) (m : gmap Z Z) (o : fd_op) : res (Z * gmap Z Z) :=
  match o with
  | FdGet i => mret (default 0 (m !! i), m)
  | FdPut f =>
      let i := spec_find n (dom m) in
      mret (i, if i =? -1 then m else <[i := f]> m)
  | FdRemove g i => mret (default g (m !! i), delete i m)
  end.

Lemma fd_get_spec l m i : fd_table l m -> fd_get l i = Ok (default 0 (m !! i)).
Proof.
  intros Ht. pose proof Ht as (Hl & Hd & Hv). unfold fd_get.
  destruct ((i >=? 0) && (i <? fd_size l)) eqn:Hr.
  - apply (fd_index l i Hl) in Hr. rewrite (fd_test l m i Ht Hr), bind_Ok.
    destruct (m !! i) as [f|] eqn:E.
    + rewrite bool_decide_eq_true_2 by done. apply zget_Ok. by apply Hv.
    + rewrite bool_decide_eq_false_2; [done|]. by intros [? ?].
  - destruct (m !! i) as [f|] eqn:E; [|done]. apply (fd_table_valid l m) in E; [|done].
    apply (fd_index l i Hl) in E. congruence.
Qed.

Lemma fd_put_spec l m f :
  fd_table l m -> exists i m' l', fd_put l f = Ok (i, l') /\
    spec_fd (fd_size l) m (FdPut f) = Ok (i, m') /\ fd_table l' m' /\ fd_size l' = fd_size l.
Proof.
  intros (Hl & Hd & Hv). pose proof Hl as [Hw Hb Hlen]. unfold fd_put. cbn [spec_fd]. rewrite Hd.
  destruct (Find_spec _ Hw) as [(r & b' & -> & Hr & Hbit & Hlow & Hu)|[-> Hall]].
  - rewrite bind_Ok. assert (r <> -1) as Hne by (unfold valid_bit in Hr; lia).
    assert (0 <= r < fd_size l) as Hrs by (unfold valid_bit in Hr; lia).
    rewrite (proj2 (Z.eqb_neq _ _) Hne). cbn [negb].
    rewrite zset_Ok, bind_Ok by (rewrite Hlen; lia).
    rewrite (spec_find_free _ _ r), (proj2 (Z.eqb_neq _ _) Hne); [|done|..].
    + eexists r, _, _. split; [reflexivity|]. split; [reflexivity|]. split; [|done].
      split; [|split]; simpl.
      * split; simpl; [by apply updates_wf in Hu|apply updates_numBits in Hu; congruence|].
        by rewrite zlen_insert.
      * rewrite dom_insert_L, Hd. symmetry. by apply marked_updates.
      * intros j g E. apply lookup_insert_Some in E as [[<- <-]|[Hj E]].
        -- apply znth_insert_eq. rewrite Hlen. lia.
        -- rewrite znth_insert_ne by lia. by apply Hv.
    + rewrite elem_of_marked, Hbit. by intros [_ ?].
    + intros j Hj. apply elem_of_marked. unfold valid_bit in *. split; [lia|]. auto.
  - rewrite bind_Ok. cbn [negb Z.eqb]. rewrite (spec_find_full _ (fd_map l)) by done.
    eexists (-1), _, _. split; [reflexivity|]. split; [reflexivity|]. done.
Qed.

Lemma fd_remove_spec l m g i :
  fd_table l m -> exists l', fd_remove l g i = Ok (default g (m !! i), l') /\
    fd_table l' (delete i m) /\ fd_size l' = fd_size l.
Proof.
  intros Ht. pose proof Ht as (Hl & Hd & Hv). pose proof Hl as [Hw Hb Hlen]. unfold fd_remove.
  destruct (m !! i) as [f|] eqn:E.
  - pose proof (fd_table_valid l m i f Ht E) as Hi. rewrite (proj2 (fd_index l i Hl) Hi).
    rewrite (fd_test l m i Ht Hi), E, bind_Ok, bool_decide_eq_true_2 by done.
    destruct (Clear_updates _ i Hw Hi) as (b' & -> & Hu). rewrite bind_Ok.
    rewrite (proj2 (zget_Ok _ _ _) (Hv i f E)), bind_Ok.
    assert (0 <= i < fd_size l) as Hrs by (unfold valid_bit in Hi; lia).
    rewrite zset_Ok, bind_Ok by (rewrite Hlen; lia). eexists. split; [reflexivity|]. split; [|done].
    split; [|split]; simpl.
    + split; simpl; [by apply updates_wf in Hu|apply updates_numBits in Hu; congruence|].
      by rewrite zlen_insert.
    + rewrite dom_delete_L, Hd. symmetry. by apply unmarked_updates.
    + intros j x Ej. apply lookup_delete_Some in Ej as [Hj Ej].
      rewrite znth_insert_ne by lia. by apply Hv.
  - exists l. rewrite delete_id by done. split; [|done].
    destruct ((i >=? 0) && (i <? fd_size l)) eqn:Hr; [|done].
    apply (fd_index l i Hl) in Hr. rewrite (fd_test l m i Ht Hr), E, bind_Ok.
    rewrite bool_decide_eq_false_2; [done|]. by intros [? ?].
Qed.

Lemma fd_op_refines l m o :
  fd_table l m -> exists r m' l', run_fd l o = Ok (r, l') /\
    spec_fd (fd_size l) m o = Ok (r, m') /\ fd_table l' m' /\ fd_size l' = fd_size l.
Proof.
  intros Ht. destruct o as [i|f|g i]; cbn [run_fd].
  - rewrite (fd_get_spec l m i Ht), bind_Ok. by exists (default 0 (m !! i)), m, l.
  - destruct (fd_put_spec l m f Ht) as (i & m' & l' & E). by exists i, m', l'.
  - destruct (fd_remove_spec l m g i Ht) as (l' & E & H). by exists (default g (m !! i)), (delete i m), l'.
Qed.

Lemma fd_remove_unused l m g i : fd_table l m -> m !! i = None -> fd_remove l g i = Ok (g, l).
Proof.
  intros Ht E. pose proof Ht as (Hl & _). unfold fd_remove.
  destruct ((i >=? 0) && (i <? fd_size l)) eqn:Hr; [|done]. apply (fd_index l i Hl) in Hr.
  rewrite (fd_test l m i Ht Hr), E, bind_Ok, bool_decide_eq_false_2; [done|]. by intros [? ?].
Qed.

(** The descriptor list is a table of open files.  Any sequence of fd_get,
    fd_put and fd_remove calls, on any descriptors, returns what a finite map
    returns: fd_put takes the least free descriptor, or -1 and no change when all
    are in use; fd_get gives NULL for a descriptor that is not in use; fd_remove
    of one gives whatever its uninitialised local holds, and changes nothing. *)
Theorem FD_List_refines_table l m os :
  fd_table l m ->
  exists rs m' l', run_ops run_fd l os = Ok (rs, l') /\
    run_ops (spec_fd (fd_size l)) m os = Ok (rs, m') /\ fd_table l' m' /\
    forall g i, m' !! i = None -> fd_remove l' g i = Ok (g, l').
Proof.
  revert l m. induction os as [|o os IH]; intros l m Ht; cbn [run_ops].
  - exists [], m, l. split_and!; try done. intros g i Hi. by apply fd_remove_unused with m.
  - destruct (fd_op_refines l m o Ht) as (r & m1 & l1 & -> & -> & Ht1 & <-). rewrite !bind_Ok.
    destruct (IH l1 m1 Ht1) as (rs & m' & l' & -> & -> & Ht' & Hrm). rewrite !bind_Ok.
    by exists (r :: rs), m', l'.
Qed.

(** A new list, after stdin and stdout took the first two descriptors. *)
Definition fd_sample : FD_List :=
  match new_FD_List [12345] [7; 8; 9; 10] 4 with Ok l => l | Err _ => mkFDList (mkBitMap 0 0 []) [] 0 end.

Lemma fd_sample_table : fd_table fd_sample ∅.
Proof.
  destruct (new_BitMap_spec [12345] 4) as (b & E & Hb & Hn & Hm);
    [lia|reflexivity|repeat constructor; word_lia|].
  unfold fd_sample, new_FD_List. rewrite E. split; [|split]; simpl.
  - by split.
  - by rewrite dom_empty_L.
  - done.
Qed.

Lemma FD_List_refines_table_witness :
  exists l', run_ops run_fd fd_sample
      [FdPut 0; FdPut 0; FdPut 100; FdGet 2; FdRemove 55 2; FdGet 2; FdRemove 55 2; FdGet (-1)]
    = Ok ([0; 1; 2; 100; 100; 0; 55; 0], l').
Proof.
  destruct (FD_List_refines_table fd_sample ∅
      [FdPut 0; FdPut 0; FdPut 100; FdGet 2; FdRemove 55 2; FdGet 2; FdRemove 55 2; FdGet (-1)]
      fd_sample_table) as (rs & m' & l' & E & Es & _).
  exists l'. rewrite E. f_equal. f_equal. vm_compute in Es. injection Es as <- _. reflexivity.
Defined.
