(* ===== verification/AddrSpace.v ===== *)
(** * AddrSpace: userprog/addrspace.h, userprog/addrspace.cc and bin/noff.h

    The address space of a user program: pages are brought into memory on demand
    from the executable, and pushed out to sectors of the disk when no frame is
    free.  The file system is reached through the interface [FileStore], which
    Executable.v shows the Nachos file system implements; the disk through
    [SectorStore]. *)

From S2P Require Import Text.
From S2P Require Import Prelude BitMap Machine Interrupt Disk SynchDisk FDList.

(** What the executable is read through: OpenFile of a file system.  Opening gives
    the file, when there is one, and what is printed; a program that is open gives
    the bytes of the range that are in the file. *)
Class FileStore (F W : Type) := {
  fs_open : list Z -> W -> res (option F * list Z * W);
  fs_read_at : F -> Z -> Z -> W -> res (list Z * W)
}.

(** ** The object code format *)

Record Segment := mkSegment { virtualAddr : Z; inFileAddr : Z; seg_size : Z }.

Record NoffHeader := mkNoff { noffMagic : Z; code : Segment; initData : Segment; uninitData : Segment }.

Definition NOFFMAGIC : Z := 0xbadfad.
Definition sizeof_NoffHeader : Z := 40.

(** The [i]th int of the header's bytes. *)
Definition noff_word (bs : list Z) (i : nat) : Z := s32 (le_value (take 4 (drop (4 * i) bs))).
Definition noff_of_bytes (bs : list Z) : NoffHeader :=
  let segment i := mkSegment (noff_word bs i) (noff_word bs (S i)) (noff_word bs (S (S i))) in
  mkNoff (noff_word bs 0) (segment 1%nat) (segment 4%nat) (segment 7%nat).

Definition swap_segment (s : Segment) : Segment :=
  mkSegment (WordToHost (virtualAddr s)) (WordToHost (inFileAddr s)) (WordToHost (seg_size s)).
Definition SwapHeader (h : NoffHeader) : NoffHeader :=
  mkNoff (WordToHost (noffMagic h)) (swap_segment (code h)) (swap_segment (initData h))
    (swap_segment (uninitData h)).

Definition UserStackSize : Z := 1024.

Record AddrSpace := mkSpace {
  open_files : FD_List;
  table : list TranslationEntry;        (* pageTable *)
  numPages : Z;
  filename : list Z;
  noffH : NoffHeader;
  on_disk : BitMap;
  page_sector : list Z;
  victum_offset : Z;
  stack_base : Z;
  argc : Z;
  argv : Z;
  forked : bool
}.

Definition set_table (s : AddrSpace) t := mkSpace (open_files s) t (numPages s) (filename s) (noffH s)
  (on_disk s) (page_sector s) (victum_offset s) (stack_base s) (argc s) (argv s) (forked s).
Definition set_page_sector (s : AddrSpace) p := mkSpace (open_files s) (table s) (numPages s) (filename s)
  (noffH s) (on_disk s) p (victum_offset s) (stack_base s) (argc s) (argv s) (forked s).
Definition set_victum (s : AddrSpace) v := mkSpace (open_files s) (table s) (numPages s) (filename s)
  (noffH s) (on_disk s) (page_sector s) v (stack_base s) (argc s) (argv s) (forked s).
Definition set_stack_base (s : AddrSpace) b := mkSpace (open_files s) (table s) (numPages s) (filename s)
  (noffH s) (on_disk s) (page_sector s) (victum_offset s) b (argc s) (argv s) (forked s).
Definition set_args (s : AddrSpace) n v := mkSpace (open_files s) (table s) (numPages s) (filename s)
  (noffH s) (on_disk s) (page_sector s) (victum_offset s) (stack_base s) n v (forked s).
Definition set_open_files (s : AddrSpace) l := mkSpace l (table s) (numPages s) (filename s)
  (noffH s) (on_disk s) (page_sector s) (victum_offset s) (stack_base s) (argc s) (argv s) (forked s).

Definition set_frame (e : TranslationEntry) p :=
  mkEntry (virtualPage e) p (valid e) (readOnly e) (use e) (dirty e).
Definition set_valid (e : TranslationEntry) b :=
  mkEntry (virtualPage e) (physicalPage e) b (readOnly e) (use e) (dirty e).
Definition set_use (e : TranslationEntry) b :=
  mkEntry (virtualPage e) (physicalPage e) (valid e) (readOnly e) b (dirty e).
Definition set_readOnly (e : TranslationEntry) b :=
  mkEntry (virtualPage e) (physicalPage e) (valid e) b (use e) (dirty e).

(** The memory and what all address spaces share: [machine->mainMemory], the
    static arrays of addrspace.cc, the static buffer of [read], what was printed, the
    disk. *)
Record vmem (W : Type) := mkVM {
  memory : list Z;
  available_pages : list Z;
  available_sectors : BitMap;
  buf : list Z;
  stdout : list Z;
  store : W
}.
Arguments mkVM {W}. Arguments memory {W}. Arguments available_pages {W}.
Arguments available_sectors {W}. Arguments buf {W}. Arguments stdout {W}. Arguments store {W}.

Definition set_memory {W} (v : vmem W) m :=
  mkVM m (available_pages v) (available_sectors v) (buf v) (stdout v) (store v).
Definition set_frames {W} (v : vmem W) f :=
  mkVM (memory v) f (available_sectors v) (buf v) (stdout v) (store v).
Definition set_sectors {W} (v : vmem W) s :=
  mkVM (memory v) (available_pages v) s (buf v) (stdout v) (store v).
Definition set_buf {W} (v : vmem W) b :=
  mkVM (memory v) (available_pages v) (available_sectors v) b (stdout v) (store v).
Definition set_store {W} (v : vmem W) (w : W) :=
  mkVM (memory v) (available_pages v) (available_sectors v) (buf v) (stdout v) w.
(** [printf] *)
Definition print {W} (v : vmem W) (text : list Z) :=
  mkVM (memory v) (available_pages v) (available_sectors v) (buf v) (stdout v ++ text) (store v).

Section addrspace.
Context {F W : Type} `{FileStore F W} `{SectorStore W}.
(** [currentThread->Yield()]: other threads run. *)
Context (yield : vmem W -> res (vmem W)).

(** [fileSystem->Open(name)] *)
Definition open_file (name : list Z) (v : vmem W) : res (option F * vmem W) :=
  '(executable, text, w) ← fs_open name (store v); mret (executable, print (set_store v w) text).

(** ** Pages and sectors *)

Definition readPage (s : AddrSpace) (v : vmem W) (pp vp : Z) : res (Z * vmem W) :=
  sector ← (page_sector s).[vp];
  if (sector <? 0) || (sector >=? NumSectors) then mret (-1, v)
  else
    '(bs, w) ← ReadSector sector (store v);
    m ← zwrite (memory v) (pp * PageSize) bs;
    mret (sector, set_store (set_memory v m) w).

Definition writePage (s : AddrSpace) (v : vmem W) (pp vp : Z) : res (Z * (AddrSpace * vmem W)) :=
  sector ← (page_sector s).[vp];
  '(sector, (s, v)) ←
    (if (sector <? 0) || (sector >=? NumSectors) then
       '(sector, b) ← Find (available_sectors v);
       _ ← ASSERT (sector >=? 0);
       b ← Mark b sector;
       p ← (page_sector s).[vp := sector];
       mret (sector, (set_page_sector s p, set_sectors v b))
     else mret (sector, (s, v)));
  bs ← zread (memory v) (pp * PageSize) SectorSize;
  w ← WriteSector sector bs (store v);
  mret (sector, (s, set_store v w)).

(** ** Choosing a victim *)

(** The locals of the loop of [try_store_page]: [best] is the index of
    [best_page]. *)
Record scan := mkScan { sc_table : list TranslationEntry; best : Z; best_used : bool; unused : Z }.

(** One turn of the loop on page [j]; the flag is [break]. *)
Definition scan_page (frames : list Z) (j : Z) (c : scan) : res (scan * bool) :=
  curr ← (sc_table c).[j];
  let curr_used := use curr in
  if negb (valid curr) then mret (c, false)
  else
    '(t, u) ← (if unused c <? 0 then
                 if curr_used then t ← (sc_table c).[j := set_use curr false]; mret (t, unused c)
                 else mret (sc_table c, j)
               else mret (sc_table c, unused c));
    b ← t.[best c];
    curr ← t.[j];
    shared ← (if negb (readOnly b) then n ← frames.[physicalPage b]; mret (n >? 1) else mret false);
    let taken := mkScan t j curr_used u in
    if (shared : bool) then mret (taken, false)
    else if readOnly b && negb (readOnly curr) then mret (taken, false)
    else if dirty b && negb (dirty curr) then mret (taken, false)
    else if best_used c && negb curr_used then mret (taken, true)
    else mret (mkScan t (best c) (best_used c) u, false).

Fixpoint scan_loop (n : nat) (i : Z) (frames : list Z) (s : AddrSpace) (c : scan) : res scan :=
  match n with
  | O => mret c
  | S n =>
      '(c, stop) ← scan_page frames (Z.rem (u32 (victum_offset s + i)) (numPages s)) c;
      if (stop : bool) then mret c else scan_loop n (i + 1) frames s c
  end.

(** [while (writePage(..) < 0) currentThread->Yield();] *)
Fixpoint write_out (n : nat) (s : AddrSpace) (v : vmem W) (pp vp : Z) : res (AddrSpace * vmem W) :=
  '(r, (s, v)) ← writePage s v pp vp;
  if r <? 0 then
    match n with O => Err OutOfFuel | S n => v ← yield v; write_out n s v pp vp end
  else mret (s, v).

Definition try_store_page (s : AddrSpace) (v : vmem W) : res (Z * (AddrSpace * vmem W)) :=
  c ← scan_loop (Z.to_nat (numPages s - 1)) 1 (available_pages v) s
        (mkScan (table s) (victum_offset s) false (-1));
  let s := set_table s (sc_table c) in
  b ← (table s).[best c];
  shared ← (if negb (readOnly b)
            then n ← (available_pages v).[physicalPage b]; mret (n >? 1) else mret false);
  if (shared : bool) then mret (-1, (s, v))
  else
    let s := set_victum s (unused c) in
    '(s, v, b) ←
      (if dirty b || readOnly b then
         '(s, v) ← write_out 1 s v (physicalPage b) (virtualPage b);
         let b := set_frame (set_valid b false) (-1) in
         t ← (table s).[best c := b];
         mret (set_table s t, v, b)
       else mret (s, v, b));
    if (dirty b || readOnly b) && readOnly b then
      n ← (available_pages v).[physicalPage b];
      f ← (available_pages v).[physicalPage b := n - 1];
      t ← (table s).[best c := set_readOnly b false];
      mret (-1, (set_table s t, set_frames v f))
    else
      let rtn := physicalPage b in
      f ← (available_pages v).[rtn := 0];
      t ← (table s).[best c := set_frame b (-1)];
      mret (rtn, (set_table s t, set_frames v f)).

(** [do rtn = try_store_page(); while (rtn == -1);]: at most [n] more turns. *)
Fixpoint store_page (n : nat) (s : AddrSpace) (v : vmem W) : res (Z * (AddrSpace * vmem W)) :=
  '(rtn, (s, v)) ← try_store_page s v;
  if rtn =? -1 then match n with O => Err OutOfFuel | S n => store_page n s v end
  else mret (rtn, (s, v)).

(** ** Loading a page *)

(** [for (i = 0; i < NumPhysPages; i++) if (available_pages[i] == 0)]. *)
Fixpoint free_frame (n : nat) (i : Z) (frames : list Z) : res (option Z) :=
  match n with
  | O => mret None
  | S n => x ← frames.[i]; if x =? 0 then mret (Some i) else free_frame n (i + 1) frames
  end.

(** The page overlaps the segment. *)
Definition in_segment (g : Segment) (virt_page : Z) : bool :=
  (seg_size g >? 0) && (virt_page >=? Z.quot (virtualAddr g) PageSize) &&
  (virt_page <=? Z.quot (s32 (virtualAddr g + seg_size g)) PageSize).

(** Where the part of segment [g] on page [virt_page] goes, in the frame [pp]:
    [start], [end] and [file_offset].  The code for the data segment is the copy
    of the code for the text with [- file_offset] in [end]. *)
Definition seg_start (g : Segment) (virt_page pp : Z) : Z :=
  pp * PageSize +
  (if virt_page =? Z.quot (virtualAddr g) PageSize then Z.rem (virtualAddr g) PageSize else 0).
Definition seg_file_offset (g : Segment) (virt_page : Z) : Z :=
  if virt_page =? Z.quot (virtualAddr g) PageSize then inFileAddr g
  else s32 (inFileAddr g + (virt_page * PageSize - virtualAddr g)).
Definition seg_end (data : bool) (g : Segment) (virt_page pp : Z) : Z :=
  let e := s32 (seg_start g virt_page pp + seg_size g -
                (if data then seg_file_offset g virt_page else 0)) in
  if negb (Z.quot e PageSize =? pp) then (pp + 1) * PageSize else e.

(** [false]: the executable cannot be opened. *)
Definition load_segment (data : bool) (g : Segment) (s : AddrSpace) (virt_page pp : Z) (v : vmem W)
    : res (bool * vmem W) :=
  if in_segment g virt_page then
    '(executable, v) ← open_file (filename s) v;
    match executable with
    | None => mret (false, v)
    | Some f =>
        let start := seg_start g virt_page pp in
        '(bs, w) ← fs_read_at f (seg_end data g virt_page pp - start)
                     (seg_file_offset g virt_page) (store v);
        m ← zwrite (memory v) start bs;
        mret (true, set_store (set_memory v m) w)
    end
  else mret (true, v).

(** A frame for the page: a free one, or the one [store_page] empties. *)
Definition find_frame (s : AddrSpace) (v : vmem W) (virt_page : Z) : res (AddrSpace * vmem W) :=
  o ← free_frame (Z.to_nat NumPhysPages) 0 (available_pages v);
  '(s, v) ←
    match o with
    | Some i =>
        page ← (table s).[virt_page];
        t ← (table s).[virt_page := set_frame page i];
        f ← (available_pages v).[i := 1];
        mret (set_table s t, set_frames v f)
    | None => mret (s, v)
    end;
  page ← (table s).[virt_page];
  if physicalPage page =? -1 then
    '(rtn, (s, v)) ← store_page 1 s v;
    page ← (table s).[virt_page];
    f ← (available_pages v).[rtn := 1];
    t ← (table s).[virt_page := set_use (set_frame page rtn) true];
    mret (set_table s t, set_frames v f)
  else mret (s, v).

Definition load_page (s : AddrSpace) (v : vmem W) (virt_page : Z) : res (Z * (AddrSpace * vmem W)) :=
  if (u32 virt_page >=? numPages s) || (virt_page <? 0) then mret (-1, (s, v))
  else
    page ← (table s).[virt_page];
    if negb (virtualPage page =? virt_page) then mret (-1, (s, v))
    else if valid page then mret (physicalPage page, (s, v))
    else
      '(s, v) ← find_frame s v virt_page;
      page ← (table s).[virt_page];
      let pp := physicalPage page in
      d ← Test (on_disk s) virt_page;
      if (d : bool) then
        '(_, v) ← readPage s v pp (virtualPage page);
        mret (-1, (s, v))
      else
        m ← zwrite (memory v) (pp * PageSize) (replicate (Z.to_nat PageSize) 0);
        let v := set_memory v m in
        '(ok, v) ← load_segment false (code (noffH s)) s virt_page pp v;
        if negb ok then mret (-1, (s, v))
        else
          '(ok, v) ← load_segment true (initData (noffH s)) s virt_page pp v;
          if negb ok then mret (-1, (s, v))
          else
            t ← (table s).[virt_page := set_valid page true];
            mret (pp, (set_table s t, v)).

(** ** Access to the memory of the program *)

(** The entry of the page of an address, after loading the page if need be. *)
Definition fault_in (s : AddrSpace) (v : vmem W) (virt_page : Z)
    : res (TranslationEntry * (AddrSpace * vmem W)) :=
  page ← (table s).[virt_page];
  '(s, v) ← (if negb (valid page) || (physicalPage page =? -1)
             then '(_, sv) ← load_page s v virt_page; mret sv else mret (s, v));
  page ← (table s).[virt_page];
  mret (page, (s, v)).

Definition phys_addr (page : TranslationEntry) (a : Z) : Z :=
  physicalPage page * PageSize + Z.rem a PageSize.

Fixpoint read_loop (n : nat) (i addr bytes : Z) (s : AddrSpace) (v : vmem W)
    : res (AddrSpace * vmem W) :=
  match n with
  | O => mret (s, v)
  | S n =>
      if (bytes =? 0) || (i <? bytes) then
        '(page, (s, v)) ← fault_in s v (Z.quot (s32 (addr + i)) PageSize);
        x ← (memory v).[phys_addr page (s32 (addr + i))];
        b ← (buf v).[i := x];
        let v := set_buf v b in
        if (bytes =? 0) && (x =? 0) then mret (s, v) else read_loop n (i + 1) addr bytes s v
      else mret (s, v)
  end.

(** The result of [read] is the static buffer. *)
Definition read (s : AddrSpace) (v : vmem W) (addr bytes : Z) : res (AddrSpace * vmem W) :=
  read_loop 1000 0 addr bytes s v.

Fixpoint write_loop (n : nat) (i addr bytes : Z) (str : list Z) (s : AddrSpace) (v : vmem W)
    : res (AddrSpace * vmem W) :=
  match n with
  | O => mret (s, v)
  | S n =>
      if (bytes =? 0) || (i <? bytes) then
        '(page, (s, v)) ← fault_in s v (Z.quot (s32 (addr + i)) PageSize);
        c ← str.[i];
        m ← (memory v).[phys_addr page (s32 (addr + i)) := c];
        let v := set_memory v m in
        if (bytes =? 0) && (c =? 0) then mret (s, v) else write_loop n (i + 1) addr bytes str s v
      else mret (s, v)
  end.

Definition write (s : AddrSpace) (v : vmem W) (addr : Z) (str : list Z) (bytes : Z)
    : res (AddrSpace * vmem W) :=
  write_loop 1000 0 addr bytes str s v.

(** ** Setting a space up *)

(** What [new] and the stack hold before they are written: the storage of a
    bitmap, the bytes of the header, the locals of [createStackArgs]. *)
Context (new_words : Z -> list Z) (header_bytes : list Z) (stack_words : list Z).

Definition read_header (f : F) (w : W) : res (NoffHeader * W) :=
  '(bs, w) ← fs_read_at f sizeof_NoffHeader 0 w;
  let h := noff_of_bytes (bs ++ drop (length bs) header_bytes) in
  mret (if negb (noffMagic h =? NOFFMAGIC) && (WordToHost (noffMagic h) =? NOFFMAGIC)
        then SwapHeader h else h, w).

(** [code.size + initData.size + uninitData.size + UserStackSize]. *)
Definition space_size (h : NoffHeader) : Z :=
  seg_size (code h) + seg_size (initData h) + seg_size (uninitData h) + UserStackSize.

(** [AddrSpace(executable)]: everything in memory at once, from frame 0; the
    other members keep what [this] held. *)
Definition copy_segment (g : Segment) (f : F) (v : vmem W) : res (vmem W) :=
  if seg_size g >? 0 then
    '(bs, w) ← fs_read_at f (seg_size g) (inFileAddr g) (store v);
    m ← zwrite (memory v) (virtualAddr g) bs;
    mret (set_store (set_memory v m) w)
  else mret v.

Definition AddrSpace_executable (this : AddrSpace) (fds : FD_List) (executable : F) (v : vmem W)
    : res (AddrSpace * vmem W) :=
  '(h, w) ← read_header executable (store v);
  let v := set_store v w in
  _ ← ASSERT (noffMagic h =? NOFFMAGIC);
  let n := divRoundUp (u32 (space_size h)) PageSize in
  _ ← ASSERT (n <=? NumPhysPages);
  let t := (fun i => mkEntry i i true false false false) <$> seqZ 0 n in
  m ← zwrite (memory v) 0 (replicate (Z.to_nat (n * PageSize)) 0);
  v ← copy_segment (code h) executable (set_memory v m);
  v ← copy_segment (initData h) executable v;
  mret (mkSpace fds t n (filename this) (noffH this) (on_disk this) (page_sector this)
          (victum_offset this) (stack_base this) (argc this) (argv this) (forked this), v).

(** [AddrSpace(name)]; None is [throw 1].  [fds] is the new FD_List. *)
Definition AddrSpace_name (fds : FD_List) (name : list Z) (v : vmem W)
    : res (option AddrSpace * vmem W) :=
  '(executable, v) ← open_file name v;
  match executable with
  | None => mret (None, print v (says "Unable to open file " name))
  | Some f =>
      '(_, fds) ← fd_put fds 0;
      '(_, fds) ← fd_put fds 0;
      '(h, w) ← read_header f (store v);
      let v := set_store v w in
      if negb (noffMagic h =? NOFFMAGIC) then mret (None, v)
      else
        let n := u32 (divRoundUp (s32 (space_size h)) PageSize) in
        _ ← ASSERT (n <=? NumPhysPages);
        disk ← new_BitMap (new_words n) n;
        mret (Some (mkSpace fds
                      ((fun i => mkEntry i (-1) false false false false) <$> seqZ 0 n)
                      n name h disk (replicate (Z.to_nat n) (-1)) 0 (n * PageSize - 16) 0 0 false), v)
  end.

(** [AddrSpace(source)]: a fork. *)
Definition AddrSpace_copy (fds : FD_List) (source : AddrSpace) : res AddrSpace :=
  disk ← new_BitMap (new_words (numPages source)) (numPages source);
  mret (mkSpace fds (table source) (numPages source) (filename source) (noffH source) disk
          (replicate (Z.to_nat (numPages source)) (-1)) (victum_offset source) (stack_base source)
          (argc source) (argv source) true).

(** ** The machine's view of the space *)

Fixpoint clear_registers (n : nat) (i : Z) (m : Machine) : res Machine :=
  match n with O => mret m | S n => m ← WriteRegister m i 0; clear_registers n (i + 1) m end.

Definition InitRegisters (s : AddrSpace) (m : Machine) : res Machine :=
  m ← clear_registers (Z.to_nat NumTotalRegs) 0 m;
  m ← WriteRegister m PCReg 0;
  m ← WriteRegister m NextPCReg 4;
  WriteRegister m StackReg (numPages s * PageSize - 16).

Definition RestoreState (s : AddrSpace) (m : Machine) : Machine :=
  mkMachine (mainMemory m) (registers m) (tlb m) (Some (table s)) (numPages s) (singleStep m)
    (runUntilTime m).

(** ** The arguments of a new program *)

(** A C string in an array: up to its NUL, which must be there. *)
Fixpoint c_string (bs : list Z) : res (list Z) :=
  match bs with
  | [] => Err OutOfBounds
  | b :: bs => if b =? 0 then mret [] else s ← c_string bs; mret (b :: s)
  end.

(** Reading the argument pointers of the calling program, space [cur]. *)
Fixpoint read_argv (n : nat) (arg_num argv_addr : Z) (curr_argv : list Z) (count : Z)
    (cur : AddrSpace) (v : vmem W) : res (list Z * Z * (AddrSpace * vmem W)) :=
  match n with
  | O => mret (curr_argv, count, (cur, v))
  | S n =>
      '(cur, v) ← read cur v (s32 (argv_addr + arg_num * 4)) 4;
      bs ← zread (buf v) 0 4;
      let p := s32 (le_value bs) in
      curr_argv ← curr_argv.[arg_num := p];
      if p =? 0 then mret (curr_argv, count, (cur, v))
      else read_argv n (arg_num + 1) argv_addr curr_argv (count + 1) cur v
  end.

(** Copying the strings; [this] is the new space. *)
Fixpoint copy_args (n : nat) (arg : Z) (curr_argv stack_argv : list Z) (cur this : AddrSpace)
    (v : vmem W) : res (list Z * (AddrSpace * AddrSpace * vmem W)) :=
  match n with
  | O => mret (stack_argv, (cur, this, v))
  | S n =>
      a ← curr_argv.[arg];
      '(cur, v) ← read cur v a 0;
      str ← c_string (buf v);
      let this := set_stack_base this (s32 (stack_base this - (zlen str + 1))) in
      stack_argv ← stack_argv.[arg + 1 := stack_base this];
      '(this, v) ← write this v (stack_base this) (str ++ [0]) (zlen str);
      copy_args n (arg + 1) curr_argv stack_argv cur this v
  end.

Fixpoint push_pointers (n : nat) (arg_num : Z) (stack_argv : list Z) (this : AddrSpace) (v : vmem W)
    : res (AddrSpace * vmem W) :=
  match n with
  | O => mret (this, v)
  | S n =>
      p ← stack_argv.[arg_num];
      '(this, v) ← write this v (s32 (stack_base this + arg_num * 4)) (le_bytes 4 p) 4;
      push_pointers n (arg_num + 1) stack_argv this v
  end.

Definition createStackArgs (cur this : AddrSpace) (v : vmem W) (argv_addr : Z) (name : list Z)
    : res (Z * (AddrSpace * AddrSpace * vmem W)) :=
  let this := set_stack_base this (s32 (stack_base this - (zlen name + 1))) in
  '(this, v) ← write this v (stack_base this) (name ++ [0]) 0;
  stack_argv ← stack_words.[0 := stack_base this];
  '(curr_argv, count, (cur, v)) ← read_argv 19 0 argv_addr (replicate 20 0) 1 cur v;
  curr_argv ← curr_argv.[count := 0];
  '(stack_argv, (cur, this, v)) ← copy_args (Z.to_nat (count - 1)) 0 curr_argv stack_argv cur this v;
  let this := set_stack_base this
                (Z.land (s32 (stack_base this - (count * 4 + 4))) (Z.lnot 3)) in
  '(this, v) ← push_pointers (Z.to_nat count) 0 stack_argv this v;
  '(this, v) ← write this v (s32 (stack_base this + count * 4)) (le_bytes 4 0) 4;
  let this := set_args this count (stack_base this) in
  let this := set_stack_base this (s32 (stack_base this - 8)) in
  mret (stack_base this, (cur, this, v)).
End addrspace.

(** ** C strings *)

Lemma c_string_prefix str rest : Forall (fun c => c <> 0) str -> c_string (str ++ 0 :: rest) = Ok str.
Proof.
  induction 1 as [|c str Hc Hs IH]; [done|]. cbn [app c_string]. rewrite (proj2 (Z.eqb_neq c 0)) by done. by rewrite IH.
Qed.

Lemma c_string_inv bs str : c_string bs = Ok str -> Forall (fun c => c <> 0) str /\ exists rest, bs = str ++ 0 :: rest.
Proof.
  revert str. induction bs as [|c bs IH]; intros str E; [done|]. cbn [c_string] in E. destruct (Z.eqb_spec c 0) as [->|Hc].
  - apply Ok_inj in E as <-. split; [constructor|by exists bs].
  - apply bind_inv in E as (str' & E' & [= <-]). destruct (IH _ E') as [HF (rest & ->)].
    split; [by constructor|by exists rest].
Qed.
