(* ===== verification/Coff2Noff.v ===== *)
(** * Coff2Noff: bin/coff.h and bin/coff2noff.c

    The converter that makes the executables of Nachos: it reads a MIPS COFF file
    and writes a NOFF file, the format AddrSpace.v loads.  The program is compiled
    for a 32-bit little-endian host.  A file is the list of its bytes; the exits
    with an error message are the values of [coff_error]. *)

From S2P Require Import Prelude Machine AddrSpace.

Inductive coff_error := TooShort | NotMIPSEL | NotOMAGIC | BothData | BothBss | UnknownSegment.

Definition exits (A : Type) : Type := coff_error + A.
#[export] Instance exits_ret : MRet exits := fun A a => inr a.
#[export] Instance exits_bind : MBind exits := fun A B f m =>
  match m with inl e => inl e | inr a => f a end.

Lemma exits_bind_inv {A B} (m : exits A) (f : A -> exits B) b :
  (m ≫= f) = inr b -> exists a, m = inr a /\ f a = inr b.
Proof. destruct m as [e|a]; [discriminate|]. by exists a. Qed.

Lemma exits_inj {A} (a b : A) : (mret a : exits A) = inr b -> a = b.
Proof. by intros [= ->]. Qed.

(** ** coff.h *)

Definition MIPSELMAGIC : Z := 0x0162.
Definition OMAGIC : Z := 263.            (* 0407 *)
Definition sizeof_filehdr : Z := 20.
Definition sizeof_aouthdr : Z := 56.
Definition sizeof_scnhdr : Z := 40.

(** The members of [struct scnhdr] that are used. *)
Record scnhdr := mkScn { s_name : list Z; s_paddr : Z; s_size : Z; s_scnptr : Z }.

Definition s16 (z : Z) : Z := (z + 2 ^ 15) mod 2 ^ 16 - 2 ^ 15.
Definition short_at (bs : list Z) (i : nat) : Z := le_value (take 2 (drop i bs)).
Definition long_at (bs : list Z) (i : nat) : Z := s32 (le_value (take 4 (drop i bs))).

Definition scnhdr_of_bytes (bs : list Z) : scnhdr :=
  mkScn (take 8 bs) (s32 (WordToHost (long_at bs 8))) (s32 (WordToHost (long_at bs 16)))
    (s32 (WordToHost (long_at bs 20))).

(** ** coff2noff.c *)

(** [read(fd, buf, nBytes)] at [pos]: a negative count is an error, -1. *)
Definition unix_read (inp : list Z) (pos nBytes : Z) : Z * list Z :=
  if nBytes <? 0 then (-1, [])
  else let bs := take (Z.to_nat nBytes) (drop (Z.to_nat pos) inp) in (zlen bs, bs).

(** [Read]: the bytes and the new position. *)
Definition Read (inp : list Z) (pos nBytes : Z) : exits (list Z * Z) :=
  let '(r, bs) := unix_read inp pos nBytes in
  if negb (r =? nBytes) then inl TooShort else mret (bs, pos + zlen bs).

(** [lseek(fd, off, 0)]: the position; a negative offset is an error. *)
Definition lseek (pos off : Z) : Z := if off <? 0 then pos else off.

Definition text : list Z := [46; 116; 101; 120; 116].          (* .text *)
Definition data : list Z := [46; 100; 97; 116; 97].            (* .data *)
Definition rdata : list Z := [46; 114; 100; 97; 116; 97].      (* .rdata *)
Definition bss : list Z := [46; 98; 115; 115].                 (* .bss *)
Definition sbss : list Z := [46; 115; 98; 115; 115].           (* .sbss *)

(** [!strcmp(s_name, name)]: all names are shorter than the eight bytes. *)
Definition named (s : scnhdr) (name : list Z) : bool :=
  bool_decide (take (S (length name)) (s_name s) = name ++ [0]).

(** The locals of main: the header, the position in the NOFF file, what was
    written after the header, and the position in the COFF file. *)
Record conversion := mkConv {
  noff_header : NoffHeader;
  inNoffFile : Z;
  written : list Z;
  filepos : Z
}.

Definition set_code h g := mkNoff (noffMagic h) g (initData h) (uninitData h).
Definition set_initData h g := mkNoff (noffMagic h) (code h) g (uninitData h).
Definition set_uninitData h g := mkNoff (noffMagic h) (code h) (initData h) g.

(** Copy a section; [put] stores its segment in the header. *)
Definition copy_section (put : NoffHeader -> Segment -> NoffHeader) (inp : list Z) (s : scnhdr)
    (c : conversion) : exits conversion :=
  let h := put (noff_header c) (mkSegment (s_paddr s) (inNoffFile c) (s_size s)) in
  '(buffer, pos) ← Read inp (lseek (filepos c) (s_scnptr s)) (s_size s);
  mret (mkConv h (s32 (inNoffFile c + s_size s)) (written c ++ buffer) pos).

(** One turn of the loop over the sections. *)
Definition convert_section (inp : list Z) (s : scnhdr) (c : conversion) : exits conversion :=
  if s_size s =? 0 then mret c
  else if named s text then copy_section set_code inp s c
  else if named s data || named s rdata then
    if negb (seg_size (initData (noff_header c)) =? 0) then inl BothData
    else copy_section set_initData inp s c
  else if named s bss || named s sbss then
    let u := uninitData (noff_header c) in
    if negb (seg_size u =? 0) then
      if s_paddr s =? s32 (virtualAddr u + seg_size u) then inl BothBss
      else mret (mkConv (set_uninitData (noff_header c)
                  (mkSegment (virtualAddr u) (inFileAddr u) (s32 (seg_size u + s_size s))))
                  (inNoffFile c) (written c) (filepos c))
    else mret (mkConv (set_uninitData (noff_header c) (mkSegment (s_paddr s) (inFileAddr u) (s_size s)))
                (inNoffFile c) (written c) (filepos c))
  else inl UnknownSegment.

Fixpoint convert_sections (inp : list Z) (ss : list scnhdr) (c : conversion) : exits conversion :=
  match ss with
  | [] => mret c
  | s :: ss => c ← convert_section inp s c; convert_sections inp ss c
  end.

Definition segment_bytes (g : Segment) : list Z :=
  le_bytes 4 (virtualAddr g) ++ le_bytes 4 (inFileAddr g) ++ le_bytes 4 (seg_size g).
Definition noff_bytes (h : NoffHeader) : list Z :=
  le_bytes 4 (noffMagic h) ++ segment_bytes (code h) ++ segment_bytes (initData h) ++
    segment_bytes (uninitData h).

(** The section headers after the two file headers, and the position after them. *)
Definition read_sections (inp : list Z) : exits (list scnhdr * Z) :=
  '(fileh, pos) ← Read inp 0 sizeof_filehdr;
  let f_magic := ShortToHost (short_at fileh 0) in
  let f_nscns := ShortToHost (short_at fileh 2) in
  if negb (f_magic =? MIPSELMAGIC) then inl NotMIPSEL
  else
    '(systemh, pos) ← Read inp pos sizeof_aouthdr;
    let magic := s16 (ShortToHost (short_at systemh 0)) in
    if negb (magic =? OMAGIC) then inl NotOMAGIC
    else
      '(sections, pos) ← Read inp pos (f_nscns * sizeof_scnhdr);
      mret ((fun i => scnhdr_of_bytes (drop (40 * i) sections)) <$> seq 0 (Z.to_nat f_nscns), pos).

(** [main]; [garbage] is what the uninitialised [noffH] held. *)
Definition coff2noff (garbage : NoffHeader) (inp : list Z) : exits (list Z) :=
  '(sections, pos) ← read_sections inp;
  let unset g := mkSegment (virtualAddr g) (inFileAddr g) 0 in
  let h := mkNoff NOFFMAGIC (unset (code garbage)) (unset (initData garbage)) (unset (uninitData garbage)) in
  c ← convert_sections inp sections (mkConv h sizeof_NoffHeader [] pos);
  mret (noff_bytes (noff_header c) ++ written c).

(** ** What the NOFF file holds *)

Definition is_section (names : list (list Z)) (s : scnhdr) : bool :=
  negb (s_size s =? 0) && existsb (named s) names.

(** The last section that is not empty and has one of the names. *)
Definition last_section (names : list (list Z)) (ss : list scnhdr) : option scnhdr :=
  foldl (fun acc s => if is_section names s then Some s else acc) None ss.

(** The sections that are not empty and have one of the names. *)
Definition sections_of (names : list (list Z)) (ss : list scnhdr) : list scnhdr := List.filter (is_section names) ss.

Definition bss_size (ss : list scnhdr) : Z :=
  foldl (fun acc s => if is_section [bss; sbss] s then acc + s_size s else acc) 0 ss.

(** The segment [g] of the file [out] is the section [o] of [inp]. *)
Definition placed (inp out : list Z) (o : option scnhdr) (g : Segment) : Prop :=
  match o with
  | None => seg_size g = 0
  | Some s => virtualAddr g = s_paddr s /\ seg_size g = s_size s /\
      sizeof_NoffHeader <= inFileAddr g /\ inFileAddr g + seg_size g <= zlen out /\
      s_scnptr s + s_size s <= zlen inp /\
      forall j, 0 <= j < s_size s -> znth out (inFileAddr g + j) = znth inp (s_scnptr s + j)
  end.

Definition wf_section (s : scnhdr) : Prop := is_s32 (s_paddr s) /\ 0 <= s_size s /\ 0 <= s_scnptr s.

Lemma named_name s name : named s name = true -> exists rest, s_name s = name ++ 0 :: rest.
Proof.
  unfold named. intros E%bool_decide_eq_true. exists (drop (S (length name)) (s_name s)).
  rewrite <- (take_drop (S (length name)) (s_name s)) at 1. by rewrite E, <- app_assoc.
Qed.

(** A section has one kind. *)
Lemma named_kinds s :
  (named s text = true -> named s data = false /\ named s rdata = false /\ named s bss = false /\ named s sbss = false) /\
  (named s data || named s rdata = true -> named s text = false /\ named s bss = false /\ named s sbss = false) /\
  (named s bss || named s sbss = true -> named s text = false /\ named s data = false /\ named s rdata = false).
Proof.
  split_and!; intros E; try (apply orb_prop in E as [E|E]); apply named_name in E as [rest E]; unfold named;
    rewrite E; split_and!; by apply bool_decide_eq_false.
Qed.

Lemma Read_inv inp pos n bs pos' :
  Read inp pos n = inr (bs, pos') -> 0 <= n -> 0 <= pos ->
  bs = take (Z.to_nat n) (drop (Z.to_nat pos) inp) /\ zlen bs = n /\ pos' = pos + n /\ (0 < n -> pos + n <= zlen inp).
Proof.
  unfold Read, unix_read. intros E Hn Hp. destruct (Z.ltb_spec n 0); [lia|].
  destruct (Z.eqb_spec (zlen (take (Z.to_nat n) (drop (Z.to_nat pos) inp))) n) as [El|]; [|discriminate].
  injection E as <- <-. split; [done|]. split; [done|]. split; [lia|].
  intros Hlt. unfold zlen in *. rewrite length_take, length_drop in El. lia.
Qed.

Lemma last_section_snoc names ss s :
  last_section names (ss ++ [s]) = if is_section names s then Some s else last_section names ss.
Proof. unfold last_section. by rewrite foldl_app. Qed.

Lemma sections_of_snoc names ss s :
  sections_of names (ss ++ [s]) = if is_section names s then sections_of names ss ++ [s] else sections_of names ss.
Proof.
  unfold sections_of. rewrite List.filter_app. cbn [List.filter]. destruct (is_section names s); [done|apply app_nil_r].
Qed.

(** The last section is one of them, when there are any. *)
Lemma last_section_None names ss : last_section names ss = None <-> sections_of names ss = [].
Proof.
  induction ss as [|s ss IH] using rev_ind; [done|]. rewrite last_section_snoc, sections_of_snoc.
  destruct (is_section names s); [|exact IH]. split; [done|]. by intros [_ ?]%app_eq_nil.
Qed.

Lemma last_section_is names ss s : last_section names ss = Some s -> is_section names s = true.
Proof.
  induction ss as [|x ss IH] using rev_ind; [done|]. rewrite last_section_snoc.
  destruct (is_section names x) eqn:Ex; intros E; [congruence|auto].
Qed.

Lemma bss_size_snoc ss s :
  bss_size (ss ++ [s]) = if is_section [bss; sbss] s then bss_size ss + s_size s else bss_size ss.
Proof. unfold bss_size. by rewrite foldl_app. Qed.

Lemma placed_grow inp out more o g : placed inp out o g -> placed inp (out ++ more) o g.
Proof.
  destruct o as [s|]; [|done]. intros (Hv & Hs & Hlo & Hhi & Hin & Hb). cbn.
  pose proof (zlen_nonneg more). rewrite zlen_app. split_and!; try done; [lia|].
  intros j Hj. rewrite <- Hb by done. unfold sizeof_NoffHeader in Hlo.
  rewrite !znth_lookup by lia. apply lookup_app_l. unfold zlen in Hhi. lia.
Qed.

Section conversion.
Context (inp pre : list Z) (Hpre : zlen pre = sizeof_NoffHeader).

Record conv_inv (done : list scnhdr) (c : conversion) : Prop := {
  ci_pos : inNoffFile c = sizeof_NoffHeader + zlen (written c);
  ci_filepos : 0 <= filepos c;
  ci_magic : noffMagic (noff_header c) = NOFFMAGIC;
  ci_text : placed inp (pre ++ written c) (last_section [text] done) (code (noff_header c));
  ci_data : placed inp (pre ++ written c) (last_section [data; rdata] done) (initData (noff_header c));
  ci_bss : seg_size (uninitData (noff_header c)) = bss_size done;
  ci_one : (length (sections_of [data; rdata] done) <= 1)%nat
}.

(** The bytes of a section that is copied. *)
Lemma copy_section_inv put s c c' :
  wf_section s -> inNoffFile c = sizeof_NoffHeader + zlen (written c) -> 0 < s_size s ->
  copy_section put inp s c = inr c' -> sizeof_NoffHeader + zlen (written c') < 2 ^ 31 ->
  noff_header c' = put (noff_header c) (mkSegment (s_paddr s) (inNoffFile c) (s_size s)) /\
  inNoffFile c' = sizeof_NoffHeader + zlen (written c') /\ 0 <= filepos c' /\
  (exists more, written c' = written c ++ more) /\
  placed inp (pre ++ written c') (Some s) (mkSegment (s_paddr s) (inNoffFile c) (s_size s)).
Proof using Hpre.
  intros (_ & Hs & Hp) Hpos Hne E Hmax. unfold copy_section, lseek in E.
  destruct (Z.ltb_spec (s_scnptr s) 0); [lia|].
  destruct (Read inp (s_scnptr s) (s_size s)) as [e|[buf pos]] eqn:ER; [discriminate|]. injection E as <-.
  apply Read_inv in ER as (Eb & Hl & -> & Hin); [|done..]. specialize (Hin Hne). cbn in *.
  rewrite zlen_app in *. pose proof (zlen_nonneg (written c)). unfold sizeof_NoffHeader in *.
  split; [done|]. split; [rewrite s32_id by word_lia; lia|]. split; [lia|]. split; [by eexists|].
  split_and!; try done; [lia|rewrite !zlen_app; lia|].
  intros j Hj. rewrite Hpos, app_assoc, znth_lookup by lia.
  rewrite lookup_app_r by (rewrite length_app; unfold zlen in *; lia).
  replace (_ - _)%nat with (Z.to_nat j) by (rewrite length_app; unfold zlen in *; lia).
  rewrite <- znth_lookup by lia. subst buf. rewrite znth_take_drop by lia. done.
Qed.

Lemma convert_section_inv done s c c' :
  wf_section s -> conv_inv done c -> convert_section inp s c = inr c' ->
  sizeof_NoffHeader + zlen (written c') < 2 ^ 31 -> bss_size (done ++ [s]) < 2 ^ 31 -> 0 <= bss_size done ->
  conv_inv (done ++ [s]) c' /\ exists more, written c' = written c ++ more.
Proof using Hpre.
  intros Hs [Hpos Hfp Hmg Ht Hd Hb H1] E Hmax Hbss Hb0. unfold convert_section in E.
  destruct (named_kinds s) as (K1 & K2 & K3).
  destruct (Z.eqb_spec (s_size s) 0) as [Hz|Hnz].
  { injection E as <-. split; [|exists []; by rewrite app_nil_r].
    assert (forall names, is_section names s = false) as Hno by (intros; unfold is_section; by rewrite Hz).
    split; rewrite ?last_section_snoc, ?bss_size_snoc, ?sections_of_snoc, ?Hno; done. }
  assert (forall names, is_section names s = existsb (named s) names) as Hsec.
  { intros. unfold is_section. by rewrite (proj2 (Z.eqb_neq _ _)). }
  assert (0 < s_size s) as Hlt by (destruct Hs as (_ & ? & _); lia).
  destruct (named s text) eqn:Et.
  { destruct (K1 eq_refl) as (N1 & N2 & N3 & N4).
    destruct (copy_section_inv set_code s c c' Hs Hpos Hlt E Hmax) as (Eh & Hp' & Hf' & [more Ew] & Hpl).
    split; [|by exists more].
    split; rewrite ?last_section_snoc, ?bss_size_snoc, ?sections_of_snoc, ?Hsec, ?Eh; cbn [existsb];
      rewrite ?Et, ?N1, ?N2, ?N3, ?N4; cbn [orb]; try done.
    rewrite Ew, app_assoc. by apply placed_grow. }
  destruct (named s data || named s rdata) eqn:Edata.
  { destruct (K2 eq_refl) as (_ & N3 & N4). destruct (Z.eqb_spec (seg_size (initData (noff_header c))) 0) as [Hz|]; [|discriminate].
    cbn [negb] in E. assert (sections_of [data; rdata] done = []) as Hnone.
    { apply last_section_None. destruct (last_section [data; rdata] done) as [s0|] eqn:El; [|done].
      apply last_section_is in El. destruct Hd as (_ & Hd & _). unfold is_section in El.
      rewrite <- Hd, Hz in El. done. }
    destruct (copy_section_inv set_initData s c c' Hs Hpos Hlt E Hmax) as (Eh & Hp' & Hf' & [more Ew] & Hpl).
    split; [|by exists more].
    split; rewrite ?last_section_snoc, ?bss_size_snoc, ?sections_of_snoc, ?Hnone, ?Hsec, ?Eh; cbn [existsb];
      rewrite ?Et, ?N3, ?N4, ?orb_false_r, ?Edata; cbn [orb]; try done.
    rewrite Ew, app_assoc. by apply placed_grow. }
  destruct (named s bss || named s sbss) eqn:Ebss; [|discriminate].
  rewrite bss_size_snoc, Hsec in Hbss. cbn [existsb] in Hbss. rewrite orb_false_r, Ebss in Hbss.
  assert (inNoffFile c' = inNoffFile c /\ filepos c' = filepos c /\ written c' = written c /\
    exists g, noff_header c' = set_uninitData (noff_header c) g /\ seg_size g = bss_size done + s_size s)
    as (Ep & Ef & Ew & g & Eh & Eg).
  { rewrite Hb in E. destruct (Z.eqb_spec (bss_size done) 0) as [Hb1|Hb1]; cbn [negb] in E.
    - injection E as <-. cbn. split_and!; try done. eexists. split; [reflexivity|]. cbn. lia.
    - destruct (_ =? _); [discriminate|]. injection E as <-. cbn. split_and!; try done.
      eexists. split; [reflexivity|]. cbn. apply s32_id. word_lia. }
  split; [|exists []; by rewrite app_nil_r].
  split; rewrite ?last_section_snoc, ?bss_size_snoc, ?sections_of_snoc, ?Hsec, ?Eh, ?Ew, ?Ep, ?Ef; cbn [existsb];
    rewrite ?Et, ?orb_false_r, ?Edata, ?Ebss; cbn [orb]; done.
Qed.

Lemma bss_size_nonneg ss : Forall wf_section ss -> 0 <= bss_size ss.
Proof.
  induction ss as [|s ss IH] using rev_ind; [done|]. intros [H1 H2]%Forall_app. apply Forall_inv in H2.
  rewrite bss_size_snoc. destruct H2 as (_ & ? & _). specialize (IH H1). destruct (is_section _ s); lia.
Qed.

Lemma bss_size_app ss ss' : Forall wf_section ss' -> bss_size ss <= bss_size (ss ++ ss').
Proof.
  induction ss' as [|s ss' IH] using rev_ind; [by rewrite app_nil_r|].
  intros [H1 H2]%Forall_app. apply Forall_inv in H2. rewrite app_assoc, bss_size_snoc. destruct H2 as (_ & ? & _).
  specialize (IH H1). destruct (is_section _ s); lia.
Qed.

Lemma convert_section_written s c c' :
  convert_section inp s c = inr c' -> exists more, written c' = written c ++ more.
Proof.
  unfold convert_section, copy_section. intros E.
  assert (forall put, copy_section put inp s c = inr c' -> exists more, written c' = written c ++ more) as Hc.
  { unfold copy_section. intros put E'. destruct (Read _ _ _) as [e|[b p]]; [discriminate|].
    injection E' as <-. by exists b. }
  repeat match type of E with (if ?b then _ else _) = _ => destruct b end;
    try discriminate; try (by apply Hc in E); injection E as <-; exists []; by rewrite app_nil_r.
Qed.

Lemma convert_sections_written ss : forall c c',
  convert_sections inp ss c = inr c' -> exists more, written c' = written c ++ more.
Proof.
  induction ss as [|s ss IH]; intros c c' E; cbn [convert_sections] in E.
  - injection E as <-. exists []. by rewrite app_nil_r.
  - destruct (convert_section inp s c) as [e|c1] eqn:E1; [discriminate|].
    apply convert_section_written in E1 as [m1 E1]. apply IH in E as [m2 E].
    exists (m1 ++ m2). by rewrite E, E1, app_assoc.
Qed.

Lemma convert_sections_inv ss : forall done c c',
  Forall wf_section (done ++ ss) -> conv_inv done c -> convert_sections inp ss c = inr c' ->
  sizeof_NoffHeader + zlen (written c') < 2 ^ 31 -> bss_size (done ++ ss) < 2 ^ 31 ->
  conv_inv (done ++ ss) c' /\ exists more, written c' = written c ++ more.
Proof using Hpre.
  induction ss as [|s ss IH]; intros done c c' HF Hc E Hmax Hbss; cbn [convert_sections] in E.
  - injection E as <-. rewrite app_nil_r. split; [done|]. exists []. by rewrite app_nil_r.
  - destruct (convert_section inp s c) as [e|c1] eqn:E1; [discriminate|]. cbn in E.
    replace (done ++ s :: ss) with ((done ++ [s]) ++ ss) in * by (by rewrite <- app_assoc).
    apply Forall_app in HF as HF'. destruct HF' as [HF1 HF2]. apply Forall_app in HF1 as HF0.
    destruct HF0 as [HF0 Hs]. apply Forall_inv in Hs.
    pose proof (bss_size_app (done ++ [s]) ss HF2) as Hle.
    assert (exists more, written c' = written c1 ++ more) as [more1 Ew1] by (by eapply convert_sections_written).
    destruct (convert_section_inv done s c c1 Hs Hc E1) as [Hc1 [more Ew]].
    + rewrite Ew1, zlen_app in Hmax. pose proof (zlen_nonneg more1). lia.
    + lia.
    + by apply bss_size_nonneg.
    + destruct (IH (done ++ [s]) c1 c' HF Hc1 E Hmax Hbss) as [Hinv _]. split; [exact Hinv|].
      exists (more ++ more1). by rewrite Ew1, Ew, app_assoc.
Qed.
End conversion.

(** ** The header in the file *)

Lemma noff_word_0 v rest : noff_word (le_bytes 4 v ++ rest) 0 = s32 v.
Proof.
  unfold noff_word. rewrite drop_0. replace (take 4 (le_bytes 4 v ++ rest)) with (le_bytes 4 v) by done.
  rewrite le_value_bytes. change (8 * Z.of_nat 4) with 32. word_lia.
Qed.

Lemma noff_word_S v rest i : noff_word (le_bytes 4 v ++ rest) (S i) = noff_word rest i.
Proof.
  unfold noff_word. replace (4 * S i)%nat with (4 + 4 * i)%nat by lia. rewrite <- drop_drop.
  by replace (drop 4 (le_bytes 4 v ++ rest)) with rest by done.
Qed.

Definition s32_segment (g : Segment) : Segment :=
  mkSegment (s32 (virtualAddr g)) (s32 (inFileAddr g)) (s32 (seg_size g)).

(** What the loader makes of the header. *)
Lemma noff_of_bytes_bytes h rest :
  noff_of_bytes (noff_bytes h ++ rest) =
    mkNoff (s32 (noffMagic h)) (s32_segment (code h)) (s32_segment (initData h)) (s32_segment (uninitData h)).
Proof.
  unfold noff_bytes, segment_bytes. rewrite <- !app_assoc. unfold noff_of_bytes.
  by rewrite !noff_word_S, !noff_word_0.
Qed.

Lemma zlen_noff_bytes h : zlen (noff_bytes h) = sizeof_NoffHeader.
Proof. reflexivity. Qed.

Lemma placed_s32 inp out o g :
  placed inp out o g -> zlen out < 2 ^ 31 -> (forall s, o = Some s -> wf_section s) ->
  placed inp out o (s32_segment g).
Proof.
  intros Hp Hout Ho. destruct o as [s|]; simpl in Hp |- *; [|by rewrite Hp].
  destruct Hp as (Hv & Hs & Hlo & Hhi & Hin & Hb). destruct (Ho s eq_refl) as (H1 & H2 & H3).
  unfold sizeof_NoffHeader in Hlo. rewrite (s32_id (virtualAddr g)) by (by rewrite Hv).
  rewrite (s32_id (inFileAddr g)), (s32_id (seg_size g)) by word_lia. done.
Qed.

Lemma last_section_in names ss s : last_section names ss = Some s -> s ∈ ss.
Proof.
  induction ss as [|x ss IH] using rev_ind; [done|]. rewrite last_section_snoc, elem_of_app, list_elem_of_singleton.
  destruct (is_section names x); intros E.
  - right. congruence.
  - left. auto.
Qed.

Lemma read_sections_inv inp ss pos :
  read_sections inp = inr (ss, pos) -> Forall (fun s => is_s32 (s_paddr s)) ss /\ 0 <= pos.
Proof.
  unfold read_sections. intros E.
  apply exits_bind_inv in E as ([fileh p1] & E1 & E). cbv zeta in E. destruct (negb _); [discriminate|].
  apply exits_bind_inv in E as ([systemh p2] & E2 & E). cbv zeta in E. destruct (negb _); [discriminate|].
  apply exits_bind_inv in E as ([bs p3] & E3 & E). injection E as <- <-. split.
  - apply Forall_fmap, Forall_true. intros i. apply s32_range.
  - assert (forall p n bs p', Read inp p n = inr (bs, p') -> 0 <= p -> 0 <= p') as Hr.
    { unfold Read. intros p n b p' E Hp. destruct (unix_read inp p n) as [r b']. destruct (negb _); [discriminate|].
      injection E as <- <-. pose proof (zlen_nonneg b'). lia. }
    eauto using Z.le_refl.
Qed.

(** C36: coff2noff makes what the loader reads.  When the conversion of a COFF
    file succeeds (its sizes and offsets are not negative, and everything fits an
    int), at most one of its .data and .rdata sections is not empty, and the header
    the loader decodes from the NOFF file has the magic number; its code and data
    segments are the last .text section and that .data or .rdata section (size 0 when
    there is none): at the same address, of the same size, and with exactly the bytes
    of the section at the place in the NOFF file the header names; the size of the
    uninitialised data is that of all .bss and .sbss sections.  Once there is
    initialised data a second .data or .rdata section ends the conversion; and of two
    .bss or .sbss sections the second is accepted exactly when it does not follow the
    first one in memory. *)
Theorem coff2noff_correct garbage inp ss pos out :
  read_sections inp = inr (ss, pos) -> Forall (fun s => 0 <= s_size s /\ 0 <= s_scnptr s) ss ->
  bss_size ss < 2 ^ 31 -> coff2noff garbage inp = inr out -> zlen out < 2 ^ 31 ->
  let h := noff_of_bytes out in
  noffMagic h = NOFFMAGIC /\
  placed inp out (last_section [text] ss) (code h) /\
  (length (sections_of [data; rdata] ss) <= 1)%nat /\
  placed inp out (last_section [data; rdata] ss) (initData h) /\
  seg_size (uninitData h) = bss_size ss /\
  (forall s c, is_section [data; rdata] s = true -> seg_size (initData (noff_header c)) <> 0 ->
     convert_section inp s c = inl BothData) /\
  forall s c, is_section [bss; sbss] s = true -> seg_size (uninitData (noff_header c)) <> 0 ->
    let u := uninitData (noff_header c) in
    if s_paddr s =? s32 (virtualAddr u + seg_size u) then convert_section inp s c = inl BothBss
    else exists c', convert_section inp s c = inr c'.
Proof.
  intros ER HF Hbss E Hout. destruct (read_sections_inv _ _ _ ER) as [Hpa Hpos].
  assert (Forall wf_section ss) as Hwf.
  { apply Forall_forall. intros s Hs. rewrite Forall_forall in HF, Hpa. split; [by apply Hpa|by apply HF]. }
  unfold coff2noff in E. rewrite ER in E. cbn [mbind exits_bind] in E.
  match type of E with context [convert_sections inp ss ?c] => set (c0 := c) in E end.
  destruct (convert_sections inp ss c0) as [e|c] eqn:Ec; [discriminate|]. apply exits_inj in E as <-.
  assert (sizeof_NoffHeader + zlen (written c) < 2 ^ 31) as Hmax.
  { rewrite zlen_app, zlen_noff_bytes in Hout. exact Hout. }
  destruct (convert_sections_inv inp (noff_bytes (noff_header c)) eq_refl ss [] c0 c Hwf) as [[_ _ Hm Ht Hd Hb H1] _];
    [split; try done; cbn; lia|done|done|done|]. rewrite app_nil_l in Ht, Hd, Hb, H1.
  assert (forall names s, last_section names ss = Some s -> wf_section s) as Hlast.
  { intros names s Hs%last_section_in. rewrite Forall_forall in Hwf. by apply Hwf. }
  cbv zeta. rewrite noff_of_bytes_bytes. cbn [noffMagic code initData uninitData].
  split; [by rewrite Hm|]. split; [by apply placed_s32; eauto|]. split; [exact H1|]. split; [by apply placed_s32; eauto|].
  split; [cbn; rewrite Hb; apply s32_id; pose proof (bss_size_nonneg ss Hwf); word_lia|]. split.
  { intros s c1 Hsec Hu. unfold is_section in Hsec. apply andb_prop in Hsec as [Hz Hn].
    cbn [existsb] in Hn. rewrite orb_false_r in Hn. destruct (named_kinds s) as (_ & K2 & _).
    destruct (K2 Hn) as (N1 & _). unfold convert_section.
    destruct (s_size s =? 0); [discriminate|]. by rewrite N1, Hn, (proj2 (Z.eqb_neq _ _) Hu). }
  intros s c1 Hsec Hu. unfold is_section in Hsec. apply andb_prop in Hsec as [Hz Hn].
  cbn [existsb] in Hn. rewrite orb_false_r in Hn. destruct (named_kinds s) as (_ & _ & K3).
  destruct (K3 Hn) as (N1 & N2 & N3). unfold convert_section.
  destruct (s_size s =? 0); [discriminate|]. rewrite N1, N2, N3, Hn, (proj2 (Z.eqb_neq _ _) Hu). cbn [orb negb].
  destruct (_ =? _); [done|by eexists].
Qed.

(** A COFF file with four bytes of text at address 0 and two of data at 4. *)
Definition sample_section (name : list Z) (paddr size scnptr : Z) : list Z :=
  take 8 (name ++ replicate 8 0) ++ le_bytes 4 paddr ++ le_bytes 4 paddr ++ le_bytes 4 size ++
    le_bytes 4 scnptr ++ replicate 16 0.
Definition sample_coff : list Z :=
  le_bytes 2 MIPSELMAGIC ++ le_bytes 2 2 ++ replicate 16 0 ++ le_bytes 2 OMAGIC ++ replicate 54 0 ++
    sample_section text 0 4 156 ++ sample_section data 4 2 160 ++ [1; 2; 3; 4; 5; 6].
Definition sample_garbage : NoffHeader := mkNoff 0 (mkSegment 7 8 9) (mkSegment 7 8 9) (mkSegment 7 8 9).

Lemma coff2noff_correct_witness :
  exists ss out, read_sections sample_coff = inr (ss, 156) /\ coff2noff sample_garbage sample_coff = inr out /\
    znth out (inFileAddr (initData (noff_of_bytes out)) + 1) = Some 6.
Proof.
  destruct (read_sections sample_coff) as [e|[ss pos]] eqn:ER; [vm_compute in ER; discriminate ER|].
  destruct (coff2noff sample_garbage sample_coff) as [e|out] eqn:E; [vm_compute in E; discriminate E|].
  pose proof ER as ER'. vm_compute in ER'. injection ER' as Hss Hpos.
  destruct (coff2noff_correct sample_garbage sample_coff ss pos out ER) as (_ & _ & _ & Hd & _).
  - subst ss. repeat constructor; discriminate.
  - subst ss. reflexivity.
  - exact E.
  - vm_compute in E. injection E as <-. reflexivity.
  - exists ss, out. subst ss pos. split; [reflexivity|]. split; [reflexivity|].
    destruct Hd as (_ & _ & _ & _ & _ & Hb). exact (Hb 1 ltac:(done)).
Defined.
