(* ===== verification/Coff2Flat.v ===== *)
(** * Coff2Flat: bin/coff2flat.c

    The converter from COFF files to flat files, which are copied to memory as they
    are.  The structures of the host's object file headers are those of bin/coff.h;
    the files are lists of bytes. *)

From S2P Require Import Prelude Machine AddrSpace Coff2Noff.

Definition StackSize : Z := 1024.

(** The locals of the loop in main: [top], the position in the input, and what was
    written. *)
Record flat := mkFlat { top : Z; pos_in : Z; flat_out : list Z }.

(** One turn of the loop over the sections. *)
Definition flat_section (inp : list Z) (s : scnhdr) (c : flat) : exits flat :=
  let last := s32 (s_paddr s + s_size s) in
  let top' := if last >? top c then last else top c in
  if negb (named s bss) && negb (named s sbss) then
    '(buffer, pos) ← Read inp (lseek (pos_in c) (s_scnptr s)) (s_size s);
    mret (mkFlat top' pos (flat_out c ++ buffer))
  else mret (mkFlat top' (pos_in c) (flat_out c)).

Fixpoint flat_sections (inp : list Z) (ss : list scnhdr) (c : flat) : exits flat :=
  match ss with
  | [] => mret c
  | s :: ss => c ← flat_section inp s c; flat_sections inp ss c
  end.

(** The headers, as they are in the file. *)
Definition flat_headers (inp : list Z) : exits (list scnhdr * Z) :=
  '(fileh, pos) ← Read inp 0 sizeof_filehdr;
  let f_nscns := short_at fileh 2 in
  if negb (short_at fileh 0 =? MIPSELMAGIC) then inl NotMIPSEL
  else
    '(systemh, pos) ← Read inp pos sizeof_aouthdr;
    if negb (s16 (short_at systemh 0) =? OMAGIC) then inl NotOMAGIC
    else
      '(sections, pos) ← Read inp pos (f_nscns * sizeof_scnhdr);
      mret ((fun i => let bs := drop (40 * i) sections in
               mkScn (take 8 bs) (long_at bs 8) (long_at bs 16) (long_at bs 20))
              <$> seq 0 (Z.to_nat f_nscns), pos).

(** [write(fd, bytes)] at [pos], which may be after the end: the gap reads as zeros. *)
Definition unix_write (out : list Z) (pos : Z) (bytes : list Z) : list Z :=
  let p := Z.to_nat pos in
  take p (out ++ replicate (p - length out) 0) ++ bytes ++ drop (p + length bytes) out.

(** [main] *)
Definition coff2flat (inp : list Z) : exits (list Z) :=
  '(sections, pos) ← flat_headers inp;
  c ← flat_sections inp sections (mkFlat 0 pos []);
  mret (unix_write (flat_out c) (lseek (zlen (flat_out c)) (s32 (top c + StackSize - 4))) [0; 0; 0; 0]).

(** ** What the flat file holds *)

Definition is_bss (s : scnhdr) : bool := named s bss || named s sbss.

(** From [off] on, the sections with contents follow each other in memory. *)
Fixpoint contiguous (off : Z) (ss : list scnhdr) : Prop :=
  match ss with
  | [] => True
  | s :: ss =>
      if is_bss s then contiguous off ss else s_paddr s = off /\ contiguous (off + s_size s) ss
  end.

(** The end of the program in memory. *)
Definition memory_top (t : Z) (ss : list scnhdr) : Z :=
  foldl (fun t s => Z.max t (s_paddr s + s_size s)) t ss.

Lemma memory_top_ge ss : forall t, t <= memory_top t ss.
Proof.
  induction ss as [|s ss IH]; intros t; [done|].
  etransitivity; [|exact (IH (Z.max t (s_paddr s + s_size s)))]. lia.
Qed.

(** The section is in memory as it is in the object file. *)
Definition loaded (inp out : list Z) (s : scnhdr) : Prop :=
  is_bss s = false -> forall j, 0 <= j < s_size s ->
  exists b, znth out (s_paddr s + j) = Some b /\ znth inp (s_scnptr s + j) = Some b.

Lemma flat_section_spec inp s c c' :
  wf_section s -> 0 <= s_paddr s -> s_paddr s + s_size s < 2 ^ 31 -> flat_section inp s c = inr c' ->
  top c' = Z.max (top c) (s_paddr s + s_size s) /\
  if is_bss s then flat_out c' = flat_out c
  else flat_out c' = flat_out c ++ take (Z.to_nat (s_size s)) (drop (Z.to_nat (s_scnptr s)) inp) /\
    zlen (flat_out c') = zlen (flat_out c) + s_size s /\
    (0 < s_size s -> s_scnptr s + s_size s <= zlen inp).
Proof.
  intros (_ & Hs & Hp) Ha Hmax E. unfold flat_section, lseek in E.
  rewrite s32_id, Z.gtb_ltb in E by word_lia.
  assert ((if top c <? s_paddr s + s_size s then s_paddr s + s_size s else top c) =
    Z.max (top c) (s_paddr s + s_size s)) as Et by (destruct (Z.ltb_spec (top c) (s_paddr s + s_size s)); lia).
  rewrite Et, <- negb_orb in E. unfold is_bss. destruct (named s bss || named s sbss); cbn [negb] in E.
  - injection E as <-. done.
  - destruct (Z.ltb_spec (s_scnptr s) 0); [lia|].
    destruct (Read inp (s_scnptr s) (s_size s)) as [e|[buf pos]] eqn:ER; [discriminate|]. injection E as <-.
    apply Read_inv in ER as (-> & Hl & _ & Hin); [|done..]. cbn [top flat_out]. split; [done|]. split; [done|].
    split; [by rewrite zlen_app, Hl|done].
Qed.

Lemma flat_sections_spec inp ss : forall c c',
  Forall (fun s => wf_section s /\ 0 <= s_paddr s /\ s_paddr s + s_size s < 2 ^ 31) ss ->
  flat_sections inp ss c = inr c' -> contiguous (zlen (flat_out c)) ss -> zlen (flat_out c) <= top c ->
  top c' = memory_top (top c) ss /\ zlen (flat_out c') <= top c' /\
  (exists more, flat_out c' = flat_out c ++ more) /\ Forall (loaded inp (flat_out c')) ss.
Proof.
  induction ss as [|s ss IH]; intros c c' HF E Hc Ht; cbn [flat_sections contiguous] in *.
  - injection E as <-. split_and!; try done. exists []. by rewrite app_nil_r.
  - apply exits_bind_inv in E as (c1 & E1 & E). inversion HF as [|? ? (Hs & Ha & Hmax) HF']. subst.
    destruct (flat_section_spec _ _ _ _ Hs Ha Hmax E1) as [Et1 Ho1]. destruct Hs as (_ & Hsz & Hpt).
    destruct (is_bss s) eqn:Eb.
    + destruct (IH c1 c' HF' E) as (Et & Hle & [more Em] & Hl); [by rewrite Ho1|rewrite Ho1, Et1; lia|].
      split; [by rewrite Et, Et1|]. split; [done|]. split; [exists more; by rewrite Em, Ho1|].
      constructor; [|done]. unfold loaded. rewrite Eb. discriminate.
    + destruct Hc as [Hp Hc]. destruct Ho1 as (Ho1 & Hlen1 & Hin).
      destruct (IH c1 c' HF' E) as (Et & Hle & [more Em] & Hl); [by rewrite Hlen1|rewrite Hlen1, Et1; lia|].
      split; [by rewrite Et, Et1|]. split; [done|]. split; [eexists; by rewrite Em, Ho1, <- app_assoc|].
      constructor; [|done]. intros _ j Hj. pose proof (zlen_nonneg (flat_out c)).
      destruct (znth_in_range inp (s_scnptr s + j)) as [x Hx]; [lia|]. exists x. split; [|done].
      rewrite Em, Ho1, <- app_assoc, Hp, znth_lookup by lia.
      rewrite lookup_app_r by (unfold zlen in *; lia).
      replace (_ - _)%nat with (Z.to_nat j) by (unfold zlen in *; lia).
      rewrite lookup_app_l.
      2: { rewrite Ho1, zlen_app in Hlen1. unfold zlen in Hlen1. lia. }
      rewrite <- znth_lookup by lia. by rewrite znth_take_drop.
Qed.

(** The flat file is the memory of the program.  When a COFF file is converted
    whose sections with contents follow each other in memory from address 0 (what
    linking with -N -T 0 is to give), the byte at every address of such a section
    is the byte of the section in the COFF file; the file ends 1024 bytes after the
    end of the program, bss included, and all bytes after the contents are zero. *)
Theorem coff2flat_correct inp ss pos out :
  flat_headers inp = inr (ss, pos) ->
  Forall (fun s => wf_section s /\ 0 <= s_paddr s /\ s_paddr s + s_size s < 2 ^ 31) ss ->
  contiguous 0 ss -> memory_top 0 ss + StackSize < 2 ^ 31 -> coff2flat inp = inr out ->
  Forall (loaded inp out) ss /\ zlen out = memory_top 0 ss + StackSize /\
  exists n, n <= memory_top 0 ss /\ forall a, n <= a < zlen out -> znth out a = Some 0.
Proof.
  intros EH HF Hc Hmax E. unfold coff2flat in E. rewrite EH in E. cbn [mbind exits_bind] in E.
  destruct (flat_sections inp ss (mkFlat 0 pos [])) as [e|c] eqn:Es; [discriminate|]. apply exits_inj in E as <-.
  destruct (flat_sections_spec inp ss (mkFlat 0 pos []) c HF Es Hc ltac:(done)) as (Et & Hle & _ & Hl).
  cbn [top] in Et. pose proof (zlen_nonneg (flat_out c)) as H0. unfold StackSize in *.
  rewrite s32_id by word_lia. unfold lseek. destruct (Z.ltb_spec (top c + 1024 - 4) 0); [lia|].
  assert (unix_write (flat_out c) (top c + 1024 - 4) [0; 0; 0; 0] =
    flat_out c ++ replicate (Z.to_nat (top c + 1024 - zlen (flat_out c))) 0) as ->.
  { unfold unix_write. rewrite take_ge by (rewrite length_app, length_replicate; unfold zlen in *; lia).
    rewrite drop_ge by (unfold zlen in *; simpl; lia). rewrite app_nil_r, <- app_assoc. f_equal.
    change [0; 0; 0; 0] with (replicate 4 0). rewrite <- replicate_add. f_equal. unfold zlen in *. lia. }
  assert (zlen (flat_out c ++ replicate (Z.to_nat (top c + 1024 - zlen (flat_out c))) 0) = memory_top 0 ss + 1024) as El.
  { rewrite zlen_app, <- Et. unfold zlen at 2. rewrite length_replicate. lia. }
  rewrite El. split; [|split; [done|]].
  - eapply Forall_impl; [exact (proj2 (Forall_and _ _) (conj HF Hl))|].
    intros s [((_ & Hsz & Hsp) & Ha & _) Hs] Eb j Hj. destruct (Hs Eb j Hj) as (b & Hb & Hi).
    exists b. split; [|done]. rewrite znth_lookup in * by lia. by apply lookup_app_l_Some.
  - exists (zlen (flat_out c)). split; [lia|]. intros a Ha. rewrite znth_lookup by lia.
    rewrite lookup_app_r by (unfold zlen in *; lia). apply lookup_replicate_2. unfold zlen in *. lia.
Qed.

(** Four bytes of text at 0 and two of data at 4. *)
Lemma coff2flat_correct_witness :
  exists ss out, flat_headers sample_coff = inr (ss, 156) /\ coff2flat sample_coff = inr out /\
    zlen out = 1030 /\ znth out 5 = Some 6.
Proof.
  destruct (flat_headers sample_coff) as [e|[ss pos]] eqn:EH; [vm_compute in EH; discriminate EH|].
  destruct (coff2flat sample_coff) as [e|out] eqn:E; [vm_compute in E; discriminate E|].
  pose proof EH as EH'. vm_compute in EH'. injection EH' as Hss Hpos.
  destruct (coff2flat_correct sample_coff ss pos out EH) as (Hl & Hz & _).
  - subst ss. repeat constructor; discriminate.
  - subst ss. repeat constructor.
  - subst ss. reflexivity.
  - exact E.
  - exists ss, out. subst ss pos. split; [reflexivity|]. split; [reflexivity|].
    split; [rewrite Hz; reflexivity|].
    apply Forall_inv_tail, Forall_inv in Hl. destruct (Hl eq_refl 1 ltac:(done)) as (b & Hb & Hi).
    vm_compute in Hi. injection Hi as <-. exact Hb.
Defined.

(** Data linked at 8, after four bytes of text: it is written at 4. *)
Definition gap_coff : list Z :=
  le_bytes 2 MIPSELMAGIC ++ le_bytes 2 2 ++ replicate 16 0 ++ le_bytes 2 OMAGIC ++ replicate 54 0 ++
    sample_section text 0 4 156 ++ sample_section data 8 2 160 ++ [1; 2; 3; 4; 5; 6].
Lemma gap_misplaced :
  exists out, coff2flat gap_coff = inr out /\ take 10 out = [1; 2; 3; 4; 5; 6; 0; 0; 0; 0].
Proof. eexists. split; [vm_compute; reflexivity|reflexivity]. Qed.
