(* ===== verification/Disasm.v ===== *)
(** * Disasm: bin/d.c, bin/opstrings.c, bin/instr.h, bin/encode.h, the printing
    part of bin/out.c, and the trace of machine/mipssim.cc

    The disassembler of the object files user programs are made of, and what the
    simulator prints of an instruction when it is traced.  What is printed is a
    string; the theorem relates the names, the operands and the targets in it to
    what the interpreter of Mips.v decodes. *)

From S2P Require Import Prelude Text Machine Mips.
#[local] Open Scope string_scope.
#[local] Open Scope Z_scope.

(** ** The trace of mipssim.cc *)

Definition op_number (o : op_code) : Z :=
  match o with
  | OP_ADD => 1
  | OP_ADDI => 2
  | OP_ADDIU => 3
  | OP_ADDU => 4
  | OP_AND => 5
  | OP_ANDI => 6
  | OP_BEQ => 7
  | OP_BGEZ => 8
  | OP_BGEZAL => 9
  | OP_BGTZ => 10
  | OP_BLEZ => 11
  | OP_BLTZ => 12
  | OP_BLTZAL => 13
  | OP_BNE => 14
  | OP_DIV => 16
  | OP_DIVU => 17
  | OP_J => 18
  | OP_JAL => 19
  | OP_JALR => 20
  | OP_JR => 21
  | OP_LB => 22
  | OP_LBU => 23
  | OP_LH => 24
  | OP_LHU => 25
  | OP_LUI => 26
  | OP_LW => 27
  | OP_LWL => 28
  | OP_LWR => 29
  | OP_MFHI => 31
  | OP_MFLO => 32
  | OP_MTHI => 34
  | OP_MTLO => 35
  | OP_MULT => 36
  | OP_MULTU => 37
  | OP_NOR => 38
  | OP_OR => 39
  | OP_ORI => 40
  | OP_RFE => 41
  | OP_SB => 42
  | OP_SH => 43
  | OP_SLL => 44
  | OP_SLLV => 45
  | OP_SLT => 46
  | OP_SLTI => 47
  | OP_SLTIU => 48
  | OP_SLTU => 49
  | OP_SRA => 50
  | OP_SRAV => 51
  | OP_SRL => 52
  | OP_SRLV => 53
  | OP_SUB => 54
  | OP_SUBU => 55
  | OP_SW => 56
  | OP_SWL => 57
  | OP_SWR => 58
  | OP_XOR => 59
  | OP_XORI => 60
  | OP_SYSCALL => 61
  | OP_UNIMP => 62
  | OP_RES => 63
  | SPECIAL => 100
  | BCOND => 101
  end.

Inductive RegType := NONE | RS | RT | RD | EXTRA.

Definition opStrings : list (string * list RegType) := [
    ("Shouldn't happen", [NONE; NONE; NONE]);
    ("ADD r%d,r%d,r%d", [RD; RS; RT]);
    ("ADDI r%d,r%d,%d", [RT; RS; EXTRA]);
    ("ADDIU r%d,r%d,%d", [RT; RS; EXTRA]);
    ("ADDU r%d,r%d,r%d", [RD; RS; RT]);
    ("AND r%d,r%d,r%d", [RD; RS; RT]);
    ("ANDI r%d,r%d,%d", [RT; RS; EXTRA]);
    ("BEQ r%d,r%d,%d", [RS; RT; EXTRA]);
    ("BGEZ r%d,%d", [RS; EXTRA; NONE]);
    ("BGEZAL r%d,%d", [RS; EXTRA; NONE]);
    ("BGTZ r%d,%d", [RS; EXTRA; NONE]);
    ("BLEZ r%d,%d", [RS; EXTRA; NONE]);
    ("BLTZ r%d,%d", [RS; EXTRA; NONE]);
    ("BLTZAL r%d,%d", [RS; EXTRA; NONE]);
    ("BNE r%d,r%d,%d", [RS; RT; EXTRA]);
    ("Shouldn't happen", [NONE; NONE; NONE]);
    ("DIV r%d,r%d", [RS; RT; NONE]);
    ("DIVU r%d,r%d", [RS; RT; NONE]);
    ("J %d", [EXTRA; NONE; NONE]);
    ("JAL %d", [EXTRA; NONE; NONE]);
    ("JALR r%d,r%d", [RD; RS; NONE]);
    ("JR r%d,r%d", [RD; RS; NONE]);
    ("LB r%d,%d(r%d)", [RT; EXTRA; RS]);
    ("LBU r%d,%d(r%d)", [RT; EXTRA; RS]);
    ("LH r%d,%d(r%d)", [RT; EXTRA; RS]);
    ("LHU r%d,%d(r%d)", [RT; EXTRA; RS]);
    ("LUI r%d,%d", [RT; EXTRA; NONE]);
    ("LW r%d,%d(r%d)", [RT; EXTRA; RS]);
    ("LWL r%d,%d(r%d)", [RT; EXTRA; RS]);
    ("LWR r%d,%d(r%d)", [RT; EXTRA; RS]);
    ("Shouldn't happen", [NONE; NONE; NONE]);
    ("MFHI r%d", [RD; NONE; NONE]);
    ("MFLO r%d", [RD; NONE; NONE]);
    ("Shouldn't happen", [NONE; NONE; NONE]);
    ("MTHI r%d", [RS; NONE; NONE]);
    ("MTLO r%d", [RS; NONE; NONE]);
    ("MULT r%d,r%d", [RS; RT; NONE]);
    ("MULTU r%d,r%d", [RS; RT; NONE]);
    ("NOR r%d,r%d,r%d", [RD; RS; RT]);
    ("OR r%d,r%d,r%d", [RD; RS; RT]);
    ("ORI r%d,r%d,%d", [RT; RS; EXTRA]);
    ("RFE", [NONE; NONE; NONE]);
    ("SB r%d,%d(r%d)", [RT; EXTRA; RS]);
    ("SH r%d,%d(r%d)", [RT; EXTRA; RS]);
    ("SLL r%d,r%d,%d", [RD; RT; EXTRA]);
    ("SLLV r%d,r%d,r%d", [RD; RT; RS]);
    ("SLT r%d,r%d,r%d", [RD; RS; RT]);
    ("SLTI r%d,r%d,%d", [RT; RS; EXTRA]);
    ("SLTIU r%d,r%d,%d", [RT; RS; EXTRA]);
    ("SLTU r%d,r%d,r%d", [RD; RS; RT]);
    ("SRA r%d,r%d,%d", [RD; RT; EXTRA]);
    ("SRAV r%d,r%d,r%d", [RD; RT; RS]);
    ("SRL r%d,r%d,%d", [RD; RT; EXTRA]);
    ("SRLV r%d,r%d,r%d", [RD; RT; RS]);
    ("SUB r%d,r%d,r%d", [RD; RS; RT]);
    ("SUBU r%d,r%d,r%d", [RD; RS; RT]);
    ("SW r%d,%d(r%d)", [RT; EXTRA; RS]);
    ("SWL r%d,%d(r%d)", [RT; EXTRA; RS]);
    ("SWR r%d,%d(r%d)", [RT; EXTRA; RS]);
    ("XOR r%d,r%d,r%d", [RD; RS; RT]);
    ("XORI r%d,r%d,%d", [RT; RS; EXTRA]);
    ("SYSCALL", [NONE; NONE; NONE]);
    ("Unimplemented", [NONE; NONE; NONE]);
    ("Reserved", [NONE; NONE; NONE]) ].

Definition TypeToReg (r : RegType) (i : Instruction) : Z :=
  match r with
  | RS => Mips.rs i
  | RT => Mips.rt i
  | RD => Mips.rd i
  | EXTRA => extra i
  | NONE => -1
  end.

(** What is printed under the debug flag 'm', after the PC. *)
Definition trace (i : Instruction) : res string :=
  str ← opStrings.[op_number (opCode i)];
  _ ← ASSERT (op_number (opCode i) <=? 63);
  mret (sprintf str.1 ((fun r => AInt (TypeToReg r i)) <$> str.2)).

(** ** instr.h and encode.h *)

Definition rd (i : Z) : Z := Z.land (Z.shiftr i 11) 0x1f.
Definition rt (i : Z) : Z := Z.land (Z.shiftr i 16) 0x1f.
Definition rs (i : Z) : Z := Z.land (Z.shiftr i 21) 0x1f.
Definition shamt (i : Z) : Z := Z.land (Z.shiftr i 6) 0x1f.
Definition immed (i : Z) : Z :=
  if negb (Z.land i 0x8000 =? 0) then Z.lor i (-0x8000) else Z.land i 0x7fff.
Definition off26 (i : Z) : Z := Z.shiftl (Z.land i (2 ^ 26 - 1)) 2.
Definition top4 (i : Z) : Z := Z.land i (Z.lnot (2 ^ 28 - 1)).
Definition off16 (i : Z) : Z := s32 (Z.shiftl (immed i) 2).

Definition I_SPECIAL : Z := 0.
Definition I_BCOND : Z := 1.
Definition I_J : Z := 2.
Definition I_JAL : Z := 3.
Definition I_BEQ : Z := 4.
Definition I_BNE : Z := 5.
Definition I_BLEZ : Z := 6.
Definition I_BGTZ : Z := 7.
Definition I_ADDI : Z := 8.
Definition I_ADDIU : Z := 9.
Definition I_SLTI : Z := 10.
Definition I_SLTIU : Z := 11.
Definition I_ANDI : Z := 12.
Definition I_ORI : Z := 13.
Definition I_XORI : Z := 14.
Definition I_LUI : Z := 15.
Definition I_COP0 : Z := 16.
Definition I_COP1 : Z := 17.
Definition I_COP2 : Z := 18.
Definition I_COP3 : Z := 19.
Definition I_LB : Z := 32.
Definition I_LH : Z := 33.
Definition I_LWL : Z := 34.
Definition I_LW : Z := 35.
Definition I_LBU : Z := 36.
Definition I_LHU : Z := 37.
Definition I_LWR : Z := 38.
Definition I_SB : Z := 40.
Definition I_SH : Z := 41.
Definition I_SWL : Z := 42.
Definition I_SW : Z := 43.
Definition I_SWR : Z := 46.
Definition I_LWC0 : Z := 48.
Definition I_LWC1 : Z := 49.
Definition I_LWC2 : Z := 50.
Definition I_LWC3 : Z := 51.
Definition I_SWC0 : Z := 56.
Definition I_SWC1 : Z := 57.
Definition I_SWC2 : Z := 58.
Definition I_SWC3 : Z := 59.
Definition I_SLL : Z := 0.
Definition I_SRL : Z := 2.
Definition I_SRA : Z := 3.
Definition I_SLLV : Z := 4.
Definition I_SRLV : Z := 6.
Definition I_SRAV : Z := 7.
Definition I_JR : Z := 8.
Definition I_JALR : Z := 9.
Definition I_SYSCALL : Z := 12.
Definition I_BREAK : Z := 13.
Definition I_MFHI : Z := 16.
Definition I_MTHI : Z := 17.
Definition I_MFLO : Z := 18.
Definition I_MTLO : Z := 19.
Definition I_MULT : Z := 24.
Definition I_MULTU : Z := 25.
Definition I_DIV : Z := 26.
Definition I_DIVU : Z := 27.
Definition I_ADD : Z := 32.
Definition I_ADDU : Z := 33.
Definition I_SUB : Z := 34.
Definition I_SUBU : Z := 35.
Definition I_AND : Z := 36.
Definition I_OR : Z := 37.
Definition I_XOR : Z := 38.
Definition I_NOR : Z := 39.
Definition I_SLT : Z := 42.
Definition I_SLTU : Z := 43.
Definition I_BLTZ : Z := 0.
Definition I_BGEZ : Z := 1.
Definition I_BLTZAL : Z := 16.
Definition I_BGEZAL : Z := 17.
Definition I_NOP : Z := 0.

(** ** opstrings.c *)

Definition normalops : list string := [
    "special"; "bcond"; "j"; "jal"; "beq"; "bne"; "blez"; "bgtz"; "addi"; "addiu"; "slti"; "sltiu";
    "andi"; "ori"; "xori"; "lui"; "cop0"; "cop1"; "cop2"; "cop3"; "024"; "025"; "026"; "027";
    "030"; "031"; "032"; "033"; "034"; "035"; "036"; "037"; "lb"; "lh"; "lwl"; "lw"; "lbu"; "lhu";
    "lwr"; "047"; "sb"; "sh"; "swl"; "sw"; "054"; "055"; "swr"; "057"; "lwc0"; "lwc1"; "lwc2";
    "lwc3"; "064"; "065"; "066"; "067"; "swc0"; "swc1"; "swc2"; "swc3"; "074"; "075"; "076"; "077" ].

Definition specialops : list string := [
    "sll"; "001"; "srl"; "sra"; "sllv"; "005"; "srlv"; "srav"; "jr"; "jalr"; "012"; "013";
    "syscall"; "break"; "016"; "017"; "mfhi"; "mthi"; "mflo"; "mtlo"; "024"; "025"; "026"; "027";
    "mult"; "multu"; "div"; "divu"; "034"; "035"; "036"; "037"; "add"; "addu"; "sub"; "subu";
    "and"; "or"; "xor"; "nor"; "050"; "051"; "slt"; "sltu"; "054"; "055"; "056"; "057"; "060";
    "061"; "062"; "063"; "064"; "065"; "066"; "067"; "070"; "071"; "072"; "073"; "074"; "075";
    "076"; "077" ].

(** ** d.c *)

Definition regstrings : list string := [
    "0"; "r1"; "r2"; "r3"; "r4"; "r5"; "r6"; "r7"; "r8"; "r9"; "r10"; "r11"; "r12"; "r13"; "r14";
    "r15"; "r16"; "r17"; "r18"; "r19"; "r20"; "r21"; "r22"; "r23"; "r24"; "r25"; "r26"; "r27";
    "gp"; "sp"; "r30"; "r31" ].

Definition R (i : Z) : res string := regstrings.[i].

(** [case] labels of a switch. *)
Definition is_one (x : Z) (labels : list Z) : bool := existsb (Z.eqb x) labels.

(** The operands after [special] (the registers are those of the fields rd, rt and
    rs). *)
Definition special_operands (instruction : Z) (d t s : string) : string :=
  let opcode := Z.land instruction 0x3f in
  if is_one opcode [I_SLL; I_SRL; I_SRA] then
    sprintf "%s,%s,0x%x" [AStr d; AStr t; AInt (shamt instruction)]
  else if is_one opcode [I_SLLV; I_SRLV; I_SRAV] then
    sprintf "%s,%s,%s" [AStr d; AStr t; AStr s]
  else if is_one opcode [I_JR; I_JALR; I_MFLO; I_MTLO] then sprintf "%s" [AStr s]
  else if is_one opcode [I_SYSCALL; I_BREAK] then EmptyString
  else if is_one opcode [I_MFHI; I_MTHI] then sprintf "%s" [AStr d]
  else if is_one opcode [I_MULT; I_MULTU; I_DIV; I_DIVU] then sprintf "%s,%s" [AStr s; AStr t]
  else if is_one opcode [I_ADD; I_ADDU; I_SUB; I_SUBU; I_AND; I_OR; I_XOR; I_NOR; I_SLT; I_SLTU] then
    sprintf "%s,%s,%s" [AStr d; AStr s; AStr t]
  else EmptyString.

Definition bcond_name (instruction : Z) : string :=
  if rt instruction =? I_BLTZ then "bltz"
  else if rt instruction =? I_BGEZ then "bgez"
  else if rt instruction =? I_BLTZAL then "bltzal"
  else if rt instruction =? I_BGEZAL then "bgezal"
  else "BCOND".

(** The target of a branch: [off16(instruction)+pc+4]. *)
Definition branch_target (instruction pc : Z) : Z := s32 (s32 (off16 instruction + pc) + 4).

(** The operands of the other instructions. *)
Definition normal_operands (opcode instruction pc : Z) (t s : string) : string :=
  if is_one opcode [I_J; I_JAL] then
    sprintf "%08x" [AInt (Z.lor (top4 pc) (off26 instruction))]
  else if is_one opcode [I_BEQ; I_BNE] then
    sprintf "%s,%s,%08x" [AStr t; AStr s; AInt (branch_target instruction pc)]
  else if is_one opcode [I_ADDI; I_ADDIU; I_SLTI; I_SLTIU; I_ANDI; I_ORI; I_XORI] then
    sprintf "%s,%s,0x%x" [AStr t; AStr s; AInt (immed instruction)]
  else if is_one opcode [I_LUI] then sprintf "%s,0x%x" [AStr t; AInt (immed instruction)]
  else if is_one opcode [I_COP0; I_COP1; I_COP2; I_COP3] then EmptyString
  else if is_one opcode [I_LB; I_LH; I_LWL; I_LW; I_LBU; I_LHU; I_LWR; I_SB; I_SH; I_SWL; I_SW; I_SWR;
                         I_LWC0; I_LWC1; I_LWC2; I_LWC3; I_SWC0; I_SWC1; I_SWC2; I_SWC3] then
    sprintf "%s,0x%x(%s)" [AStr t; AInt (immed instruction); AStr s]
  else EmptyString.

(** [dump_ascii(instruction, pc)], what it prints. *)
Definition dump_ascii (longdis : bool) (instruction pc : Z) : res string :=
  let prefix := if longdis then sprintf "%08x: %08x  " [AInt pc; AInt instruction] else EmptyString in
  let opcode := Z.shiftr (u32 instruction) 26 in
  d ← R (rd instruction);
  t ← R (rt instruction);
  s ← R (rs instruction);
  text ←
    (if instruction =? I_NOP then mret "nop"
     else if opcode =? I_SPECIAL then
       name ← specialops.[Z.land instruction 0x3f];
       mret (sprintf "%s" [AStr name] +++ tab +++ special_operands instruction d t s)
     else if opcode =? I_BCOND then
       mret (bcond_name instruction +++ tab +++
             sprintf "%s,%08x" [AStr s; AInt (branch_target instruction pc)])
     else
       name ← normalops.[opcode];
       mret (sprintf "%s" [AStr name] +++ tab +++ normal_operands opcode instruction pc t s));
  mret (prefix +++ tab +++ text).

(** ** out.c *)

(** [column] after a string was printed. *)
Fixpoint advance (column : Z) (buf : string) : Z :=
  match buf with
  | EmptyString => column
  | String c buf =>
      advance (if Ascii.eqb c (ascii_of_nat 10) then 1
               else if Ascii.eqb c (ascii_of_nat 9) then Z.land (column + 7) (Z.lnot 7) + 1
               else column + 1) buf
  end.

(** What was printed, and [column]. *)
Record output := mkOutput { printed : string; column : Z }.

Definition myprintf (form : string) (args : list varg) (o : output) : output :=
  let buf := sprintf form args in
  mkOutput (printed o +++ buf) (advance (column o) buf).

(** [while (column < n)]; the fuel is the number of blanks. *)
Fixpoint mytab_loop (fuel : nat) (n : Z) (o : output) : output :=
  match fuel with
  | O => o
  | S fuel =>
      if column o <? n then mytab_loop fuel n (mkOutput (printed o +++ " ") (column o + 1)) else o
  end.
Definition mytab (n : Z) (o : output) : bool * output :=
  let o := mytab_loop (Z.to_nat (n - column o)) n o in (column o =? n, o).

(** A relocation entry, and what out.c keeps of a section: its name, address, size,
    words and relocations. *)
Record reloc := mkReloc { r_vaddr : Z; r_symndx : Z; r_type : Z; r_extern : bool }.
Record section := mkSection { s_name : string; s_vaddr : Z; s_size : Z; words : list Z; relocs : list reloc }.

Definition MAXSYMS : Z := 300.

Definition section_name : list string := [
    "(null)"; ".text"; ".rdata"; ".data"; ".sdata"; ".sbss"; ".bss"; ".init"; ".lit8"; ".lit4" ].
Definition reloc_type : list string := [
    "abs"; "16"; "32"; "26"; "hi16"; "lo16"; "gpdata"; "gplit" ].

(** The names of the symbols that were stored, by number. *)
Section out.
Context (symbol_names : list string).

Definition print_one (r : reloc) (o : output) : res output :=
  let '(_, o) := mytab 57 o in
  o ← (if r_extern r then
         if r_symndx r >=? MAXSYMS then mret (myprintf "sym $%d" [AInt (r_symndx r)] o)
         else name ← symbol_names.[r_symndx r];
              mret (myprintf (String "034" ("%s" +++ String "034" EmptyString)) [AStr name] o)
       else name ← section_name.[r_symndx r]; mret (myprintf "%s" [AStr name] o));
  ty ← reloc_type.[r_type r];
  mret (myprintf " %s" [AStr ty] o).

(** The first relocation at [vaddr], and the end of the line. *)
Fixpoint print_reloc (vaddr : Z) (rs : list reloc) (o : output) : res output :=
  match rs with
  | [] => mret (myprintf newline [] o)
  | r :: rs =>
      if vaddr =? r_vaddr r then o ← print_one r o; mret (myprintf newline [] o)
      else print_reloc vaddr rs o
  end.

(** [strncmp(name, ".text", 5) == 0] *)
Definition is_text (name : string) : bool := String.prefix ".text" name.

(** The bytes of a word, the printable ones as they are. *)
Fixpoint print_chars (bytes : list Z) (o : output) : output :=
  match bytes with
  | [] => o
  | c :: bytes =>
      let ch := s8 c in
      print_chars bytes
        (if (ch >=? 32) && (ch <? 127) then myprintf "%c" [AChr c] o else myprintf "." [] o)
  end.

Definition print_word (text : bool) (pc word : Z) (o : output) : res output :=
  if text then t ← dump_ascii true word pc; mret (mkOutput (printed o +++ t) (advance (column o) t))
  else
    let o := myprintf "%08x: %08x  " [AInt pc; AInt word] o in
    let o := print_chars (le_bytes 4 (u32 word)) o in
    mret (myprintf (tab +++ "%d") [AInt word] o).

Fixpoint print_words (text : bool) (pc : Z) (ws : list Z) (rs : list reloc) (o : output) : res output :=
  match ws with
  | [] => mret o
  | w :: ws =>
      o ← print_word text pc w o;
      o ← print_reloc pc rs o;
      print_words text (s32 (pc + 4)) ws rs o
  end.

Definition print_section (s : section) (o : output) : res output :=
  let o := myprintf ("Section: %s" +++ tab +++ "%d/%d" +++ newline)
             [AStr (s_name s); AInt (s_size s); AInt (zlen (relocs s))] o in
  print_words (is_text (s_name s)) (s_vaddr s) (words s) (relocs s) o.
End out.

(** The table of external symbols, printed at the end of [main]; [scUndefined] is a
    number of the system's header. *)
Record symbol := mkSymbol { sym_value : Z; st : Z; sc : Z; sym_name : string }.

Definition symbol_type : list string := [
    "Nil"; "Global"; "Static"; "Param"; "Local"; "Label"; "Proc"; "Block";
    "End"; "Member"; "Type"; "File"; "Register"; "Forward"; "StaticProc"; "Constant" ].
Definition storage_class : list string := [
    "Nil"; "Text"; "Data"; "Bss"; "Register"; "Abs"; "Undefined"; "CdbLocal";
    "Bits"; "CdbSystem"; "RegImage"; "Info"; "UserStruct"; "SData"; "SBss";
    "RData"; "Var"; "Common"; "SCommon"; "VarRegister"; "Variant"; "SUndefined"; "Init" ].

Definition print_symbol (scUndefined : Z) (sym : symbol) (o : output) : res output :=
  let o := if sc sym =? scUndefined then myprintf (tab +++ " ") [] o
           else myprintf "%08x " [AInt (sym_value sym)] o in
  ty ← symbol_type.[st sym];
  let o := myprintf "%s" [AStr ty] o in
  let '(_, o) := mytab 25 o in
  cl ← storage_class.[sc sym];
  let o := myprintf "%s" [AStr cl] o in
  let '(_, o) := mytab 41 o in
  mret (myprintf ("%s" +++ newline) [AStr (sym_name sym)] o).

(** ** What is printed, from the instruction that Nachos decodes *)

(** The name of an operation in [opStrings], up to the first space. *)
Fixpoint first_word (s : string) : string :=
  match s with
  | EmptyString => EmptyString
  | String c s => if Ascii.eqb c " " then EmptyString else String c (first_word s)
  end.
Fixpoint lower_case (s : string) : string :=
  match s with
  | EmptyString => EmptyString
  | String c s =>
      let n := nat_of_ascii c in
      String (if (65 <=? n)%nat && (n <=? 90)%nat then ascii_of_nat (n + 32) else c) (lower_case s)
  end.
Definition name (o : op_code) : string :=
  lower_case (first_word (default ("", []) (znth opStrings (op_number o))).1).

(** The name of a register. *)
Definition reg_name (r : Z) : string := default "" (znth regstrings r).

(** Where a branch of [i] at [pc] goes when it is taken. *)
Definition target (i : Instruction) (pc : Z) : Z := s32 (s32 (pc + 4) + IndexToAddr (extra i)).

(** The operands of an instruction at [pc], in the order of the MIPS assembler
    (the two operands of BEQ and BNE are printed the other way round). *)
Definition operands (i : Instruction) (pc : Z) : string :=
  let d := AStr (reg_name (Mips.rd i)) in
  let t := AStr (reg_name (Mips.rt i)) in
  let s := AStr (reg_name (Mips.rs i)) in
  match opCode i with
  | OP_SLL | OP_SRL | OP_SRA => sprintf "%s,%s,0x%x" [d; t; AInt (extra i)]
  | OP_SLLV | OP_SRLV | OP_SRAV => sprintf "%s,%s,%s" [d; t; s]
  | OP_ADD | OP_ADDU | OP_SUB | OP_SUBU | OP_AND | OP_OR | OP_XOR | OP_NOR | OP_SLT | OP_SLTU =>
      sprintf "%s,%s,%s" [d; s; t]
  | OP_MULT | OP_MULTU | OP_DIV | OP_DIVU => sprintf "%s,%s" [s; t]
  | OP_JR => sprintf "%s" [s]
  | OP_MFHI => sprintf "%s" [d]
  | OP_BLTZ | OP_BGEZ | OP_BLTZAL | OP_BGEZAL => sprintf "%s,%08x" [s; AInt (target i pc)]
  | OP_BEQ | OP_BNE => sprintf "%s,%s,%08x" [t; s; AInt (target i pc)]
  | OP_J | OP_JAL => sprintf "%08x" [AInt (jump_target pc (extra i))]
  | OP_ADDI | OP_ADDIU | OP_SLTI | OP_SLTIU | OP_ANDI | OP_ORI | OP_XORI =>
      sprintf "%s,%s,0x%x" [t; s; AInt (extra i)]
  | OP_LUI => sprintf "%s,0x%x" [t; AInt (extra i)]
  | OP_LB | OP_LBU | OP_LH | OP_LHU | OP_LW | OP_LWL | OP_LWR | OP_SB | OP_SH | OP_SW | OP_SWL | OP_SWR =>
      sprintf "%s,0x%x(%s)" [t; AInt (extra i); s]
  (* what the disassembler prints for these is not their operands: JALR and MFLO
     write rd, MTHI reads rs, and BLEZ and BGTZ have two operands *)
  | OP_JALR | OP_MFLO | OP_MTLO => sprintf "%s" [s]
  | OP_MTHI => sprintf "%s" [d]
  | _ => EmptyString
  end.

(** The operations the interpreter has. *)
Definition supported (o : op_code) : bool :=
  match o with OP_UNIMP | OP_RES | SPECIAL | BCOND => false | _ => true end.

Lemma immed_spec i : immed i = (i + 2 ^ 15) mod 2 ^ 16 - 2 ^ 15.
Proof.
  unfold immed. change 0x8000 with (2 ^ 15). rewrite land_pow2_test by done.
  assert (Z.testbit i 15 = (2 ^ 15 <=? i mod 2 ^ 16)) as ->.
  { rewrite <- (testbit_top (i mod 2 ^ 16) 15) by (done || apply Z.mod_pos_bound; done).
    by rewrite Z.mod_pow2_bits_low. }
  destruct (Z.leb_spec (2 ^ 15) (i mod 2 ^ 16)) as [H|H].
  - assert (Z.lor i (-0x8000) = Z.lnot (Z.land (Z.lnot i) (Z.ones 15))) as E
      by (by rewrite Z.lnot_land, Z.lnot_involutive).
    rewrite E, Z.land_ones by done. unfold Z.lnot.
    change (2 ^ 15) with 32768 in *. change (2 ^ 16) with 65536 in *. Z.div_mod_to_equations. lia.
  - change 0x7fff with (Z.ones 15). rewrite Z.land_ones by done.
    change (2 ^ 15) with 32768 in *. change (2 ^ 16) with 65536 in *. Z.div_mod_to_equations. lia.
Qed.

(** The fields do not depend on the sign of the word. *)
Lemma field_s32 v k n : 0 <= k -> 0 <= n -> k + n <= 32 -> field (s32 v) k n = field v k n.
Proof.
  intros Hk Hn Hs. unfold field. rewrite <- !Z.shiftr_div_pow2, <- !Z.land_ones by done.
  apply Z.bits_inj'. intros i Hi. rewrite !Z.land_spec. destruct (Z.ltb_spec i n).
  - rewrite !Z.shiftr_spec by done. f_equal.
    rewrite <- (Z.mod_pow2_bits_low (s32 v) 32), <- (Z.mod_pow2_bits_low v 32) by lia.
    f_equal. fold (u32 (s32 v)) (u32 v). apply u32_s32.
  - by rewrite Z.ones_spec_high, !andb_false_r by lia.
Qed.

Lemma rd_field v : rd (s32 v) = field v 11 5.
Proof. unfold rd. rewrite (mask_field _ 11 5) by done. by apply field_s32. Qed.
Lemma rt_field v : rt (s32 v) = field v 16 5.
Proof. unfold rt. rewrite (mask_field _ 16 5) by done. by apply field_s32. Qed.
Lemma rs_field v : rs (s32 v) = field v 21 5.
Proof. unfold rs. rewrite (mask_field _ 21 5) by done. by apply field_s32. Qed.
Lemma shamt_field v : shamt (s32 v) = field v 6 5.
Proof. unfold shamt. rewrite (mask_field _ 6 5) by done. by apply field_s32. Qed.
Lemma funct_field v : Z.land (s32 v) 0x3f = field v 0 6.
Proof. rewrite <- (Z.shiftr_0_r (s32 v)), (mask_field _ 0 6) by done. by apply field_s32. Qed.
Lemma opcode_field v : Z.shiftr (u32 (s32 v)) 26 = field v 26 6.
Proof.
  rewrite u32_s32, Z.shiftr_div_pow2 by done. unfold field, u32.
  change (2 ^ 26) with 67108864. change (2 ^ 6) with 64. change (2 ^ 32) with 4294967296.
  Z.div_mod_to_equations. lia.
Qed.
Lemma immed_field v : immed (s32 v) = immediate v IFMT.
Proof.
  rewrite immed_spec. cbn [immediate]. change (2 ^ 15) with 32768. change (2 ^ 16) with 65536. word_lia.
Qed.

Lemma R_name r : 0 <= r < 32 -> R r = Ok (reg_name r).
Proof.
  intros Hr. unfold R, reg_name, zget. destruct (znth_in_range regstrings r) as [x Hx]; [done|]. by rewrite Hx.
Qed.

(** The target of a branch is the interpreter's. *)
Lemma branch_target_spec v pc o d t s :
  branch_target (s32 v) pc = target (mkInstruction v o s t d (immediate v IFMT)) pc.
Proof.
  unfold branch_target, off16, target, IndexToAddr. cbn [extra]. rewrite immed_field.
  generalize (Z.shiftl (immediate v IFMT) 2). intros x. word_lia.
Qed.

(** So is that of a jump, up to the sign. *)
Lemma jump_target_spec v pc :
  is_s32 pc -> u32 (Z.lor (top4 pc) (off26 (s32 v))) = u32 (jump_target pc (immediate v JFMT)).
Proof.
  intros Hpc. unfold jump_target, off26, top4, IndexToAddr. rewrite u32_s32.
  change (2 ^ 26 - 1) with (Z.ones 26).
  assert (Z.land (s32 v) (Z.ones 26) = immediate v JFMT) as ->.
  { rewrite <- (Z.shiftr_0_r (s32 v)), (mask_field _ 0 26) by done. by apply field_s32. }
  pose proof (immediate_range v JFMT) as Hr. pose proof (field_range v 0 26 ltac:(done)) as Hf.
  cbn [immediate] in *. generalize dependent (field v 0 26). intros x _ Hx.
  rewrite u32_s32. rewrite (u32_id (Z.shiftl x 2)).
  2: { rewrite Z.shiftl_mul_pow2 by done. change (2 ^ 26) with 67108864 in Hx. word_lia. }
  change (Z.lnot (2 ^ 28 - 1)) with (Z.lnot (Z.ones 28)).
  change 0xf0000000 with (Z.ldiff (Z.ones 32) (Z.ones 28)). unfold u32.
  apply Z.bits_inj'. intros i Hi. destruct (Z.ltb_spec i 32).
  - rewrite !Z.mod_pow2_bits_low by done. rewrite !Z.lor_spec, !Z.land_spec, Z.ldiff_spec, Z.lnot_spec by done.
    rewrite Z.mod_pow2_bits_low by done. rewrite (Z.ones_spec_low 32) by lia. by rewrite andb_true_l.
  - by rewrite !Z.mod_pow2_bits_high by lia.
Qed.

Lemma fmt_08x_u32 a b : u32 a = u32 b -> fmt_08x a = fmt_08x b.
Proof. unfold fmt_08x. by intros ->. Qed.

(** Case analysis on a number below [n]. *)
Lemma enumerate (P : Z -> Prop) a n : Forall P (seqZ a n) -> forall k, a <= k < a + n -> P k.
Proof. intros H k Hk. rewrite Forall_forall in H. apply H, elem_of_seqZ. lia. Qed.

Ltac enumerate_all := match goal with
  |- Forall ?P (seqZ ?a ?n) =>
    let l := eval vm_compute in (seqZ a n) in change (Forall P l) end;
  repeat (apply Forall_cons; split); [..|apply Forall_nil; exact I]; cbv beta.

Section fields.
Context (v pc : Z) (Hpc : is_s32 pc).
Abbreviation instr o f := (mkInstruction v o (field v 21 5) (field v 16 5) (field v 11 5) (immediate v f)).

Lemma normal_case k o f :
  2 <= k < 2 + 62 -> znth opTable k = Some (o, f) -> supported o = true ->
  normalops.[k] = Ok (name o) /\
  normal_operands k (s32 v) pc (reg_name (field v 16 5)) (reg_name (field v 21 5)) = operands (instr o f) pc.
Proof.
  intros Hk. unfold normal_operands. rewrite immed_field, (branch_target_spec v pc o 0 0 0).
  revert k Hk o f. refine (enumerate _ 2 62 _).
  enumerate_all; intros o f [= <- <-] Hs; try discriminate Hs; (split; [reflexivity|]);
    try reflexivity; cbn; f_equal; by apply fmt_08x_u32, jump_target_spec.
Qed.

Lemma special_case o' :
  specialTable.[field v 0 6] = Ok o' -> supported o' = true ->
  specialops.[field v 0 6] = Ok (name o') /\
  special_operands (s32 v) (reg_name (field v 11 5)) (reg_name (field v 16 5)) (reg_name (field v 21 5)) =
    operands (instr o' RFMT) pc.
Proof.
  unfold special_operands. rewrite funct_field, shamt_field.
  pose proof (field_range v 0 6 ltac:(done)) as Hr. change (2 ^ 6) with (0 + 64) in Hr.
  revert o'. generalize dependent (field v 0 6). refine (enumerate _ 0 64 _).
  enumerate_all; intros o' [= <-] Hs; try discriminate Hs; (split; reflexivity).
Qed.

Lemma bcond_case o' :
  decode_op v BCOND = Ok o' -> supported o' = true ->
  bcond_name (s32 v) = name o' /\
  sprintf "%s,%08x" [AStr (reg_name (field v 21 5)); AInt (branch_target (s32 v) pc)] =
    operands (instr o' IFMT) pc.
Proof.
  unfold bcond_name, decode_op. rewrite rt_field, (branch_target_spec v pc o' 0 0 0).
  pose proof (field_range v 16 5 ltac:(done)) as Hr. change (2 ^ 5) with (0 + 32) in Hr.
  revert o'. unfold target, operands. cbn [extra opCode Mips.rd Mips.rt Mips.rs].
  generalize (reg_name (field v 21 5)). intros s. generalize dependent (field v 16 5).
  refine (enumerate _ 0 32 _).
  enumerate_all; intros o' [= <-] Hs; try discriminate Hs; (split; reflexivity).
Qed.
End fields.

(** C34: the disassembler prints what the simulator executes.  For every non-zero
    word that Nachos decodes to an operation it supports, dump_ascii prints the
    name the simulator's trace has for the operation, the registers in the fields
    that Decode finds, the sign-extended immediate or the shift amount, and, for a
    branch or jump at [pc], the address at which the simulator goes on (a jump
    takes the upper bits of the address from [pc] itself); the operations for which
    the operands printed are not those the operation has are listed in
    [operands]. *)
Theorem dump_ascii_correct v pc i :
  is_u32 v -> v <> 0 -> is_s32 pc -> Decode v = Ok i -> supported (opCode i) = true ->
  dump_ascii false (s32 v) pc = Ok (tab +++ name (opCode i) +++ tab +++ operands i pc).
Proof.
  intros Hv Hne Hpc HD Hs. destruct (Decode_fields v) as (o & f & o' & Ht & Ho & _ & E).
  rewrite E in HD. injection HD as <-. cbn [opCode] in Hs. unfold dump_ascii.
  rewrite rd_field, rt_field, rs_field, opcode_field, funct_field.
  rewrite !R_name, !bind_Ok by (change 32 with (2 ^ 5); by apply field_range).
  assert ((s32 v =? I_NOP) = false) as -> by (apply Z.eqb_neq; unfold I_NOP; revert Hv; word_lia).
  pose proof (field_range v 26 6 ltac:(done)) as Hk. change (2 ^ 6) with 64 in Hk.
  generalize dependent (field v 26 6). intros k Ht Hk. cbn [opCode].
  destruct (Z.eqb_spec k I_SPECIAL) as [->|H0].
  { injection Ht as <- <-. destruct (special_case v pc o' Ho Hs) as [-> ->].
    unfold mret, res_ret. rewrite !bind_Ok. cbn [sprintf]. by rewrite append_nil. }
  destruct (Z.eqb_spec k I_BCOND) as [->|H1].
  { injection Ht as <- <-. destruct (bcond_case v pc o' Ho Hs) as [-> ->].
    unfold mret, res_ret. by rewrite !bind_Ok. }
  unfold I_SPECIAL, I_BCOND in *.
  assert (o' = o /\ supported o = true) as [-> Hso].
  { destruct o; simpl in Ho; try (injection Ho as <-; done); exfalso; revert Ht Hk H0 H1; clear.
    - intros Ht Hk H0 _. revert k Hk Ht H0. refine (enumerate _ 0 64 _). enumerate_all; done.
    - intros Ht Hk _ H1. revert k Hk Ht H1. refine (enumerate _ 0 64 _). enumerate_all; done. }
  destruct (normal_case v pc Hpc k o f ltac:(lia) Ht Hso) as [-> ->].
  unfold mret, res_ret. rewrite !bind_Ok. cbn [sprintf]. by rewrite append_nil.
Qed.

(** [jal] to 0x100 at 0x20. *)
Lemma dump_ascii_correct_witness :
  exists i, Decode 0x0c000040 = Ok i /\
    dump_ascii false (s32 0x0c000040) 0x20 = Ok (tab +++ "jal" +++ tab +++ operands i 0x20) /\
    operands i 0x20 = "00000100".
Proof.
  destruct (Decode 0x0c000040) as [i|] eqn:E; [|discriminate E]. exists i. split; [reflexivity|].
  pose proof (dump_ascii_correct 0x0c000040 0x20 i ltac:(done) ltac:(done) ltac:(done) E) as H.
  vm_compute in E. injection E as <-. split; [exact (H eq_refl)|reflexivity].
Defined.

(** ** The layout of out.c *)

Lemma advance_app c a b : advance c (a +++ b) = advance (advance c a) b.
Proof. revert c. induction a as [|x a IH]; intros c; [done|]. exact (IH _). Qed.

(** [column] is where the next character goes, after what was printed. *)
Definition in_column (o : output) : Prop := column o = advance 1 (printed o).

Lemma myprintf_column form args o : in_column o -> in_column (myprintf form args o).
Proof. unfold in_column, myprintf. cbn [column printed]. intros ->. by rewrite advance_app. Qed.

Lemma mytab_loop_spec fuel : forall n o,
  in_column o -> n - column o <= Z.of_nat fuel ->
  in_column (mytab_loop fuel n o) /\ column (mytab_loop fuel n o) = Z.max n (column o).
Proof.
  induction fuel as [|fuel IH]; intros n o Ho Hf; cbn [mytab_loop]; [split; [done|lia]|].
  destruct (Z.ltb_spec (column o) n); [|split; [done|lia]].
  destruct (IH n (mkOutput (printed o +++ " ") (column o + 1))) as [H1 H2].
  - unfold in_column in *. cbn [column printed]. by rewrite advance_app, <- Ho.
  - cbn [column]. lia.
  - cbn [column] in H2. split; [done|lia].
Qed.

(** [mytab] ends, in the column asked for unless the line is longer already. *)
Lemma mytab_spec n o :
  in_column o -> in_column (mytab n o).2 /\ column (mytab n o).2 = Z.max n (column o) /\
    (mytab n o).1 = (column o <=? n).
Proof.
  intros Ho. unfold mytab. destruct (mytab_loop_spec (Z.to_nat (n - column o)) n o Ho ltac:(lia)) as [H1 H2].
  cbn [fst snd]. split; [done|]. split; [done|]. rewrite H2. apply Bool.eq_iff_eq_true.
  rewrite Z.eqb_eq, Z.leb_le. lia.
Qed.

(** A relocation whose numbers are in the tables. *)
Definition reloc_ok (names : list string) (r : reloc) : Prop :=
  0 <= r_type r < 8 /\
  (if r_extern r then r_symndx r >= MAXSYMS \/ 0 <= r_symndx r < zlen names else 0 <= r_symndx r < 10).

Lemma print_reloc_ok names a rs : forall o, Forall (reloc_ok names) rs -> in_column o ->
  exists o', print_reloc names a rs o = Ok o' /\ in_column o'.
Proof.
  induction rs as [|r rs IH]; intros o HF Ho; cbn [print_reloc].
  { eexists. split; [reflexivity|]. by apply myprintf_column. }
  inversion HF as [|? ? [Ht Hs] HF']; subst. destruct (a =? r_vaddr r); [|by apply IH].
  unfold print_one. pose proof (mytab_spec 57 o Ho) as (H1 & _). destruct (mytab 57 o) as [b o1]. cbn [snd] in H1.
  destruct (zget_in_range reloc_type (r_type r) Ht) as [ty Ety].
  destruct (r_extern r).
  - rewrite Z.geb_leb. destruct (Z.leb_spec MAXSYMS (r_symndx r)).
    + unfold mret, res_ret. rewrite bind_Ok, Ety, !bind_Ok. eexists. split; [reflexivity|].
      by repeat apply myprintf_column.
    + destruct (zget_in_range names (r_symndx r)) as [nm En]; [lia|].
      unfold mret, res_ret. rewrite En, !bind_Ok, Ety, !bind_Ok. eexists. split; [reflexivity|].
      by repeat apply myprintf_column.
  - destruct (zget_in_range section_name (r_symndx r)) as [nm En]; [done|].
    unfold mret, res_ret. rewrite En, !bind_Ok, Ety, !bind_Ok. eexists. split; [reflexivity|].
    by repeat apply myprintf_column.
Qed.

Lemma print_chars_column bs : forall o, in_column o -> in_column (print_chars bs o).
Proof.
  induction bs as [|b bs IH]; intros o Ho; cbn [print_chars]; [done|]. apply IH.
  destruct (_ && _); by apply myprintf_column.
Qed.

(** Every word is disassembled, an operation or not. *)
Lemma dump_ascii_total b w pc : exists t, dump_ascii b w pc = Ok t.
Proof.
  assert (forall x n, 0 <= Z.land (Z.shiftr x n) 0x1f < 32) as H5.
  { intros x n. change 0x1f with (Z.ones 5). rewrite Z.land_ones by done. by apply Z.mod_pos_bound. }
  unfold dump_ascii. rewrite !R_name, !bind_Ok by apply H5.
  destruct (w =? I_NOP); [by eexists|]. destruct (_ =? I_SPECIAL).
  - destruct (zget_in_range specialops (Z.land w 0x3f)) as [n ->]; [|by eexists].
    change 0x3f with (Z.ones 6). rewrite Z.land_ones by done. by apply Z.mod_pos_bound.
  - destruct (_ =? I_BCOND); [by eexists|].
    destruct (zget_in_range normalops (Z.shiftr (u32 w) 26)) as [n ->]; [|by eexists].
    rewrite Z.shiftr_div_pow2 by done. pose proof (u32_range w) as Hw. unfold is_u32 in Hw.
    change (zlen normalops) with 64. change (2 ^ 26) with 67108864. change (2 ^ 32) with 4294967296 in Hw.
    Z.div_mod_to_equations. lia.
Qed.

(** A section whose relocations are in the tables is printed. *)
Lemma print_section_ok names s o :
  Forall (reloc_ok names) (relocs s) -> in_column o ->
  exists o', print_section names s o = Ok o' /\ in_column o'.
Proof.
  intros HF Ho. unfold print_section. generalize (s_vaddr s). 
  assert (in_column (myprintf ("Section: %s" +++ tab +++ "%d/%d" +++ newline)
    [AStr (s_name s); AInt (s_size s); AInt (zlen (relocs s))] o)) as H by (by apply myprintf_column).
  revert H. generalize (myprintf ("Section: %s" +++ tab +++ "%d/%d" +++ newline)
    [AStr (s_name s); AInt (s_size s); AInt (zlen (relocs s))] o). clear o Ho.
  induction (words s) as [|w ws IH]; intros o Ho pc; cbn [print_words]; [by eexists|].
  assert (exists o1, print_word (is_text (s_name s)) pc w o = Ok o1 /\ in_column o1) as (o1 & -> & H1).
  { unfold print_word. destruct (is_text (s_name s)).
    - destruct (dump_ascii_total true w pc) as [t ->]. rewrite bind_Ok. eexists. split; [reflexivity|].
      unfold in_column in *. cbn [column printed]. by rewrite advance_app, <- Ho.
    - eexists. split; [reflexivity|]. apply myprintf_column, print_chars_column. by apply myprintf_column. }
  rewrite bind_Ok. destruct (print_reloc_ok names pc (relocs s) o1 HF H1) as (o2 & -> & H2).
  rewrite bind_Ok. by apply IH.
Qed.
