(* ===== verification/Interp.v ===== *)
(** * Interp: bin/execute.c, bin/int.h, and the loaders of bin/main.c and
    bin/disasm.c

    The stand-alone interpreter of MIPS programs: loading the sections of an
    object file into its memory, and executing instructions.  It shares the field
    macros and the opcodes with the disassembler, and is compared with the
    interpreter of the simulator. *)

From S2P Require Import Prelude Text Machine Mult Mips Disasm.

Definition MEMSIZE : Z := 2 ^ 24.
Definition memoffset : Z := 0x10000000.

(** [pc] and [npc] are the locals of [runprogram]. *)
Record interp := mkInterp {
  Reg : list Z;
  HI : Z;
  LO : Z;
  mem : list Z;                (* MEMSIZE bytes *)
  pc : Z;
  npc : Z
}.

Definition set_Reg (m : interp) r := mkInterp r (HI m) (LO m) (mem m) (pc m) (npc m).
Definition set_HI_LO (m : interp) hi lo := mkInterp (Reg m) hi lo (mem m) (pc m) (npc m).
Definition set_mem (m : interp) x := mkInterp (Reg m) (HI m) (LO m) x (pc m) (npc m).
Definition set_npc (m : interp) x := mkInterp (Reg m) (HI m) (LO m) (mem m) (pc m) x.

Definition get (m : interp) (r : Z) : res Z := (Reg m).[r].
Definition put (m : interp) (r v : Z) : res interp := x ← (Reg m).[r := v]; mret (set_Reg m x).

(** ** int.h: memory accesses, on the little-endian host *)

Definition fetch (m : interp) (addr : Z) : res Z :=
  bs ← zread (mem m) (s32 (addr - memoffset)) 4; mret (s32 (le_value bs)).
Definition sfetch (m : interp) (addr : Z) : res Z :=
  bs ← zread (mem m) (s32 (addr - memoffset)) 2;
  mret ((le_value bs + 2 ^ 15) mod 2 ^ 16 - 2 ^ 15).
Definition usfetch (m : interp) (addr : Z) : res Z :=
  bs ← zread (mem m) (s32 (addr - memoffset)) 2; mret (le_value bs).
Definition cfetch (m : interp) (addr : Z) : res Z :=
  b ← (mem m).[s32 (addr - memoffset)]; mret (s8 b).
Definition ucfetch (m : interp) (addr : Z) : res Z := (mem m).[s32 (addr - memoffset)].

Definition store (m : interp) (addr i : Z) : res interp :=
  x ← zwrite (mem m) (s32 (addr - memoffset)) (le_bytes 4 (u32 i)); mret (set_mem m x).
Definition sstore (m : interp) (addr i : Z) : res interp :=
  x ← zwrite (mem m) (s32 (addr - memoffset)) (le_bytes 2 (u16 i)); mret (set_mem m x).
Definition cstore (m : interp) (addr i : Z) : res interp :=
  x ← (mem m).[s32 (addr - memoffset) := u8 i]; mret (set_mem m x).

(** ** execute.c *)

(** The interpreter goes on, or ends the process. *)
Inductive flow := Goes (m : interp) | Exits (status : Z).

(** The shift instructions of the host use the low 5 bits of the count. *)
Definition host_count (n : Z) : Z := Z.land n 31.

Definition exec_shifts (op instr : Z) (m : interp) : res interp :=
  t ← get m (rt instr);
  if op =? I_SLL then put m (rd instr) (s32 (Z.shiftl t (shamt instr)))
  else if op =? I_SRL then put m (rd instr) (s32 (Z.shiftr (u32 t) (shamt instr)))
  else if op =? I_SRA then put m (rd instr) (Z.shiftr t (shamt instr))
  else
    s ← get m (rs instr);
    if op =? I_SLLV then put m (rd instr) (s32 (Z.shiftl t (host_count s)))
    else if op =? I_SRLV then put m (rd instr) (s32 (Z.shiftr (u32 t) (host_count s)))
    else put m (rd instr) (Z.shiftr t (host_count s)).

Definition exec_jump_register (op instr xpc : Z) (m : interp) : res interp :=
  s ← get m (rs instr);
  let m := set_npc m s in
  if op =? I_JALR then put m (rd instr) (s32 (xpc + 8)) else mret m.

Definition exec_hi_lo (op instr : Z) (m : interp) : res interp :=
  if op =? I_MFHI then put m (rd instr) (HI m)
  else if op =? I_MFLO then put m (rd instr) (LO m)
  else
    s ← get m (rs instr);
    if op =? I_MTHI then mret (set_HI_LO m s (LO m)) else mret (set_HI_LO m (HI m) s).

(** [t1h*t2h+((t1h*t2l)>>16)+((t2h*t1l)>>16)] *)
Definition high_product (t1 t2 : Z) : Z :=
  let t1l := Z.land t1 0xffff in
  let t1h := Z.land (Z.shiftr t1 16) 0xffff in
  let t2l := Z.land t2 0xffff in
  let t2h := Z.land (Z.shiftr t2 16) 0xffff in
  s32 (s32 (s32 (t1h * t2h) + Z.shiftr (s32 (t1h * t2l)) 16) + Z.shiftr (s32 (t2h * t1l)) 16).

Definition exec_mult (op instr : Z) (m : interp) : res interp :=
  t1 ← get m (rs instr);
  t2 ← get m (rt instr);
  if op =? I_MULT then
    let neg := false in
    let '(t1, neg) := if t1 <? 0 then (s32 (- t1), negb neg) else (t1, neg) in
    let '(t2, neg) := if t2 <? 0 then (s32 (- t2), negb neg) else (t2, neg) in
    let lo := s32 (t1 * t2) in
    let hi := high_product t1 t2 in
    if (neg : bool) then
      let lo := s32 (Z.lnot lo + 1) in
      let hi := Z.lnot hi in
      mret (set_HI_LO m (if lo =? 0 then s32 (hi + 1) else hi) lo)
    else mret (set_HI_LO m hi lo)
  else mret (set_HI_LO m (high_product t1 t2) (s32 (t1 * t2))).

(** [/] and [%]: the host traps on a zero divisor and on INT_MIN / -1. *)
Definition exec_divide (op instr : Z) (m : interp) : res interp :=
  s ← get m (rs instr);
  t ← get m (rt instr);
  if t =? 0 then Err DivideTrap
  else if op =? I_DIV then
    q ← int_quot s t; r ← int_rem s t; mret (set_HI_LO m r q)
  else mret (set_HI_LO m (s32 (u32 s mod u32 t)) (s32 (u32 s / u32 t))).

Definition exec_register (op instr : Z) (m : interp) : res interp :=
  s ← get m (rs instr);
  t ← get m (rt instr);
  put m (rd instr)
    (if is_one op [I_ADD; I_ADDU] then s32 (s + t)
     else if is_one op [I_SUB; I_SUBU] then s32 (s - t)
     else if op =? I_AND then Z.land s t
     else if op =? I_OR then Z.lor s t
     else if op =? I_XOR then Z.lxor s t
     else if op =? I_NOR then Z.lnot (Z.lor s t)
     else if op =? I_SLT then (if s <? t then 1 else 0)
     else (if u32 s <? u32 t then 1 else 0)).

(** [system_trap] and [system_break], of system.c, change the machine or end the
    process; the system calls are the host's. *)
Section run.
Context (system_trap system_break : interp -> res flow).

Definition goes (r : res interp) : res flow := m ← r; mret (Goes m).

(** [u()] *)
Definition u : res flow := mret (Exits 2).

Definition exec_special (instr xpc : Z) (m : interp) : res flow :=
  let op := Z.land instr 0x3f in
  if is_one op [I_SLL; I_SRL; I_SRA; I_SLLV; I_SRLV; I_SRAV] then goes (exec_shifts op instr m)
  else if is_one op [I_JR; I_JALR] then goes (exec_jump_register op instr xpc m)
  else if op =? I_SYSCALL then system_trap m
  else if op =? I_BREAK then system_break m
  else if is_one op [I_MFHI; I_MTHI; I_MFLO; I_MTLO] then goes (exec_hi_lo op instr m)
  else if is_one op [I_MULT; I_MULTU] then goes (exec_mult op instr m)
  else if is_one op [I_DIV; I_DIVU] then goes (exec_divide op instr m)
  else if is_one op [I_ADD; I_ADDU; I_SUB; I_SUBU; I_AND; I_OR; I_XOR; I_NOR; I_SLT; I_SLTU] then
    goes (exec_register op instr m)
  else u.

(** [if (taken) npc = xpc + 4 + (immed(instr)<<2)] *)
Definition branch_if (taken : bool) (instr xpc : Z) (m : interp) : interp :=
  if taken then set_npc m (s32 (s32 (xpc + 4) + off16 instr)) else m.

Definition exec_bcond (instr xpc : Z) (m : interp) : res flow :=
  let op := rt instr in
  if is_one op [I_BLTZ; I_BGEZ] then
    s ← get m (rs instr);
    mret (Goes (branch_if (if op =? I_BLTZ then s <? 0 else s >=? 0) instr xpc m))
  else if is_one op [I_BLTZAL; I_BGEZAL] then
    m ← put m 31 (s32 (xpc + 8));
    s ← get m (rs instr);
    mret (Goes (branch_if (if op =? I_BLTZAL then s <? 0 else s >=? 0) instr xpc m))
  else u.

(** [(xpc & 0xf0000000) | ((instr & 0x03ffffff) << 2)] *)
Definition jump (instr xpc : Z) : Z :=
  s32 (Z.lor (Z.land (u32 xpc) 0xf0000000) (Z.shiftl (Z.land instr 0x03ffffff) 2)).

Definition exec_jumps (op instr xpc : Z) (m : interp) : res interp :=
  m ← (if op =? I_JAL then put m 31 (s32 (xpc + 8)) else mret m);
  mret (set_npc m (jump instr xpc)).

Definition exec_branches (op instr xpc : Z) (m : interp) : res interp :=
  s ← get m (rs instr);
  t ← get m (rt instr);
  mret (branch_if (if op =? I_BEQ then s =? t
                   else if op =? I_BNE then negb (s =? t)
                   else if op =? I_BLEZ then s <=? 0
                   else s >? 0) instr xpc m).

Definition exec_immediate (op instr : Z) (m : interp) : res interp :=
  s ← get m (rs instr);
  let i := immed instr in
  put m (rt instr)
    (if is_one op [I_ADDI; I_ADDIU] then s32 (s + i)
     else if op =? I_SLTI then (if s <? i then 1 else 0)
     else if op =? I_SLTIU then (if u32 s <? u32 i then 1 else 0)
     else if op =? I_ANDI then Z.land s i
     else if op =? I_ORI then Z.lor s i
     else if op =? I_XORI then Z.lxor s i
     else s32 (Z.shiftl instr 16)).

(** The partial loads; [-1 >> n] is -1. *)
Definition load_left (instr i : Z) (m : interp) : res interp :=
  t ← get m (rt instr);
  w ← fetch m (s32 (Z.land (u32 i) 0xfffffffc));
  put m (rt instr)
    (Z.lor (Z.land t (Z.shiftr (-1) (8 * Z.land (- i) 3))) (s32 (Z.shiftl w (8 * Z.land i 3)))).
Definition load_right (instr i : Z) (m : interp) : res interp :=
  t ← get m (rt instr);
  let t := Z.land t (s32 (Z.shiftl (-1) (8 * Z.land i 3))) in
  let t := if Z.land i 3 =? 0 then 0 else t in
  w ← fetch m (s32 (Z.land (u32 i) 0xfffffffc));
  put m (rt instr) (Z.lor t (Z.shiftr w (8 * Z.land (- i) 3))).

Definition exec_loads (op instr : Z) (m : interp) : res interp :=
  s ← get m (rs instr);
  let i := s32 (s + immed instr) in
  if op =? I_LWL then load_left instr i m
  else if op =? I_LWR then load_right instr i m
  else
    v ← (if op =? I_LB then cfetch m i
         else if op =? I_LH then sfetch m i
         else if op =? I_LW then fetch m i
         else if op =? I_LBU then ucfetch m i
         else usfetch m i);
    put m (rt instr) v.

Definition exec_stores (op instr : Z) (m : interp) : res interp :=
  s ← get m (rs instr);
  t ← get m (rt instr);
  let i := s32 (s + immed instr) in
  if op =? I_SB then cstore m i t
  else if op =? I_SH then sstore m i t
  else store m i t.

(** [switch ((instr>>26) & 0x3f)] *)
Definition execute (instr xpc : Z) (m : interp) : res flow :=
  let op := Z.land (Z.shiftr instr 26) 0x3f in
  if op =? I_SPECIAL then exec_special instr xpc m
  else if op =? I_BCOND then exec_bcond instr xpc m
  else if is_one op [I_J; I_JAL] then goes (exec_jumps op instr xpc m)
  else if is_one op [I_BEQ; I_BNE; I_BLEZ; I_BGTZ] then goes (exec_branches op instr xpc m)
  else if is_one op [I_ADDI; I_ADDIU; I_SLTI; I_SLTIU; I_ANDI; I_ORI; I_XORI; I_LUI] then
    goes (exec_immediate op instr m)
  else if is_one op [I_LB; I_LH; I_LWL; I_LW; I_LBU; I_LHU; I_LWR] then goes (exec_loads op instr m)
  else if is_one op [I_SB; I_SH; I_SW] then goes (exec_stores op instr m)
  else if is_one op [I_SWL; I_SWR; I_LWC0; I_LWC1; I_LWC2; I_LWC3; I_SWC0; I_SWC1; I_SWC2; I_SWC3;
                     I_COP0; I_COP1; I_COP2; I_COP3] then mret (Exits 2)
  else u.

(** One turn of [for (;;)]. *)
Definition step (m : interp) : res flow :=
  let xpc := pc m in
  let m := mkInterp (Reg m) (HI m) (LO m) (mem m) (npc m) (s32 (npc m + 4)) in
  instr ← fetch m xpc;
  m ← put m 0 0;
  if negb (instr =? 0) then execute instr xpc m else mret (Goes m).

Fixpoint steps (n : nat) (m : interp) : res flow :=
  match n with
  | O => mret (Goes m)
  | S n =>
      f ← step m;
      match f with Goes m => steps n m | Exits _ => mret f end
  end.

(** The strings of [argv], each stored at [ai] and its address at [aci]; 0 ends a
    string. *)
Fixpoint store_args (args : list (list Z)) (aci ai : Z) (m : interp) : res interp :=
  match args with
  | [] => mret m
  | a :: args =>
      x ← zwrite (mem m) (s32 (ai - memoffset)) (a ++ [0]);
      m ← store (set_mem m x) aci ai;
      store_args args (s32 (aci + 4)) (s32 (ai + zlen a + 1)) m
  end.

(** [runprogram(startpc, argc, argv)], for [n] instructions. *)
Definition runprogram (n : nat) (startpc : Z) (argv : list (list Z)) (m : interp) : res flow :=
  let i := s32 (MEMSIZE - 1024 + memoffset) in
  m ← put m 29 i;
  m ← store m i (zlen argv);
  m ← store_args argv (s32 (i + 4)) (s32 (s32 (i + 4) + 32)) m;
  steps n (mkInterp (Reg m) (HI m) (LO m) (mem m) startpc (s32 (startpc + 4))).
End run.

(** [dump_reg]: what it prints. *)
Definition dump_line (label : string) (rs : list Z) : string :=
  label +++ fold_right (fun r t => sprintf " %08x" [AInt r] +++ t) newline rs.
Definition dump_reg (m : interp) : string :=
  dump_line " 0:" (take 8 (Reg m)) +++ dump_line " 8:" (take 8 (drop 8 (Reg m))) +++
  dump_line "16:" (take 8 (drop 16 (Reg m))) +++ dump_line "24:" (take 8 (drop 24 (Reg m))).

(** The branches of [ilog2] after its first test: [(j = (i & mask)) != 0]. *)
Definition halve (mask w : Z) (s : Z * Z) : Z * Z :=
  let '(i, l) := s in
  let j := Z.land i mask in
  if negb (j =? 0) then (j, l + w) else (i, l).
Definition ilog2 (i : Z) : Z :=
  if u32 i =? 0 then 0
  else
    let s := halve 0xffff0000 16 (u32 i, 1) in
    let s := halve 0xff00ff00 8 s in
    let s := halve 0xf0f0f0f0 4 s in
    let s := halve 0xcccccccc 2 s in
    (halve 0xaaaaaaaa 1 s).2.

(** ** The loaders *)

(** What [ldnshread] and [getc] find of a section. *)
Record section_header := mkHeader { h_scnptr : Z; h_vaddr : Z; h_size : Z }.

(** A byte of the object file, or EOF, as a [char].  [fp] was closed before
    [ldopen]; the stream [getc(fp)] reads is taken to be the one [ldopen] opened and
    FSEEK positioned. *)
Definition getc (file : list Z) (pos : Z) : Z := default 255 (znth file pos).

(** [None]: "MEMSIZE too small", and the process ends. *)
Fixpoint load_bytes (checked : bool) (n : nat) (file : list Z) (pos a : Z) (mem : list Z)
    : res (option (Z * list Z)) :=
  match n with
  | O => mret (Some (a, mem))
  | S n =>
      if checked && (s32 (a - memoffset) >=? MEMSIZE) then mret None
      else
        mem ← mem.[s32 (a - memoffset) := getc file pos];
        load_bytes checked n file (pos + 1) (s32 (a + 1)) mem
  end.

(** [load_section] of disasm.c tests the address before every byte, LOADSECTION of
    main.c after the last one. *)
Definition load_section (file : list Z) (hd : section_header) (mem : list Z) : res (option (list Z)) :=
  if negb (h_scnptr hd =? 0) then
    r ← load_bytes true (Z.to_nat (h_size hd)) file (h_scnptr hd) (h_vaddr hd) mem;
    match r with Some (_, mem) => mret (Some mem) | None => mret None end
  else mret (Some mem).
Definition LOADSECTION (file : list Z) (hd : section_header) (mem : list Z) : res (option (list Z)) :=
  if negb (h_scnptr hd =? 0) then
    r ← load_bytes false (Z.to_nat (h_size hd)) file (h_scnptr hd) (h_vaddr hd) mem;
    match r with
    | Some (a, mem) => if s32 (a - memoffset) >=? MEMSIZE then mret None else mret (Some mem)
    | None => mret None
    end
  else mret (Some mem).

(** The sections .text, .rdata, .data, .sdata, .sbss and .bss, those that are there. *)
Fixpoint load_program (load : section_header -> list Z -> res (option (list Z)))
    (sections : list (option section_header)) (mem : list Z) : res (option (list Z)) :=
  match sections with
  | [] => mret (Some mem)
  | None :: sections => load_program load sections mem
  | Some hd :: sections =>
      r ← load hd mem;
      match r with Some mem => load_program load sections mem | None => mret None end
  end.

(** [disasm] and [dis1] of disasm.c: the lines printed for the text. *)
Fixpoint disasm (n : nat) (p : Z) (m : interp) : res string :=
  match n with
  | O => mret EmptyString
  | S n =>
      instr ← fetch m p;
      line ← dump_ascii true instr p;
      rest ← disasm n (s32 (p + 4)) m;
      mret (line +++ newline +++ rest)
  end.

(** ** The two interpreters agree *)

(** The instructions on registers and program counters on which they do, with [a]
    and [b] in the registers rs and rt.  They differ on SRL and SRLV (arithmetic in
    the simulator), OR (rs | rs in the simulator), ANDI, ORI and XORI with a
    negative immediate (sign-extended here), MULT and MULTU (HI is wrong here), ADD,
    ADDI and SUB that overflow (an exception in the simulator only), a division by
    zero (here the host traps), SYSCALL and BREAK, JALR and the linking branches when they test or jump
    to the register they write, and a branch in the delay slot of another.  Loads
    are delayed in the simulator only. *)
Definition comparable (i : Instruction) (a b pc npc : Z) : bool :=
  let straight := npc =? s32 (pc + 4) in
  match opCode i with
  | OP_ADDIU | OP_ADDU | OP_AND | OP_JR | OP_LUI | OP_MFHI | OP_MFLO | OP_MTHI | OP_MTLO | OP_NOR
  | OP_SLL | OP_SLLV | OP_SLT | OP_SLTI | OP_SLTIU | OP_SLTU | OP_SRA | OP_SRAV | OP_SUBU | OP_XOR => true
  | OP_ADD => fits (a + b)
  | OP_ADDI => fits (a + extra i)
  | OP_SUB => fits (a - b)
  | OP_ANDI | OP_ORI | OP_XORI => 0 <=? extra i
  | OP_DIV => negb (b =? 0) && negb ((a =? - 2 ^ 31) && (b =? -1))
  | OP_DIVU => negb (b =? 0)
  | OP_BEQ | OP_BGEZ | OP_BGTZ | OP_BLEZ | OP_BLTZ | OP_BNE => straight
  | OP_BGEZAL | OP_BLTZAL => straight && negb (Mips.rs i =? R31)
  | OP_JALR => straight && negb (Mips.rs i =? Mips.rd i)
  | OP_J | OP_JAL => straight && (u32 pc / 2 ^ 28 =? u32 (pc + 8) / 2 ^ 28)
  | _ => false
  end.

(** The same general registers, but for register 0, and the same HI and LO. *)
Record agree (r : interp) (m : Machine) : Prop := {
  ag_len : zlen (Reg r) = 32;
  ag_total : zlen (registers m) = NumTotalRegs;
  ag_reg : forall k, 0 < k < 32 -> get r k = reg m k;
  ag_hi : reg m HiReg = Ok (HI r);
  ag_lo : reg m LoReg = Ok (LO r)
}.

(** The states of the two, between instructions, no load being delayed. *)
Record in_step (r : interp) (m : Machine) : Prop := {
  step_agree : agree r m;
  step_pc : reg m PCReg = Ok (pc r);
  step_npc : reg m NextPCReg = Ok (npc r);
  step_load : reg m LoadReg = Ok 0
}.

Lemma get_put r k v r' j : put r k v = Ok r' -> get r' j = if j =? k then Ok v else get r j.
Proof.
  unfold put, get. intros H. inv_res. apply zset_inv in E as [Hk ->]. cbn [Reg set_Reg].
  destruct (Z.eqb_spec j k) as [->|Hne].
  - apply zget_Ok. by apply znth_insert_eq.
  - unfold zget. by rewrite znth_insert_ne by lia.
Qed.

Lemma goes_bind (x : res interp) f : goes (m ← x; f m) = (m ← x; goes (f m)).
Proof. by destruct x. Qed.

Section agreement.
Context {K : Type} (k : K).

(** Both go on, from [r] and [m], to agreeing states; the memories and the
    registers above LO are left alone. *)
Definition both (r : interp) (m : Machine) (x : res flow)
    (y : res (Mips.flow * (Machine * K))) : Prop :=
  exists r' m', x = Ok (Goes r') /\ y = Ok (Next (npc r') 0 0, (m', k)) /\ agree r' m' /\
    mem r' = mem r /\ pc r' = pc r /\ mainMemory m' = mainMemory m /\
    forall j, LoReg < j -> reg m' j = reg m j.

(** The same register is written. *)
Lemma agree_put r m d x :
  agree r m -> 0 <= d < 32 ->
  exists r' m', put r d x = Ok r' /\ set_reg m d x = Ok m' /\ agree r' m' /\
    mem r' = mem r /\ pc r' = pc r /\ npc r' = npc r /\ mainMemory m' = mainMemory m /\
    forall j, reg m' j = if j =? d then Ok x else reg m j.
Proof.
  intros [H1 H2 H3 H4 H5] Hd.
  assert (exists r', put r d x = Ok r') as [r' Er].
  { unfold put. rewrite zset_Ok by (by rewrite H1). by eexists. }
  assert (exists m', set_reg m d x = Ok m') as [m' Em].
  { unfold set_reg. rewrite zset_Ok by (rewrite H2; unfold NumTotalRegs; lia). by eexists. }
  exists r', m'. split; [done|]. split; [done|].
  pose proof (fun j => set_reg_get _ _ _ _ j Em) as Hm. pose proof (fun j => get_put _ _ _ _ j Er) as Hr.
  pose proof (set_reg_frame _ _ _ _ Em) as (F1 & _ & _ & _ & F2).
  unfold put in Er. inv_res. split; [|done]. split; cbn [HI LO set_Reg Reg].
  - by rewrite (zlen_zset _ _ _ _ E).
  - by rewrite F2.
  - intros j Hj. rewrite Hm, Hr. destruct (j =? d); [done|by apply H3].
  - rewrite Hm. destruct (Z.eqb_spec HiReg d); [unfold HiReg in *; lia|done].
  - rewrite Hm. destruct (Z.eqb_spec LoReg d); [unfold LoReg in *; lia|done].
Qed.

Lemma both_put r m d x y pa :
  agree r m -> 0 <= d < 32 -> x = y -> pa = npc r ->
  both r m (goes (put r d x)) (m' ← set_reg m d y; Ok (Next pa 0 0, (m', k))).
Proof.
  intros Ha Hd <- ->. destruct (agree_put r m d x Ha Hd) as (r' & m' & -> & -> & H1 & H2 & H3 & H4 & H5 & H6).
  exists r', m'. rewrite H4. split_and!; try done.
  intros j Hj. rewrite H6. destruct (Z.eqb_spec j d); [unfold LoReg in *; lia|done].
Qed.

Lemma both_next r m pa : agree r m -> pa = npc r -> both r m (Ok (Goes r)) (Ok (Next pa 0 0, (m, k))).
Proof. intros Ha ->. by exists r, m. Qed.

(** Agreement after register [d] was written by both. *)
Lemma both_after_put r m d x f g :
  agree r m -> 0 <= d < 32 ->
  (forall r' m', agree r' m' -> npc r' = npc r ->
     (forall j, reg m' j = if j =? d then Ok x else reg m j) ->
     (forall j, get r' j = if j =? d then Ok x else get r j) -> both r' m' (f r') (g m')) ->
  both r m (r' ← put r d x; f r') (m' ← set_reg m d x; g m').
Proof.
  intros Ha Hd Hfg. destruct (agree_put r m d x Ha Hd) as (r' & m' & E1 & E2 & H1 & H2 & H3 & H4 & H5 & H6).
  rewrite E1, E2, !bind_Ok.
  destruct (Hfg r' m' H1 H4 H6 (fun j => get_put _ _ _ _ j E1)) as (r2 & m2 & G1 & G2 & G3 & G4 & G5 & G6 & G7).
  exists r2, m2. split_and!; try done; [by rewrite G4|by rewrite G5|by rewrite G6|].
  intros j Hj. rewrite G7, H6 by done. destruct (Z.eqb_spec j d); [unfold LoReg in *; lia|done].
Qed.

Lemma both_jump r m x pa :
  agree r m -> x = pa -> both r m (Ok (Goes (set_npc r x))) (Ok (Next pa 0 0, (m, k))).
Proof. intros [H1 H2 H3 H4 H5] <-. by exists (set_npc r x), m. Qed.

(** So are HI and LO. *)
Lemma agree_set r m j x :
  agree r m -> j = HiReg \/ j = LoReg ->
  exists m', set_reg m j x = Ok m' /\ mainMemory m' = mainMemory m /\
    agree (if j =? HiReg then set_HI_LO r x (LO r) else set_HI_LO r (HI r) x) m' /\
    forall i, reg m' i = if i =? j then Ok x else reg m i.
Proof.
  intros [H1 H2 H3 H4 H5] Hj.
  assert (exists m', set_reg m j x = Ok m') as [m' Em].
  { unfold set_reg. rewrite zset_Ok by (rewrite H2; destruct Hj as [-> | ->]; done). by eexists. }
  exists m'. split; [done|]. pose proof (fun j => set_reg_get _ _ _ _ j Em) as Hm.
  pose proof (set_reg_frame _ _ _ _ Em) as (F1 & _ & _ & _ & F2).
  split; [done|]. split; [|done]. split; [|by rewrite F2| | |].
  - by destruct (j =? HiReg).
  - intros i Hi. rewrite Hm. destruct (Z.eqb_spec i j) as [->|]; [unfold HiReg, LoReg in *; lia|].
    transitivity (get r i); [by destruct (j =? HiReg)|by apply H3].
  - by destruct Hj as [-> | ->]; rewrite Hm.
  - by destruct Hj as [-> | ->]; rewrite Hm.
Qed.

Lemma both_set r m j x y pa :
  agree r m -> j = HiReg \/ j = LoReg -> pa = npc r ->
  y = (if j =? HiReg then set_HI_LO r x (LO r) else set_HI_LO r (HI r) x) ->
  both r m (Ok (Goes y)) (m' ← set_reg m j x; Ok (Next pa 0 0, (m', k))).
Proof.
  intros Ha Hj -> ->. destruct (agree_set r m j x Ha Hj) as (m' & -> & H1 & H2 & H3).
  eexists _, m'. split; [done|]. split; [by destruct (j =? HiReg)|]. split; [done|].
  split_and!; [by destruct (j =? HiReg)..|done|].
  intros i Hi. rewrite H3. destruct (Z.eqb_spec i j); [unfold HiReg, LoReg in *; lia|done].
Qed.

(** Between the two, the general registers can be read again. *)
Lemma both_hi_lo r m hi lo pa (rest : Machine -> res (Mips.flow * (Machine * K))) :
  agree r m -> pa = npc r ->
  (forall m', (forall i, i < HiReg -> reg m' i = reg m i) ->
     rest m' = (m' ← set_reg m' HiReg hi; Ok (Next pa 0 0, (m', k)))) ->
  both r m (Ok (Goes (set_HI_LO r hi lo))) (m' ← set_reg m LoReg lo; rest m').
Proof.
  intros Ha -> Hrest. destruct (agree_set r m LoReg lo Ha ltac:(by right)) as (m1 & -> & H1 & H2 & H3).
  rewrite bind_Ok, Hrest.
  2: { intros i Hi. rewrite H3. destruct (Z.eqb_spec i LoReg); [unfold HiReg, LoReg in *; lia|done]. }
  destruct (both_set _ m1 HiReg hi _ (npc r) H2 ltac:(by left) eq_refl eq_refl)
    as (r' & m' & E1 & -> & G1 & G2 & G3 & G4 & G5).
  injection E1 as <-. eexists _, m'. split; [done|]. split_and!; try done; [by rewrite G4|].
  intros j Hj. rewrite G5 by done. rewrite H3. destruct (Z.eqb_spec j LoReg); [lia|done].
Qed.
End agreement.

(** One instruction: the fields of [v] as both decode them. *)
Section cases.
Context {K : Type} `{Kernel K} (k : K) (trap brk : interp -> res flow) (v : Z) (r : interp) (m : Machine) (a b npc0 : Z).
Abbreviation instr o f := (mkInstruction v o (field v 21 5) (field v 16 5) (field v 11 5) (immediate v f)).
Context (Hr : agree r m) (Hn : reg m NextPCReg = Ok npc0) (Hpc : npc r = s32 (npc0 + 4)).
Context (Ea : reg m (field v 21 5) = Ok a) (Eb : reg m (field v 16 5) = Ok b).
Context (Ga : get r (field v 21 5) = Ok a) (Gb : get r (field v 16 5) = Ok b).
Context (Ha : is_s32 a) (Hb : is_s32 b).

Definition agrees (i : Instruction) (xpc : Z) (x : res flow) : Prop :=
  comparable i a b xpc npc0 = true -> both k r m x (exec i (s32 (npc0 + 4)) m k).

(** The tests of the opcode are decided. *)
Ltac decide_test c := let x := eval vm_compute in c in change c with x; cbv iota.
Ltac decide_tests := repeat match goal with
  | |- context [is_one ?op ?l] => decide_test (is_one op l)
  | |- context [Zpos ?op =? ?l] => decide_test (Zpos op =? l)
  | |- context [Z0 =? ?l] => decide_test (Z0 =? l)
  end.

(** Both read the same operands. *)
Ltac read_operands :=
  cbv beta iota zeta delta [next mret res_ret Mips.rs Mips.rt Mips.rd extra link];
  repeat (rewrite ?Ea, ?Eb, ?Ga, ?Gb, ?(ag_hi _ _ Hr), ?(ag_lo _ _ Hr), ?Hn; rewrite bind_Ok; cbv beta);
  decide_tests;
  repeat match goal with |- context [goes (Ok ?x)] => change (goes (Ok x)) with (@Ok flow (Goes x)) end.

Lemma special_agrees o' xpc :
  specialTable.[field v 0 6] = Ok o' -> agrees (instr o' RFMT) xpc (exec_special trap brk (s32 v) xpc r).
Proof.
  pose proof (field_range v 11 5 ltac:(done)) as Hd. change (2 ^ 5) with 32 in Hd.
  pose proof (field_range v 16 5 ltac:(done)) as Ht. change (2 ^ 5) with 32 in Ht.
  pose proof (field_range v 21 5 ltac:(done)) as Hs. change (2 ^ 5) with 32 in Hs.
  pose proof (field_range v 0 6 ltac:(done)) as Hf. change (2 ^ 6) with (0 + 64) in Hf.
  unfold exec_special. rewrite funct_field. cbv zeta.
  revert o'. generalize dependent (field v 0 6). refine (enumerate _ 0 64 _).
  enumerate_all; intros o' [= <-] Hc; try discriminate Hc; decide_tests;
    unfold exec, exec_shift, exec_shifts, exec_add, exec_register, exec_sub, exec_logic, exec_last, exec_hilo, exec_hi_lo,
      exec_div, exec_divide, exec_jump, exec_jump_register; cbn [opCode comparable] in *;
    rewrite ?rd_field, ?rs_field, ?rt_field, ?shamt_field; read_operands;
    try (apply both_put; [exact Hr|exact Hd|exact eq_refl|done]).
  - (* JR *) by apply both_jump.
  - (* JALR *) apply andb_true_iff in Hc as [Hc Hne]. cbn [Mips.rs Mips.rd] in Hne. reflect_Z.
    destruct (agree_put (set_npc r a) m (field v 11 5) (s32 (xpc + 8))) as (r' & m' & E1 & E2 & H1 & H2 & H3 & H4 & H5 & H6).
    { by destruct Hr. } { done. }
    assert (s32 (npc0 + 4) = s32 (xpc + 8)) as -> by (subst npc0; word_lia).
    rewrite E1, E2, bind_Ok, H6. destruct (Z.eqb_spec (field v 21 5) (field v 11 5)); [done|].
    rewrite Ea, bind_Ok. exists r', m'. rewrite H4. split_and!; try done.
    intros j Hj. rewrite H6. destruct (Z.eqb_spec j (field v 11 5)); [unfold LoReg in *; lia|done].
  - (* MTHI *) apply both_set; by auto.
  - (* MTLO *) apply both_set; by auto.
  - (* DIV *) apply andb_true_iff in Hc as [Hb0 Hmin]. apply negb_true_iff in Hb0, Hmin.
    unfold int_quot, int_rem. rewrite Hb0, Hmin. unfold mret, res_ret, goes. rewrite !bind_Ok.
    apply (both_hi_lo _ _ _ _ _ (s32 (npc0 + 4))); [done|done|]. intros m' Hm'.
    rewrite !Hm', Ea, Eb, !bind_Ok, Hmin by (unfold HiReg; lia). by rewrite bind_Ok.
  - (* DIVU *) apply negb_true_iff in Hc. rewrite Hc. unfold goes, mret, res_ret. rewrite bind_Ok.
    assert ((u32 b =? 0) = false) as -> by (apply Z.eqb_neq; apply Z.eqb_neq in Hc; revert Hb Hc; word_lia).
    by apply (both_hi_lo _ _ _ _ _ (s32 (npc0 + 4))).
  - (* ADD *) rewrite add_overflow_test, Hc by auto. apply both_put; done.
  - (* SUB *) rewrite sub_overflow_test, Hc by auto. apply both_put; done.
Qed.

Lemma off16_spec x : s32 (x + off16 (s32 v)) = s32 (x + IndexToAddr (immediate v IFMT)).
Proof. unfold off16, IndexToAddr. by rewrite immed_field. Qed.

Lemma top_bits x y : u32 x / 2 ^ 28 = u32 y / 2 ^ 28 -> Z.land (u32 x) 0xf0000000 = Z.land (u32 y) 0xf0000000.
Proof.
  intros E. change 0xf0000000 with (Z.shiftl 0xf 28).
  rewrite <- !(Z.shiftr_div_pow2 _ 28) in E by done. apply Z.bits_inj'. intros i Hi. rewrite !Z.land_spec.
  destruct (Z.ltb_spec i 28); [by rewrite Z.shiftl_spec_low, !andb_false_r by done|].
  f_equal. rewrite <- (Z.sub_add 28 i), <- !Z.shiftr_spec by lia. by rewrite E.
Qed.

Lemma jump_spec xpc :
  u32 xpc / 2 ^ 28 = u32 (xpc + 8) / 2 ^ 28 ->
  jump (s32 v) xpc = jump_target (s32 (s32 (xpc + 4) + 4)) (immediate v JFMT).
Proof.
  intros E. unfold jump, jump_target, IndexToAddr. rewrite (top_bits _ _ E), !u32_s32.
  assert (u32 (s32 (xpc + 4) + 4) = u32 (xpc + 8)) as -> by word_lia.
  assert (Z.land (s32 v) 0x03ffffff = field v 0 26) as ->.
  { rewrite <- (Z.shiftr_0_r (s32 v)), (mask_field _ 0 26) by done. by apply field_s32. }
  cbn [immediate]. pose proof (field_range v 0 26 ltac:(done)) as Hf.
  rewrite (u32_id (Z.shiftl _ _)); [done|]. rewrite Z.shiftl_mul_pow2 by done.
  change (2 ^ 26) with 67108864 in Hf. word_lia.
Qed.

(** A branch. *)
Lemma both_branch r' m' i xpc (c d : bool) :
  agree r' m' -> npc r' = s32 (npc0 + 4) -> reg m' NextPCReg = Ok npc0 ->
  npc0 = s32 (xpc + 4) -> c = d -> extra i = immediate v IFMT ->
  both k r' m' (Ok (Goes (branch_if c (s32 v) xpc r'))) (branch i d (s32 (npc0 + 4)) m' k).
Proof.
  intros Ha' Hp Hn' E <- Ei. unfold branch_if, branch. destruct c; [|by apply both_next].
  rewrite Hn', bind_Ok. apply both_jump; [done|]. by rewrite E, off16_spec, Ei.
Qed.

Lemma both_link i xpc (c d : Z -> bool) :
  npc0 = s32 (xpc + 4) -> field v 21 5 <> 31 -> c a = d a -> extra i = immediate v IFMT ->
  both k r m
    (r' ← put r 31 (s32 (xpc + 8)); s ← get r' (field v 21 5); Ok (Goes (branch_if (c s) (s32 v) xpc r')))
    (m' ← set_reg m R31 (s32 (npc0 + 4)); s ← reg m' (field v 21 5);
     (branch i (d s) (s32 (npc0 + 4)) m' k : res (Mips.flow * (Machine * K)))).
Proof.
  intros E Hne Hcd Ei. assert (s32 (npc0 + 4) = s32 (xpc + 8)) as Enpc by (subst npc0; word_lia).
  rewrite Enpc. apply both_after_put; [done|done|]. intros r' m' Ha' Hp Hm' Hr'.
  assert (reg m' NextPCReg = Ok npc0) as Hn' by (by rewrite Hm').
  rewrite Hm', Hr'. destruct (Z.eqb_spec (field v 21 5) R31); [done|].
  rewrite Ea, Ga, !bind_Ok, Hcd, <- Enpc. apply both_branch; by rewrite ?Hp.
Qed.

Lemma bcond_agrees o' xpc :
  decode_op v BCOND = Ok o' -> agrees (instr o' IFMT) xpc (exec_bcond (s32 v) xpc r).
Proof.
  pose proof (field_range v 16 5 ltac:(done)) as Ht. change (2 ^ 5) with (0 + 32) in Ht.
  pose proof (sign_bit_neg a Ha) as Hneg. pose proof (sign_bit_nonneg a Ha) as Hpos.
  unfold exec_bcond, decode_op. rewrite rt_field. cbv zeta. revert o'.
  revert Ht Eb Gb. generalize (field v 16 5). refine (enumerate _ 0 32 _).
  enumerate_all; intros Eb' Gb' o' [= <-] Hc; try discriminate Hc; decide_tests;
    unfold exec, exec_branch; cbn [opCode comparable] in *; rewrite ?rs_field; read_operands;
    try (apply andb_true_iff in Hc as [Hc Hne%negb_true_iff]); cbn [Mips.rs] in *; reflect_Z.
  - by apply both_branch.
  - apply both_branch; try done. by rewrite Hpos, Z.geb_leb.
  - by apply (both_link _ _ (fun s => s <? 0) sign_bit).
  - apply (both_link _ _ (fun s => s >=? 0) (fun s => negb (sign_bit s))); try done. by rewrite Hpos, Z.geb_leb.
Qed.

Lemma low_immediate : (0 <=? immediate v IFMT) = true -> Z.land (immediate v IFMT) 65535 = immediate v IFMT.
Proof.
  intros Hi. reflect_Z. pose proof (immediate_range v IFMT) as Hr'.
  change 65535 with (Z.ones 16). rewrite Z.land_ones by done. revert Hi. cbn [immediate].
  change (2 ^ 15) with 32768. change (2 ^ 16) with 65536. intros Hi. Z.div_mod_to_equations. lia.
Qed.

Lemma upper_immediate : s32 (Z.shiftl (s32 v) 16) = s32 (Z.shiftl (immediate v IFMT) 16).
Proof.
  rewrite !Z.shiftl_mul_pow2 by done. cbn [immediate].
  change (2 ^ 15) with 32768. word_lia.
Qed.

Lemma normal_agrees op o f xpc :
  2 <= op < 2 + 62 -> Z.land (Z.shiftr (s32 v) 26) 0x3f = op -> znth opTable op = Some (o, f) ->
  agrees (instr o f) xpc (execute trap brk (s32 v) xpc r).
Proof.
  pose proof (sign_bit_neg a Ha) as Hneg. pose proof (sign_bit_nonneg a Ha) as Hpos.
  pose proof (field_range v 16 5 ltac:(done)) as Ht. change (2 ^ 5) with 32 in Ht.
  intros Hop E. unfold execute. rewrite E. clear E. cbv zeta. revert o f. revert op Hop. refine (enumerate _ 2 62 _).
  enumerate_all; intros o f [= <- <-] Hc; try discriminate Hc; decide_tests;
    unfold exec, exec_branch, exec_branches, exec_jump, exec_jumps, exec_add, exec_immediate, exec_shift,
      exec_logic, exec_last, exec_load; cbn [opCode comparable] in *;
    rewrite ?rs_field, ?rt_field, ?immed_field; read_operands;
    try (apply both_put; [exact Hr|exact Ht|exact eq_refl|done]).
  - (* J *) apply andb_true_iff in Hc as [Hc Hj]. reflect_Z. rewrite bind_Ok. unfold goes. rewrite bind_Ok.
    apply both_jump; [done|]. by rewrite Hc, jump_spec.
  - (* JAL *) apply andb_true_iff in Hc as [Hc Hj]. reflect_Z. rewrite Hc, goes_bind.
    assert (s32 (s32 (xpc + 4) + 4) = s32 (xpc + 8)) as E by word_lia. rewrite E.
    apply both_after_put; [done|done|]. intros r' m' Ha' Hp _ _.
    apply both_jump; [done|]. by rewrite <- E, jump_spec.
  - reflect_Z. by apply both_branch.
  - reflect_Z. by apply both_branch.
  - reflect_Z. by apply both_branch.
  - reflect_Z. by apply both_branch.
  - (* ADDI *) pose proof (immediate_range v IFMT). cbn [extra] in Hc.
    rewrite add_overflow_test, Hc by auto. apply both_put; done.
  - (* ANDI *) apply both_put; try done. by rewrite low_immediate.
  - (* ORI *) apply both_put; try done. by rewrite low_immediate.
  - (* XORI *) apply both_put; try done. by rewrite low_immediate.
  - (* LUI *) apply both_put; try done. by rewrite upper_immediate.
Qed.
End cases.

(** The no-operation, which [step] skips and the simulator shifts into register 0. *)
Lemma nop_agrees {K} `{Kernel K} (k : K) r m npc0 i :
  agree r m -> reg m 0 = Ok 0 -> npc r = s32 (npc0 + 4) -> Decode 0 = Ok i ->
  both k r m (Ok (Goes r)) (exec i (s32 (npc0 + 4)) m k).
Proof.
  intros Ha H0 Hp HD. assert (i = mkInstruction 0 OP_SLL 0 0 0 0) as -> by (vm_compute in HD; by injection HD as <-).
  clear HD. destruct (agree_put r m 0 0) as (r' & m' & E1 & E2 & Ha' & G1 & G2 & G3 & G4 & G5); [done..|].
  unfold exec, exec_shift. cbn [opCode Mips.rt Mips.rd extra]. rewrite H0, bind_Ok.
  change (s32 (Z.shiftl 0 0)) with 0. rewrite E2, bind_Ok.
  exists r, m'. rewrite Hp. split_and!; try done.
  - destruct Ha, Ha'. split; try done.
    + intros j Hj. rewrite <- ag_reg1, (get_put _ _ _ _ _ E1) by done. destruct (Z.eqb_spec j 0); [lia|done].
    + rewrite G5. exact ag_hi0.
    + rewrite G5. exact ag_lo0.
  - intros j Hj. rewrite G5. destruct (Z.eqb_spec j 0); [unfold LoReg in *; lia|done].
Qed.

(** Any instruction. *)
Lemma execute_agrees {K} `{Kernel K} (k : K) trap brk v xpc r m a b npc0 i :
  agree r m -> reg m NextPCReg = Ok npc0 -> npc r = s32 (npc0 + 4) ->
  (forall j, 0 <= j < 32 -> get r j = reg m j) ->
  Decode v = Ok i -> reg m (Mips.rs i) = Ok a -> reg m (Mips.rt i) = Ok b -> is_s32 a -> is_s32 b ->
  comparable i a b xpc npc0 = true ->
  both k r m (execute trap brk (s32 v) xpc r) (exec i (s32 (npc0 + 4)) m k).
Proof.
  intros Ha Hn Hp Hreg HD Ea Eb Hra Hrb Hc.
  destruct (Decode_fields v) as (o & f & o' & Ht & Ho & _ & E). rewrite E in HD. injection HD as <-.
  cbn [Mips.rs Mips.rt] in *.
  assert (get r (field v 21 5) = Ok a /\ get r (field v 16 5) = Ok b) as [Ga Gb].
  { split; rewrite Hreg; try done; change 32 with (2 ^ 5); by apply field_range. }
  pose proof (field_range v 26 6 ltac:(done)) as Hk. change (2 ^ 6) with 64 in Hk.
  assert (Z.land (Z.shiftr (s32 v) 26) 0x3f = field v 26 6) as Eop.
  { rewrite (mask_field _ 26 6) by done. by apply field_s32. }
  destruct (decide (field v 26 6 = 0)) as [E0|H0].
  { rewrite E0 in Ht. injection Ht as <- <-. unfold execute. rewrite Eop, E0. 
    by eapply special_agrees. }
  destruct (decide (field v 26 6 = 1)) as [E1|H1].
  { rewrite E1 in Ht. injection Ht as <- <-. unfold execute. rewrite Eop, E1. 
    by eapply bcond_agrees. }
  assert (o' = o) as ->.
  { generalize dependent (field v 26 6). intros op Ht Hop _ H0 H1. clear -Ht Hop H0 H1 Ho.
    destruct o; simpl in Ho; try (by injection Ho as <-); exfalso; revert op Hop Ht H0 H1;
      refine (enumerate _ 0 64 _); enumerate_all; done. }
  eapply normal_agrees with (op := field v 26 6); try done. lia.
Qed.

(** C31: the two interpreters of the repository agree.  From states with the same
    registers and program counters and the same word at the pc, an instruction on
    registers or a branch -- but for those on which they differ, see [comparable] --
    is executed by both, without exception, to states with the same registers, HI,
    LO and program counters again, the memories left alone; so the stand-alone
    interpreter and the simulator stay together as long as they only meet such
    instructions. *)
Theorem interpreters_agree {K} `{KernelContract K} trap brk (r : interp) (m : Machine) (k : K) w m1 k1 i a b :
  wf_cpu m -> kernel_inv k -> in_step r m ->
  ReadMem (pc r) 4 m k = Ok (Some w, (m1, k1)) -> fetch r (pc r) = Ok w -> Decode (u32 w) = Ok i ->
  reg m (Mips.rs i) = Ok a -> reg m (Mips.rt i) = Ok b -> comparable i a b (pc r) (npc r) = true ->
  exists r' m', step trap brk r = Ok (Goes r') /\ OneInstruction m k = Ok (m', k1) /\ in_step r' m' /\
    mem r' = mem r /\ mainMemory m' = mainMemory m1.
Proof.
  intros [Hm R0] Hk [Ha Epc Enpc El] HR HF HD Ea Eb Hc.
  assert (is_s32 (pc r)) as Hpc by (destruct (reg_get m PCReg (proj1 Hm)) as (? & E & ?); [done|congruence]).
  pose proof (ReadMem_ok (pc r) 4 m k Hm ltac:(by right; right) Hpc Hk) as Hread.
  rewrite HR in Hread. destruct Hread as (Hk1 & Hm1 & Hw & Hregs).
  assert (forall j, reg m1 j = reg m j) as Hreg by (intros j; unfold reg; by rewrite Hregs).
  pose proof (Decode_wf _ _ HD) as Hi. destruct (Decode_fields (u32 w)) as (o & f & o' & _ & _ & _ & E').
  destruct (reg_get m (Mips.rs i) (proj1 Hm)) as (a' & Ea' & Hra); [destruct Hi; unfold NumTotalRegs, NumGPRegs in *; lia|].
  destruct (reg_get m (Mips.rt i) (proj1 Hm)) as (b' & Eb' & Hrb); [destruct Hi; unfold NumTotalRegs, NumGPRegs in *; lia|].
  rewrite Ea in Ea'. injection Ea' as <-. rewrite Eb in Eb'. injection Eb' as <-.
  set (r0 := mkInterp (Reg r) (HI r) (LO r) (mem r) (npc r) (s32 (npc r + 4))).
  assert (exists r1, put r0 0 0 = Ok r1) as [r1 E1].
  { unfold put. rewrite zset_Ok by (rewrite (ag_len _ _ Ha : zlen (Reg r0) = 32); done). by eexists. }
  assert (agree r1 m1 /\ npc r1 = s32 (npc r + 4) /\ pc r1 = npc r /\ mem r1 = mem r) as (Ha1 & Hn1 & Hp1 & Hme1).
  { pose proof (fun j => get_put _ _ _ _ j E1) as Hg. unfold put in E1. inv_res. destruct Ha. split; [|done].
    split; cbn [Reg HI LO set_Reg]; rewrite ?Hreg, ?Hregs; try done; [by rewrite (zlen_zset _ _ _ _ E)|].
    intros j Hj. rewrite Hg, Hreg. destruct (Z.eqb_spec j 0); [lia|]. by apply ag_reg0. }
  assert (both k1 r1 m1 (if negb (w =? 0) then execute trap brk w (pc r) r1 else Ok (Goes r1))
            (exec i (s32 (npc r + 4)) m1 k1)) as (r2 & m2 & X1 & X2 & Ha2 & M1 & M2 & M3 & M4).
  { destruct (Z.eqb_spec w 0) as [->|Hne]; simpl.
    - apply nop_agrees; try done. by rewrite Hreg.
    - rewrite <- (s32_id w Hw), <- s32_u32. eapply execute_agrees; rewrite ?Hreg; try done.
      intros j Hj. destruct (decide (j = 0)) as [->|]; [|apply (ag_reg _ _ Ha1); lia].
      by rewrite (get_put _ _ _ _ 0 E1), Hreg. }
  pose proof (exec_ok i (s32 (npc r + 4)) m1 k1 Hi (s32_range _) Hm1 Hk1) as Hex. rewrite X2 in Hex.
  destruct Hex as (_ & Hm2 & Hpa & Hlr & Hlv).
  destruct (reg_get m2 LoadValueReg (proj1 Hm2)) as (lv & Elv & _); [done|].
  destruct (complete_correct m2 0 0 (npc r2) 0 lv (pc r) (npc r)) as (m3 & X3 & Hm3 & M5 & Hr3);
    [done..|by rewrite M4, Hreg|done|by rewrite M4, Hreg|by rewrite M4, Hreg|].
  exists r2, m3. split; [|split; [|split; [|split; [congruence|by rewrite M5]]]].
  - unfold step. fold r0. change (fetch r0 (pc r)) with (fetch r (pc r)). rewrite HF, bind_Ok, E1, bind_Ok. exact X1.
  - unfold OneInstruction. rewrite Epc, bind_Ok, HR, bind_Ok. cbv iota beta. rewrite HD, bind_Ok, Hreg, Enpc, bind_Ok, X2, bind_Ok.
    by rewrite X3.
  - destruct Ha2. unfold PCReg, NextPCReg, PrevPCReg, LoadReg, LoadValueReg, HiReg, LoReg in *. split.
    + split; rewrite ?Hr3; try done; [apply (wf_regs _ (proj1 (proj1 Hm3)))|].
      intros j Hj. rewrite ag_reg0, Hr3 by done.
      destruct (Z.eqb_spec j 0), (Z.eqb_spec j 34), (Z.eqb_spec j 35), (Z.eqb_spec j 36), (Z.eqb_spec j 37),
        (Z.eqb_spec j 38); try lia. done.
    + rewrite Hr3. simpl. by rewrite M2, Hp1.
    + by rewrite Hr3.
    + by rewrite Hr3.
Qed.

(** Both at [jal 0x10000100], at the address at which programs are linked; the
    simulator has it through a TLB. *)
Definition jal_machine : Machine :=
  let m := new_Machine 0 0 false in
  set_tlb (set_registers (set_mainMemory m ([0x40; 0; 0; 0x0c] ++ drop 4 (mainMemory m)))
             (<[34%nat := 0x10000000]> (<[35%nat := 0x10000004]> (registers m))))
    (Some (replicate 4 (mkEntry 0x200000 0 true false false false))).
Definition jal_interp : interp :=
  mkInterp (replicate 32 0) 0 0 [0x40; 0; 0; 0x0c] 0x10000000 0x10000004.

Lemma jal_machine_cpu : wf_cpu jal_machine.
Proof.
  split; [split|reflexivity].
  - split; try reflexivity; [|repeat apply Forall_insert; [apply Forall_replicate|..]; word_lia|].
    + cbn [mainMemory jal_machine set_tlb set_registers set_mainMemory]. apply Forall_app. split; [repeat constructor; word_lia|].
      apply Forall_drop, Forall_replicate. word_lia.
    + exists 0. split; [reflexivity|done].
  - split; [repeat constructor; simpl; word_lia|vm_compute; congruence].
Qed.

#[local] Existing Instance null_kernel_inst.
#[local] Existing Instance null_contract.

Lemma interpreters_agree_witness :
  exists r' m', step (fun m => Ok (Goes m)) (fun m => Ok (Goes m)) jal_interp = Ok (Goes r') /\
    OneInstruction jal_machine tt = Ok (m', tt) /\ in_step r' m' /\
    get r' 31 = Ok 0x10000008 /\ npc r' = 0x10000100.
Proof.
  destruct (ReadMem 0x10000000 4 jal_machine tt) as [[[w|] [m1 []]]|] eqn:E;
    [|vm_compute in E; discriminate E..].
  assert (w = 0x0c000040) as -> by (vm_compute in E; by injection E as <-).
  assert (in_step jal_interp jal_machine) as Hs.
  { split; try reflexivity. split; try reflexivity. intros j Hj.
    revert j Hj. cut (forall j, 1 <= j < 1 + 31 -> get jal_interp j = reg jal_machine j); [intros X j Hj; apply X; lia|].
    refine (enumerate _ 1 31 _). enumerate_all; reflexivity. }
  destruct (Decode 0x0c000040) as [i|] eqn:HD; [|discriminate HD].
  destruct (interpreters_agree (fun m => Ok (Goes m)) (fun m => Ok (Goes m)) jal_interp jal_machine tt 0x0c000040 m1 tt i 0 0
    jal_machine_cpu ltac:(exact I) Hs E eq_refl HD ltac:(vm_compute in HD; by injection HD as <-)
    ltac:(vm_compute in HD; by injection HD as <-) ltac:(vm_compute in HD; by injection HD as <-))
    as (r' & m' & E1 & E2 & Hs' & _ & _).
  exists r', m'. split; [exact E1|]. split; [exact E2|]. split; [exact Hs'|].
  vm_compute in E1. by injection E1 as <-.
Defined.

(** ** ilog2 *)

(** The masks select the odd groups of [w] bits; the groups of [2 w] bits are
    searched one of them at a time. *)
Lemma halve_spec mask w b x l :
  0 < w -> (forall n, 0 <= n < 32 -> Z.testbit mask n = Z.odd (n / w)) ->
  (exists q, b = 2 * w * q /\ 0 <= q) -> b + 2 * w <= 32 -> 0 < x < 2 ^ (2 * w) ->
  exists b' x', halve mask w (x * 2 ^ b, l) = (x' * 2 ^ b', l + (b' - b)) /\
    (exists q, b' = w * q /\ 0 <= q) /\ b' + w <= 32 /\ 0 < x' < 2 ^ w /\
    Z.log2 (x' * 2 ^ b') = Z.log2 (x * 2 ^ b).
Proof.
  intros Hw Hmask (q & -> & Hq) Hb Hx. set (b := 2 * w * q) in *. assert (0 <= b) by (subst b; nia).
  assert (2 ^ (2 * w) = 2 ^ w * 2 ^ w) as E2 by (rewrite <- Z.pow_add_r by lia; f_equal; lia).
  assert (Z.land (x * 2 ^ b) mask = x / 2 ^ w * 2 ^ (b + w)) as E.
  { apply Z.bits_inj'. intros n Hn. rewrite Z.land_spec, !Z.mul_pow2_bits by lia.
    destruct (Z.ltb_spec n b); [rewrite (Z.testbit_neg_r x), (Z.testbit_neg_r (x / 2 ^ w)) by lia; done|].
    destruct (Z.ltb_spec n (b + 2 * w)).
    - rewrite Hmask by lia. destruct (Z.ltb_spec n (b + w)).
      + assert (n / w = 2 * q) as -> by (symmetry; apply (Z.div_unique _ _ _ (n - b)); subst b; nia).
        rewrite Z.odd_mul, andb_false_r, Z.testbit_neg_r by lia. done.
      + assert (n / w = 2 * q + 1) as -> by (symmetry; apply (Z.div_unique _ _ _ (n - b - w)); subst b; nia).
        rewrite Z.odd_add, Z.odd_mul. simpl. rewrite andb_true_r, Z.div_pow2_bits by lia. f_equal. lia.
    - assert (Z.testbit x (n - b) = false) as ->.
      { apply Z.bits_above_log2; [lia|]. apply Z.log2_lt_pow2; [lia|].
        eapply Z.lt_le_trans; [apply Hx|]. apply Z.pow_le_mono_r; lia. }
      rewrite Z.div_pow2_bits by lia. symmetry. simpl. apply Z.bits_above_log2; [lia|]. apply Z.log2_lt_pow2; [lia|].
      eapply Z.lt_le_trans; [apply Hx|]. apply Z.pow_le_mono_r; lia. }
  assert (0 < 2 ^ w) by (apply Z.pow_pos_nonneg; lia). assert (0 < 2 ^ b) by (apply Z.pow_pos_nonneg; lia).
  assert (0 < 2 ^ (b + w)) by (apply Z.pow_pos_nonneg; lia).
  unfold halve. rewrite E. destruct (Z.ltb_spec x (2 ^ w)) as [Hs|Hl].
  - rewrite (Z.div_small x (2 ^ w)) by lia. exists b, x. cbn [negb Z.mul Z.eqb].
    split; [do 2 f_equal; lia|]. split; [exists (2 * q); subst b; lia|]. split_and!; try lia.
  - assert (0 < x / 2 ^ w) by (apply Z.div_str_pos; lia).
    assert (x / 2 ^ w < 2 ^ w) by (apply Z.div_lt_upper_bound; nia).
    destruct (Z.eqb_spec (x / 2 ^ w * 2 ^ (b + w)) 0); [nia|].
    exists (b + w), (x / 2 ^ w). split; [simpl; do 2 f_equal; lia|].
    split; [exists (2 * q + 1); subst b; lia|]. split_and!; try lia.
    rewrite !Z.log2_mul_pow2 by lia. rewrite <- Z.shiftr_div_pow2, Z.log2_shiftr by lia.
    assert (w <= Z.log2 x) by (apply Z.log2_le_pow2; lia). lia.
Qed.

Lemma mask_bits mask w :
  Forall (fun n => Z.testbit mask n = Z.odd (n / w)) (seqZ 0 32) ->
  forall n, 0 <= n < 32 -> Z.testbit mask n = Z.odd (n / w).
Proof. exact (enumerate _ 0 32). Qed.

(** [ilog2] halves the word five times with its masks and so finds the length of
    the unsigned number in bits: 0 for 0 and one more than the position of its
    highest bit otherwise. *)
Theorem ilog2_correct i : ilog2 i = if u32 i =? 0 then 0 else Z.log2 (u32 i) + 1.
Proof.
  unfold ilog2. destruct (Z.eqb_spec (u32 i) 0) as [|Hne]; [done|]. cbv zeta.
  pose proof (u32_range i) as Hi. unfold is_u32 in Hi. generalize dependent (u32 i). clear i. intros i Hne Hi.
  destruct (halve_spec 0xffff0000 16 0 i 1) as (b1 & x1 & E1 & Q1 & B1 & X1 & L1);
    [done|apply mask_bits; repeat constructor|by exists 0|done|change (2 ^ (2 * 16)) with (2 ^ 32); lia|].
  change (2 ^ 0) with 1 in *. rewrite Z.mul_1_r in E1, L1. rewrite E1.
  destruct (halve_spec 0xff00ff00 8 b1 x1 (1 + (b1 - 0))) as (b2 & x2 & -> & Q2 & B2 & X2 & L2);
    [done|apply mask_bits; repeat constructor|exact Q1|lia|exact X1|].
  destruct (halve_spec 0xf0f0f0f0 4 b2 x2 (1 + (b1 - 0) + (b2 - b1))) as (b3 & x3 & -> & Q3 & B3 & X3 & L3);
    [done|apply mask_bits; repeat constructor|exact Q2|lia|exact X2|].
  destruct (halve_spec 0xcccccccc 2 b3 x3 (1 + (b1 - 0) + (b2 - b1) + (b3 - b2))) as (b4 & x4 & -> & Q4 & B4 & X4 & L4);
    [done|apply mask_bits; repeat constructor|exact Q3|lia|exact X3|].
  destruct (halve_spec 0xaaaaaaaa 1 b4 x4 (1 + (b1 - 0) + (b2 - b1) + (b3 - b2) + (b4 - b3)))
    as (b5 & x5 & -> & (q & Q5) & B5 & X5 & L5);
    [done|apply mask_bits; repeat constructor|exact Q4|lia|exact X4|].
  assert (x5 = 1) as -> by lia. rewrite Z.log2_mul_pow2 in L5 by lia. change (Z.log2 1) with 0 in L5.
  cbn [snd]. lia.
Qed.
