(* ===== verification/Paging.v ===== *)
(** * Paging: what loading a page does

    The contract of the file system as the address space sees it, and the
    theorem that [load_page] puts the right bytes in the frame it finds. *)

From S2P Require Import Prelude BitMap Machine Interrupt Disk SynchDisk FDList AddrSpace.

(** What the address space relies on: opening prints a line that depends on the name,
    and opening a file that exists and reading a range gives the bytes of the file
    that are in the range. *)
Class FileStoreLaws (F W : Type) `{FileStore F W} := {
  fsl_ok : W -> Prop;
  fsl_file : W -> list Z -> option (list Z);
  fsl_line : list Z -> list Z;
  fsl_reads : F -> W -> list Z -> Prop;
  fsl_open name w :
    fsl_ok w -> exists o w', fs_open name w = Ok (o, fsl_line name, w') /\ fsl_ok w' /\
      (forall n, fsl_file w' n = fsl_file w n) /\
      match o, fsl_file w name with
      | Some f, Some bs => fsl_reads f w' bs
      | None, None => True
      | _, _ => False
      end;
  fsl_read f n position w bs :
    fsl_ok w -> fsl_reads f w bs -> 0 <= position < 2 ^ 31 -> position + n < 2 ^ 31 ->
    exists w', fs_read_at f n position w =
        Ok (take (Z.to_nat n) (drop (Z.to_nat position) bs), w') /\ fsl_ok w' /\
      forall n, fsl_file w' n = fsl_file w n
}.

(** ** A block read from a file into memory *)

Lemma zlen_take_drop (l : list Z) k n :
  0 <= k -> zlen (take (Z.to_nat n) (drop (Z.to_nat k) l)) = Z.max 0 (Z.min n (zlen l - k)).
Proof. intros Hk. unfold zlen. rewrite length_take, length_drop. lia. Qed.

Section block.
Context (m bs m' : list Z) (start n pos : Z).
Context (Hw : zwrite m start (take (Z.to_nat n) (drop (Z.to_nat pos) bs)) = Ok m') (Hpos : 0 <= pos).

Lemma znth_copied i :
  znth m' i = if (start <=? i) && (i <? start + n) && (pos + (i - start) <? zlen bs)
              then znth bs (pos + (i - start)) else znth m i.
Proof.
  rewrite (znth_zwrite _ _ _ _ i Hw), zlen_take_drop by done.
  destruct (Z.leb_spec start i); cbn [andb]; [|done].
  destruct (Z.ltb_spec i (start + n)), (Z.ltb_spec (pos + (i - start)) (zlen bs)),
    (Z.ltb_spec i (start + Z.max 0 (Z.min n (zlen bs - pos)))); cbn [andb]; try lia; try done.
  rewrite znth_take_drop by lia. done.
Qed.
End block.

(** ** Segments *)

(** The numbers of a header a loader can trust. *)
Definition wf_segment (g : Segment) : Prop :=
  0 <= virtualAddr g < 2 ^ 28 /\ 0 <= inFileAddr g < 2 ^ 28 /\ 0 <= seg_size g < 2 ^ 28.

(** A page number and a frame. *)
Definition wf_frame (p pp : Z) : Prop := 0 <= p < 2 ^ 20 /\ 0 <= pp < NumPhysPages.

Ltac page_lia :=
  unfold wf_segment, wf_frame, PageSize, SectorSize, NumPhysPages, MemorySize in *;
  change (2 ^ 28) with 268435456 in *; change (2 ^ 20) with 1048576 in *;
  change (2 ^ 31) with 2147483648 in *;
  rewrite ?Z.quot_div_nonneg in * by lia; rewrite ?Z.rem_mod_nonneg in * by lia;
  Z.div_mod_to_equations; lia.

Lemma seg_start_bounds g p pp :
  wf_segment g -> wf_frame p pp -> pp * PageSize <= seg_start g p pp < (pp + 1) * PageSize.
Proof. intros Hg Hp. unfold seg_start. destruct (_ =? _); page_lia. Qed.

Lemma seg_file_offset_eq g p :
  wf_segment g -> 0 <= p < 2 ^ 20 -> in_segment g p = true ->
  seg_file_offset g p =
    inFileAddr g + (if p =? Z.quot (virtualAddr g) PageSize then 0 else p * PageSize - virtualAddr g) /\
  0 <= seg_file_offset g p < 2 ^ 29.
Proof.
  intros Hg Hp Hin. unfold in_segment in Hin. apply andb_prop in Hin as [[H1 H2]%andb_prop H3].
  unfold seg_file_offset. destruct (Z.eqb_spec p (Z.quot (virtualAddr g) PageSize)) as [E|E].
  - split; [lia|]. unfold wf_segment in Hg. lia.
  - assert (0 <= p * PageSize - virtualAddr g < 2 ^ 28) as Hb.
    { apply Z.geb_le in H2. page_lia. }
    rewrite s32_id; [unfold wf_segment in Hg; lia|]. unfold wf_segment in Hg. word_lia.
Qed.

Lemma seg_end_bounds data g p pp :
  wf_frame p pp -> seg_end data g p pp <= (pp + 1) * PageSize.
Proof.
  intros Hp. unfold seg_end. set (e := s32 _). destruct (Z.eqb_spec (Z.quot e PageSize) pp) as [E|E];
    cbn [negb]; [|lia].
  destruct Hp as [_ Hpp]. pose proof (Z.quot_rem' e PageSize). rewrite E in H.
  pose proof (Z.rem_bound_abs e PageSize ltac:(done)). unfold PageSize, SectorSize, NumPhysPages in *. lia.
Qed.

(** The bytes of the memory that a segment's copy overwrites. *)
Definition copied (data : bool) (g : Segment) (p pp : Z) (len i : Z) : bool :=
  in_segment g p && ((seg_start g p pp <=? i) && (i <? seg_end data g p pp) &&
    (seg_file_offset g p + (i - seg_start g p pp) <? len)).

Section loading.
Context {F W : Type} `{FileStoreLaws F W} `{SectorStore W}.

(** [v'] is [v] up to the memory and what reading files changes. *)
Definition same_vm (v v' : vmem W) : Prop :=
  fsl_ok (store v') /\ (forall n, fsl_file (store v') n = fsl_file (store v) n) /\
  available_pages v' = available_pages v /\ available_sectors v' = available_sectors v /\
  buf v' = buf v /\ zlen (memory v') = zlen (memory v).

Lemma open_file_spec name v :
  fsl_ok (store v) ->
  exists o w, open_file name v = Ok (o, print (set_store v w) (fsl_line name)) /\ fsl_ok w /\
    (forall n, fsl_file w n = fsl_file (store v) n) /\
    match o, fsl_file (store v) name with
    | Some f, Some bs => fsl_reads f w bs
    | None, None => True
    | _, _ => False
    end.
Proof.
  intros Hok. destruct (fsl_open name (store v) Hok) as (o & w & E & H'). exists o, w. unfold open_file.
  by rewrite E, bind_Ok.
Qed.

Lemma load_segment_spec data g s p pp v bs :
  fsl_ok (store v) -> fsl_file (store v) (filename s) = Some bs ->
  zlen (memory v) = MemorySize -> wf_segment g -> wf_frame p pp ->
  exists v', load_segment data g s p pp v = Ok (true, v') /\ same_vm v v' /\
    forall i, znth (memory v') i = if copied data g p pp (zlen bs) i
      then znth bs (seg_file_offset g p + (i - seg_start g p pp)) else znth (memory v) i.
Proof.
  intros Hok Hf Hm Hg Hp. unfold load_segment, copied.
  destruct (in_segment g p) eqn:Hin; cbn [andb].
  2: { exists v. split; [done|]. split; [split_and!; done|done]. }
  destruct (open_file_spec (filename s) v Hok) as (o & w & -> & Hok1 & Hf1 & Ho).
  rewrite bind_Ok. rewrite Hf in Ho. destruct o as [f|]; [|done].
  destruct (seg_file_offset_eq g p Hg (proj1 Hp) Hin) as [_ Hfo].
  pose proof (seg_start_bounds g p pp Hg Hp) as Hst. pose proof (seg_end_bounds data g p pp Hp) as Hen.
  set (start := seg_start g p pp) in *. set (e := seg_end data g p pp) in *.
  set (fo := seg_file_offset g p) in *.
  destruct (fsl_read f (e - start) fo w bs Hok1 Ho ltac:(lia)) as (w2 & E2 & Hok2 & Hf2).
  { unfold PageSize, SectorSize in *. lia. }
  cbv zeta. cbn [store set_store print]. rewrite E2, bind_Ok. cbn [memory set_store print].
  assert (zlen (take (Z.to_nat (e - start)) (drop (Z.to_nat fo) bs)) <= PageSize) as Hlen.
  { rewrite zlen_take_drop by lia. unfold PageSize, SectorSize in *. lia. }
  assert (exists m, zwrite (memory v) start (take (Z.to_nat (e - start)) (drop (Z.to_nat fo) bs)) = Ok m)
    as [m Ew].
  { eexists. apply zwrite_Ok.
    - destruct Hp. unfold PageSize, SectorSize in *. lia.
    - rewrite Hm, zlen_take_drop by lia. destruct Hp. unfold MemorySize. nia. }
  rewrite Ew, bind_Ok. eexists. split; [reflexivity|]. split.
  - split_and!; simpl; try done; [intros n; by rewrite Hf2, Hf1|]. by apply zlen_zwrite in Ew.
  - intros i. simpl. rewrite (znth_copied _ _ _ _ _ _ Ew (proj1 Hfo) i).
    by replace (start + (e - start)) with e by lia.
Qed.

(** ** Frames *)

Lemma free_frame_spec frames : forall n i,
  0 <= i -> i + Z.of_nat n = zlen frames ->
  (exists r, free_frame n i frames = Ok (Some r) /\ i <= r < zlen frames /\ znth frames r = Some 0 /\
     forall j, i <= j < r -> znth frames j <> Some 0) \/
  (free_frame n i frames = Ok None /\ forall j, i <= j < zlen frames -> znth frames j <> Some 0).
Proof.
  induction n as [|n IH]; intros i Hi Hn; cbn [free_frame].
  - right. split; [done|]. lia.
  - destruct (zget_in_range frames i) as [x Ex]; [lia|]. rewrite Ex, bind_Ok.
    apply zget_Ok in Ex. destruct (Z.eqb_spec x 0) as [->|Hx].
    + left. exists i. split_and!; try done; lia.
    + destruct (IH (i + 1)) as [(r & -> & Hr & Hz & Hlow)|[-> Hall]]; [lia|lia|left|right].
      * exists r. split_and!; try done; try lia. intros j Hj.
        destruct (decide (j = i)) as [->|]; [congruence|]. apply Hlow. lia.
      * split; [done|]. intros j Hj. destruct (decide (j = i)) as [->|]; [congruence|].
        apply Hall. lia.
Qed.

(** [pp] is the first free frame. *)
Definition first_free (v : vmem W) (pp : Z) : Prop :=
  0 <= pp < NumPhysPages /\ znth (available_pages v) pp = Some 0 /\
  forall j, 0 <= j < pp -> znth (available_pages v) j <> Some 0.

Lemma find_frame_free yield s v p e pp :
  znth (table s) p = Some e -> zlen (available_pages v) = NumPhysPages -> first_free v pp ->
  exists t f, find_frame yield s v p = Ok (set_table s t, set_frames v f) /\
    (table s).[p := set_frame e pp] = Ok t /\ (available_pages v).[pp := 1] = Ok f.
Proof.
  intros Ee Hf (Hpp & Hz & Hlow). unfold find_frame.
  destruct (free_frame_spec (available_pages v) (Z.to_nat NumPhysPages) 0)
    as [(r & -> & Hr & Hzr & Hlowr)|[_ Hall]]; [lia|rewrite Hf; done| |].
  2: { by destruct (Hall pp); [lia|]. }
  assert (r = pp) as ->.
  { destruct (Z.lt_trichotomy r pp) as [Hlt|[->|Hlt]]; [|done|];
      [by destruct (Hlow r); [lia|]|by destruct (Hlowr pp); [lia|]]. }
  rewrite bind_Ok. pose proof (znth_Some_range _ _ _ Ee) as Hp.
  rewrite (proj2 (zget_Ok _ _ _) Ee), bind_Ok, !zset_Ok, !bind_Ok by lia.
  unfold mret, res_ret. rewrite ?bind_Ok. eexists _, _. cbn [table set_table].
  rewrite (proj2 (zget_Ok _ p (set_frame e pp))) by (by apply znth_insert_eq).
  rewrite bind_Ok. cbn [physicalPage set_frame].
  rewrite (proj2 (Z.eqb_neq pp (-1))) by lia. done.
Qed.

(** ** The image of a program *)

(** What coff2noff produces: the data follow the text in memory and in the file,
    which ends with them. *)
Record wf_program (h : NoffHeader) (bs : list Z) : Prop := {
  wp_code : wf_segment (code h);
  wp_data : wf_segment (initData h);
  wp_next : seg_size (initData h) = 0 \/
    (virtualAddr (initData h) = virtualAddr (code h) + seg_size (code h) /\
     inFileAddr (initData h) = inFileAddr (code h) + seg_size (code h));
  wp_len : zlen bs = inFileAddr (code h) + seg_size (code h) + seg_size (initData h)
}.

(** The byte at the virtual address [a] when the program starts. *)
Definition image (h : NoffHeader) (bs : list Z) (a : Z) : option Z :=
  if (virtualAddr (code h) <=? a) &&
     (a <? virtualAddr (code h) + seg_size (code h) + seg_size (initData h))
  then znth bs (inFileAddr (code h) + (a - virtualAddr (code h))) else Some 0.

(** The end computed for the data on this page is past the frame, so that it is
    clipped to the frame. *)
Definition data_clipped (h : NoffHeader) (p pp : Z) : Prop :=
  in_segment (initData h) p = true -> seg_end true (initData h) p pp = (pp + 1) * PageSize.

Section image.
Context (h : NoffHeader) (bs : list Z) (Hwp : wf_program h bs) (p pp : Z) (Hp : wf_frame p pp).

(** The bytes copied for a segment are the image's. *)
Lemma copied_image data g i :
  g = code h \/ (g = initData h /\ seg_size g <> 0) ->
  copied data g p pp (zlen bs) i = true ->
  virtualAddr g <= p * PageSize + (i - pp * PageSize) /\
  image h bs (p * PageSize + (i - pp * PageSize)) =
    znth bs (seg_file_offset g p + (i - seg_start g p pp)).
Proof.
  intros Hg Hc. destruct Hwp as [Hwc Hwd Hnext Hlen].
  assert (wf_segment g) as Hwg by (by destruct Hg as [->|[-> _]]).
  unfold copied in Hc. apply andb_prop in Hc as [Hin [[Hc1 Hc2]%andb_prop Hc3]%andb_prop].
  destruct (seg_file_offset_eq g p Hwg (proj1 Hp) Hin) as [Efo _]. rewrite Efo in *.
  apply Z.leb_le in Hc1. apply Z.ltb_lt in Hc3.
  unfold in_segment in Hin. apply andb_prop in Hin as [[Hs Hge]%andb_prop _].
  apply Z.geb_le in Hge. apply Z.gtb_lt in Hs.
  unfold seg_start in *.
  assert (seg_file_offset g p + (i - seg_start g p pp) = inFileAddr g +
    (p * PageSize + (i - pp * PageSize) - virtualAddr g) /\
    virtualAddr g <= p * PageSize + (i - pp * PageSize)) as [Ea Hva].
  { rewrite Efo. unfold seg_start. destruct (Z.eqb_spec p (Z.quot (virtualAddr g) PageSize)); page_lia. }
  rewrite Efo in Ea. unfold seg_start in Ea. rewrite Ea in *. split; [exact Hva|].
  unfold image.
  assert (inFileAddr g - virtualAddr g = inFileAddr (code h) - virtualAddr (code h) /\
    virtualAddr (code h) <= virtualAddr g) as [Em Hvc].
  { destruct Hg as [->|[-> Hne]]; [lia|]. destruct Hnext as [?|[E1 E2]]; [lia|].
    rewrite E1, E2. unfold wf_segment in Hwc. lia. }
  set (a := p * PageSize + (i - pp * PageSize)) in *.
  destruct (Z.leb_spec (virtualAddr (code h)) a); [|lia].
  destruct (Z.ltb_spec a (virtualAddr (code h) + seg_size (code h) + seg_size (initData h))); [|lia].
  cbn [andb]. f_equal. lia.
Qed.

(** Every byte of the image that is not zero is copied. *)
Lemma image_copied i :
  data_clipped h p pp -> pp * PageSize <= i < (pp + 1) * PageSize ->
  copied false (code h) p pp (zlen bs) i = false ->
  copied true (initData h) p pp (zlen bs) i = false ->
  image h bs (p * PageSize + (i - pp * PageSize)) = Some 0.
Proof.
  intros Hd Hi Hc1 Hc2. destruct Hwp as [Hwc Hwd Hnext Hlen]. unfold image.
  set (a := p * PageSize + (i - pp * PageSize)) in *.
  destruct (Z.leb_spec (virtualAddr (code h)) a) as [Ha|]; [|done].
  destruct (Z.ltb_spec a (virtualAddr (code h) + seg_size (code h) + seg_size (initData h)))
    as [Hb|]; [|done]. exfalso.
  assert (Z.quot a PageSize = p) as Hpa by (unfold a; clear -Hp Hi; page_lia).
  destruct (Z.lt_ge_cases a (virtualAddr (code h) + seg_size (code h))) as [Hlt|Hge].
  - enough (copied false (code h) p pp (zlen bs) i = true) by congruence.
    assert (in_segment (code h) p = true) as Hin.
    { unfold in_segment. rewrite s32_id by (unfold wf_segment in Hwc; word_lia).
      clear -Ha Hlt Hwc Hpa. clearbody a. repeat (apply andb_true_intro; split);
        [apply Z.gtb_lt|apply Z.geb_le|apply Z.leb_le]; page_lia. }
    destruct (seg_file_offset_eq (code h) p Hwc (proj1 Hp) Hin) as [Efo _].
    pose proof (seg_start_bounds (code h) p pp Hwc Hp) as Hst.
    unfold copied. rewrite Hin, Efo. unfold seg_end.
    rewrite s32_id by (clear -Hwc Hp Hst; unfold wf_segment, wf_frame, NumPhysPages, PageSize,
      SectorSize in *; word_lia).
    clear Hst. unfold seg_start.
    clear -Ha Hlt Hwc Hpa Hp Hi Hlen Hwd.
    repeat (apply andb_true_intro; split); try apply Z.leb_le; try apply Z.ltb_lt.
    + done.
    + destruct (Z.eqb_spec p (Z.quot (virtualAddr (code h)) PageSize)); unfold a in *; page_lia.
    + destruct (Z.eqb_spec p (Z.quot (virtualAddr (code h)) PageSize));
        match goal with |- context [negb (?x =? ?y)] => destruct (Z.eqb_spec x y) end; cbn [negb];
        unfold a in *; page_lia.
    + destruct (Z.eqb_spec p (Z.quot (virtualAddr (code h)) PageSize)); unfold a in *; page_lia.
  - destruct Hnext as [?|[E1 E2]]; [lia|].
    enough (copied true (initData h) p pp (zlen bs) i = true) by congruence.
    assert (in_segment (initData h) p = true) as Hin.
    { unfold in_segment. rewrite s32_id by (unfold wf_segment in Hwd; word_lia).
      clear -Ha Hge Hb E1 Hwd Hpa. clearbody a. repeat (apply andb_true_intro; split);
        [apply Z.gtb_lt|apply Z.geb_le|apply Z.leb_le]; page_lia. }
    destruct (seg_file_offset_eq (initData h) p Hwd (proj1 Hp) Hin) as [Efo _].
    unfold copied. rewrite Hin, Efo, (Hd Hin). unfold seg_start.
    clear -Ha Hge Hb E1 E2 Hwd Hwc Hpa Hp Hi Hlen.
    repeat (apply andb_true_intro; split); try apply Z.leb_le; try apply Z.ltb_lt.
    + done.
    + destruct (Z.eqb_spec p (Z.quot (virtualAddr (initData h)) PageSize)); unfold a in *; page_lia.
    + lia.
    + destruct (Z.eqb_spec p (Z.quot (virtualAddr (initData h)) PageSize)); unfold a in *; page_lia.
Qed.
End image.
End loading.

(** ** Loading a page *)

(** A space as the constructor makes it and the operations keep it. *)
Record wf_space (s : AddrSpace) : Prop := {
  ws_pages : 0 <= numPages s <= NumPhysPages;
  ws_table : zlen (table s) = numPages s;
  ws_virt : forall p e, znth (table s) p = Some e -> virtualPage e = p;
  ws_disk : wf (on_disk s) /\ numBits (on_disk s) = numPages s /\ marked (on_disk s) = ∅;
  ws_sectors : zlen (page_sector s) = numPages s
}.

Record wf_vm {W} (v : vmem W) : Prop := {
  wv_memory : zlen (memory v) = MemorySize;
  wv_frames : zlen (available_pages v) = NumPhysPages;
  wv_sectors : wf (available_sectors v) /\ numBits (available_sectors v) = NumSectors
}.

Lemma page_index s p e :
  wf_space s -> znth (table s) p = Some e ->
  0 <= p < numPages s /\ (u32 p >=? numPages s) || (p <? 0) = false.
Proof.
  intros Hs E. pose proof (znth_Some_range _ _ _ E) as Hp. rewrite (ws_table _ Hs) in Hp.
  split; [done|]. pose proof (ws_pages _ Hs) as Hn. unfold NumPhysPages in Hn.
  rewrite u32_id by word_lia. apply orb_false_iff. split; [|apply Z.ltb_ge; lia].
  rewrite Z.geb_leb. apply Z.leb_gt. lia.
Qed.

Lemma Test_empty b i : wf b -> marked b = ∅ -> valid_bit b i -> Test b i = Ok false.
Proof.
  intros Hb Hm Hi. rewrite Test_marked by done. f_equal. apply bool_decide_eq_false. rewrite Hm.
  apply not_elem_of_empty.
Qed.

Section load_page.
Context {F W : Type} `{FileStoreLaws F W} `{SectorStore W}.
Context (yield : vmem W -> res (vmem W)).

Lemma load_segments_image h s p pp v m0 bs :
  noffH s = h -> fsl_ok (store v) -> fsl_file (store v) (filename s) = Some bs ->
  wf_program h bs -> wf_frame p pp -> zlen m0 = MemorySize ->
  zwrite m0 (pp * PageSize) (replicate (Z.to_nat PageSize) 0) = Ok (memory v) ->
  data_clipped h p pp ->
  exists v1 v2, load_segment false (code h) s p pp v = Ok (true, v1) /\
    load_segment true (initData h) s p pp v1 = Ok (true, v2) /\ same_vm v v2 /\
    (forall j, 0 <= j < PageSize -> znth (memory v2) (pp * PageSize + j) = image h bs (p * PageSize + j)) /\
    (forall i, ~ pp * PageSize <= i < (pp + 1) * PageSize -> znth (memory v2) i = znth m0 i).
Proof.
  intros Eh Hok Hf Hwp Hp Hm0 Hz Hd. pose proof (zlen_zwrite _ _ _ _ Hz) as Hm. rewrite Hm0 in Hm.
  destruct (load_segment_spec false (code h) s p pp v bs Hok Hf Hm (wp_code _ _ Hwp) Hp)
    as (v1 & E1 & (Hok1 & Hf1 & A1 & B1 & C1 & M1) & Hc1).
  destruct (load_segment_spec true (initData h) s p pp v1 bs Hok1) as
    (v2 & E2 & (Hok2 & Hf2 & A2 & B2 & C2 & M2) & Hc2);
    [by rewrite Hf1|congruence|exact (wp_data _ _ Hwp)|exact Hp|].
  exists v1, v2. split; [exact E1|]. split; [exact E2|]. split.
  { split_and!; [done|intros n; by rewrite Hf2|congruence..]. }
  assert (forall i, znth (memory v) i =
    if (pp * PageSize <=? i) && (i <? (pp + 1) * PageSize) then Some 0 else znth m0 i) as Hbz.
  { intros i. rewrite (znth_zwrite _ _ _ _ i Hz).
    assert (zlen (replicate (Z.to_nat PageSize) 0) = PageSize) as -> by done.
    replace ((pp + 1) * PageSize) with (pp * PageSize + PageSize) by lia.
    destruct (_ && _) eqn:Eb; [|done]. apply andb_prop in Eb as [Eb1 Eb2].
    apply Z.leb_le in Eb1. apply Z.ltb_lt in Eb2. rewrite znth_lookup by lia.
    apply lookup_replicate_2. lia. }
  split.
  - intros j Hj. replace (p * PageSize + j) with (p * PageSize + (pp * PageSize + j - pp * PageSize)) by lia.
    set (i := pp * PageSize + j) in *. rewrite Hc2, Hc1, Hbz.
    destruct (copied true (initData h) p pp (zlen bs) i) eqn:Ec2.
    { symmetry. apply (copied_image h bs Hwp p pp Hp true (initData h) i); [|done]. right.
      split; [done|]. unfold copied, in_segment in Ec2. intros Hz0. by rewrite Hz0 in Ec2. }
    destruct (copied false (code h) p pp (zlen bs) i) eqn:Ec1.
    { symmetry. apply (copied_image h bs Hwp p pp Hp false (code h) i); [by left|done]. }
    rewrite (image_copied h bs Hwp p pp Hp i Hd ltac:(unfold i; lia) Ec1 Ec2).
    destruct (Z.leb_spec (pp * PageSize) i), (Z.ltb_spec i ((pp + 1) * PageSize)); unfold i in *; done || lia.
  - intros i Hi. rewrite Hc2, Hc1, Hbz.
    assert (forall data g, wf_segment g -> copied data g p pp (zlen bs) i = false) as Hno.
    { intros data g Hg. pose proof (seg_start_bounds g p pp Hg Hp).
      pose proof (seg_end_bounds data g p pp Hp). unfold copied.
      destruct (Z.leb_spec (seg_start g p pp) i), (Z.ltb_spec i (seg_end data g p pp)); cbn [andb];
        rewrite ?andb_false_r; done || lia. }
    rewrite (Hno true _ (wp_data _ _ Hwp)), (Hno false _ (wp_code _ _ Hwp)).
    destruct (Z.leb_spec (pp * PageSize) i), (Z.ltb_spec i ((pp + 1) * PageSize)); cbn [andb]; done || lia.
Qed.

(** When a page that is not in memory is loaded and a frame is free, load_page
    takes the first free frame, fills it with exactly the page's part of the
    program's image (text, data, zeros for the rest), touches no other byte of
    memory, and maps the page to the frame; the program's files are as before.
    The hypothesis [data_clipped] excludes the pages on which the end of the data
    is computed wrongly. *)
Lemma load_page_spec s (v : vmem W) p e pp bs :
  wf_space s -> wf_vm v -> fsl_ok (store v) ->
  fsl_file (store v) (filename s) = Some bs -> wf_program (noffH s) bs ->
  znth (table s) p = Some e -> valid e = false -> first_free v pp -> data_clipped (noffH s) p pp ->
  exists t v', load_page yield s v p = Ok (pp, (set_table s t, v')) /\
    (table s).[p := mkEntry p pp true (readOnly e) (use e) (dirty e)] = Ok t /\
    (available_pages v).[pp := 1] = Ok (available_pages v') /\ wf_vm v' /\
    fsl_ok (store v') /\ (forall n, fsl_file (store v') n = fsl_file (store v) n) /\
    (forall j, 0 <= j < PageSize ->
       znth (memory v') (pp * PageSize + j) = image (noffH s) bs (p * PageSize + j)) /\
    (forall i, ~ pp * PageSize <= i < (pp + 1) * PageSize -> znth (memory v') i = znth (memory v) i) /\
    buf v' = buf v.
Proof.
  intros Hs Hv Hok Hf Hwp Ee Hva Hfree Hd.
  destruct (page_index s p e Hs Ee) as [Hp Hr]. pose proof (ws_virt _ Hs p e Ee) as Hvp.
  assert (wf_frame p pp) as Hwf.
  { split; [|apply Hfree]. pose proof (ws_pages _ Hs). unfold NumPhysPages in *. lia. }
  unfold load_page. rewrite Hr, (proj2 (zget_Ok _ _ _) Ee), bind_Ok, Hvp, Z.eqb_refl, Hva. cbn [negb].
  destruct (find_frame_free yield s v p e pp Ee (wv_frames _ Hv) Hfree) as (t & f & -> & Et & Ef).
  rewrite bind_Ok. cbn [table set_table on_disk noffH filename].
  pose proof (znth_Some_range _ _ _ Ee) as Hpr.
  assert (t.[p] = Ok (set_frame e pp)) as Etp.
  { apply zget_Ok. rewrite zset_Ok in Et by done. apply Ok_inj in Et. subst t.
    by apply znth_insert_eq. }
  rewrite Etp, bind_Ok. cbn [physicalPage set_frame virtualPage]. cbv zeta.
  destruct (ws_disk _ Hs) as (Hdb & Hdn & Hdm).
  rewrite (Test_empty _ p Hdb Hdm) by (unfold valid_bit; lia). rewrite bind_Ok. cbn [memory set_frames].
  destruct Hwf as [Hwp0 Hwpp]. pose proof (wv_memory _ Hv) as Hm.
  assert (exists m, zwrite (memory v) (pp * PageSize) (replicate (Z.to_nat PageSize) 0) = Ok m) as [m Em].
  { eexists. apply zwrite_Ok; [unfold PageSize, SectorSize; lia|].
    change (zlen (replicate (Z.to_nat PageSize) 0)) with PageSize.
    rewrite Hm. unfold MemorySize, NumPhysPages, PageSize, SectorSize in *. lia. }
  rewrite Em, bind_Ok.
  destruct (load_segments_image (noffH s) (set_table s t) p pp (set_memory (set_frames v f) m)
    (memory v) bs eq_refl Hok Hf Hwp (conj Hwp0 Hwpp) Hm Em Hd)
    as (v1 & v2 & -> & E2 & (Hok2 & Hf2 & A2 & B2 & C2 & M2) & Him & Hout).
  rewrite bind_Ok. cbn [negb]. rewrite E2, bind_Ok. cbn [negb].
  pose proof (zlen_zset _ _ _ _ Et) as Ht. rewrite zset_Ok, bind_Ok by (rewrite Ht; exact Hpr).
  eexists _, v2. split; [reflexivity|]. simpl in A2, B2, M2. split_and!; try done.
  - rewrite zset_Ok in Et |- * by done. apply Ok_inj in Et. subst t. rewrite list_insert_insert_eq.
    unfold set_valid, set_frame. simpl. by rewrite Hvp.
  - by rewrite A2.
  - split; [rewrite M2; by apply zlen_zwrite in Em as ->|rewrite A2; apply zlen_zset in Ef as ->; apply Hv|].
    rewrite B2. apply Hv.
Qed.
End load_page.
