(* ===== verification/Host.v ===== *)
(** * Host: the file calls of machine/sysdep.cc, and the file system that is a
    stub on top of them

    In the build of userprog/ (FILESYS_STUB) the classes of filesys/filesys.h and
    filesys/openfile.h pass their calls on to UNIX.  UNIX is an interface: its
    calls, with their laws for regular files.  The stub fulfils the contract that
    the address spaces have with the file system (Paging.v), as the Nachos file
    system does (Executable.v). *)

From S2P Require Import Prelude BitMap Machine Interrupt Disk SynchDisk FDList AddrSpace Paging.

(** ** UNIX *)

(** [open] (with O_CREAT and O_TRUNC or without), [read], [write], [lseek],
    [close] and [unlink]. *)
Class Host (W : Type) := {
  host_open : list Z -> bool -> W -> Z * W;
  host_read : Z -> Z -> W -> Z * list Z * W;
  host_write : Z -> list Z -> W -> Z * W;
  host_lseek : Z -> Z -> Z -> W -> Z * W;
  host_close : Z -> W -> Z * W;
  host_unlink : list Z -> W -> Z * W
}.

(** ** sysdep.cc *)

Section sysdep.
Context {W : Type} `{Host W}.
Implicit Types (fd : Z) (w : W).

Definition OpenForWrite (name : list Z) w : res (Z * W) :=
  let '(fd, w) := host_open name true w in
  _ ← ASSERT (fd >=? 0);
  mret (fd, w).

Definition OpenForReadWrite (name : list Z) (crashOnError : bool) w : res (Z * W) :=
  let '(fd, w) := host_open name false w in
  _ ← ASSERT (negb crashOnError || (fd >=? 0));
  mret (fd, w).

Definition sys_Read fd (nBytes : Z) w : res (list Z * W) :=
  let '(retVal, bytes, w) := host_read fd nBytes w in
  _ ← ASSERT (retVal =? nBytes);
  mret (bytes, w).

Definition ReadPartial fd (nBytes : Z) w : Z * list Z * W := host_read fd nBytes w.

(** The first [nBytes] of [buffer]. *)
Definition sys_WriteFile fd (buffer : list Z) (nBytes : Z) w : res W :=
  bytes ← zread buffer 0 nBytes;
  let '(retVal, w) := host_write fd bytes w in
  _ ← ASSERT (retVal =? nBytes);
  mret w.

Definition Lseek fd (offset whence : Z) w : res W :=
  let '(retVal, w) := host_lseek fd offset whence w in
  _ ← ASSERT (retVal >=? 0);
  mret w.

(** [lseek(fd, 0, SEEK_CUR)] *)
Definition Tell fd w : Z * W := host_lseek fd 0 1 w.

Definition Close fd w : res W :=
  let '(retVal, w) := host_close fd w in
  _ ← ASSERT (retVal >=? 0);
  mret w.

Definition Unlink (name : list Z) w : bool * W :=
  let '(r, w) := host_unlink name w in (negb (r =? 0), w).

(** ** openfile.h and filesys.h with FILESYS_STUB *)

Record StubFile := mkStub { file : Z; currentOffset : Z }.

Definition stub_ReadAt (f : StubFile) (numBytes position : Z) w : res (Z * list Z * W) :=
  w ← Lseek (file f) position 0 w;
  mret (ReadPartial (file f) numBytes w).

Definition stub_WriteAt (f : StubFile) (from : list Z) (numBytes position : Z) w : res (Z * W) :=
  w ← Lseek (file f) position 0 w;
  w ← sys_WriteFile (file f) from numBytes w;
  mret (numBytes, w).

Definition stub_Read (f : StubFile) (numBytes : Z) w : res (Z * list Z * (StubFile * W)) :=
  '(numRead, bytes, w) ← stub_ReadAt f numBytes (currentOffset f) w;
  mret (numRead, bytes, (mkStub (file f) (s32 (currentOffset f + numRead)), w)).

Definition stub_Write (f : StubFile) (from : list Z) (numBytes : Z) w : res (Z * (StubFile * W)) :=
  '(numWritten, w) ← stub_WriteAt f from numBytes (currentOffset f) w;
  mret (numWritten, (mkStub (file f) (s32 (currentOffset f + numWritten)), w)).

Definition stub_Length (f : StubFile) w : res (Z * W) :=
  w ← Lseek (file f) 0 2 w;
  mret (Tell (file f) w).

(** The destructor. *)
Definition stub_delete (f : StubFile) w : res W := Close (file f) w.

Definition stub_Create (name : list Z) (initialSize : Z) w : res (bool * W) :=
  '(fileDescriptor, w) ← OpenForWrite name w;
  if fileDescriptor =? -1 then mret (false, w)
  else
    w ← Close fileDescriptor w;
    mret (true, w).

Definition stub_Open (name : list Z) w : res (option StubFile * W) :=
  '(fileDescriptor, w) ← OpenForReadWrite name false w;
  if fileDescriptor =? -1 then mret (None, w) else mret (Some (mkStub fileDescriptor 0), w).

Definition stub_Remove (name : list Z) w : bool * W :=
  let '(r, w) := Unlink name w in (negb r, w).

(** What the address spaces call. *)
#[local] Instance stub_store : FileStore StubFile W := {|
  fs_open name w := '(f, w) ← stub_Open name w; mret (f, [], w);
  fs_read_at f n position w := '(_, bytes, w) ← stub_ReadAt f n position w; mret (bytes, w)
|}.
End sysdep.

(** ** The laws of UNIX *)

(** What a write of [data] at [p] leaves of a file; a hole is filled with zeros. *)
Definition overwrite (bs : list Z) (p : Z) (data : list Z) : list Z :=
  let bs := bs ++ replicate (Z.to_nat (p + zlen data - zlen bs)) 0 in
  take (Z.to_nat p) bs ++ data ++ drop (Z.to_nat (p + zlen data)) bs.

(** For regular files, on a host with descriptors and space to spare, and with the
    permissions: names stand for files, descriptors for files and positions. *)
Class HostLaws (W : Type) `{Host W} := {
  host_ok : W -> Prop;
  names : W -> gmap (list Z) Z;
  files : W -> gmap Z (list Z);
  descs : W -> gmap Z (Z * Z);
  names_files w name i : host_ok w -> names w !! name = Some i -> is_Some (files w !! i);
  open_old name w i :
    host_ok w -> names w !! name = Some i ->
    exists fd w', host_open name false w = (fd, w') /\ host_ok w' /\ 0 <= fd /\ descs w !! fd = None /\
      descs w' = <[fd := (i, 0)]> (descs w) /\ names w' = names w /\ files w' = files w;
  open_missing name w :
    host_ok w -> names w !! name = None ->
    exists w', host_open name false w = (-1, w') /\ host_ok w' /\
      descs w' = descs w /\ names w' = names w /\ files w' = files w;
  open_create name w :
    host_ok w ->
    exists fd i w', host_open name true w = (fd, w') /\ host_ok w' /\ 0 <= fd /\ descs w !! fd = None /\
      (names w !! name = Some i \/ (names w !! name = None /\ files w !! i = None)) /\
      descs w' = <[fd := (i, 0)]> (descs w) /\ names w' = <[name := i]> (names w) /\ files w' = <[i := []]> (files w);
  lseek_desc fd offset whence w i p bs :
    host_ok w -> descs w !! fd = Some (i, p) -> files w !! i = Some bs ->
    let target := if whence =? 0 then offset else if whence =? 1 then p + offset else zlen bs + offset in
    0 <= whence <= 2 -> 0 <= target < 2 ^ 31 ->
    exists w', host_lseek fd offset whence w = (target, w') /\ host_ok w' /\
      descs w' = <[fd := (i, target)]> (descs w) /\ names w' = names w /\ files w' = files w;
  read_desc fd n w i p bs :
    host_ok w -> descs w !! fd = Some (i, p) -> files w !! i = Some bs ->
    let got := take (Z.to_nat n) (drop (Z.to_nat p) bs) in
    exists w', host_read fd n w = (if n <? 0 then -1 else zlen got, got, w') /\ host_ok w' /\
      descs w' = <[fd := (i, p + zlen got)]> (descs w) /\ names w' = names w /\ files w' = files w;
  write_desc fd data w i p bs :
    host_ok w -> descs w !! fd = Some (i, p) -> files w !! i = Some bs -> p + zlen data < 2 ^ 31 ->
    exists w', host_write fd data w = (zlen data, w') /\ host_ok w' /\
      descs w' = <[fd := (i, p + zlen data)]> (descs w) /\ names w' = names w /\
      files w' = if decide (data = []) then files w else <[i := overwrite bs p data]> (files w);
  close_desc fd w i p :
    host_ok w -> descs w !! fd = Some (i, p) ->
    exists w', host_close fd w = (0, w') /\ host_ok w' /\
      descs w' = delete fd (descs w) /\ names w' = names w /\ files w' = files w;
  unlink_name name w :
    host_ok w ->
    exists w', host_unlink name w = (if decide (is_Some (names w !! name)) then 0 else -1, w') /\ host_ok w' /\
      descs w' = descs w /\ names w' = delete name (names w) /\ files w' = files w
}.

(** ** The stub *)

Section stub.
Context {W : Type} `{HostLaws W}.
Implicit Types (f : StubFile) (w : W).

(** [f] is open on the file [i]. *)
Definition on_file w f (i : Z) : Prop := exists p, descs w !! file f = Some (i, p).

(** A file a name stands for. *)
Definition file_named w (name : list Z) : option (list Z) := names w !! name ≫= fun i => files w !! i.

(** What a call on open files keeps. *)
Record same_names w w' : Prop := {
  sn_ok : host_ok w';
  sn_names : names w' = names w;
  sn_open : forall g i, on_file w g i -> on_file w' g i
}.

Lemma on_file_insert w w' f i p :
  on_file w f i -> descs w' = <[file f := (i, p)]> (descs w) -> forall g j, on_file w g j -> on_file w' g j.
Proof.
  intros (q & E) Ed g j (r & Eg). unfold on_file. rewrite Ed. destruct (decide (file g = file f)) as [Eq|Hne].
  - rewrite Eq in *. assert (j = i) as -> by congruence. rewrite lookup_insert_eq. by eexists.
  - rewrite lookup_insert_ne by done. by eexists.
Qed.

Lemma Lseek_set w f i bs position :
  host_ok w -> on_file w f i -> files w !! i = Some bs -> 0 <= position < 2 ^ 31 ->
  exists w', Lseek (file f) position 0 w = Ok w' /\ same_names w w' /\ files w' = files w /\ descs w' !! file f = Some (i, position).
Proof.
  intros Hok (p & Ed) Ef Hp. unfold Lseek.
  destruct (lseek_desc (file f) position 0 w i p bs Hok Ed Ef) as (w' & -> & Hok' & Hd & Hn & Hf); [lia|exact Hp|]. cbn [Z.eqb].
  exists w'. rewrite ASSERT_true, bind_Ok by (rewrite Z.geb_leb; apply Z.leb_le; lia). split; [done|].
  split; [|split; [done|by rewrite Hd, lookup_insert_eq]]. split; [done|done|]. eapply on_file_insert; [by eexists|exact Hd].
Qed.

(** Reading gives the bytes of the range that are in the file. *)
Lemma stub_ReadAt_spec w f i bs n position :
  host_ok w -> on_file w f i -> files w !! i = Some bs -> 0 <= position < 2 ^ 31 ->
  let got := take (Z.to_nat n) (drop (Z.to_nat position) bs) in
  exists w', stub_ReadAt f n position w = Ok (if n <? 0 then -1 else zlen got, got, w') /\ same_names w w' /\ files w' = files w.
Proof.
  intros Hok Ho Ef Hp got. destruct (Lseek_set w f i bs position Hok Ho Ef Hp) as (w1 & E1 & [Ho1 Hn1 Hk1] & Hf1 & Hd1).
  unfold stub_ReadAt, ReadPartial. rewrite E1, bind_Ok.
  destruct (read_desc (file f) n w1 i position bs Ho1 Hd1) as (w2 & -> & Ho2 & Hd2 & Hn2 & Hf2); [by rewrite Hf1|].
  exists w2. split; [done|]. split; [|congruence]. split; [done|congruence|]. intros g j Hg.
  eapply on_file_insert; [by eexists|exact Hd2|by apply Hk1].
Qed.

(** Writing puts the bytes in the file, and makes it longer when they reach past
    its end. *)
Lemma stub_WriteAt_spec w f i bs from n position :
  host_ok w -> on_file w f i -> files w !! i = Some bs -> 0 <= position -> 0 < n <= zlen from -> position + n < 2 ^ 31 ->
  exists w', stub_WriteAt f from n position w = Ok (n, w') /\ same_names w w' /\
    files w' = <[i := overwrite bs position (take (Z.to_nat n) from)]> (files w).
Proof.
  intros Hok Ho Ef Hp Hn Hb. destruct (Lseek_set w f i bs position Hok Ho Ef ltac:(lia)) as (w1 & E1 & [Ho1 Hn1 Hk1] & Hf1 & Hd1).
  unfold stub_WriteAt, sys_WriteFile. rewrite E1, bind_Ok, zread_Ok, bind_Ok, drop_0 by lia.
  assert (zlen (take (Z.to_nat n) from) = n) as Hl by (unfold zlen in *; rewrite length_take; lia).
  destruct (write_desc (file f) (take (Z.to_nat n) from) w1 i position bs Ho1 Hd1) as (w2 & -> & Ho2 & Hd2 & Hn2 & Hf2); [by rewrite Hf1|lia|].
  rewrite Hl, ASSERT_true, !bind_Ok by apply Z.eqb_refl. exists w2. split; [done|]. split.
  - split; [done|congruence|]. intros g j Hg. eapply on_file_insert; [by eexists|exact Hd2|by apply Hk1].
  - rewrite Hf2, Hf1. destruct (decide _) as [E|]; [|done]. rewrite E in Hl. change (zlen []) with 0 in Hl. lia.
Qed.

Lemma stub_Length_spec w f i bs :
  host_ok w -> on_file w f i -> files w !! i = Some bs -> zlen bs < 2 ^ 31 ->
  exists w', stub_Length f w = Ok (zlen bs, w') /\ same_names w w' /\ files w' = files w.
Proof.
  intros Hok (p & Ed) Ef Hb. assert (0 <= zlen bs) by (unfold zlen; lia). unfold stub_Length, Lseek, Tell.
  destruct (lseek_desc (file f) 0 2 w i p bs Hok Ed Ef) as (w1 & -> & Ho1 & Hd1 & Hn1 & Hf1); [lia|cbn; lia|]. cbn [Z.eqb Pos.eqb] in *.
  rewrite Z.add_0_r in *. rewrite ASSERT_true, !bind_Ok by (rewrite Z.geb_leb; apply Z.leb_le; lia).
  assert (descs w1 !! file f = Some (i, zlen bs)) as Ed1 by (by rewrite Hd1, lookup_insert_eq).
  destruct (lseek_desc (file f) 0 1 w1 i (zlen bs) bs Ho1 Ed1) as (w2 & -> & Ho2 & Hd2 & Hn2 & Hf2); [by rewrite Hf1|lia|cbn; lia|].
  cbn [Z.eqb Pos.eqb] in *. rewrite Z.add_0_r in *. exists w2. split; [done|]. split; [|congruence]. split; [done|congruence|].
  intros g j Hg.
  apply (on_file_insert w1 w2 f i (zlen bs)); [by eexists|exact Hd2|]. by apply (on_file_insert w w1 f i (zlen bs)); [eexists|..].
Qed.

(** Opening. *)
Lemma stub_Open_spec name w :
  host_ok w -> exists o w', stub_Open name w = Ok (o, w') /\ same_names w w' /\ files w' = files w /\
    match o with
    | Some f => exists i, names w !! name = Some i /\ on_file w' f i /\ currentOffset f = 0
    | None => names w !! name = None
    end.
Proof.
  intros Hok. unfold stub_Open, OpenForReadWrite. destruct (names w !! name) as [i|] eqn:En.
  - destruct (open_old name w i Hok En) as (fd & w' & -> & Ho & Hfd & Hfree & Hd & Hn & Hf). cbn [negb orb ASSERT].
    unfold mret, res_ret. rewrite !bind_Ok, (proj2 (Z.eqb_neq fd (-1))) by lia.
    eexists _, w'. split; [done|]. split; [split; [done|done|]|split; [done|]].
    + intros g j (q & Eg). exists q. rewrite Hd, lookup_insert_ne; [done|]. intros E. by rewrite <- E, Hfree in Eg.
    + exists i. split; [done|]. split; [|done]. exists 0. cbn [file]. by rewrite Hd, lookup_insert_eq.
  - destruct (open_missing name w Hok En) as (w' & -> & Ho & Hd & Hn & Hf). exists None, w'. split; [done|].
    split; [split; [done|done|]|done]. intros g j (q & Eg). exists q. by rewrite Hd.
Qed.

(** Creating: the file is there, and empty, even if it was there before. *)
Lemma stub_Create_spec name size w :
  host_ok w -> exists w' i, stub_Create name size w = Ok (true, w') /\ host_ok w' /\
    names w' = <[name := i]> (names w) /\ files w' = <[i := []]> (files w) /\
    (names w !! name = Some i \/ (names w !! name = None /\ files w !! i = None)) /\
    (forall g j, on_file w g j -> on_file w' g j).
Proof.
  intros Hok. unfold stub_Create, OpenForWrite.
  destruct (open_create name w Hok) as (fd & i & w1 & -> & Ho & Hfd & Hfree & Hi & Hd & Hn & Hf).
  rewrite ASSERT_true, !bind_Ok by (rewrite Z.geb_leb; apply Z.leb_le; lia).
  rewrite (proj2 (Z.eqb_neq fd (-1))) by lia. unfold Close.
  destruct (close_desc fd w1 i 0 Ho) as (w2 & -> & Ho2 & Hd2 & Hn2 & Hf2); [by rewrite Hd, lookup_insert_eq|].
  rewrite ASSERT_true, !bind_Ok by done. exists w2, i. split; [done|]. split; [done|]. split; [congruence|]. split; [congruence|].
  split; [done|]. intros g j (q & Eg). exists q. rewrite Hd2, Hd. assert (fd <> file g) by (intros ->; congruence).
  by rewrite lookup_delete_ne, lookup_insert_ne.
Qed.

(** The contract of the address spaces. *)
#[local] Existing Instance stub_store.

Lemma stub_open name w :
  host_ok w -> exists o w', fs_open (F := StubFile) name w = Ok (o, [], w') /\ host_ok w' /\
    (forall n, file_named w' n = file_named w n) /\
    match o, file_named w name with
    | Some f, Some bs => exists i, on_file w' f i /\ files w' !! i = Some bs
    | None, None => True
    | _, _ => False
    end.
Proof.
  intros Hok. destruct (stub_Open_spec name w Hok) as (o & w' & E & [Ho Hn _] & Hf & Hm). exists o, w'.
  split; [cbn [fs_open stub_store]; by rewrite E|].
  split; [done|]. split; [intros n; unfold file_named; by rewrite Hn, Hf|]. unfold file_named. destruct o as [f|].
  - destruct Hm as (i & En & Hon & _). rewrite En. destruct (names_files w name i Hok En) as [bs Eb]. cbn. rewrite Eb.
    exists i. by rewrite Hf.
  - by rewrite Hm.
Qed.

Lemma stub_read f n position w bs :
  host_ok w -> (exists i, on_file w f i /\ files w !! i = Some bs) -> 0 <= position < 2 ^ 31 -> position + n < 2 ^ 31 ->
  exists w', fs_read_at f n position w = Ok (take (Z.to_nat n) (drop (Z.to_nat position) bs), w') /\ host_ok w' /\
    forall n, file_named w' n = file_named w n.
Proof.
  intros Hok (i & Ho & Ef) Hp _. cbn [fs_read_at stub_store].
  destruct (stub_ReadAt_spec w f i bs n position Hok Ho Ef Hp) as (w' & -> & [Hok' Hn _] & Hf). rewrite bind_Ok.
  exists w'. split; [done|]. split; [done|]. intros m. unfold file_named. by rewrite Hn, Hf.
Qed.

#[local] Instance stub_laws : FileStoreLaws StubFile W := {
  fsl_ok w := host_ok w;
  fsl_file w name := file_named w name;
  fsl_line _ := [];
  fsl_reads f w bs := exists i, on_file w f i /\ files w !! i = Some bs;
  fsl_open := stub_open;
  fsl_read := stub_read
}.

(** ** The file of the disk *)

Definition read_at fd pos n w : res (list Z * W) := w ← Lseek fd pos 0 w; sys_Read fd n w.
Definition write_at fd pos bs w : res W := w ← Lseek fd pos 0 w; sys_WriteFile fd bs (zlen bs) w.

Lemma overwrite_zwrite bs p data :
  0 <= p -> zwrite (bs ++ replicate (Z.to_nat (p + zlen data - zlen bs)) 0) p data = Ok (overwrite bs p data).
Proof.
  intros Hp. apply zwrite_Ok; [done|]. rewrite zlen_app. unfold zlen at 3. rewrite length_replicate. unfold zlen. lia.
Qed.
End stub.

(** Disk.v is right about the file that holds the disk.  On a UNIX that keeps
    its word, seeking and reading through the calls of sysdep.cc gives what
    [Disk.Read] gives on the bytes of the file, and fails the same assertion when
    they are not all there; seeking and writing leaves the bytes [Disk.WriteFile]
    leaves, and every other file, name and descriptor as it was. *)
Theorem disk_file_refines {W} `{HostLaws W} (w : W) f i bs pos n data :
  host_ok w -> on_file w f i -> files w !! i = Some bs -> 0 <= pos -> 0 < n -> pos + n < 2 ^ 31 ->
  data <> [] -> pos + zlen data < 2 ^ 31 ->
  match Disk.Read bs pos n with
  | Ok out => exists w', read_at (file f) pos n w = Ok (out, w') /\ same_names w w' /\ files w' = files w
  | Err e => read_at (file f) pos n w = Err e
  end /\
  exists bs' w', Disk.WriteFile bs pos data = Ok bs' /\ write_at (file f) pos data w = Ok w' /\
    same_names w w' /\ files w' = <[i := bs']> (files w).
Proof.
  intros Hok Ho Ef Hp Hn Hb Hne Hbd. assert (0 < zlen data) as Hd by (destruct data; [done|unfold zlen; cbn; lia]). split.
  - destruct (Lseek_set w f i bs pos Hok Ho Ef ltac:(lia)) as (w1 & E1 & [Ho1 Hn1 Hk1] & Hf1 & Hd1).
    unfold read_at, sys_Read, Disk.Read. rewrite E1, bind_Ok.
    destruct (read_desc (file f) n w1 i pos bs Ho1 Hd1) as (w2 & -> & Ho2 & Hd2 & Hn2 & Hf2); [by rewrite Hf1|].
    rewrite (ASSERT_true (pos >=? 0)), bind_Ok by (rewrite Z.geb_leb; apply Z.leb_le; lia). rewrite (proj2 (Z.ltb_ge n 0)) by lia.
    destruct (zlen _ =? n); [|done]. cbn [ASSERT]. rewrite !bind_Ok. exists w2. split; [done|]. split; [|congruence].
    split; [done|congruence|]. intros g j Hg. eapply on_file_insert; [by eexists|exact Hd2|by apply Hk1].
  - destruct (stub_WriteAt_spec w f i bs data (zlen data) pos Hok Ho Ef Hp ltac:(lia) Hbd) as (w' & E & Hs & Hf).
    exists (overwrite bs pos data), w'. split.
    { unfold Disk.WriteFile. rewrite ASSERT_true, bind_Ok by (rewrite Z.geb_leb; apply Z.leb_le; lia). by apply overwrite_zwrite. }
    unfold stub_WriteAt in E. apply bind_inv in E as (w1 & E1 & E). apply bind_inv in E as (w2 & E2 & [= ->]).
    split; [unfold write_at; by rewrite E1, bind_Ok|]. split; [done|]. rewrite Hf. unfold zlen. by rewrite Nat2Z.id, firstn_all.
Qed.

(** The stub keeps files: a file that is created, opened and written, at any
    position, has these bytes for every other open file of its name, with zeros
    before them; no other file has changed. *)
Lemma stub_round_trip {W} `{HostLaws W} (w : W) name size data pos n position :
  host_ok w -> data <> [] -> 0 <= pos -> pos + zlen data < 2 ^ 31 -> 0 <= position < 2 ^ 31 -> 0 <= n ->
  let got := take (Z.to_nat n) (drop (Z.to_nat position) (replicate (Z.to_nat pos) 0 ++ data)) in
  exists w1 f w2 w3 g w4 w5, stub_Create name size w = Ok (true, w1) /\ stub_Open name w1 = Ok (Some f, w2) /\
    stub_WriteAt f data (zlen data) pos w2 = Ok (zlen data, w3) /\ stub_Open name w3 = Ok (Some g, w4) /\
    stub_ReadAt g n position w4 = Ok (zlen got, got, w5) /\
    forall other, other <> name -> names w !! other <> names w1 !! name -> file_named w5 other = file_named w other.
Proof.
  intros Hok Hne Hp Hb Hpos Hn got. assert (0 < zlen data) as Hd by (destruct data; [done|unfold zlen; cbn; lia]).
  destruct (stub_Create_spec name size w Hok) as (w1 & i & E1 & Ho1 & Hn1 & Hf1 & Hi & _).
  destruct (stub_Open_spec name w1 Ho1) as (o & w2 & E2 & [Ho2 Hn2 _] & Hf2 & Hm2).
  destruct o as [f|]; [|by rewrite Hn1, lookup_insert_eq in Hm2]. destruct Hm2 as (i' & Ei & Hon & _).
  rewrite Hn1, lookup_insert_eq in Ei. injection Ei as <-.
  destruct (stub_WriteAt_spec w2 f i [] data (zlen data) pos Ho2 Hon) as (w3 & E3 & [Ho3 Hn3 _] & Hf3);
    [by rewrite Hf2, Hf1, lookup_insert_eq|done|lia|done|].
  destruct (stub_Open_spec name w3 Ho3) as (o & w4 & E4 & [Ho4 Hn4 _] & Hf4 & Hm4).
  rewrite Hn3, Hn2, Hn1, lookup_insert_eq in Hm4. destruct o as [g|]; [|done]. destruct Hm4 as (i' & [= <-] & Hon4 & _).
  assert (overwrite [] pos (take (Z.to_nat (zlen data)) data) = replicate (Z.to_nat pos) 0 ++ data) as Hov.
  { unfold overwrite, zlen. rewrite Nat2Z.id, firstn_all. cbn [app length Z.of_nat]. rewrite take_replicate, drop_ge by (rewrite length_replicate; lia).
    rewrite app_nil_r. f_equal. f_equal. lia. }
  destruct (stub_ReadAt_spec w4 g i (replicate (Z.to_nat pos) 0 ++ data) n position Ho4 Hon4) as (w5 & E5 & [_ Hn5 _] & Hf5);
    [by rewrite Hf4, Hf3, lookup_insert_eq, Hov|done|].
  rewrite (proj2 (Z.ltb_ge n 0)) in E5 by lia. exists w1, f, w2, w3, g, w4, w5. split_and!; try done.
  intros other Hne' Hother. rewrite Hn1, lookup_insert_eq in Hother. unfold file_named. rewrite Hn5, Hn4, Hn3, Hn2, Hn1.
  rewrite lookup_insert_ne by done. destruct (names w !! other) as [j|]; [|done]. cbn. assert (j <> i) by congruence.
  by rewrite Hf5, Hf4, Hf3, lookup_insert_ne, Hf2, Hf1, lookup_insert_ne.
Qed.

(** ** A host *)

(** Files and descriptors with numbers given out in order. *)
Record unix := mkUnix { u_names : gmap (list Z) Z; u_files : gmap Z (list Z); u_descs : gmap Z (Z * Z); u_next : Z }.

Definition unix_open (name : list Z) (create : bool) (u : unix) : Z * unix :=
  let fd := u_next u in
  match u_names u !! name with
  | Some i => (fd, mkUnix (u_names u) (if create then <[i := []]> (u_files u) else u_files u) (<[fd := (i, 0)]> (u_descs u)) (fd + 1))
  | None =>
      if create then (fd, mkUnix (<[name := fd]> (u_names u)) (<[fd := []]> (u_files u)) (<[fd := (fd, 0)]> (u_descs u)) (fd + 1))
      else (-1, u)
  end.

(** On an open descriptor; -1 otherwise. *)
Definition on_desc {A} (fd : Z) (bad : A) (f : Z -> Z -> list Z -> Z * A * (list Z * Z)) (u : unix) : Z * A * unix :=
  match u_descs u !! fd with
  | Some (i, p) =>
      match u_files u !! i with
      | Some bs => let '(r, a, (bs, p)) := f i p bs in
                   (r, a, mkUnix (u_names u) (<[i := bs]> (u_files u)) (<[fd := (i, p)]> (u_descs u)) (u_next u))
      | None => (-1, bad, u)
      end
  | None => (-1, bad, u)
  end.

#[local] Instance unix_host : Host unix := {|
  host_open := unix_open;
  host_read fd n := on_desc fd [] (fun _ p bs =>
    let got := take (Z.to_nat n) (drop (Z.to_nat p) bs) in (if n <? 0 then -1 else zlen got, got, (bs, p + zlen got)));
  host_write fd data u :=
    let '(r, _, u) := on_desc fd tt (fun _ p bs => (zlen data, tt, (if decide (data = []) then bs else overwrite bs p data, p + zlen data))) u in (r, u);
  host_lseek fd offset whence u :=
    let '(r, _, u) := on_desc fd tt (fun _ p bs =>
      let target := if whence =? 0 then offset else if whence =? 1 then p + offset else zlen bs + offset in
      if target <? 0 then (-1, tt, (bs, p)) else (target, tt, (bs, target))) u in (r, u);
  host_close fd u :=
    (if decide (is_Some (u_descs u !! fd)) then 0 else -1, mkUnix (u_names u) (u_files u) (delete fd (u_descs u)) (u_next u));
  host_unlink name u :=
    (if decide (is_Some (u_names u !! name)) then 0 else -1, mkUnix (delete name (u_names u)) (u_files u) (u_descs u) (u_next u))
|}.

Record unix_ok (u : unix) : Prop := {
  uo_next : 0 <= u_next u;
  uo_names : forall name i, u_names u !! name = Some i -> is_Some (u_files u !! i);
  uo_files : forall i, u_next u <= i -> u_files u !! i = None;
  uo_descs : forall fd, u_next u <= fd -> u_descs u !! fd = None
}.

Lemma on_desc_spec {A} fd (bad : A) f u i p bs r a bs' p' :
  unix_ok u -> u_descs u !! fd = Some (i, p) -> u_files u !! i = Some bs -> f i p bs = (r, a, (bs', p')) ->
  let u' := mkUnix (u_names u) (<[i := bs']> (u_files u)) (<[fd := (i, p')]> (u_descs u)) (u_next u) in
  on_desc fd bad f u = (r, a, u') /\ unix_ok u'.
Proof.
  intros [H1 H2 H3 H4] Ed Ef E u'. split; [unfold on_desc; by rewrite Ed, Ef, E|]. split; cbn.
  - done.
  - intros name j Hj. destruct (decide (i = j)) as [<-|]; [rewrite lookup_insert_eq; by eexists|]. rewrite lookup_insert_ne by done. by eapply H2.
  - intros j Hj. rewrite lookup_insert_ne; [by apply H3|]. intros ->. by rewrite H3 in Ef.
  - intros g Hg. rewrite lookup_insert_ne; [by apply H4|]. intros ->. by rewrite H4 in Ed.
Qed.

#[local] Instance unix_laws : HostLaws unix.
Proof.
  refine {| host_ok := unix_ok; names := u_names; files := u_files; descs := u_descs |}.
  - intros u name i [] E. by eapply uo_names0.
  - intros name u i [H1 H2 H3 H4] E. unfold host_open, unix_host, unix_open. rewrite E. eexists _, _. split; [reflexivity|]. cbn.
    split; [|split; [done|split; [by apply H4; lia|done]]]. split; cbn; [lia|done|intros; apply H3; lia|].
    intros g Hg. rewrite lookup_insert_ne by lia. apply H4. lia.
  - intros name u Hok E. unfold host_open, unix_host, unix_open. rewrite E. by exists u.
  - intros name u [H1 H2 H3 H4]. unfold host_open, unix_host, unix_open. destruct (u_names u !! name) as [i|] eqn:E.
    + eexists _, i, _. split; [reflexivity|]. cbn. split; [|split; [done|split; [by apply H4; lia|split; [by left|]]]].
      * split; cbn; [lia| |intros j Hj; rewrite lookup_insert_ne; [apply H3; lia|]|intros g Hg; rewrite lookup_insert_ne by lia; apply H4; lia].
        -- intros m j Hj. destruct (decide (i = j)) as [<-|]; [rewrite lookup_insert_eq; by eexists|]. rewrite lookup_insert_ne by done. by eapply H2.
        -- intros ->. destruct (H2 _ _ E) as [x Ex]. rewrite H3 in Ex by lia. done.
      * split; [done|]. split; [|done]. symmetry. by apply insert_id.
    + eexists _, (u_next u), _. split; [reflexivity|]. cbn. split; [|split; [done|split; [by apply H4; lia|split; [|done]]]].
      * split; cbn; [lia| |intros j Hj; rewrite lookup_insert_ne by lia; apply H3; lia|intros g Hg; rewrite lookup_insert_ne by lia; apply H4; lia].
        intros m j Hj. destruct (decide (u_next u = j)) as [<-|]; [rewrite lookup_insert_eq; by eexists|]. rewrite lookup_insert_ne by done.
        apply lookup_insert_Some in Hj as [[_ Hj]|[_ Hj]]; [congruence|]. by eapply H2.
      * right. split; [done|]. apply H3. lia.
  - intros fd offset whence u i p bs Hok Ed Ef target Hw Ht. unfold host_lseek, unix_host.
    match goal with |- context [on_desc fd ?b ?f] => edestruct (on_desc_spec fd b f) as [E Ho] end; [exact Hok|exact Ed|exact Ef| |rewrite E].
    { assert ((target <? 0) = false) as Eb by (apply Z.ltb_ge; lia). unfold target in Eb. cbv beta zeta. rewrite Eb. reflexivity. }
    eexists. split; [reflexivity|]. split; [exact Ho|]. cbn. split; [done|]. split; [done|]. by apply insert_id.
  - intros fd n u i p bs Hok Ed Ef got. unfold host_read, unix_host.
    match goal with |- context [on_desc fd ?b ?f] => edestruct (on_desc_spec fd b f) as [E Ho] end; [exact Hok|exact Ed|exact Ef|reflexivity|rewrite E].
    eexists. split; [reflexivity|]. split; [exact Ho|]. cbn. split; [done|]. split; [done|]. by apply insert_id.
  - intros fd data u i p bs Hok Ed Ef _. unfold host_write, unix_host.
    match goal with |- context [on_desc fd ?b ?f] => edestruct (on_desc_spec fd b f) as [E Ho] end; [exact Hok|exact Ed|exact Ef|reflexivity|rewrite E].
    eexists. split; [reflexivity|]. split; [exact Ho|]. cbn. split; [done|]. split; [done|]. destruct (decide _); [by apply insert_id|done].
  - intros fd u i p [H1 H2 H3 H4] Ed. unfold host_close, unix_host. rewrite decide_True by by eexists. eexists. split; [reflexivity|].
    split; [|done]. split; cbn; try done. intros g Hg. apply lookup_delete_None. right. by apply H4.
  - intros name u [H1 H2 H3 H4]. unfold host_unlink, unix_host. eexists. split; [reflexivity|]. split; [|done].
    split; cbn; try done. intros m i Hi. apply lookup_delete_Some in Hi as [_ Hi]. by eapply H2.
Defined.

(** The file 0 of 6 bytes, open as 3. *)
Definition sample_unix : unix := mkUnix {[ [65] := 0 ]} {[ 0 := [1; 2; 3; 4; 5; 6] ]} {[ 3 := (0, 0) ]} 4.

Lemma sample_unix_ok : unix_ok sample_unix.
Proof.
  split; cbn [u_next u_names u_files u_descs sample_unix]; [done| | |].
  - intros name i [_ <-]%lookup_singleton_Some. rewrite lookup_singleton_eq. by eexists.
  - intros i Hi. apply lookup_singleton_ne. lia.
  - intros fd Hfd. apply lookup_singleton_ne. lia.
Qed.

Lemma disk_file_refines_witness :
  exists w' w'' bs', read_at 3 1 4 sample_unix = Ok ([2; 3; 4; 5], w') /\ write_at 3 8 [9; 9] sample_unix = Ok w'' /\
    u_files w'' = <[0 := bs']> (u_files sample_unix) /\ bs' = [1; 2; 3; 4; 5; 6; 0; 0; 9; 9].
Proof.
  destruct (disk_file_refines sample_unix (mkStub 3 0) 0 [1; 2; 3; 4; 5; 6] 1 4 [9; 9]) as [Hr _].
  - exact sample_unix_ok.
  - exists 0. reflexivity.
  - reflexivity.
  - discriminate.
  - reflexivity.
  - reflexivity.
  - discriminate.
  - reflexivity.
  - destruct (disk_file_refines sample_unix (mkStub 3 0) 0 [1; 2; 3; 4; 5; 6] 8 4 [9; 9]) as [_ (bs' & w2 & E2 & E3 & _ & Hf)];
      [exact sample_unix_ok|by exists 0|reflexivity|discriminate|reflexivity|reflexivity|discriminate|reflexivity|].
    destruct Hr as (w' & E & _). exists w', w2, bs'. split; [exact E|]. split; [exact E3|]. split; [exact Hf|].
    vm_compute in E2. by injection E2 as <-.
Defined.
