(* ===== verification/Swap.v ===== *)
(** * Swap: the pages on the disk and the choice of a victim

    What [writePage], [readPage] and the loop of [try_store_page] do, on any
    array of sectors; the properties are in PagingProps.v. *)

From S2P Require Import Prelude BitMap Machine Interrupt Disk SynchDisk FDList AddrSpace Paging.

Section swap.
Context {W : Type} `{SectorStoreLaws W}.

(** The bytes of a frame. *)
Definition frame_bytes (v : vmem W) (pp : Z) : list Z :=
  take (Z.to_nat SectorSize) (drop (Z.to_nat (pp * PageSize)) (memory v)).

Lemma frame_read v pp :
  wf_vm v -> 0 <= pp < NumPhysPages ->
  zread (memory v) (pp * PageSize) SectorSize = Ok (frame_bytes v pp) /\
  zlen (frame_bytes v pp) = SectorSize.
Proof.
  intros Hv Hpp. pose proof (wv_memory _ Hv) as Hm.
  unfold NumPhysPages, PageSize, SectorSize, MemorySize in *.
  assert (zread (memory v) (pp * 128) 128 = Ok (frame_bytes v pp)) as E
    by (apply zread_Ok; unfold NumPhysPages, PageSize, SectorSize in *; lia).
  split; [exact E|]. by apply zlen_zread in E.
Qed.

(** The sector a page goes to: the one it has, or the least that is free. *)
Inductive page_to (s : AddrSpace) (v : vmem W) (vp : Z) : Z -> AddrSpace -> vmem W -> Prop :=
  | page_has sector :
      znth (page_sector s) vp = Some sector -> valid_sector sector -> page_to s v vp sector s v
  | page_gets old sector b p :
      znth (page_sector s) vp = Some old -> ~ valid_sector old -> valid_sector sector ->
      sector ∉ marked (available_sectors v) ->
      (forall j, 0 <= j < sector -> j ∈ marked (available_sectors v)) ->
      wf b -> numBits b = NumSectors -> marked b = {[sector]} ∪ marked (available_sectors v) ->
      (page_sector s).[vp := sector] = Ok p ->
      page_to s v vp sector (set_page_sector s p) (set_sectors v b).

Lemma sector_test sector :
  (sector <? 0) || (sector >=? NumSectors) = negb (bool_decide (valid_sector sector)).
Proof.
  destruct (bool_decide_reflect (valid_sector sector)) as [H'|H']; unfold valid_sector in *;
    rewrite Z.geb_leb; destruct (Z.ltb_spec sector 0), (Z.leb_spec NumSectors sector);
    cbn [negb orb]; done || lia.
Qed.

Lemma writePage_spec s v pp vp :
  wf_space s -> wf_vm v -> store_wf (store v) -> 0 <= vp < numPages s -> 0 <= pp < NumPhysPages ->
  (exists sector s1 v1 w, writePage s v pp vp = Ok (sector, (s1, set_store v1 w)) /\
     page_to s v vp sector s1 v1 /\ valid_sector sector /\ store_wf w /\
     contents w = <[Z.to_nat sector := frame_bytes v pp]> (contents (store v))) \/
  (writePage s v pp vp = Err AssertFailed /\
   Z.of_nat (size (marked (available_sectors v))) = NumSectors).
Proof.
  intros Hs Hv Hw Hvp Hpp. unfold writePage.
  destruct (znth_in_range (page_sector s) vp) as [sec Esec]; [rewrite (ws_sectors _ Hs); lia|].
  rewrite (proj2 (zget_Ok _ _ _) Esec), bind_Ok, sector_test.
  destruct (frame_read v pp Hv Hpp) as [Er El].
  destruct (bool_decide_reflect (valid_sector sec)) as [Hsec|Hsec]; cbn [negb].
  - left. destruct (WriteSector_ok (store v) sec (frame_bytes v pp) Hw Hsec El) as (w & Ew & Hw' & Hc).
    exists sec, s, v, w. unfold mret, res_ret. rewrite bind_Ok, Er, bind_Ok, Ew, bind_Ok.
    split_and!; try done. by constructor.
  - destruct (wv_sectors _ Hv) as [Hb Hn].
    destruct (Find_marked _ Hb) as [(r & b & -> & Hr & Hnr & Hlow & Hbw & Hbn & Hbm)|[-> Hfull]].
    + left. assert (valid_sector r) as Hvr by (unfold valid_bit in Hr; unfold valid_sector; lia).
      rewrite !bind_Ok, ASSERT_true by (apply Z.geb_le; destruct Hvr; lia).
      rewrite bind_Ok. destruct (Mark_marked b r Hbw) as (b2 & -> & Hb2 & Hn2 & Hm2).
      { unfold valid_bit in *. by rewrite Hbn. }
      rewrite bind_Ok. pose proof (znth_Some_range _ _ _ Esec) as Hrange.
      destruct ((page_sector s).[vp := r]) as [p|] eqn:Ep; [|by rewrite zset_Ok in Ep].
      unfold mret, res_ret. rewrite !bind_Ok. cbn [memory set_sectors store]. rewrite Er, bind_Ok.
      destruct (WriteSector_ok (store v) r (frame_bytes v pp) Hw Hvr El) as (w & -> & Hw' & Hc).
      rewrite bind_Ok. exists r, (set_page_sector s p), (set_sectors v b2), w.
      split; [done|]. split; [|done].
      eapply page_gets; try done; [congruence|]. rewrite Hm2, Hbm. set_solver.
    + right. rewrite Hn in Hfull. split; [|exact Hfull]. by rewrite bind_Ok.
Qed.

Lemma readPage_spec s v pp vp sector bs :
  wf_vm v -> store_wf (store v) -> 0 <= pp < NumPhysPages ->
  znth (page_sector s) vp = Some sector -> valid_sector sector ->
  znth (contents (store v)) sector = Some bs ->
  exists v', readPage s v pp vp = Ok (sector, v') /\ frame_bytes v' pp = bs /\
    contents (store v') = contents (store v) /\ store_wf (store v').
Proof.
  intros Hv Hw Hpp Es Hsec Ebs. unfold readPage.
  rewrite (proj2 (zget_Ok _ _ _) Es), bind_Ok, sector_test, bool_decide_eq_true_2 by done. cbn [negb].
  destruct (ReadSector_ok (store v) sector bs Hw Ebs) as (w & -> & Hw' & Hc). rewrite bind_Ok.
  pose proof (sector_len (store v) sector bs Hw Ebs) as Hl.
  assert (exists m, zwrite (memory v) (pp * PageSize) bs = Ok m) as [m Em].
  { pose proof (wv_memory _ Hv) as Hm. eexists.
    apply zwrite_Ok; unfold MemorySize, NumPhysPages, PageSize, SectorSize in *; lia. }
  rewrite Em, bind_Ok. eexists. split; [reflexivity|]. split; [|by simpl].
  apply zread_zwrite_same in Em. rewrite Hl in Em. apply zread_inv in Em as (_ & _ & _ & ->). done.
Qed.

(** ** The scan for a victim *)

(** Entry by entry the same, up to the use bits. *)
Definition same_but_use (t t' : list TranslationEntry) : Prop :=
  zlen t' = zlen t /\ forall i e, znth t i = Some e -> exists u, znth t' i = Some (set_use e u).

Lemma same_but_use_refl t : same_but_use t t.
Proof. split; [done|]. intros i e E. exists (use e). by destruct e. Qed.

Lemma same_but_use_trans t t1 t2 : same_but_use t t1 -> same_but_use t1 t2 -> same_but_use t t2.
Proof.
  intros [L1 H1] [L2 H2]. split; [congruence|]. intros i e E.
  destruct (H1 i e E) as [u E1]. destruct (H2 i _ E1) as [u2 E2]. by exists u2.
Qed.

(** Every page is in memory, in a frame that is its own. *)
Definition resident (t : list TranslationEntry) (frames : list Z) : Prop :=
  forall i e, znth t i = Some e -> valid e = true /\ readOnly e = false /\
    0 <= physicalPage e < NumPhysPages /\ exists n, znth frames (physicalPage e) = Some n /\ n <= 1.

Lemma resident_use t t' frames : same_but_use t t' -> resident t frames -> resident t' frames.
Proof.
  intros [L Hs] Hr i e' E'. destruct (znth_in_range t i) as [e E].
  { rewrite <- L. by eapply znth_Some_range. }
  destruct (Hs i e E) as [u Eu]. assert (e' = set_use e u) as -> by congruence.
  exact (Hr i e E).
Qed.

Lemma scan_page_spec frames j c t0 :
  same_but_use t0 (sc_table c) -> resident t0 frames -> 0 <= j < zlen t0 -> 0 <= best c < zlen t0 ->
  exists c' stop, scan_page frames j c = Ok (c', stop) /\ same_but_use t0 (sc_table c') /\
    0 <= best c' < zlen t0.
Proof.
  intros Hs Hr Hj Hb. unfold scan_page. pose proof (proj1 Hs) as L.
  pose proof (resident_use _ _ _ Hs Hr) as Hrc.
  destruct (zget_in_range (sc_table c) j) as [cur Ec]; [lia|]. rewrite Ec, bind_Ok.
  apply zget_Ok in Ec. destruct (Hrc j cur Ec) as (Hv & _). rewrite Hv. cbn [negb].
  set (r := if unused c <? 0 then _ else _).
  assert (exists t u, r = Ok (t, u) /\ same_but_use t0 t) as (t & u & -> & Ht).
  { unfold r. destruct (unused c <? 0); [destruct (use cur)|]; try (eexists _, _; split; [reflexivity|done]).
    rewrite zset_Ok by lia. rewrite bind_Ok. eexists _, _. split; [reflexivity|].
    apply same_but_use_trans with (sc_table c); [done|]. split; [apply zlen_insert|].
    intros i e E. destruct (decide (i = j)) as [->|Hne].
    - exists false. rewrite znth_insert_eq by lia. congruence.
    - exists (use e). rewrite znth_insert_ne by lia. rewrite E. by destruct e. }
  rewrite bind_Ok. pose proof (proj1 Ht) as Lt. pose proof (resident_use _ _ _ Ht Hr) as Hrt.
  destruct (zget_in_range t (best c)) as [b Eb]; [lia|]. rewrite Eb, bind_Ok. apply zget_Ok in Eb.
  destruct (zget_in_range t j) as [cur' Ec']; [lia|]. rewrite Ec', bind_Ok.
  destruct (Hrt _ _ Eb) as (_ & Hro & _ & n & En & Hn). rewrite Hro. cbn [negb].
  rewrite (proj2 (zget_Ok _ _ _) En), bind_Ok. unfold mret, res_ret. rewrite bind_Ok. cbv zeta.
  rewrite Z.gtb_ltb. destruct (Z.ltb_spec 1 n); [lia|]. cbn [andb].
  destruct (dirty b && negb (dirty cur')); [by eexists _, _|].
  destruct (best_used c && negb (use cur)); by eexists _, _.
Qed.

Lemma scan_loop_spec frames s t0 : forall n i c,
  zlen t0 = numPages s -> 0 < numPages s ->
  same_but_use t0 (sc_table c) -> resident t0 frames -> 0 <= best c < zlen t0 ->
  exists c', scan_loop n i frames s c = Ok c' /\ same_but_use t0 (sc_table c') /\
    0 <= best c' < zlen t0.
Proof.
  intros n. induction n as [|n IH]; intros i c Hl Hn Hs Hr Hb; cbn [scan_loop]; [by exists c|].
  destruct (scan_page_spec frames (Z.rem (u32 (victum_offset s + i)) (numPages s)) c t0 Hs Hr)
    as (c' & stop & -> & Hs' & Hb'); [|done|].
  { rewrite Hl. apply Z.rem_bound_pos; [|done]. pose proof (u32_range (victum_offset s + i)). unfold is_u32 in *. lia. }
  rewrite bind_Ok. destruct stop; [by exists c'|]. by apply IH.
Qed.
End swap.

(** ** Reading and writing the memory of a program *)

(** The page of address [a] is in memory, and [a] is at [pa] there. *)
Definition mapped (s : AddrSpace) (a pa : Z) : Prop :=
  exists e, znth (table s) (Z.quot a PageSize) = Some e /\ valid e = true /\
    0 <= physicalPage e < NumPhysPages /\ pa = phys_addr e a.

Lemma mapped_range s a pa : 0 <= a -> mapped s a pa -> 0 <= pa < MemorySize.
Proof.
  intros Ha (e & _ & _ & Hp & ->). unfold phys_addr, MemorySize, NumPhysPages, PageSize, SectorSize in *.
  pose proof (Z.rem_bound_pos a 128 ltac:(lia) ltac:(lia)). lia.
Qed.

Section access.
Context {F W : Type} `{FileStore F W} `{SectorStore W}.
Context (yield : vmem W -> res (vmem W)).

Lemma fault_in_mapped s v a pa :
  mapped s a pa -> exists e, fault_in (F := F) yield s v (Z.quot a PageSize) = Ok (e, (s, v)) /\
    phys_addr e a = pa.
Proof.
  intros (e & Ee & Hv & Hp & ->). unfold fault_in. rewrite (proj2 (zget_Ok _ _ _) Ee), bind_Ok, Hv.
  cbn [negb orb]. rewrite (proj2 (Z.eqb_neq (physicalPage e) (-1))) by lia.
  unfold mret, res_ret. rewrite bind_Ok, (proj2 (zget_Ok _ _ _) Ee), bind_Ok. by exists e.
Qed.

(** The addresses of the [n] bytes from [addr], in memory. *)
Definition all_mapped (s : AddrSpace) (addr n : Z) (pa : Z -> Z) : Prop :=
  0 <= addr /\ addr + n < 2 ^ 31 /\ forall i, 0 <= i < n -> mapped s (addr + i) (pa i).

Lemma write_loop_mapped s addr bytes str pa : forall k i v,
  all_mapped s addr bytes pa -> 0 < bytes -> 0 <= i <= bytes -> bytes - i <= Z.of_nat k ->
  bytes <= zlen str -> zlen (memory v) = MemorySize ->
  (forall a b, 0 <= a < bytes -> 0 <= b < bytes -> pa a = pa b -> a = b) ->
  exists m, write_loop (F := F) yield k i addr bytes str s v = Ok (s, set_memory v m) /\
    zlen m = MemorySize /\
    (forall j, i <= j < bytes -> znth m (pa j) = znth str j) /\
    (forall x, (forall j, i <= j < bytes -> x <> pa j) -> znth m x = znth (memory v) x).
Proof.
  induction k as [|k IH]; intros i v Hall Hn Hi Hk Hstr Hm Hinj; cbn [write_loop].
  { exists (memory v). split; [by destruct v|]. split_and!; try done. intros j Hj. lia. }
  rewrite (proj2 (Z.eqb_neq bytes 0)) by lia. cbn [orb andb].
  destruct (Z.ltb_spec i bytes) as [Hlt|Hge].
  2: { exists (memory v). split; [by destruct v|]. split_and!; try done. intros j Hj. lia. }
  destruct Hall as (Ha & Hb & Hmap). rewrite s32_id by word_lia.
  pose proof (mapped_range s (addr + i) (pa i) ltac:(lia) (Hmap i ltac:(lia))) as Hr.
  destruct (fault_in_mapped s v (addr + i) (pa i) (Hmap i ltac:(lia))) as (e & Ef & Ep).
  rewrite Ef, bind_Ok, Ep. destruct (znth_in_range str i) as [c Ec]; [lia|].
  rewrite (proj2 (zget_Ok _ _ _) Ec), bind_Ok, zset_Ok, bind_Ok by (unfold zlen in *; lia).
  destruct (IH (i + 1) (set_memory v (<[Z.to_nat (pa i) := c]> (memory v)))) as (m & -> & Hl & Hin & Hout);
    [done|done|lia|lia|done|by simpl; rewrite zlen_insert|done|].
  exists m. split; [done|]. split; [done|]. simpl in Hout. split.
  - intros j Hj. destruct (decide (j = i)) as [->|]; [|apply Hin; lia].
    rewrite Hout; [by rewrite znth_insert_eq by (unfold zlen in *; lia)|].
    intros j' Hj' E. apply Hinj in E; lia.
  - intros x Hx. rewrite Hout by (intros j Hj; apply Hx; lia).
    apply znth_insert_ne; [lia|]. intros E. by apply (Hx i); [lia|].
Qed.

(** Beyond the rounds of its loop the number of bytes does not matter. *)
Lemma write_loop_bound s addr str b1 b2 : forall k i v,
  0 < b1 -> 0 < b2 -> i + Z.of_nat k <= b1 -> i + Z.of_nat k <= b2 ->
  write_loop (F := F) yield k i addr b1 str s v = write_loop yield k i addr b2 str s v.
Proof.
  intros k. revert s. induction k as [|k IH]; intros s i v H1 H2 Hb1 Hb2; cbn [write_loop]; [done|].
  rewrite !(proj2 (Z.eqb_neq _ 0)), !(proj2 (Z.ltb_lt i _)) by lia. cbn [orb andb].
  destruct (fault_in _ _ _ _) as [[pp [s1 v1]]|e]; [|done]. rewrite !bind_Ok.
  destruct (zget str i) as [c|e]; [|done]. rewrite !bind_Ok. destruct (zset _ _ _) as [m|e]; [|done]. rewrite !bind_Ok.
  apply IH; lia.
Qed.

Lemma read_loop_mapped s addr bytes pa : forall k i v,
  all_mapped s addr bytes pa -> 0 < bytes <= 1000 -> 0 <= i <= bytes -> bytes - i <= Z.of_nat k ->
  zlen (memory v) = MemorySize -> zlen (buf v) = 1000 ->
  exists b, read_loop (F := F) yield k i addr bytes s v = Ok (s, set_buf v b) /\ zlen b = 1000 /\
    (forall j, i <= j < bytes -> znth b j = znth (memory v) (pa j)) /\
    (forall j, ~ i <= j < bytes -> znth b j = znth (buf v) j).
Proof.
  induction k as [|k IH]; intros i v Hall Hn Hi Hk Hm Hbl; cbn [read_loop].
  { exists (buf v). split; [by destruct v|]. split_and!; try done. intros j Hj. lia. }
  rewrite (proj2 (Z.eqb_neq bytes 0)) by lia. cbn [orb andb].
  destruct (Z.ltb_spec i bytes) as [Hlt|Hge].
  2: { exists (buf v). split; [by destruct v|]. split_and!; try done. intros j Hj. lia. }
  destruct Hall as (Ha & Hb & Hmap). rewrite s32_id by word_lia.
  pose proof (mapped_range s (addr + i) (pa i) ltac:(lia) (Hmap i ltac:(lia))) as Hr.
  destruct (fault_in_mapped s v (addr + i) (pa i) (Hmap i ltac:(lia))) as (e & Ef & Ep).
  rewrite Ef, bind_Ok, Ep. destruct (znth_in_range (memory v) (pa i)) as [c Ec]; [lia|].
  rewrite (proj2 (zget_Ok _ _ _) Ec), bind_Ok, zset_Ok, bind_Ok by (unfold zlen in *; lia).
  destruct (IH (i + 1) (set_buf v (<[Z.to_nat i := c]> (buf v)))) as (b & -> & Hl & Hin & Hout);
    [done|done|lia|lia|done|by simpl; rewrite zlen_insert|].
  exists b. split; [done|]. split; [done|]. simpl in Hin, Hout. split.
  - intros j Hj. destruct (decide (j = i)) as [->|]; [|apply Hin; lia].
    rewrite Hout by lia. rewrite znth_insert_eq by (unfold zlen in *; lia). by rewrite Ec.
  - intros j Hj. rewrite Hout by lia. apply znth_insert_ne; lia.
Qed.
End access.
