(* ===== verification/Process.v ===== *)
(** * Process: userprog/progtest.cc

    Starting the user program named on the command line: its address space, the
    first time slice, and the machine it starts on.  [Machine::Run] and the
    services of the kernel are in Mips.v and Exception.v. *)

From S2P Require Import Text.
From S2P Require Import Prelude BitMap NList Machine Mips Interrupt Disk SynchDisk FDList AddrSpace Paging Coff2Noff.

Section process.
Context {F W V : Type} `{FileStore F W}.
Context (new_words : Z -> list Z) (header_bytes : list Z).

(** The length of a time slice. *)
Definition slice : Z := 20.

(** The handler of the end of a time slice; [current] is the current thread. *)
Definition RoundRobin (arg current : Z) (s : sys V) : res (sys V) :=
  s ← Schedule RoundRobinHandler current slice TimerInt s;
  YieldOnReturn s.

(** Up to [machine->Run()]; None is the return after "Cannot start process". *)
Definition StartProcess (fds : FD_List) (filename : list Z) (current : Z) (m : Machine) (v : vmem W) (s : sys V)
    : res (option AddrSpace * (Machine * (vmem W * sys V))) :=
  '(space, v) ← AddrSpace_name new_words header_bytes fds filename v;
  match space with
  | None => mret (None, (m, (print v (says "Cannot start process: " filename), s)))
  | Some sp =>
      s ← Schedule RoundRobinHandler current slice TimerInt s;
      m ← InitRegisters sp m;
      mret (Some sp, (RestoreState sp m, (v, s)))
  end.
End process.

(** ** The registers *)

Lemma WriteRegister_set m r x : 0 <= r < NumTotalRegs -> WriteRegister m r x = set_reg m r x.
Proof.
  intros Hr. unfold WriteRegister. rewrite ASSERT_true; [done|].
  rewrite Z.geb_leb. apply andb_true_iff. rewrite Z.leb_le, Z.ltb_lt. lia.
Qed.

(** A register is written, and nothing else. *)
Lemma write_register_spec m r x :
  zlen (registers m) = NumTotalRegs -> 0 <= r < NumTotalRegs ->
  exists m', WriteRegister m r x = Ok m' /\ zlen (registers m') = NumTotalRegs /\
    (forall j, reg m' j = if j =? r then Ok x else reg m j) /\
    exists regs, m' = set_registers m regs.
Proof.
  intros Hl Hr. rewrite WriteRegister_set by done. unfold set_reg. rewrite zset_Ok, bind_Ok by lia.
  eexists. split; [reflexivity|]. split; [cbn; by rewrite zlen_insert|]. split; [|by eexists].
  intros j. apply (set_reg_get m r x). unfold set_reg. by rewrite zset_Ok, bind_Ok by lia.
Qed.

Lemma clear_registers_spec n : forall i m,
  zlen (registers m) = NumTotalRegs -> 0 <= i -> i + Z.of_nat n <= NumTotalRegs ->
  exists m', clear_registers n i m = Ok m' /\ zlen (registers m') = NumTotalRegs /\
    (forall j, reg m' j = if (i <=? j) && (j <? i + Z.of_nat n) then Ok 0 else reg m j) /\
    exists regs, m' = set_registers m regs.
Proof.
  induction n as [|n IH]; intros i m Hl Hi Hn; cbn [clear_registers].
  - exists m. split; [done|]. split; [done|]. split.
    + intros j. destruct (Z.leb_spec i j), (Z.ltb_spec j (i + Z.of_nat 0)); try done. lia.
    + exists (registers m). by destruct m.
  - destruct (write_register_spec m i 0 Hl ltac:(lia)) as (m1 & -> & Hl1 & Hr1 & regs1 & E1). rewrite bind_Ok.
    destruct (IH (i + 1) m1 Hl1 ltac:(lia) ltac:(lia)) as (m2 & -> & Hl2 & Hr2 & regs2 & E2).
    exists m2. split; [done|]. split; [done|]. split.
    + intros j. rewrite Hr2, Hr1. destruct (Z.leb_spec (i + 1) j), (Z.ltb_spec j (i + 1 + Z.of_nat n)),
        (Z.eqb_spec j i), (Z.leb_spec i j), (Z.ltb_spec j (i + Z.of_nat (S n))); try done; lia.
    + exists regs2. by rewrite E2, E1.
Qed.

(** The registers a program starts with. *)
Definition start_register (n r : Z) : Z :=
  if r =? StackReg then n * PageSize - 16 else if r =? NextPCReg then 4 else 0.

Lemma InitRegisters_spec sp m :
  zlen (registers m) = NumTotalRegs ->
  exists m', InitRegisters sp m = Ok m' /\ zlen (registers m') = NumTotalRegs /\
    (forall r, 0 <= r < NumTotalRegs -> reg m' r = Ok (start_register (numPages sp) r)) /\
    exists regs, m' = set_registers m regs.
Proof.
  intros Hl. unfold InitRegisters, start_register.
  destruct (clear_registers_spec (Z.to_nat NumTotalRegs) 0 m Hl ltac:(lia) ltac:(done))
    as (m1 & -> & Hl1 & Hr1 & regs1 & E1). rewrite bind_Ok.
  destruct (write_register_spec m1 PCReg 0 Hl1 ltac:(done)) as (m2 & -> & Hl2 & Hr2 & regs2 & E2). rewrite bind_Ok.
  destruct (write_register_spec m2 NextPCReg 4 Hl2 ltac:(done)) as (m3 & -> & Hl3 & Hr3 & regs3 & E3). rewrite bind_Ok.
  destruct (write_register_spec m3 StackReg (numPages sp * PageSize - 16) Hl3 ltac:(done))
    as (m4 & -> & Hl4 & Hr4 & regs4 & E4).
  exists m4. split; [done|]. split; [done|]. split; [|exists regs4; by rewrite E4, E3, E2, E1].
  intros r Hr. rewrite Hr4, Hr3, Hr2, Hr1. change (0 + Z.of_nat (Z.to_nat NumTotalRegs)) with NumTotalRegs.
  rewrite (proj2 (Z.leb_le 0 r)), (proj2 (Z.ltb_lt r NumTotalRegs)) by lia.
  destruct (Z.eqb_spec r StackReg); [done|]. destruct (Z.eqb_spec r NextPCReg); [done|].
  by destruct (r =? PCReg).
Qed.

(** ** The address space *)

Section start.
Context {F W V : Type} `{FileStoreLaws F W}.
Context (new_words : Z -> list Z) (header_bytes : list Z).
Context (Hwords : forall n, 0 <= n -> zlen (new_words n) = divRoundUp n BitsInWord /\ Forall is_u32 (new_words n)).

(** A program whose header is there and whose segments have sizes. *)
Record wf_header (bs : list Z) (h : NoffHeader) : Prop := {
  wh_len : sizeof_NoffHeader <= zlen bs;
  wh_header : noff_of_bytes (take (Z.to_nat sizeof_NoffHeader) bs) = h;
  wh_sizes : 0 <= seg_size (code h) < 2 ^ 28 /\ 0 <= seg_size (initData h) < 2 ^ 28 /\
    0 <= seg_size (uninitData h) < 2 ^ 28
}.

(** The pages of the program and its stack. *)
Definition pages (h : NoffHeader) : Z := divRoundUp (space_size h) PageSize.

Lemma noff_word_app (l r : list Z) i : (4 * i + 4 <= length l)%nat -> noff_word (l ++ r) i = noff_word l i.
Proof.
  intros Hi. unfold noff_word. do 2 f_equal. rewrite drop_app_le by lia.
  rewrite take_app_le; [done|]. rewrite length_drop. lia.
Qed.

Lemma noff_of_bytes_app (l r : list Z) : (40 <= length l)%nat -> noff_of_bytes (l ++ r) = noff_of_bytes l.
Proof. intros Hl. unfold noff_of_bytes. by rewrite !noff_word_app by lia. Qed.

Lemma read_header_spec f w bs h :
  fsl_ok w -> fsl_reads f w bs -> wf_header bs h ->
  exists w', read_header header_bytes f w = Ok (h, w') /\ fsl_ok w' /\ forall n, fsl_file w' n = fsl_file w n.
Proof.
  intros Hok Hr [Hl Hh _]. unfold read_header.
  destruct (fsl_read f sizeof_NoffHeader 0 w bs Hok Hr ltac:(done) ltac:(done)) as (w' & -> & Hok' & Hf').
  exists w'. rewrite bind_Ok. change (drop (Z.to_nat 0) bs) with bs. split; [|done].
  rewrite noff_of_bytes_app, Hh.
  2: { rewrite length_take. unfold zlen, sizeof_NoffHeader in *. lia. }
  unfold WordToHost. by destruct (noffMagic h =? NOFFMAGIC).
Qed.

Lemma pages_range bs h : wf_header bs h -> 1 <= pages h < 2 ^ 24 /\ is_s32 (space_size h).
Proof.
  intros [_ _ (H1 & H2 & H3)]. unfold pages, space_size, UserStackSize, PageSize, SectorSize in *.
  change (2 ^ 28) with 268435456 in *.
  pose proof (divRoundUp_spec (seg_size (code h) + seg_size (initData h) + seg_size (uninitData h) + 1024) 128
    ltac:(lia) ltac:(done)) as Hd.
  change (2 ^ 24) with 16777216. split; [lia|word_lia].
Qed.

(** The space the constructor makes. *)
Record new_space (name : list Z) (h : NoffHeader) (sp : AddrSpace) : Prop := {
  ns_space : wf_space sp;
  ns_pages : numPages sp = pages h;
  ns_name : filename sp = name;
  ns_header : noffH sp = h;
  ns_lazy : Forall (fun e => valid e = false /\ wf_entry e) (table sp);
  ns_console : fd_table (open_files sp) (<[1 := 0]> (<[0 := 0]> ∅))
}.

(** [out] is printed, and otherwise nothing but the state of the disk and of the file
    system's caches changes: the files are as they were. *)
Definition only_prints (out : list Z) (v v' : vmem W) : Prop :=
  stdout v' = stdout v ++ out /\
  fsl_ok (store v') /\ (forall n, fsl_file (store v') n = fsl_file (store v) n) /\ memory v' = memory v /\
  available_pages v' = available_pages v /\ available_sectors v' = available_sectors v /\ buf v' = buf v.

Lemma only_prints_more out text (v v' : vmem W) : only_prints out v v' -> only_prints (out ++ text) v (print v' text).
Proof. intros (Ho & Hr). split; [|exact Hr]. cbn. by rewrite Ho, app_assoc. Qed.

(** stdin and stdout take the first two descriptors. *)
Lemma first_descriptors fds :
  fd_table fds ∅ -> 2 <= fd_size fds ->
  exists l1 l2, fd_put fds 0 = Ok (0, l1) /\ fd_put l1 0 = Ok (1, l2) /\
    fd_table l2 (<[1 := 0]> (<[0 := 0]> ∅)).
Proof.
  intros Ht Hn. destruct (fd_put_spec fds ∅ 0 Ht) as (i0 & m0 & l1 & E0 & S0 & T0 & Z0). cbn [spec_fd] in S0.
  rewrite (spec_find_free _ _ 0) in S0; [|lia|set_solver|lia]. injection S0 as <- <-.
  destruct (fd_put_spec l1 _ 0 T0) as (i1 & m1 & l2 & E1 & S1 & T1 & _). cbn [spec_fd] in S1.
  rewrite (spec_find_free _ _ 1) in S1; [injection S1 as <- <-; by exists l1, l2|lia|set_solver|].
  intros j Hj. assert (j = 0) as -> by lia. set_solver.
Qed.

Lemma AddrSpace_name_spec fds name v bs h :
  fsl_ok (store v) -> fd_table fds ∅ -> 2 <= fd_size fds ->
  fsl_file (store v) name = Some bs -> wf_header bs h ->
  exists v', only_prints (fsl_line name) v v' /\
    if noffMagic h =? NOFFMAGIC then
      if pages h <=? NumPhysPages
      then exists sp, AddrSpace_name new_words header_bytes fds name v = Ok (Some sp, v') /\ new_space name h sp
      else AddrSpace_name new_words header_bytes fds name v = Err AssertFailed
    else AddrSpace_name new_words header_bytes fds name v = Ok (None, v').
Proof.
  intros Hok Hfd Hsize Hfile Hh. destruct (open_file_spec name v Hok) as (o & w1 & Eo & Hok1 & Hf1 & Ho).
  rewrite Hfile in Ho. destruct o as [f|]; [|done].
  destruct (read_header_spec f w1 bs h Hok1 Ho Hh) as (w2 & Eh & Hok2 & Hf2).
  destruct (first_descriptors fds Hfd Hsize) as (l0 & l1 & E0 & E1 & T1).
  exists (set_store (print (set_store v w1) (fsl_line name)) w2).
  split; [split; [done|]; split; [done|]; split; [intros n; cbn; by rewrite Hf2, Hf1|done]|].
  unfold AddrSpace_name. rewrite Eo, bind_Ok, E0, bind_Ok, E1, bind_Ok. cbn [store set_store print].
  rewrite Eh, bind_Ok. destruct (noffMagic h =? NOFFMAGIC); [|done]. cbn [negb].
  destruct (pages_range bs h Hh) as [Hp Hs]. rewrite (s32_id (space_size h)) by done. fold (pages h).
  rewrite (u32_id (pages h)) by word_lia.
  destruct (Z.leb_spec (pages h) NumPhysPages) as [Hle|Hgt]; [|done]. cbn [ASSERT]. rewrite bind_Ok.
  destruct (Hwords (pages h) ltac:(lia)) as [Hwl Hwu].
  destruct (new_BitMap_spec (new_words (pages h)) (pages h) ltac:(lia) Hwl Hwu) as (b & -> & Hb & Hbn & Hbm).
  rewrite bind_Ok. eexists. split; [reflexivity|]. split; cbn [numPages filename noffH table open_files]; try done.
  - split; cbn [numPages table on_disk page_sector]; try done.
    + lia.
    + unfold zlen. rewrite length_fmap, length_seqZ. lia.
    + intros p e E. pose proof (znth_Some_range _ _ _ E) as Hr. rewrite znth_lookup in E by lia.
      rewrite list_lookup_fmap in E. apply fmap_Some in E as (x & Hx & ->). apply lookup_seqZ in Hx as [-> _].
      cbn. lia.
    + unfold zlen. rewrite length_replicate. lia.
  - apply Forall_fmap, Forall_forall. intros x Hx%elem_of_seqZ. cbn. split; [done|].
    unfold NumPhysPages in *. split; cbn; word_lia.
Qed.

Lemma start_machine sp m (E : zlen (table sp) = numPages sp) :
  wf_core m -> tlb m = None -> Forall wf_entry (table sp) -> 0 <= numPages sp <= NumPhysPages ->
  exists m', InitRegisters sp m = Ok m' /\ wf_cpu (RestoreState sp m') /\ mainMemory m' = mainMemory m /\
    forall r, 0 <= r < NumTotalRegs -> reg (RestoreState sp m') r = Ok (start_register (numPages sp) r).
Proof.
  intros [Hm Hb Hl _ _] Ht Hpt Hn. destruct (InitRegisters_spec sp m Hl) as (m' & E' & Hl' & Hr & regs & ->).
  exists (set_registers m regs). split; [done|]. split; [|done]. split; [|by apply (Hr 0)]. split.
  - split; try done; cbn [registers set_registers RestoreState] in *.
    + apply Forall_forall. intros x Hx. apply list_elem_of_lookup in Hx as [i Hi].
      pose proof (lookup_lt_Some _ _ _ Hi) as Hlt. assert (0 <= Z.of_nat i < NumTotalRegs) as Hi' by (unfold zlen in Hl'; lia).
      specialize (Hr _ Hi'). apply zget_Ok in Hr. unfold znth in Hr. rewrite (proj2 (Z.leb_le _ _)), Nat2Z.id in Hr by lia.
      cbn in Hr. rewrite Hi in Hr. injection Hr as ->. unfold start_register, NumPhysPages, PageSize, SectorSize in *.
      destruct (_ =? _); [word_lia|]. destruct (_ =? _); word_lia.
    + exists 0. split; [by apply (Hr LoadReg)|done].
  - unfold wf_tables. cbn. rewrite Ht, E. split; [done|lia].
Qed.

Lemma AddrSpace_name_missing fds name (v : vmem W) :
  fsl_ok (store v) -> fsl_file (store v) name = None ->
  exists v', AddrSpace_name new_words header_bytes fds name v = Ok (None, v') /\
    only_prints (fsl_line name ++ says "Unable to open file " name) v v'.
Proof.
  intros Hok Hfile. destruct (open_file_spec name v Hok) as (o & w1 & Eo & Hok1 & Hf1 & Ho).
  rewrite Hfile in Ho. destruct o; [done|]. unfold AddrSpace_name. rewrite Eo, bind_Ok.
  eexists. split; [reflexivity|]. by apply only_prints_more.
Qed.

(** C35: starting a program.  The file is missing, or is one of at least the 40 bytes
    of a header whose three segment sizes are in [0, 2^28); the theorem is not about
    shorter files, of whose header the constructor leaves bytes uninitialised, nor
    about larger or negative sizes, whose sum wraps.  For a file that is not there
    nothing happens but that the line of Open, "Unable to open file" and "Cannot start
    process" are printed; for one whose header has not the magic number, nothing but
    the line of Open and "Cannot start process".  A program whose segments and stack
    need more pages than there are frames aborts.  Otherwise only the line of Open is
    printed and the current thread gets a space with a page table of just these pages,
    none of them loaded, and stdin and stdout open; the machine runs with this table,
    its memory untouched, program counter 0 and 4 next, the stack pointer 16 below the
    end of the space and 0 in all other registers, and it is a well-formed machine, on
    which Run is safe; the first time slice ends in 20 ticks.  The files are as they
    were. *)
Theorem StartProcess_correct fds name current m (v : vmem W) (s : sys V) :
  wf_core m -> tlb m = None -> fsl_ok (store v) -> fd_table fds ∅ -> 2 <= fd_size fds ->
  0 <= now s -> now s + slice < 2 ^ 64 ->
  let start := StartProcess new_words header_bytes fds name current m v s in
  match fsl_file (store v) name with
  | None => exists v', start = Ok (None, (m, (v', s))) /\
      only_prints (fsl_line name ++ says "Unable to open file " name ++ says "Cannot start process: " name) v v'
  | Some bs => forall h, wf_header bs h ->
      if negb (noffMagic h =? NOFFMAGIC) then
        exists v', start = Ok (None, (m, (v', s))) /\
          only_prints (fsl_line name ++ says "Cannot start process: " name) v v'
      else if NumPhysPages <? pages h then start = Err AssertFailed
      else exists sp m' v' s', start = Ok (Some sp, (m', (v', s'))) /\ only_prints (fsl_line name) v v' /\
        new_space name h sp /\ wf_cpu m' /\
        pageTable m' = Some (table sp) /\ pageTableSize m' = pages h /\ mainMemory m' = mainMemory m /\
        (forall r, 0 <= r < NumTotalRegs -> reg m' r = Ok (start_register (pages h) r)) /\
        pending (intr s') = l_insert (pending (intr s))
          (mkPending RoundRobinHandler current (now s + slice) TimerInt) (now s + slice) /\
        stats s' = stats s /\ world s' = world s
  end.
Proof.
  intros Hm Ht Hok Hfd Hsize Hnow Hend start. subst start. unfold StartProcess.
  destruct (fsl_file (store v) name) as [bs|] eqn:Hfile.
  - intros h Hh. destruct (AddrSpace_name_spec fds name v bs h Hok Hfd Hsize Hfile Hh) as (v' & Hsame & E).
    destruct (noffMagic h =? NOFFMAGIC); cbn [negb].
    2:{ rewrite E, bind_Ok. eexists. split; [reflexivity|]. by apply only_prints_more. }
    rewrite Z.ltb_antisym. destruct (pages h <=? NumPhysPages); cbn [negb]; [|by rewrite E].
    destruct E as (sp & E & Hsp). rewrite E, bind_Ok.
    destruct (Schedule_post RoundRobinHandler current slice TimerInt s ltac:(done) Hnow Hend)
      as (s' & -> & _ & Hp & Hst & Hwd & _). rewrite bind_Ok.
    destruct (start_machine sp m (ws_table _ (ns_space _ _ _ Hsp)) Hm Ht) as (m' & -> & Hcpu & Hmem & Hr).
    { eapply Forall_impl; [apply Hsp|]. by intros e [_ He]. }
    { apply Hsp. }
    rewrite bind_Ok. exists sp, (RestoreState sp m'), v', s'. rewrite (ns_pages _ _ _ Hsp) in Hr.
    split_and!; try done; apply Hsp || apply Hsame.
  - destruct (AddrSpace_name_missing fds name v Hok Hfile) as (v' & -> & Hsame). rewrite bind_Ok.
    eexists. split; [reflexivity|]. rewrite app_assoc. by apply only_prints_more.
Qed.

(** At the end of a time slice the next one begins, and the thread yields when
    the handler returns. *)
Lemma RoundRobin_renews arg current (s : sys V) :
  inHandler (intr s) = true -> 0 <= now s -> now s + slice < 2 ^ 64 ->
  exists s', RoundRobin arg current s = Ok s' /\ yieldOnReturn (intr s') = true /\
    pending (intr s') = l_insert (pending (intr s))
      (mkPending RoundRobinHandler current (now s + slice) TimerInt) (now s + slice) /\
    stats s' = stats s /\ world s' = world s.
Proof.
  intros Hin Hn Hb. unfold RoundRobin.
  destruct (Schedule_post RoundRobinHandler current slice TimerInt s ltac:(done) Hn Hb)
    as (s1 & -> & _ & Hp & Hst & Hwd & Hi). rewrite bind_Ok. unfold YieldOnReturn.
  rewrite ASSERT_true, bind_Ok by congruence. by eexists.
Qed.
End start.

(** ** A program made by coff2noff *)

(** A store of files in memory. *)
Definition ram : Type := list (list Z * list Z).
Definition ram_lookup (name : list Z) (w : ram) : option (list Z) :=
  snd <$> List.find (fun e => bool_decide (fst e = name)) w.
#[local] Instance ram_files : FileStore (list Z) ram := {|
  fs_open name w := Ok (ram_lookup name w, [], w);
  fs_read_at f n pos w := Ok (take (Z.to_nat n) (drop (Z.to_nat pos) f), w)
|}.
#[local] Instance ram_laws : FileStoreLaws (list Z) ram.
Proof.
  refine {| fsl_ok _ := True; fsl_file w n := ram_lookup n w; fsl_line _ := []; fsl_reads f _ bs := f = bs |}.
  - intros name w _. exists (ram_lookup name w), w. split; [done|]. split; [done|]. split; [done|].
    by destruct (ram_lookup name w).
  - intros f n pos w bs _ -> _ _. by exists w.
Defined.

(** The sample of Coff2Noff.v as the file "p". *)
Definition sample_program : list Z := match coff2noff sample_garbage sample_coff with inr out => out | inl _ => [] end.
Definition sample_vm : vmem ram := mkVM (replicate (Z.to_nat MemorySize) 0) [] (mkBitMap 0 0 []) [] [] [([112], sample_program)].
Definition zero_words (n : Z) : list Z := replicate (Z.to_nat (divRoundUp n BitsInWord)) 0.
Definition idle_sys : sys unit := mkSys (mkInterrupt IntOff [] false false SystemMode) new_Statistics tt.

Lemma StartProcess_correct_witness :
  exists v' sp m' s', StartProcess zero_words [] fd_sample [112] 7 (new_Machine 0 0 false) sample_vm idle_sys
      = Ok (Some sp, (m', (v', s'))) /\ wf_cpu m' /\ pageTableSize m' = 9 /\
    reg m' StackReg = Ok (9 * PageSize - 16) /\ fst <$> pending (intr s') = [20].
Proof.
  assert (forall n, 0 <= n -> zlen (zero_words n) = divRoundUp n BitsInWord /\ Forall is_u32 (zero_words n)) as Hw.
  { intros n Hn. pose proof (divRoundUp_spec n BitsInWord Hn ltac:(done)) as Hd. unfold zero_words, zlen, BitsInWord in *.
    split; [rewrite length_replicate; lia|apply Forall_replicate; word_lia]. }
  pose proof (StartProcess_correct zero_words [] Hw fd_sample [112] 7 (new_Machine 0 0 false) sample_vm idle_sys
    (new_Machine_wf _ _ _) eq_refl I fd_sample_table ltac:(done) ltac:(done) ltac:(done)) as H.
  cbv zeta in H. change (fsl_file (store sample_vm) [112]) with (Some sample_program) in H.
  assert (wf_header sample_program (noff_of_bytes (take 40 sample_program))) as Hh.
  { split; [vm_compute; discriminate|reflexivity|]. vm_compute. split_and!; try done; intros [=]. }
  pose proof (H _ Hh) as E. clear H.
  assert (pages (noff_of_bytes (take 40 sample_program)) = 9) as Hp by (vm_compute; reflexivity).
  rewrite Hp in E. assert (noffMagic (noff_of_bytes (take 40 sample_program)) = NOFFMAGIC) as Hmg by (vm_compute; reflexivity).
  rewrite Hmg in E. cbn [negb Z.eqb] in E. destruct E as (sp & m' & v' & s' & E & _ & _ & Hcpu & _ & Hn & _ & Hr & Hpd & _).
  exists v', sp, m', s'. split; [exact E|]. split; [exact Hcpu|]. split; [exact Hn|].
  split; [rewrite Hr by (split; [discriminate|reflexivity]); reflexivity|]. rewrite Hpd. vm_compute. reflexivity.
Defined.
