(* ===== verification/Children.v ===== *)
(** * Children: the child records of threads/thread.h and threads/thread.cc

    A parent keeps a record of each of its children, on a doubly linked ring; a
    child keeps a pointer to its own record, and sets its exit status there.
    Join walks the ring (userprog/exception.cc). *)

From S2P Require Import Prelude.

Record ChildThread := mkChild {
  cthread : option Z;                   (* the child, NULL when it has exited *)
  cstatus : Z;
  cid : Z;
  join_sem : Z;
  cnext : Z;
  cprev : Z
}.

Record children := mkChildren { records : gmap Z ChildThread; globalID : Z }.

Definition set_records (c : children) m := mkChildren m (globalID c).
Definition set_next (r : ChildThread) a :=
  mkChild (cthread r) (cstatus r) (cid r) (join_sem r) a (cprev r).
Definition set_prev (r : ChildThread) a :=
  mkChild (cthread r) (cstatus r) (cid r) (join_sem r) (cnext r) a.

Definition get_record (a : Z) (c : children) : res ChildThread :=
  match records c !! a with Some r => Ok r | None => Err NullDeref end.
Definition update_record (a : Z) (f : ChildThread -> ChildThread) (c : children) : res children :=
  r ← get_record a c; mret (set_records c (<[a := f r]> (records c))).

(** [new ChildThread(t)] at the address [a], with the semaphore [sem]. *)
Definition new_ChildThread (t a sem : Z) : ChildThread := mkChild (Some t) (-1) 0 sem a a.

(** [parentRecord->id = globalID++]. *)
Definition number_record (a : Z) (c : children) : res children :=
  let id := globalID c in
  c ← update_record a (fun r => mkChild (cthread r) (cstatus r) id (join_sem r) (cnext r) (cprev r)) c;
  mret (mkChildren (records c) (s32 (id + 1))).

(** The part of [Thread(name, parent)] that links the thread [t] to a parent
    whose [child] is given; the record is allocated at [a].  The result is the
    parent's [child]; the new thread's [parentRecord] is [a]. *)
Definition add_child (child : option Z) (t a sem : Z) (c : children) : res (option Z * children) :=
  match child with
  | None =>
      let c := set_records c (<[a := new_ChildThread t a sem]> (records c)) in
      c ← number_record a c;
      mret (Some a, c)
  | Some first =>
      let c := set_records c (<[a := new_ChildThread t a sem]> (records c)) in
      c ← number_record a c;
      f ← get_record first c;
      c ← update_record a (fun r => set_prev r (cprev f)) c;
      c ← update_record a (fun r => set_next r first) c;
      f ← get_record first c;
      c ← update_record (cprev f) (fun r => set_next r a) c;
      c ← update_record first (fun r => set_prev r a) c;
      mret (Some first, c)
  end.

(** [notifyParent]: the semaphore it signals, if there is a parent. *)
Definition notifyParent (parentRecord : option Z) (status : Z) (c : children)
    : res (option Z * children) :=
  match parentRecord with
  | None => mret (None, c)
  | Some a =>
      c ← update_record a
            (fun r => mkChild None status (cid r) (join_sem r) (cnext r) (cprev r)) c;
      r ← get_record a c;
      mret (Some (join_sem r), c)
  end.

Definition getID (parentRecord : option Z) (c : children) : res Z :=
  match parentRecord with
  | None => mret (-1)
  | Some a => r ← get_record a c; mret (cid r)
  end.

(** The loop of Join: the semaphore of the child [id], to wait on. *)
Fixpoint join_loop (fuel : nat) (first a id : Z) (c : children) : res (option Z) :=
  match fuel with
  | O => Err OutOfFuel
  | S fuel =>
      r ← get_record a c;
      if cid r =? id then mret (Some (join_sem r))
      else if cnext r =? first then mret None else join_loop fuel first (cnext r) id c
  end.

(** [Join_Syscall_Func]; None is the result -1. *)
Definition find_child (fuel : nat) (child : option Z) (id : Z) (c : children) : res (option Z) :=
  match child with
  | Some first => if id >=? 0 then join_loop fuel first first id c else mret None
  | None => mret None
  end.

(** ** Rings *)

Definition ring_next (l : list Z) (i : nat) : option Z :=
  match l !! S i with Some y => Some y | None => head l end.
Definition ring_prev (l : list Z) (i : nat) : option Z :=
  match i with O => last l | S j => l !! j end.

(** The records on [l], in order, are linked into a ring. *)
Record ring (m : gmap Z ChildThread) (l : list Z) : Prop := {
  ring_nodup : NoDup l;
  ring_links : forall i x, l !! i = Some x -> exists r, m !! x = Some r /\
    ring_next l i = Some (cnext r) /\ ring_prev l i = Some (cprev r)
}.

(** The children of a parent: none, or a ring that starts at [child]. *)
Definition children_of (child : option Z) (c : children) (l : list Z) : Prop :=
  head l = child /\ ring (records c) l.

Lemma update_record_Ok a f c r :
  records c !! a = Some r -> update_record a f c = Ok (set_records c (<[a := f r]> (records c))).
Proof. intros E. unfold update_record, get_record. by rewrite E. Qed.

Lemma get_record_Ok a c r : records c !! a = Some r -> get_record a c = Ok r.
Proof. intros E. unfold get_record. by rewrite E. Qed.

(** The record that closes the ring. *)
Lemma ring_last m x l r :
  ring m (x :: l) -> m !! x = Some r -> last (x :: l) = Some (cprev r).
Proof.
  intros Hr E. destruct (ring_links _ _ Hr 0%nat x eq_refl) as (r' & E' & _ & Hp).
  assert (r' = r) as -> by congruence. exact Hp.
Qed.

Section insert.
Context (m : gmap Z ChildThread) (x : Z) (l : list Z) (a y : Z) (rx : ChildThread) (new : ChildThread).
Context (Hr : ring m (x :: l)) (Ha : m !! a = None).
Context (Ex : m !! x = Some rx) (Ey : cprev rx = y).

(** The ring after the assignments of the constructor. *)
Lemma ring_insert m' :
  m' !! a = Some (set_next (set_prev new y) x) ->
  (forall z r, z <> a -> m !! z = Some r -> exists r', m' !! z = Some r' /\
     cnext r' = (if decide (z = y) then a else cnext r) /\
     cprev r' = (if decide (z = x) then a else cprev r)) ->
  ring m' ((x :: l) ++ [a]).
Proof using All.
  intros Em' Hm'. pose proof (ring_last _ _ _ _ Hr Ex) as Hl. rewrite Ey in Hl.
  assert (a ∉ x :: l) as Hnew.
  { intros Hin. apply list_elem_of_lookup_1 in Hin as [i Ei].
    destruct (ring_links _ _ Hr i a Ei) as (r & E & _). congruence. }
  pose proof (ring_nodup _ _ Hr) as Hnd.
  split.
  { apply NoDup_app. split; [done|]. split; [|apply NoDup_singleton].
    intros z Hz ->%list_elem_of_singleton. done. }
  intros i z Ei. apply lookup_snoc_Some in Ei as [[Hi Ei]|[-> <-]].
  - destruct (ring_links _ _ Hr i z Ei) as (r & E & Hnx & Hpv).
    assert (z <> a) as Hza by congruence.
    destruct (Hm' z r Hza E) as (r' & E' & En & Ep). exists r'. split; [done|].
    unfold ring_next, ring_prev in *. split.
    + rewrite En. destruct (decide (z = y)) as [Hzy|Hzy].
      * subst z. rewrite last_lookup in Hl.
        assert (i = pred (length (x :: l))) as -> by exact (NoDup_lookup _ _ _ _ Hnd Ei Hl).
        rewrite lookup_app_r by (simpl; lia). simpl. by rewrite Nat.sub_diag.
      * destruct ((x :: l) !! S i) as [z'|] eqn:Es.
        { rewrite lookup_app_l by (by eapply lookup_lt_Some). by rewrite Es. }
        exfalso. apply lookup_ge_None in Es. apply Hzy. rewrite last_lookup in Hl.
        assert (i = pred (length (x :: l))) as -> by lia. congruence.
    + rewrite Ep. destruct (decide (z = x)) as [Hzx|Hzx].
      * subst z. assert (i = 0%nat) as -> by exact (NoDup_lookup (x :: l) i 0 x Hnd Ei eq_refl). by rewrite last_snoc.
      * destruct i as [|i]; [by injection Ei as ->|]. rewrite lookup_app_l by lia. done.
  - exists (set_next (set_prev new y) x). split; [done|]. unfold ring_next, ring_prev. simpl. split.
    + rewrite lookup_ge_None_2; [done|]. rewrite length_app. simpl. lia.
    + rewrite last_lookup in Hl. simpl in Hl.
      change (x :: l ++ [a]) with ((x :: l) ++ [a]). rewrite lookup_app_l by (simpl; lia). done.
Qed.
End insert.

Lemma add_child_first t a sem c :
  exists c', add_child None t a sem c = Ok (Some a, c') /\ children_of (Some a) c' [a] /\
    (exists r, records c' !! a = Some r /\ cid r = globalID c /\ join_sem r = sem /\ cthread r = Some t) /\
    globalID c' = s32 (globalID c + 1).
Proof.
  unfold add_child, number_record. erewrite update_record_Ok by (simpl; apply lookup_insert_eq).
  rewrite !bind_Ok. eexists. split; [reflexivity|]. simpl. rewrite insert_insert_eq. split; [|split; [|done]].
  - split; [done|]. split; [apply NoDup_singleton|]. intros i x Ei.
    destruct i; [|done]. injection Ei as <-. simpl. rewrite lookup_insert_eq. by eexists.
  - rewrite lookup_insert_eq. by eexists.
Qed.

(** What a record says, apart from its links. *)
Definition record_data (r : ChildThread) : option Z * Z * Z * Z :=
  (cthread r, cstatus r, cid r, join_sem r).

(** The other records keep what they say. *)
Definition same_records (a : Z) (c c' : children) : Prop :=
  forall z r, z <> a -> records c !! z = Some r ->
    exists r', records c' !! z = Some r' /\ record_data r' = record_data r.

Lemma add_child_more t a sem c x l :
  ring (records c) (x :: l) -> records c !! a = None ->
  exists c', add_child (Some x) t a sem c = Ok (Some x, c') /\
    ring (records c') ((x :: l) ++ [a]) /\ same_records a c c' /\
    (exists r, records c' !! a = Some r /\ record_data r = (Some t, -1, globalID c, sem)) /\
    globalID c' = s32 (globalID c + 1).
Proof.
  intros Hr Ha. destruct (ring_links _ _ Hr 0%nat x eq_refl) as (rx & Ex & _ & Hp).
  set (y := cprev rx) in *.
  assert (exists ry, records c !! y = Some ry) as [ry Ey].
  { change (ring_prev (x :: l) 0) with (last (x :: l)) in Hp. rewrite last_lookup in Hp.
    destruct (ring_links _ _ Hr _ _ Hp) as (ry & E & _). by exists ry. }
  assert (x <> a) as Hxa by congruence. assert (y <> a) as Hya by congruence.
  unfold add_child, number_record. erewrite update_record_Ok by (simpl; apply lookup_insert_eq).
  rewrite !bind_Ok. simpl. rewrite insert_insert_eq.
  unfold mret, res_ret. rewrite ?bind_Ok.
  erewrite get_record_Ok by (simpl; rewrite lookup_insert_ne by done; exact Ex). rewrite bind_Ok.
  fold y. erewrite update_record_Ok by (simpl; apply lookup_insert_eq).
  rewrite bind_Ok. simpl. rewrite insert_insert_eq.
  erewrite update_record_Ok by (simpl; apply lookup_insert_eq). rewrite bind_Ok. simpl.
  rewrite insert_insert_eq.
  erewrite get_record_Ok by (simpl; rewrite lookup_insert_ne by done; exact Ex). rewrite bind_Ok. fold y.
  erewrite (update_record_Ok y) by (simpl; rewrite lookup_insert_ne by done; exact Ey).
  rewrite bind_Ok. simpl.
  assert (exists rx', <[y := set_next ry a]> (<[a := mkChild (Some t) (-1) (globalID c) sem x y]> (records c))
    !! x = Some rx' /\ cnext rx' = (if decide (x = y) then a else cnext rx) /\
    record_data rx' = record_data rx) as (rx' & Ex' & En' & Ed').
  { destruct (decide (x = y)) as [Exy|Hne].
    - rewrite Exy, lookup_insert_eq. eexists. split; [reflexivity|]. split; [done|].
      assert (ry = rx) as -> by congruence. done.
    - rewrite !lookup_insert_ne by done. by exists rx. }
  rewrite (update_record_Ok x _ _ rx') by exact Ex'. rewrite bind_Ok. eexists. split; [reflexivity|].
  simpl. split; [|split; [|split; [|done]]].
  - eapply (ring_insert (records c) x l a y rx (mkChild (Some t) (-1) (globalID c) sem a a) Hr Ha Ex eq_refl).
    + rewrite !lookup_insert_ne, lookup_insert_eq by done. done.
    + intros z r Hz E. destruct (decide (z = x)) as [->|Hzx].
      * rewrite lookup_insert_eq. eexists. split; [reflexivity|]. simpl.
        assert (r = rx) as -> by congruence. by rewrite En'.
      * rewrite lookup_insert_ne by done. destruct (decide (z = y)) as [->|Hzy].
        -- rewrite lookup_insert_eq. eexists. split; [reflexivity|]. simpl.
           assert (r = ry) as -> by congruence. done.
        -- rewrite !lookup_insert_ne by done. by exists r.
  - intros z r Hz E. simpl. destruct (decide (z = x)) as [->|Hzx].
    + rewrite lookup_insert_eq. eexists. split; [reflexivity|].
      assert (r = rx) as -> by congruence. exact Ed'.
    + rewrite lookup_insert_ne by done. destruct (decide (z = y)) as [->|Hzy].
      * rewrite lookup_insert_eq. eexists. split; [reflexivity|]. by assert (r = ry) as -> by congruence.
      * rewrite !lookup_insert_ne by done. by exists r.
  - rewrite !lookup_insert_ne, lookup_insert_eq by done. by eexists.
Qed.

(** ** Walking the ring *)

(** The first record of [l] with the given id. *)
Fixpoint lookup_child (m : gmap Z ChildThread) (l : list Z) (id : Z) : option Z :=
  match l with
  | [] => None
  | x :: l =>
      match m !! x with
      | Some r => if cid r =? id then Some (join_sem r) else lookup_child m l id
      | None => None
      end
  end.

Lemma join_loop_ring first id c l : forall suf pre x,
  ring (records c) l -> head l = Some first -> l = pre ++ x :: suf ->
  forall fuel, (length suf < fuel)%nat ->
  join_loop fuel first x id c = Ok (lookup_child (records c) (x :: suf) id).
Proof.
  induction suf as [|y suf IH]; intros pre x Hr Hh El fuel Hf; (destruct fuel as [|fuel]; [lia|]);
    cbn [join_loop lookup_child];
    (destruct (ring_links _ _ Hr (length pre) x) as (r & E & Hn & _);
      [by rewrite El; apply list_lookup_middle|]);
    rewrite (get_record_Ok _ _ _ E), E, bind_Ok; destruct (cid r =? id); try done.
  - unfold ring_next in Hn. rewrite lookup_ge_None_2 in Hn by (rewrite El, length_app; simpl; lia).
    assert (cnext r = first) as -> by congruence. by rewrite Z.eqb_refl.
  - unfold ring_next in Hn. rewrite El in Hn.
    rewrite lookup_app_r in Hn by lia. replace (S (length pre) - length pre)%nat with 1%nat in Hn by lia.
    injection Hn as Hn. rewrite <- Hn. destruct (Z.eqb_spec y first) as [->|Hne].
    + exfalso. pose proof (ring_nodup _ _ Hr) as Hnd. assert (l !! 0%nat = Some first) as E0
        by (by destruct l).
      assert (l !! (S (length pre)) = Some first) as E1.
      { rewrite El, lookup_app_r by lia. by replace (S (length pre) - length pre)%nat with 1%nat by lia. }
      by pose proof (NoDup_lookup _ _ _ _ Hnd E0 E1).
    + apply (IH (pre ++ [x])); [done|done| |simpl in Hf; lia].
      by rewrite <- app_assoc.
Qed.

Lemma find_child_spec fuel child id c l :
  children_of child c l -> (length l <= fuel)%nat ->
  find_child fuel child id c =
    Ok (if id >=? 0 then lookup_child (records c) l id else None).
Proof.
  intros [Hh Hr] Hf. unfold find_child. destruct l as [|x l].
  - simpl in Hh. subst child. by destruct (id >=? 0).
  - simpl in Hh. subst child. destruct (id >=? 0); [|done].
    apply (join_loop_ring x id c (x :: l) l [] x Hr); [done|done|simpl in Hf; lia].
Qed.

(** Changing what a record says does not change the rings. *)
Lemma ring_update m l a r r' :
  m !! a = Some r -> cnext r' = cnext r -> cprev r' = cprev r -> ring m l -> ring (<[a := r']> m) l.
Proof.
  intros E En Ep [Hnd Hl]. split; [done|]. intros i x Ei. destruct (Hl i x Ei) as (rx & Ex & H1 & H2).
  destruct (decide (x = a)) as [->|Hne].
  - exists r'. rewrite lookup_insert_eq, En, Ep. assert (rx = r) as -> by congruence. done.
  - exists rx. by rewrite lookup_insert_ne.
Qed.

(** C25: the children of a thread.  Creating a child appends its record to the
    parent's ring, under a number that is returned by getID, and keeps what the
    other records say; Join always ends, and waits on the semaphore of exactly
    the child with the number asked for, or returns -1 when there is none; when
    the child exits, its status is stored in the record, the semaphore of that
    record is signalled, and the ring is as before. *)
Theorem children_correct child c l t a sem status :
  children_of child c l -> records c !! a = None ->
  exists child' c', add_child child t a sem c = Ok (child', c') /\
    children_of child' c' (l ++ [a]) /\ same_records a c c' /\
    getID (Some a) c' = Ok (globalID c) /\
    (forall id fuel, (length l < fuel)%nat -> find_child fuel child' id c' =
       Ok (if id >=? 0 then lookup_child (records c') (l ++ [a]) id else None)) /\
    exists c'', notifyParent (Some a) status c' = Ok (Some sem, c'') /\
      children_of child' c'' (l ++ [a]) /\ same_records a c' c'' /\
      exists r, records c'' !! a = Some r /\ record_data r = (None, status, globalID c, sem).
Proof.
  intros [Hh Hr] Ha.
  assert (exists child' c' r, add_child child t a sem c = Ok (child', c') /\
    children_of child' c' (l ++ [a]) /\ same_records a c c' /\ records c' !! a = Some r /\
    record_data r = (Some t, -1, globalID c, sem)) as (child' & c' & r & E & Hc & Hs & Er & Ed).
  { destruct l as [|x l].
    - simpl in Hh. subst child. destruct (add_child_first t a sem c) as (c' & E & Hc & _ & _).
      unfold add_child, number_record in E. erewrite update_record_Ok in E by (simpl; apply lookup_insert_eq).
      rewrite !bind_Ok in E. injection E as <-. simpl in *. rewrite insert_insert_eq in *.
      eexists _, _, _. unfold add_child, number_record.
      erewrite update_record_Ok by (simpl; apply lookup_insert_eq). rewrite !bind_Ok. simpl.
      rewrite insert_insert_eq. split; [reflexivity|]. split; [exact Hc|]. split; [|split].
      + intros z r Hz E. simpl. rewrite lookup_insert_ne by done. by exists r.
      + simpl. apply lookup_insert_eq.
      + done.
    - simpl in Hh. subst child.
      destruct (add_child_more t a sem c x l Hr Ha) as (c' & E & Hc & Hs & (r & Er & Ed) & _).
      exists (Some x), c', r. split_and!; try done. }
  injection Ed as Et Est Eid Esem. exists child', c'. split; [exact E|]. split; [exact Hc|]. split; [exact Hs|].
  split; [unfold getID; rewrite (get_record_Ok _ _ _ Er), bind_Ok; unfold mret, res_ret; congruence|]. split.
  - intros id fuel Hf. apply find_child_spec; [exact Hc|]. rewrite length_app. simpl. lia.
  - unfold notifyParent. rewrite (update_record_Ok _ _ _ _ Er), bind_Ok.
    erewrite get_record_Ok by (simpl; apply lookup_insert_eq). rewrite bind_Ok. simpl. rewrite Esem.
    eexists. split; [reflexivity|]. split; [|split].
    + split; [apply Hc|]. apply (ring_update _ _ _ r); [exact Er|done|done|apply Hc].
    + intros z rz Hz Ez. simpl. rewrite lookup_insert_ne by done. by exists rz.
    + simpl. rewrite lookup_insert_eq. eexists. split; [reflexivity|]. unfold record_data. simpl.
      by rewrite ?Eid, ?Esem.
Qed.

(** A parent with two children, made by the constructor. *)
Definition two_children : res (option Z * children) :=
  '(child, c) ← add_child None 5 100 1 (mkChildren ∅ 0);
  add_child child 6 200 2 c.

Lemma two_children_ring :
  exists c, two_children = Ok (Some 100, c) /\ children_of (Some 100) c [100; 200] /\
    records c !! 300 = None.
Proof.
  destruct (add_child_first 5 100 1 (mkChildren ∅ 0)) as (c & E & [Hh Hr] & _).
  assert (records c !! 200 = None) as Hn.
  { vm_compute in E. injection E as <-. reflexivity. }
  destruct (add_child_more 6 200 2 c 100 [] Hr Hn) as (c' & E' & Hr' & _).
  exists c'. unfold two_children. rewrite E, bind_Ok. split; [exact E'|]. split; [by split|].
  assert (two_children = Ok (Some 100, c')) as E2 by (unfold two_children; by rewrite E, bind_Ok).
  vm_compute in E2. injection E2 as <-. reflexivity.
Qed.

Lemma children_correct_witness :
  exists c c', two_children = Ok (Some 100, c) /\ add_child (Some 100) 7 300 3 c = Ok (Some 100, c') /\
    find_child 3 (Some 100) 2 c' = Ok (Some 3).
Proof.
  destruct two_children_ring as (c & E2 & Hc & Hn).
  destruct (children_correct (Some 100) c [100; 200] 7 300 3 0 Hc Hn) as
    (child' & c' & E & Hc' & _ & _ & Hj & _).
  assert (child' = Some 100) as -> by (destruct Hc' as [Hh _]; simpl in Hh; congruence).
  exists c, c'. split; [exact E2|]. split; [exact E|]. rewrite Hj by (simpl; lia).
  vm_compute in E2. injection E2 as <-. vm_compute in E. injection E as <-. reflexivity.
Defined.
