(* ===== verification/Exception.v ===== *)
(** * Exception: userprog/exception.cc

    The entry point of the kernel: system calls and exceptions of a user program.
    The thread operations a call ends in are its outcome: the program goes on,
    the machine halts, the thread finishes after signalling its parent, or it
    waits on the semaphore of a child. *)

From S2P Require Import Text.
From S2P Require Import Prelude BitMap Machine Interrupt Disk SynchDisk FDList AddrSpace Children.

(** The calls of the file system the handlers make. *)
Class FileOps (F W : Type) := {
  fo_create : list Z -> Z -> W -> res (bool * W);
  fo_read : F -> Z -> W -> res (list Z * (F * W));
  fo_write : F -> list Z -> Z -> W -> res (Z * (F * W))
}.

Definition SC_Halt : Z := 0.
Definition SC_Exit : Z := 1.
Definition SC_Exec : Z := 2.
Definition SC_Join : Z := 3.
Definition SC_Create : Z := 4.
Definition SC_Open : Z := 5.
Definition SC_Read : Z := 6.
Definition SC_Write : Z := 7.
Definition SC_Close : Z := 8.

(** What the handlers work on: the machine, the address space of the current
    thread, the memory, the disk and what was printed, the open file objects by
    address, and the records of children. *)
Record ust (F W : Type) := mkUst {
  mach : Machine;
  uspace : AddrSpace;
  uvm : vmem W;
  objects : gmap Z F;
  uchild : option Z;                    (* currentThread->child *)
  uparent : option Z;                   (* currentThread->parentRecord *)
  ukids : children
}.
Arguments mkUst {F W}. Arguments mach {F W}. Arguments uspace {F W}. Arguments uvm {F W}.
Arguments objects {F W}. Arguments uchild {F W}. Arguments uparent {F W}.
Arguments ukids {F W}.

Section exception.
Context {F W : Type} `{FileStore F W} `{FileOps F W} `{SectorStore W}.
Context (yield : vmem W -> res (vmem W)).
(** Uninitialised memory: [new char[n]], the local of [fd_remove], and what the
    constructor of an address space finds. *)
Context (new_char : Z -> list Z) (garbage : Z) (new_words : Z -> list Z)
  (header_bytes stack_words : list Z) (new_fds : FD_List).
(** The addresses of new objects, and the number, the record and the semaphore of
    a new thread. *)
Context (new_object : gmap Z F -> Z) (new_thread new_record new_sem : Z).
(** The word [scanf] reads, unless the input has ended. *)
Context (scanned : option (list Z)).

Definition set_mach (st : ust F W) m := mkUst m (uspace st) (uvm st) (objects st)
  (uchild st) (uparent st) (ukids st).
Definition set_space (st : ust F W) s (v : vmem W) := mkUst (mach st) s v (objects st)
  (uchild st) (uparent st) (ukids st).
Definition set_objects (st : ust F W) (o : gmap Z F) := mkUst (mach st) (uspace st) (uvm st) o
  (uchild st) (uparent st) (ukids st).
Definition printf (st : ust F W) (text : list Z) := set_space st (uspace st) (print (uvm st) text).
Definition set_kids (st : ust F W) c k := mkUst (mach st) (uspace st) (uvm st) (objects st)
  c (uparent st) k.

(** The memory is the machine's, and so is the page table of the space once it is
    installed: what the kernel does to the one is done to the other. *)
Definition kernel_space (st : ust F W) : AddrSpace :=
  set_table (uspace st) (default (table (uspace st)) (pageTable (mach st))).
Definition kernel_vm (st : ust F W) : vmem W := set_memory (uvm st) (mainMemory (mach st)).
Definition to_machine (st : ust F W) (s : AddrSpace) (v : vmem W) : ust F W :=
  set_mach (set_space st s v)
    (set_mainMemory (set_pageTable (mach st) ((fun _ => table s) <$> pageTable (mach st))) (memory v)).

(** [currentThread->space->read(addr, bytes)]; the result is the buffer. *)
Definition space_read (st : ust F W) (addr bytes : Z) : res (list Z * ust F W) :=
  '(s, v) ← read (F := F) yield (kernel_space st) (kernel_vm st) (s32 addr) bytes;
  mret (buf v, to_machine st s v).

Definition space_write (st : ust F W) (addr : Z) (str : list Z) (bytes : Z) : res (ust F W) :=
  '(s, v) ← write (F := F) yield (kernel_space st) (kernel_vm st) (s32 addr) str bytes;
  mret (to_machine st s v).

(** ** Files *)

Definition Create_Syscall_Func (st : ust F W) (addr : Z) : res (ust F W) :=
  '(b, st) ← space_read st addr 0;
  name ← c_string b;
  '(_, w) ← fo_create name 0 (store (uvm st));
  mret (set_space st (uspace st) (set_store (uvm st) w)).

Definition Open_Syscall_Func (st : ust F W) (addr : Z) : res (Z * ust F W) :=
  '(b, st) ← space_read st addr 0;
  name ← c_string b;
  '(file, v) ← open_file name (uvm st);
  let st := set_space st (uspace st) v in
  match file with
  | Some f =>
      let p := new_object (objects st) in
      let st := set_objects st (<[p := f]> (objects st)) in
      '(fd, l) ← fd_put (open_files (uspace st)) p;
      let st := set_space st (set_open_files (uspace st) l) (uvm st) in
      let st := if fd =? -1 then set_objects st (delete p (objects st)) else st in
      if fd =? 0 then mret (-1, st) else mret (fd, st)
  | None => mret (-1, st)
  end.

Definition get_object (st : ust F W) (p : Z) : res F :=
  match objects st !! p with Some f => Ok f | None => Err NullDeref end.

Definition Write_Syscall_Func (st : ust F W) (addr size fd : Z) : res (Z * ust F W) :=
  if fd <? 0 then mret (-1, st)
  else if size =? 0 then mret (0, st)
  else if size <? 0 then mret (-1, st)
  else if fd =? ConsoleInput then mret (-1, st)
  else
    '(b, st) ← space_read st addr size;
    if fd =? ConsoleOutput then
      out ← zread b 0 size;
      mret (size, printf st out)
    else
      p ← fd_get (open_files (uspace st)) fd;
      if negb (p =? 0) then
        f ← get_object st p;
        '(n, (f, w)) ← fo_write f b size (store (uvm st));
        let st := set_objects st (<[p := f]> (objects st)) in
        mret (n, set_space st (uspace st) (set_store (uvm st) w))
      else mret (-1, st).

Definition Read_Syscall_Func (st : ust F W) (addr size fd : Z) : res (Z * ust F W) :=
  if size =? 0 then mret (0, st)
  else if size <? 0 then mret (-1, st)
  else if fd <? 0 then mret (-1, st)
  else
    let b := new_char size in
    if fd =? ConsoleOutput then mret (-1, st)
    else if fd =? ConsoleInput then
      b ← match scanned with Some word => zwrite b 0 (word ++ [0]) | None => mret b end;
      st ← space_write st addr b size;
      str ← c_string b;
      mret (zlen str - 1, st)
    else
      p ← fd_get (open_files (uspace st)) fd;
      if negb (p =? 0) then
        f ← get_object st p;
        '(into, (f, w)) ← fo_read f size (store (uvm st));
        let st := set_objects st (<[p := f]> (objects st)) in
        let st := set_space st (uspace st) (set_store (uvm st) w) in
        let read_size := zlen into in
        if read_size >? 0 then
          b ← zwrite b 0 into;
          st ← space_write st addr b size;
          mret (read_size, st)
        else mret (read_size, st)
      else mret (-1, st).

Definition Close_Syscall_Func (st : ust F W) (fd : Z) : res (ust F W) :=
  if fd <? 0 then mret st
  else
    '(p, l) ← fd_remove (open_files (uspace st)) garbage fd;
    let st := set_space st (set_open_files (uspace st) l) (uvm st) in
    if negb (p =? 0) then
      _ ← get_object st p;
      mret (set_objects st (delete p (objects st)))
    else mret st.

(** ** Processes *)

(** [createProcess], up to [machine->Run()]. *)
Definition createProcess (s : AddrSpace) (m : Machine) : res Machine :=
  m ← InitRegisters s m; mret (RestoreState s m).

(** The new thread's space, when there is one, and the result of the call. *)
Definition Exec_Syscall_Func (st : ust F W) : res (Z * option AddrSpace * ust F W) :=
  r4 ← ReadRegister (mach st) 4;
  '(b, st) ← space_read st r4 0;
  fileName ← c_string b;
  args ← ReadRegister (mach st) 5;
  '(child, kids) ← add_child (uchild st) new_thread new_record new_sem (ukids st);
  let st := set_kids st child kids in
  '(sp, v) ← AddrSpace_name new_words header_bytes new_fds fileName (uvm st);
  let st := set_space st (uspace st) v in
  match sp with
  | None => mret (-1, None, st)
  | Some s =>
      '(s, st) ← (if negb (args =? 0) then
                    '(_, (cur, s, v)) ← createStackArgs (F := F) yield stack_words (kernel_space st) s
                                          (kernel_vm st) args fileName;
                    mret (s, to_machine st cur v)
                  else mret (s, st));
      sid ← getID (Some new_record) (ukids st);
      mret (sid, Some s, st)
  end.

(** ** The handler *)

Inductive outcome :=
  | Resumes (st : ust F W)
  | Starts (sp : option AddrSpace) (st : ust F W)     (* of Exec *)
  | Halts
  | Exits (signal : option Z) (st : ust F W)          (* notifyParent, then Finish *)
  | Joins (sem : Z) (st : ust F W).                   (* P(sem), then on as [st] *)

(** The result and the program counter after a system call. *)
Definition syscall_return (sys_ret : Z) (st : ust F W) : res (ust F W) :=
  m ← WriteRegister (mach st) 2 sys_ret;
  pc ← ReadRegister m PCReg;
  m ← WriteRegister m PrevPCReg pc;
  npc ← ReadRegister m NextPCReg;
  m ← WriteRegister m PCReg npc;
  pc ← ReadRegister m PCReg;
  m ← WriteRegister m NextPCReg (s32 (pc + 4));
  mret (set_mach st m).

Definition exit_with (status : Z) (st : ust F W) : res outcome :=
  '(signal, kids) ← notifyParent (uparent st) status (ukids st);
  mret (Exits signal (set_kids st (uchild st) kids)).

Definition syscall (type : Z) (st : ust F W) : res outcome :=
  r4 ← ReadRegister (mach st) 4;
  r5 ← ReadRegister (mach st) 5;
  r6 ← ReadRegister (mach st) 6;
  if type =? SC_Halt then mret Halts
  else if type =? SC_Create then
    st ← Create_Syscall_Func st r4; st ← syscall_return 0 st; mret (Resumes st)
  else if type =? SC_Open then
    '(r, st) ← Open_Syscall_Func st r4; st ← syscall_return r st; mret (Resumes st)
  else if type =? SC_Write then
    '(r, st) ← Write_Syscall_Func st r4 r5 r6; st ← syscall_return r st; mret (Resumes st)
  else if type =? SC_Read then
    '(r, st) ← Read_Syscall_Func st r4 r5 r6; st ← syscall_return r st; mret (Resumes st)
  else if type =? SC_Close then
    st ← Close_Syscall_Func st r4; st ← syscall_return 0 st; mret (Resumes st)
  else if type =? SC_Exit then exit_with r4 st
  else if type =? SC_Exec then
    '(r, sp, st) ← Exec_Syscall_Func st; st ← syscall_return r st; mret (Starts sp st)
  else if type =? SC_Join then
    sem ← find_child (S (size (records (ukids st)))) (uchild st) r4 (ukids st);
    match sem with
    | Some sem => st ← syscall_return 0 st; mret (Joins sem st)
    | None => st ← syscall_return (-1) st; mret (Resumes st)
    end
  else Err AssertFailed.

(** The number of an exception in machine.h. *)
Definition exception_number (which : ExceptionType) : Z :=
  match which with
  | NoException => 0 | SyscallException => 1 | PageFaultException => 2 | ReadOnlyException => 3
  | BusErrorException => 4 | AddressErrorException => 5 | OverflowException => 6
  | IllegalInstrException => 7
  end.

(** [ExceptionHandler].  The current thread runs a user program, so it has an
    address space; the code also ends a thread that has none at a page fault. *)
Definition HandleException (which : ExceptionType) (st : ust F W) : res outcome :=
  type ← ReadRegister (mach st) 2;
  match which with
  | SyscallException => syscall type st
  | PageFaultException =>
      badAddr ← ReadRegister (mach st) BadVAddrReg;
      '(r, (s, v)) ← load_page (F := F) yield (kernel_space st) (kernel_vm st) (Z.quot badAddr PageSize);
      let st := to_machine st s v in
      if r =? -1 then exit_with (-1) st else mret (Resumes st)
  | AddressErrorException => exit_with (-1) (printf st (put_line "Segmentation fault"))
  | OverflowException => exit_with (-1) (printf st (put_line "Overflow fault"))
  | ReadOnlyException => exit_with (-1) (printf st (put_line "Readonly fault"))
  | _ =>
      let msg := sprintf "Unsupported exception type: %d!" [AInt (exception_number which)] in
      mret (Resumes (printf st (put_line msg)))
  end.
End exception.
