(* ===== verification/Executable.v ===== *)
(** * Executable: the Nachos file system as the source of pages

    The interface of AddrSpace.v to the file system, implemented by
    FileSystem::Open and OpenFile::ReadAt, and its laws, which hold as long as
    the file system is well formed. *)

From S2P Require Import Prelude BitMap Machine Interrupt Disk SynchDisk FileHdr OpenFile Directory.
From S2P Require Import FileSys FDList AddrSpace Paging Children Exception.

Section executable.
Context {D : Type} `{SectorStoreLaws D}.
Context (new_char : Z -> list Z) (new_words : list Z) (new_table : list DirectoryEntry)
  (new_header : FileHeader).
Context (Hmem : wf_memory new_char new_words new_table new_header) (fs : FileSystem).

#[local] Instance nachos_files : FileStore OpenFile D := {
  fs_open name d := Open new_table fs name d;
  fs_read_at f n position d := ReadAt f n position d
}.

Lemma take_drop_clamped (l : list Z) n position :
  0 <= position ->
  take (Z.to_nat (Z.max 0 (transfer (zlen l) position n))) (drop (Z.to_nat position) l) =
  take (Z.to_nat n) (drop (Z.to_nat position) l).
Proof.
  intros Hp. unfold transfer. destruct (Z.le_gt_cases n (zlen l - position)) as [Hle|Hgt].
  - destruct (Z.le_gt_cases 0 n); [do 2 f_equal; lia|].
    by replace (Z.to_nat n) with 0%nat by lia; replace (Z.to_nat _) with 0%nat by lia.
  - rewrite !take_ge; [done|..]; rewrite length_drop; unfold zlen in *; lia.
Qed.

Lemma nachos_open name d :
  fs_inv fs d -> exists o d', Open new_table fs name d = Ok (o, Open_line name, d') /\ fs_inv fs d' /\
    (forall n, view fs (contents d') !! fname n = view fs (contents d) !! fname n) /\
    match o, view fs (contents d) !! fname name with
    | Some f, Some bs => wf_hdr (hdr f) /\ bs = file_data (contents d') (hdr f)
    | None, None => True
    | _, _ => False
    end.
Proof.
  intros Hinv. destruct (Open_spec _ _ _ _ Hmem fs name d Hinv) as (o & d' & E & Hd' & Hc' & Ho).
  exists o, d'. split; [exact E|]. split; [split; [done|rewrite Hc'; apply Hinv]|].
  rewrite Hc'. split; [done|]. destruct o as [f|].
  - destruct Ho as [Ho _]. destruct (open_as_view _ _ _ _ (proj2 Hinv) Ho) as [Hh Hv]. by rewrite Hv.
  - by apply not_elem_of_dom in Ho as ->.
Qed.

Lemma nachos_read f n position d bs :
  fs_inv fs d -> wf_hdr (hdr f) /\ bs = file_data (contents d) (hdr f) ->
  0 <= position < 2 ^ 31 -> position + n < 2 ^ 31 ->
  exists d', ReadAt f n position d =
      Ok (take (Z.to_nat n) (drop (Z.to_nat position) bs), d') /\ fs_inv fs d' /\
    forall n, view fs (contents d') !! fname n = view fs (contents d) !! fname n.
Proof.
  intros [Hd Hfs] [Hh ->] [Hp _] Hb.
  destruct (ReadAt_clamped f n position d Hh Hd Hp Hb) as (d' & E & _ & Hd' & Hc').
  pose proof (zlen_file_data _ _ (store_wf_contents d Hd) Hh) as Hl.
  exists d'. split; [|by rewrite Hc'; split; [split; [|rewrite Hc']|]].
  rewrite E. do 2 f_equal. change (Length f) with (FileHdr.numBytes (hdr f)). rewrite <- Hl.
  by apply take_drop_clamped.
Qed.

#[local] Instance nachos_files_laws : FileStoreLaws OpenFile D := {
  fsl_ok d := fs_inv fs d;
  fsl_file d name := view fs (contents d) !! fname name;
  fsl_line := Open_line;
  fsl_reads f d bs := wf_hdr (hdr f) /\ bs = file_data (contents d) (hdr f);
  fsl_open := nachos_open;
  fsl_read := nachos_read
}.
End executable.

(** The calls of Exception.v. *)
Section calls.
Context {D : Type} `{SectorStore D}.
Context (new_char : Z -> list Z) (new_words : list Z) (new_table : list DirectoryEntry)
  (new_header : FileHeader) (fs : FileSystem).

Definition nachos_ops : FileOps OpenFile D := {|
  fo_create name size d := Create new_char new_words new_table new_header fs name size d;
  fo_read f n d := Read f n d;
  fo_write f bytes n d := Write new_char f bytes n d
|}.
End calls.
