(* ===== verification/PagingProps.v ===== *)
(** * PagingProps: the properties of the address spaces

    Eviction, the swap sectors and access to a program's memory, on
    any store that satisfies the interfaces; the witnesses run on the Nachos file
    system of FileSys.v. *)

From S2P Require Import Prelude Interrupt Disk SynchDisk FileHdr OpenFile Directory FileSys BitMap.
From S2P Require Import Machine FDList AddrSpace Paging Swap Executable.

(** ** A program on a formatted disk *)

#[local] Instance sample_files : FileStore OpenFile (SynchDisk * sys unit) :=
  nachos_files sample_table formatted.1.
#[local] Instance sample_laws : FileStoreLaws OpenFile (SynchDisk * sys unit) :=
  nachos_files_laws sample_char sample_words sample_table blank_header sample_memory formatted.1.

(** 260 bytes of text at offset 40 of the file "note". *)
Definition note_noff : NoffHeader :=
  mkNoff NOFFMAGIC (mkSegment 0 40 260) (mkSegment 0 0 0) (mkSegment 0 0 0).

Definition note_space (t : list TranslationEntry) : AddrSpace :=
  mkSpace fd_sample t 3 note note_noff (mkBitMap 3 1 [0]) [-1; -1; -1] 0 368 0 0 false.

Definition blank_table : list TranslationEntry :=
  (fun i => mkEntry i (-1) false false false false) <$> seqZ 0 3.

Definition note_vm {W} (d : W) : vmem W :=
  mkVM (replicate (Z.to_nat MemorySize) 0) (replicate (Z.to_nat NumPhysPages) 0)
    (mkBitMap NumSectors 32 (replicate 32 0)) (replicate 1000 0) [] d.

Lemma empty_bitmap n w :
  0 <= n -> w = divRoundUp n BitsInWord -> 0 <= w ->
  let b := mkBitMap n w (replicate (Z.to_nat w) 0) in wf b /\ marked b = ∅.
Proof.
  intros Hn -> Hw b. split.
  - split; simpl; [done|done| |].
    + unfold zlen. rewrite length_replicate. lia.
    + apply Forall_replicate. word_lia.
  - apply set_eq. intros i. rewrite elem_of_marked. split; [|by intros ?%not_elem_of_empty].
    intros [_ Hb]. unfold bit in Hb. simpl in Hb.
    destruct (znth (replicate _ 0) _) as [x|] eqn:E; [|done].
    unfold znth in E. destruct (0 <=? _); [|done]. apply lookup_replicate in E as [-> _].
    by rewrite Z.bits_0 in Hb.
Qed.

Lemma note_space_wf t :
  zlen t = 3 -> (forall p e, znth t p = Some e -> virtualPage e = p) -> wf_space (note_space t).
Proof.
  intros Hl Hv. split; simpl; try done.
  destruct (empty_bitmap 3 1 ltac:(lia) eq_refl ltac:(lia)) as [H1 H2]. by split_and!.
Qed.

Lemma note_vm_wf {W} (d : W) : wf_vm (note_vm d).
Proof.
  split; simpl; [reflexivity|reflexivity|].
  destruct (empty_bitmap NumSectors 32 ltac:(done) eq_refl ltac:(lia)) as [H1 _]. by split.
Qed.

Lemma blank_table_virt p e : znth blank_table p = Some e -> virtualPage e = p.
Proof.
  unfold znth, blank_table. destruct (Z.leb_spec 0 p); [|done]. intros E.
  apply list_lookup_fmap_Some in E as (i & -> & E). apply lookup_seqZ in E as [-> _]. simpl. lia.
Qed.

(** ** Eviction *)

(** A page cannot be evicted.  When all pages of a program are in memory, in
    frames of their own, try_store_page chooses one of them.  A dirty one is
    written to the disk, after which the function indexes available_pages with
    -1 (or aborts because no sector is free).  A clean one gives its frame away
    but stays valid, without a frame, so that the next page fault on it gets -1
    and the program is killed. *)
Theorem eviction_fails {F W} `{FileStore F W} `{SectorStoreLaws W} yield s (v : vmem W) :
  wf_space s -> wf_vm v -> store_wf (store v) -> 0 <= victum_offset s < numPages s ->
  resident (table s) (available_pages v) ->
  exists j e, znth (table s) j = Some e /\
    if dirty e then
      try_store_page yield s v = Err OutOfBounds \/ try_store_page yield s v = Err AssertFailed
    else exists s' v' e', try_store_page yield s v = Ok (physicalPage e, (s', v')) /\
      (available_pages v).[physicalPage e := 0] = Ok (available_pages v') /\
      memory v' = memory v /\
      znth (table s') j = Some e' /\ valid e' = true /\ physicalPage e' = -1 /\
      load_page (F := F) yield s' v' j = Ok (-1, (s', v')).
Proof.
  intros Hs Hv Hw Hvo Hr. unfold try_store_page.
  destruct (scan_loop_spec (available_pages v) s (table s) (Z.to_nat (numPages s - 1)) 1
    (mkScan (table s) (victum_offset s) false (-1))) as (c & -> & Hsame & Hb);
    [apply Hs|lia|apply same_but_use_refl|exact Hr|simpl; rewrite (ws_table _ Hs); lia|].
  rewrite bind_Ok. cbv zeta. cbn [table set_table].
  destruct (znth_in_range (table s) (best c) Hb) as [e Ee].
  destruct (proj2 Hsame _ _ Ee) as [u Eu]. exists (best c), e. split; [exact Ee|].
  destruct (Hr _ _ Ee) as (Hval & Hro & Hpp & n & En & Hn).
  rewrite (proj2 (zget_Ok _ _ _) Eu), bind_Ok. cbn [readOnly set_use physicalPage dirty virtualPage].
  rewrite Hro. cbn [negb]. rewrite (proj2 (zget_Ok _ _ _) En), bind_Ok, Z.gtb_ltb.
  unfold mret, res_ret. rewrite bind_Ok.
  destruct (Z.ltb_spec 1 n); [lia|]. rewrite orb_false_r.
  assert (zlen (sc_table c) = zlen (table s)) as Hl by apply Hsame.
  destruct (dirty e) eqn:Hd; cbn [andb orb].
  - set (s1 := set_victum (set_table s (sc_table c)) (unused c)).
    assert (wf_space s1) as Hs1.
    { destruct Hs as [W1 W2 W3 W4 W5]. split; simpl; try done; [congruence|].
      intros q e' E'. destruct (znth_in_range (table s) q) as [e0 E0].
      { rewrite <- Hl. by eapply znth_Some_range. }
      destruct (proj2 Hsame _ _ E0) as [u0 Eu0].
      assert (e' = set_use e0 u0) as -> by congruence. exact (W3 q e0 E0). }
    cbn [write_out]. rewrite (ws_virt _ Hs _ _ Ee).
    destruct (writePage_spec s1 v (physicalPage e) (best c) Hs1 Hv Hw) as
      [(sector & s2 & v2 & w & -> & Hto & Hsec & _ & _)|[-> _]]; [|exact Hpp| |by right].
    { simpl. rewrite <- (ws_table _ Hs). exact Hb. }
    left. rewrite bind_Ok. destruct (Z.ltb_spec sector 0); [destruct Hsec; lia|].
    unfold mret, res_ret. rewrite bind_Ok.
    assert (table s2 = sc_table c) as -> by (by destruct Hto).
    rewrite zset_Ok, !bind_Ok by lia. simpl. by destruct (_ && _).
  - rewrite !bind_Ok. cbn [dirty set_use]. rewrite Hd. cbn [orb andb].
    pose proof (znth_Some_range _ _ _ En) as Hpr.
    cbn [physicalPage readOnly set_use]. rewrite Hro. cbn [andb table set_table set_victum].
    rewrite (zset_Ok (available_pages v)), bind_Ok by exact Hpr. rewrite zset_Ok, bind_Ok by lia.
    eexists _, _, _. split; [reflexivity|]. split; [done|]. split; [done|]. cbn [table set_table set_victum].
    rewrite znth_insert_eq by lia. split; [reflexivity|]. simpl. split; [done|]. split; [done|].
    destruct (page_index s (best c) e Hs Ee) as [_ Hidx].
    unfold load_page. cbn [table set_table numPages set_victum]. rewrite Hidx.
    rewrite (proj2 (zget_Ok _ _ _) (znth_insert_eq _ _ _ (eq_ind_r (fun z => 0 <= best c < z) Hb Hl))).
    rewrite bind_Ok. cbn [virtualPage set_frame set_use valid physicalPage].
    rewrite (ws_virt _ Hs _ _ Ee), Z.eqb_refl, Hval. done.
Qed.

(** Three clean pages in the first three frames. *)
Definition loaded_table : list TranslationEntry :=
  (fun i => mkEntry i i true false true false) <$> seqZ 0 3.

Lemma loaded_table_entry p e : znth loaded_table p = Some e -> e = mkEntry p p true false true false /\ 0 <= p < 3.
Proof.
  unfold znth, loaded_table. destruct (Z.leb_spec 0 p); [|done]. intros E.
  apply list_lookup_fmap_Some in E as (i & -> & E). apply lookup_seqZ in E as [-> ?].
  rewrite Z.add_0_l, Z2Nat.id by done. split; [done|lia].
Qed.

Lemma eviction_fails_witness :
  exists j s' v', try_store_page Ok (note_space loaded_table) (note_vm formatted.2) = Ok (j, (s', v')) /\
    load_page Ok s' v' j = Ok (-1, (s', v')).
Proof.
  destruct (eviction_fails Ok (note_space loaded_table) (note_vm formatted.2)) as (j & e & Ee & He).
  - apply note_space_wf; [reflexivity|]. intros p e E. by apply loaded_table_entry in E as [-> _].
  - apply note_vm_wf.
  - apply formatted_spec.
  - simpl. lia.
  - intros i e E. apply loaded_table_entry in E as [-> Hi]. simpl. split; [done|]. split; [done|].
    split; [unfold NumPhysPages; lia|]. exists 0. split; [|lia].
    assert (i = 0 \/ i = 1 \/ i = 2) as [-> | [-> | ->]] by lia; reflexivity.
  - apply loaded_table_entry in Ee as [-> Hj]. simpl in He.
    destruct He as (s' & v' & e' & E & _ & _ & _ & _ & _ & El). exists j, s', v'.
    split; [exact E|exact El].
Defined.

(** ** The swap sectors *)

(** Pages on the disk.  The first time a page is written out it gets the
    least sector that no page has, and its frame is stored there; readPage brings
    these bytes back into any frame.  No other sector changes; but the sectors
    are counted from 0 without regard to the file system, so that the first page
    that leaves memory overwrites the header of the free map. *)
Theorem swap_round_trip {W} `{SectorStoreLaws W} s (v : vmem W) pp vp :
  wf_space s -> wf_vm v -> store_wf (store v) -> 0 <= vp < numPages s -> 0 <= pp < NumPhysPages ->
  znth (page_sector s) vp = Some (-1) ->
  Z.of_nat (size (marked (available_sectors v))) < NumSectors ->
  exists sector s' v', writePage s v pp vp = Ok (sector, (s', v')) /\ valid_sector sector /\
    sector ∉ marked (available_sectors v) /\
    (forall j, 0 <= j < sector -> j ∈ marked (available_sectors v)) /\
    marked (available_sectors v') = {[sector]} ∪ marked (available_sectors v) /\
    contents (store v') = <[Z.to_nat sector := frame_bytes v pp]> (contents (store v)) /\
    memory v' = memory v /\
    (marked (available_sectors v) = ∅ -> sector = FreeMapSector) /\
    forall pp', 0 <= pp' < NumPhysPages ->
      exists v'', readPage s' v' pp' vp = Ok (sector, v'') /\ frame_bytes v'' pp' = frame_bytes v pp.
Proof.
  intros Hs Hv Hw Hvp Hpp Eold Hfree.
  destruct (writePage_spec s v pp vp Hs Hv Hw Hvp Hpp) as
    [(sector & s' & v1 & w & E & Hto & Hsec & Hww & Hc)|[_ ?]]; [|lia].
  exists sector, s', (set_store v1 w). split; [exact E|]. split; [exact Hsec|].
  destruct Hto as [sector Es|old sector b p Eo Hnv _ Hnm Hlow Hbw Hbn Hbm Ep].
  { rewrite Eold in Es. injection Es as <-. by destruct Hsec. }
  split; [exact Hnm|]. split; [exact Hlow|]. split; [exact Hbm|]. split; [exact Hc|]. split; [done|].
  split.
  - intros Hempty. unfold FreeMapSector. destruct (decide (sector = 0)) as [->|]; [done|].
    exfalso. destruct Hsec. specialize (Hlow 0 ltac:(lia)). rewrite Hempty in Hlow.
    by apply elem_of_empty in Hlow.
  - intros pp' Hpp'. destruct (frame_read v pp Hv Hpp) as [_ Hfl].
    assert (wf_vm (set_store (set_sectors v b) w)) as Hv'
      by (destruct Hv; split; simpl; [done|done|by split]).
    destruct (readPage_spec (set_page_sector s p) (set_store (set_sectors v b) w) pp' vp sector
      (frame_bytes v pp) Hv' Hww Hpp') as (v'' & Er & Hf & _); [|exact Hsec| |by exists v''].
    + simpl. pose proof (znth_Some_range _ _ _ Eo). rewrite zset_Ok in Ep by done.
      apply Ok_inj in Ep. subst p. by apply znth_insert_eq.
    + simpl. rewrite Hc. apply znth_insert_eq. rewrite (contents_len _ Hw). exact Hsec.
Qed.

Lemma swap_round_trip_witness :
  exists s' v', writePage (note_space loaded_table) (note_vm formatted.2) 1 1 = Ok (0, (s', v')).
Proof.
  assert (marked (available_sectors (note_vm formatted.2)) = ∅) as Hm
    by exact (proj2 (empty_bitmap NumSectors 32 ltac:(done) eq_refl ltac:(lia))).
  destruct (swap_round_trip (note_space loaded_table) (note_vm formatted.2) 1 1) as
    (sector & s' & v' & E & _ & _ & _ & _ & _ & _ & H0 & _).
  - apply note_space_wf; [reflexivity|]. intros p e E. by apply loaded_table_entry in E as [-> _].
  - apply note_vm_wf.
  - apply formatted_spec.
  - simpl. lia.
  - unfold NumPhysPages. lia.
  - reflexivity.
  - rewrite Hm, size_empty. reflexivity.
  - rewrite (H0 Hm) in E. exists s', v'. exact E.
Defined.

(** ** The memory of a program *)

(** What the kernel writes into a program's memory is what it reads back.
    Storing [bytes] bytes at a range of virtual addresses whose pages are in
    memory, in frames of their own, changes exactly the physical bytes the
    addresses are mapped to, and reading the range gives the bytes stored;
    neither changes the address space. *)
Theorem write_read {F W} `{FileStore F W} `{SectorStore W} yield s (v : vmem W) addr str bytes pa :
  all_mapped s addr bytes pa -> 0 < bytes <= 1000 -> bytes <= zlen str ->
  zlen (memory v) = MemorySize -> zlen (buf v) = 1000 ->
  (forall i j, 0 <= i < bytes -> 0 <= j < bytes -> pa i = pa j -> i = j) ->
  exists v' v'', write (F := F) yield s v addr str bytes = Ok (s, v') /\
    (forall i, 0 <= i < bytes -> znth (memory v') (pa i) = znth str i) /\
    (forall x, (forall i, 0 <= i < bytes -> x <> pa i) -> znth (memory v') x = znth (memory v) x) /\
    read (F := F) yield s v' addr bytes = Ok (s, v'') /\ memory v'' = memory v' /\
    take (Z.to_nat bytes) (buf v'') = take (Z.to_nat bytes) str.
Proof.
  intros Hall Hb Hstr Hm Hbl Hinj.
  destruct (write_loop_mapped yield s addr bytes str pa 1000 0 v Hall) as (m & Ew & Hl & Hin & Hout);
    [lia|lia|lia|done|done|done|].
  destruct (read_loop_mapped yield s addr bytes pa 1000 0 (set_memory v m) Hall) as
    (b & Er & Hbl' & Hrin & _); [lia|lia|lia|done|done|].
  exists (set_memory v m), (set_buf (set_memory v m) b). split; [exact Ew|]. split; [exact Hin|].
  split; [exact Hout|]. split; [exact Er|]. split; [done|].
  apply list_eq_znth; [rewrite !zlen_take by (simpl; lia); done|].
  intros i Hi. rewrite zlen_take in Hi by (simpl; lia). simpl in Hrin |- *.
  rewrite !znth_take by lia. rewrite Hrin by lia. apply Hin. lia.
Qed.

Lemma write_read_witness :
  exists v' v'', write Ok (note_space loaded_table) (note_vm formatted.2) 126 [1; 2; 3; 4] 4 =
      Ok (note_space loaded_table, v') /\
    read Ok (note_space loaded_table) v' 126 4 = Ok (note_space loaded_table, v'') /\
    take 4 (buf v'') = [1; 2; 3; 4].
Proof.
  destruct (write_read Ok (note_space loaded_table) (note_vm formatted.2) 126 [1; 2; 3; 4] 4
    (fun i => 126 + i)) as (v' & v'' & E1 & _ & _ & E2 & _ & E3).
  - split; [lia|]. split; [lia|]. intros i Hi.
    assert (i = 0 \/ i = 1 \/ i = 2 \/ i = 3) as [-> | [-> | [-> | ->]]] by lia;
      (eexists; split; [reflexivity|]; split; [reflexivity|]; split; [split; [discriminate|reflexivity]|reflexivity]).
  - lia.
  - reflexivity.
  - reflexivity.
  - reflexivity.
  - intros i j _ _ E. lia.
  - exists v', v''. split; [exact E1|]. split; [exact E2|exact E3].
Defined.
