(* ===== verification/FsTest.v ===== *)
(** * FsTest: filesys/fstest.cc

    The file commands of the nachos program: copying a UNIX file into the file
    system, printing a Nachos file, and the performance test.  A UNIX file is the
    list of its bytes; what is printed, by Open and by the commands, is a result. *)

From S2P Require Import Text.
From S2P Require Import Prelude BitMap Machine Interrupt Disk SynchDisk FileHdr OpenFile Directory.
From S2P Require Import FileSys.

Definition TransferSize : Z := 10.
(** ["TestFile"] and ["1234567890"] *)
Definition FileName : list Z := [84; 101; 115; 116; 70; 105; 108; 101].
Definition Contents : list Z := [49; 50; 51; 52; 53; 54; 55; 56; 57; 48].
Definition ContentSize : Z := zlen Contents.
Definition FileSize : Z := ContentSize * 5000.

(** What the performance test prints: text, and the numbers of
    [Statistics::Print], which depend on the disk's history. *)
Inductive perf_line := Line (text : list Z) | Stats.

Section fstest.
Context {D : Type} `{SectorStore D}.
Context (new_char : Z -> list Z) (new_words : list Z) (new_table : list DirectoryEntry)
  (new_header : FileHeader) (fs : FileSystem).

(** The loop of Copy: [rest] is what [fread] has not returned yet. *)
Fixpoint copy_loop (fuel : nat) (rest : list Z) (f : OpenFile) (d : D) : res (OpenFile * D) :=
  match fuel with
  | O => Err OutOfFuel
  | S fuel =>
      let buffer := take (Z.to_nat TransferSize) rest in
      let amountRead := zlen buffer in
      if amountRead >? 0 then
        '(_, (f, d)) ← Write new_char f buffer amountRead d;
        copy_loop fuel (drop (Z.to_nat TransferSize) rest) f d
      else mret (f, d)
  end.

(** The UNIX file [from]; [fp] is its bytes, or None when [fopen] fails. *)
Definition Copy (from : list Z) (fp : option (list Z)) (to : list Z) (d : D) : res (list Z * D) :=
  match fp with
  | None => mret (says "Copy: couldn't open input file " from, d)
  | Some bytes =>
      let fileLength := s32 (zlen bytes) in
      '(ok, d) ← Create new_char new_words new_table new_header fs to fileLength d;
      if negb ok then mret (says "Copy: couldn't create output file " to, d)
      else
        '(openFile, out, d) ← Open new_table fs to d;
        match openFile with
        | None => Err AssertFailed
        | Some f => '(_, d) ← copy_loop (S (length bytes)) bytes f d; mret (out, d)
        end
  end.

Fixpoint print_file (fuel : nat) (f : OpenFile) (d : D) : res (list Z * D) :=
  match fuel with
  | O => Err OutOfFuel
  | S fuel =>
      '(buffer, (f, d)) ← Read f TransferSize d;
      if zlen buffer >? 0 then '(out, d) ← print_file fuel f d; mret (buffer ++ out, d)
      else mret ([], d)
  end.

Definition Print (fuel : nat) (name : list Z) (d : D) : res (list Z * D) :=
  '(openFile, out, d) ← Open new_table fs name d;
  match openFile with
  | None => mret (out ++ says "Print: unable to open file " name, d)
  | Some f => '(bytes, d) ← print_file fuel f d; mret (out ++ bytes, d)
  end.

(** [for (i = 0; i < FileSize; i += ContentSize)]: [n] turns are left. *)
Fixpoint perf_write (n : nat) (f : OpenFile) (d : D) : res (list Z * D) :=
  match n with
  | O => mret ([], d)
  | S n =>
      '(numBytes, (f, d)) ← Write new_char f Contents ContentSize d;
      if numBytes <? 10 then mret (says "Perf test: unable to write " FileName, d) else perf_write n f d
  end.

Fixpoint perf_read (n : nat) (f : OpenFile) (d : D) : res (list Z * D) :=
  match n with
  | O => mret ([], d)
  | S n =>
      '(buffer, (f, d)) ← Read f ContentSize d;
      if (zlen buffer <? 10) || negb (strncmp (Z.to_nat ContentSize) buffer Contents =? 0) then
        mret (says "Perf test: unable to read " FileName, d)
      else perf_read n f d
  end.

Definition turns : nat := Z.to_nat (Z.quot FileSize ContentSize).

Definition write_message : list Z :=
  put_line (sprintf "Sequential write of %d byte file, in %d byte chunks" [AInt FileSize; AInt ContentSize]).
Definition read_message : list Z :=
  put_line (sprintf "Sequential read of %d byte file, in %d byte chunks" [AInt FileSize; AInt ContentSize]).

Definition FileWrite (d : D) : res (list Z * D) :=
  '(ok, d) ← Create new_char new_words new_table new_header fs FileName 0 d;
  if negb ok then mret (write_message ++ says "Perf test: can't create " FileName, d)
  else
    '(openFile, out, d) ← Open new_table fs FileName d;
    match openFile with
    | None => mret (write_message ++ out ++ says "Perf test: unable to open " FileName, d)
    | Some f => '(msg, d) ← perf_write turns f d; mret (write_message ++ out ++ msg, d)
    end.

Definition FileRead (d : D) : res (list Z * D) :=
  '(openFile, out, d) ← Open new_table fs FileName d;
  match openFile with
  | None => mret (read_message ++ out ++ says "Perf test: unable to open file " FileName, d)
  | Some f => '(msg, d) ← perf_read turns f d; mret (read_message ++ out ++ msg, d)
  end.

Definition start_message : list Z := put_line "Starting file system performance test:".
Definition PerformanceTest (d : D) : res (list perf_line * D) :=
  '(w, d) ← FileWrite d;
  '(r, d) ← FileRead d;
  '(ok, d) ← FileSys.Remove new_char new_words new_table fs FileName d;
  mret ([Line start_message; Stats; Line w; Line r;
         if negb ok then Line (says "Perf test: unable to remove " FileName) else Stats], d).
End fstest.

Section facts.
Context {D : Type} `{SectorStoreLaws D}.
Context (new_char : Z -> list Z) (new_words : list Z) (new_table : list DirectoryEntry)
  (new_header : FileHeader).
Context (Hmem : wf_memory new_char new_words new_table new_header) (fs : FileSystem).

(** The open file [f] of the name [n] holds [data]. *)
Definition holds_file (n : list Z) (f : OpenFile) (d : D) (data : list Z) : Prop :=
  fs_inv fs d /\ open_as fs (contents d) n f /\ view fs (contents d) !! n = Some data.

Lemma holds_file_data n f d data :
  holds_file n f d data -> wf_hdr (hdr f) /\ file_data (contents d) (hdr f) = data /\ Length f = zlen data.
Proof.
  intros ([Hd Hfs] & Ho & Hv). destruct (open_as_view _ _ _ _ Hfs Ho) as [Hh Hv'].
  rewrite Hv in Hv'. injection Hv' as ->. split; [done|]. split; [done|].
  symmetry. by apply zlen_file_data; [apply store_wf_contents|].
Qed.

Lemma open_seek n f d data p : holds_file n f d data -> holds_file n (mkOpenFile (hdr f) p) d data.
Proof. intros (Hd & (s & Ho) & Hv). split; [done|]. split; [by exists s|done]. Qed.

(** One Write at the position, inside the file. *)
Lemma Write_inside n f d data chunk :
  holds_file n f d data -> 0 <= seekPosition f -> 0 < zlen chunk ->
  seekPosition f + zlen chunk <= zlen data -> zlen data <= MaxFileSize ->
  exists d' data', Write new_char f chunk (zlen chunk) d =
      Ok (zlen chunk, (mkOpenFile (hdr f) (seekPosition f + zlen chunk), d')) /\
    zwrite data (seekPosition f) chunk = Ok data' /\
    holds_file n (mkOpenFile (hdr f) (seekPosition f + zlen chunk)) d' data' /\
    view fs (contents d') = <[n := data']> (view fs (contents d)) /\
    fs_free fs (contents d') = fs_free fs (contents d).
Proof.
  intros Hf Hp Hn Hin Hmax. destruct (holds_file_data _ _ _ _ Hf) as (Hh & Ed & El).
  destruct Hf as (Hinv & Ho & Hv). unfold MaxFileSize, NumDirect, SectorSize in Hmax.
  destruct (write_open_spec _ _ _ _ Hmem fs n f chunk (zlen chunk) (seekPosition f) d Hinv Ho)
    as (d' & data' & E & Hinv' & Hw & Hv' & Hfr & Ho' & _); [done|lia|lia|word_lia|unfold transfer; lia|].
  assert (transfer (Length f) (seekPosition f) (zlen chunk) = zlen chunk) as Et by (unfold transfer; lia).
  rewrite Et in *. rewrite take_ge in Hw by (unfold zlen; lia). rewrite Ed in Hw.
  exists d', data'. unfold Write. rewrite E, bind_Ok, s32_id by word_lia.
  split; [done|]. split; [done|]. split; [|done]. split; [done|]. split; [exact Ho'|].
  rewrite Hv'. apply lookup_insert_eq.
Qed.

(** One Read at the position. *)
Lemma Read_inside n f d data k :
  holds_file n f d data -> 0 <= seekPosition f <= zlen data -> 0 <= k <= 2 ^ 20 -> zlen data <= MaxFileSize ->
  let bytes := take (Z.to_nat k) (drop (Z.to_nat (seekPosition f)) data) in
  exists d', Read f k d = Ok (bytes, (mkOpenFile (hdr f) (seekPosition f + zlen bytes), d')) /\
    holds_file n (mkOpenFile (hdr f) (seekPosition f + zlen bytes)) d' data /\ contents d' = contents d.
Proof.
  intros Hf Hp Hk Hmax bytes. destruct (holds_file_data _ _ _ _ Hf) as (Hh & Ed & El).
  destruct Hf as ([Hd Hfs] & (s & Ho) & Hv). unfold MaxFileSize, NumDirect, SectorSize in Hmax.
  change (2 ^ 20) with 1048576 in Hk.
  destruct (ReadAt_clamped f k (seekPosition f) d Hh Hd ltac:(lia)) as (d' & E & Hl & Hd' & Hc');
    [word_lia|]. rewrite Ed in E.
  assert (take (Z.to_nat (Z.max 0 (transfer (Length f) (seekPosition f) k)))
    (drop (Z.to_nat (seekPosition f)) data) = bytes) as Eb.
  { unfold bytes, transfer. rewrite El. destruct (Z.le_gt_cases k (zlen data - seekPosition f)).
    - by rewrite Z.max_r, Z.min_l by lia.
    - rewrite !take_ge; [done|..]; rewrite length_drop; unfold zlen in *; lia. }
  rewrite Eb in E. exists d'. unfold Read. rewrite E, bind_Ok.
  assert (0 <= zlen bytes <= k) as Hb.
  { unfold bytes, zlen. rewrite length_take. lia. }
  rewrite s32_id by word_lia. split; [done|]. split; [|done].
  split; [split; [done|by rewrite Hc']|]. rewrite Hc'. split; [by exists s|done].
Qed.
(** The rest of a copy, when [done] has been written. *)
Lemma copy_loop_spec n : forall fuel done rest junk f d,
  holds_file n f d (done ++ junk) -> seekPosition f = zlen done -> zlen junk = zlen rest ->
  zlen (done ++ junk) <= MaxFileSize -> (length rest < fuel)%nat ->
  exists f' d', copy_loop new_char fuel rest f d = Ok (f', d') /\ holds_file n f' d' (done ++ rest) /\
    view fs (contents d') = <[n := done ++ rest]> (view fs (contents d)) /\
    fs_free fs (contents d') = fs_free fs (contents d).
Proof.
  induction fuel as [|fuel IH]; intros done rest junk f d Hf Hp Hj Hmax Hfuel; [lia|]. cbn [copy_loop].
  set (chunk := take (Z.to_nat TransferSize) rest). rewrite Z.gtb_ltb.
  destruct (Z.ltb_spec 0 (zlen chunk)) as [Hc|Hc].
  - assert (zlen rest = zlen chunk + zlen (drop (Z.to_nat TransferSize) rest)) as Hr.
    { rewrite <- zlen_app. unfold chunk. by rewrite take_drop. }
    pose proof (zlen_nonneg (drop (Z.to_nat TransferSize) rest)) as Hdr. rewrite zlen_app in Hmax.
    destruct (Write_inside n f d (done ++ junk) chunk Hf) as (d' & data' & E & Hw & Hf' & Hv & Hfr);
      [rewrite Hp; apply zlen_nonneg|done|rewrite zlen_app; lia|rewrite zlen_app; lia|].
    rewrite E, bind_Ok. rewrite Hp in Hw, Hf'. rewrite zwrite_Ok in Hw; [|apply zlen_nonneg|rewrite zlen_app; lia].
    apply Ok_inj in Hw. unfold zlen in Hw at 1. rewrite Nat2Z.id, take_app_length in Hw.
    replace (drop _ (done ++ junk)) with (drop (length chunk) junk) in Hw.
    2:{ unfold zlen. rewrite <- Nat2Z.inj_add, Nat2Z.id. by rewrite drop_app_add'. }
    rewrite app_assoc in Hw. subst data'. rewrite Hp.
    destruct (IH (done ++ chunk) (drop (Z.to_nat TransferSize) rest) (drop (length chunk) junk) _ d' Hf')
      as (f' & d2 & E2 & Hf2 & Hv2 & Hfr2).
    + cbn. by rewrite zlen_app.
    + unfold zlen in *. rewrite !length_drop in *. lia.
    + unfold zlen in *. rewrite !length_app, length_drop in *. lia.
    + unfold chunk, zlen in Hc. rewrite length_take in Hc. rewrite length_drop.
      unfold TransferSize in *. lia.
    + exists f', d2. split; [exact E2|]. rewrite <- app_assoc in Hf2, Hv2. unfold chunk in Hf2, Hv2.
      rewrite take_drop in Hf2, Hv2. split; [exact Hf2|].
      rewrite Hv2, Hv, insert_insert_eq, Hfr2. by split.
  - assert (rest = []) as ->.
    { unfold chunk, zlen in Hc. rewrite length_take in Hc. unfold TransferSize in Hc.
      by apply length_zero_iff_nil; lia. }
    assert (junk = []) as -> by (apply length_zero_iff_nil; unfold zlen in Hj; simpl in Hj; lia).
    exists f, d. split; [done|]. split; [exact Hf|]. destruct Hf as (_ & _ & Hv). by rewrite insert_id.
Qed.

Lemma take_drop_len k (l : list Z) : take k l ++ drop (Z.to_nat (zlen (take k l))) l = l.
Proof.
  unfold zlen. rewrite Nat2Z.id, length_take. destruct (Nat.le_gt_cases k (length l)).
  - rewrite Nat.min_l by done. apply take_drop.
  - rewrite Nat.min_r, drop_ge, app_nil_r by lia. apply take_ge. lia.
Qed.

(** The rest of a file is printed. *)
Lemma print_file_spec n : forall fuel f d data,
  holds_file n f d data -> 0 <= seekPosition f <= zlen data -> zlen data <= MaxFileSize ->
  zlen data - seekPosition f < Z.of_nat fuel ->
  exists d', print_file fuel f d = Ok (drop (Z.to_nat (seekPosition f)) data, d') /\ fs_inv fs d' /\
    contents d' = contents d.
Proof.
  induction fuel as [|fuel IH]; intros f d data Hf Hp Hmax Hfuel; [lia|]. cbn [print_file].
  destruct (Read_inside n f d data TransferSize Hf Hp ltac:(done) Hmax) as (d' & E & Hf' & Hc).
  rewrite E, bind_Ok. set (bytes := take (Z.to_nat TransferSize) _) in *. rewrite Z.gtb_ltb.
  assert (0 <= zlen bytes <= zlen data - seekPosition f) as Hb.
  { unfold bytes, zlen. rewrite length_take, length_drop. unfold zlen in Hp. lia. }
  destruct (Z.ltb_spec 0 (zlen bytes)) as [Hlt|Hle].
  - destruct (IH _ d' data Hf') as (d2 & -> & Hinv2 & Hc2); cbn [seekPosition]; [lia|done|lia|].
    rewrite bind_Ok. exists d2. split; [|split; [done|congruence]].
    f_equal. f_equal. rewrite Z2Nat.inj_add, <- drop_drop by lia. apply take_drop_len.
  - exists d'. split; [|split; [apply Hf'|done]]. f_equal. f_equal. symmetry. apply drop_ge.
    assert (length bytes = 0)%nat as Hz by (unfold zlen in Hb, Hle; lia).
    unfold bytes in Hz. rewrite length_take, length_drop in Hz. unfold TransferSize in Hz. lia.
Qed.

Lemma Open_holds name d :
  fs_inv fs d -> exists o d', Open new_table fs name d = Ok (o, Open_line name, d') /\ contents d' = contents d /\ fs_inv fs d' /\
    match o, view fs (contents d) !! fname name with
    | Some f, Some data => holds_file (fname name) f d' data /\ seekPosition f = 0
    | None, None => True
    | _, _ => False
    end.
Proof.
  intros Hinv. destruct (Open_spec _ _ _ _ Hmem fs name d Hinv) as (o & d' & E & Hd' & Hc & Ho).
  exists o, d'. split; [done|]. split; [done|]. assert (fs_inv fs d') as Hinv' by (split; [done|rewrite Hc; apply Hinv]).
  split; [done|]. destruct o as [f|].
  - destruct Ho as [Ho Hs]. destruct (open_as_view _ _ _ _ (proj2 Hinv) Ho) as [_ Hv]. rewrite Hv.
    split; [|done]. split; [done|]. by rewrite Hc.
  - by apply not_elem_of_dom in Ho as ->.
Qed.

(** What Print outputs: the line of Open, and the whole file or a message. *)
Definition Print_text (name : list Z) (file : option (list Z)) : list Z :=
  Open_line name ++
  match file with Some data => data | None => says "Print: unable to open file " name end.

Lemma Print_file_spec fuel name d :
  fs_inv fs d -> (forall data, view fs (contents d) !! fname name = Some data ->
    zlen data <= MaxFileSize /\ (length data < fuel)%nat) ->
  exists d', Print new_table fs fuel name d = Ok (Print_text name (view fs (contents d) !! fname name), d') /\
    fs_inv fs d' /\ contents d' = contents d.
Proof.
  intros Hinv Hb. unfold Print. destruct (Open_holds name d Hinv) as (o & d1 & -> & Hc1 & Hinv1 & Ho).
  rewrite bind_Ok. destruct o as [f|], (view fs (contents d) !! fname name) as [data|]; try done.
  - destruct Ho as [Hf Hs]. destruct (Hb data eq_refl) as [Hmax Hfuel].
    destruct (print_file_spec _ fuel f d1 data Hf) as (d2 & -> & Hinv2 & Hc2);
      [rewrite Hs; split; [done|apply zlen_nonneg]|done|rewrite Hs; unfold zlen; lia|].
    rewrite bind_Ok. exists d2. rewrite Hs, drop_0. split; [done|]. split; [done|congruence].
  - by exists d1.
Qed.
(** Copy makes the file when there is room for it. *)
Lemma Copy_file_spec from bytes to d :
  fs_inv fs d -> zlen bytes <= MaxFileSize ->
  exists out d', Copy new_char new_words new_table new_header fs from (Some bytes) to d = Ok (out, d') /\ fs_inv fs d' /\
    let need := 1 + divRoundUp (zlen bytes) SectorSize in
    if decide (fname to ∉ dom (view fs (contents d)) /\ zlen (files fs (contents d)) < NumDirEntries /\
               need <= fs_free fs (contents d))
    then out = Open_line to /\ view fs (contents d') = <[fname to := bytes]> (view fs (contents d)) /\
      fs_free fs (contents d') = fs_free fs (contents d) - need
    else out = says "Copy: couldn't create output file " to /\ contents d' = contents d.
Proof.
  intros Hinv Hmax. pose proof (zlen_nonneg bytes) as Hl. unfold Copy.
  rewrite s32_id by (unfold MaxFileSize, NumDirect, SectorSize in Hmax; word_lia).
  destruct (Create_spec _ _ _ _ Hmem fs to (zlen bytes) d Hinv ltac:(done)) as (b & d1 & -> & [Hinv1 Hb] & _).
  rewrite bind_Ok. destruct b; cbn [negb].
  2:{ destruct Hb as [Hno Hc]. exists (says "Copy: couldn't create output file " to), d1. split; [done|]. split; [done|]. cbv zeta. by destruct (decide _). }
  destruct Hb as (Hfits & (data & Hdl & Hv1) & Hf1). cbv zeta.
  destruct (decide _) as [_|Hno]; [|by destruct Hno].
  destruct (Open_holds to d1 Hinv1) as (o & d2 & -> & Hc2 & Hinv2 & Ho). rewrite bind_Ok.
  rewrite Hv1, lookup_insert_eq in Ho. destruct o as [f|]; [|done]. destruct Ho as [Hf Hs].
  destruct (copy_loop_spec (fname to) (S (length bytes)) [] bytes data f d2 Hf Hs Hdl)
    as (f3 & d3 & -> & Hf3 & Hv3 & Hfr3); [simpl; lia|lia|].
  rewrite bind_Ok. exists (Open_line to), d3. split; [done|]. split; [apply Hf3|]. split; [done|]. simpl in Hv3.
  rewrite Hv3, Hfr3, Hc2, Hv1, Hf1, insert_insert_eq. split; [done|]. lia.
Qed.
End facts.

(** C17: a UNIX file copied in and printed comes out as it was.  For a UNIX file of
    at most MaxFileSize bytes (3840; Create of more runs past the header's table of
    sectors), Copy never faults and leaves the file system consistent.  When the name
    is new (its first nine characters count), the directory has a free entry and the
    disk enough free sectors, it prints the line of Open alone and makes a file of
    that name with exactly the bytes of the UNIX file, touching no other file; Print of the name then outputs the line of Open
    and exactly those bytes, and changes nothing.  Otherwise Copy prints that it could
    not create the output file, and changes nothing. *)
Theorem Copy_Print {D} `{SectorStoreLaws D} new_char new_words new_table new_header fs from bytes to fuel (d : D) :
  wf_memory new_char new_words new_table new_header -> fs_inv fs d ->
  zlen bytes <= MaxFileSize -> (length bytes < fuel)%nat ->
  exists out d', Copy new_char new_words new_table new_header fs from (Some bytes) to d = Ok (out, d') /\ fs_inv fs d' /\
    let need := 1 + divRoundUp (zlen bytes) SectorSize in
    if decide (fname to ∉ dom (view fs (contents d)) /\ zlen (files fs (contents d)) < NumDirEntries /\
               need <= fs_free fs (contents d))
    then out = Open_line to /\ view fs (contents d') = <[fname to := bytes]> (view fs (contents d)) /\
      fs_free fs (contents d') = fs_free fs (contents d) - need /\
      exists d'', Print new_table fs fuel to d' = Ok (Open_line to ++ bytes, d'') /\ contents d'' = contents d'
    else out = says "Copy: couldn't create output file " to /\ contents d' = contents d.
Proof.
  intros Hmem Hinv Hmax Hfuel.
  destruct (Copy_file_spec _ _ _ _ Hmem fs from bytes to d Hinv Hmax) as (out & d' & E & Hinv' & Hd').
  exists out, d'. split; [exact E|]. split; [done|]. cbv zeta in Hd' |- *.
  destruct (decide _); [|exact Hd']. destruct Hd' as (Ho & Hv & Hf). split_and!; try done.
  assert (view fs (contents d') !! fname to = Some bytes) as Ht by (by rewrite Hv, lookup_insert_eq).
  destruct (Print_file_spec _ _ _ _ Hmem fs fuel to d') as (d2 & E2 & _ & Hc2); [done| |].
  { intros data E'. rewrite Ht in E'. by injection E' as <-. }
  exists d2. by rewrite E2, Ht.
Qed.

(** The file "hello" of three bytes, copied to "note": [FileSystem Open: note] is
    printed twice, and then the bytes. *)
Lemma Copy_Print_witness :
  exists d' d'', Copy sample_char sample_words sample_table blank_header formatted.1 (chars "hello")
      (Some [72; 105; 10]) note formatted.2 = Ok (Open_line note, d') /\
    Print sample_table formatted.1 4 note d' = Ok (Open_line note ++ [72; 105; 10], d'').
Proof.
  destruct formatted_spec as (Hinv & Hv & Hf).
  destruct (Copy_Print sample_char sample_words sample_table blank_header formatted.1 (chars "hello") [72; 105; 10] note 4
    formatted.2 sample_memory Hinv) as (out & d' & E & _ & H); [done|simpl; lia|].
  cbv zeta in H. destruct (decide _) as [_|Hno].
  - destruct H as (-> & _ & _ & d'' & E' & _). exists d', d''. split; [exact E|exact E'].
  - exfalso. apply Hno. split; [by rewrite Hv|]. split; [by rewrite formatted_files|]. rewrite Hf. done.
Defined.

Lemma turns_S : exists n, turns = S n.
Proof. exists (Nat.pred turns). vm_compute. reflexivity. Qed.

(** The performance test cannot succeed.  On a consistent file system that
    has no file "TestFile" but room for one, FileWrite creates the file with
    length 0, to which no Write can add (a file does not grow), so it gives up at
    the first write, with a message; FileRead opens the file and gives up at the
    first read, with another; and the file is removed again, leaving every file as it
    was. *)
Theorem PerformanceTest_fails {D} `{SectorStoreLaws D} new_char new_words new_table new_header fs (d : D) :
  wf_memory new_char new_words new_table new_header -> fs_inv fs d ->
  fname FileName ∉ dom (view fs (contents d)) -> zlen (files fs (contents d)) < NumDirEntries ->
  1 <= fs_free fs (contents d) ->
  exists d', PerformanceTest new_char new_words new_table new_header fs d =
      Ok ([Line start_message; Stats; Line (write_message ++ Open_line FileName ++ says "Perf test: unable to write " FileName);
           Line (read_message ++ Open_line FileName ++ says "Perf test: unable to read " FileName); Stats], d') /\
    fs_inv fs d' /\ view fs (contents d') = view fs (contents d).
Proof.
  intros Hmem Hinv Hnew Hroom Hfree. unfold PerformanceTest, FileWrite, FileRead.
  destruct (Create_spec _ _ _ _ Hmem fs FileName 0 d Hinv ltac:(done)) as (b & d1 & -> & [Hinv1 Hb] & _).
  rewrite bind_Ok. destruct b; cbn [negb].
  2:{ exfalso. apply (proj1 Hb). done. }
  destruct Hb as (_ & (data & Hdl & Hv1) & _).
  destruct (Open_holds _ _ _ _ Hmem fs FileName d1 Hinv1) as (o & d2 & -> & Hc2 & Hinv2 & Ho). rewrite bind_Ok.
  rewrite Hv1, lookup_insert_eq in Ho. destruct o as [f|]; [|done]. destruct Ho as [Hf Hs].
  destruct (holds_file_data _ _ _ _ _ Hf) as (_ & _ & Hl2).
  destruct turns_S as [n ->]. cbn [perf_write].
  unfold Write. rewrite Hs. unfold WriteAt. change (FileLength (hdr f)) with (Length f).
  rewrite Hl2, Hdl. change ((ContentSize <=? 0) || (0 >=? 0)) with true. cbv iota. rewrite !bind_Ok.
  change (0 <? 10) with true. cbv iota. unfold mret, res_ret. rewrite !bind_Ok.
  destruct (Open_holds _ _ _ _ Hmem fs FileName d2 Hinv2) as (o & d3 & -> & Hc3 & Hinv3 & Ho). rewrite bind_Ok.
  rewrite Hc2, Hv1, lookup_insert_eq in Ho. destruct o as [f'|]; [|done]. destruct Ho as [Hf' Hs'].
  destruct (holds_file_data _ _ _ _ _ Hf') as (_ & _ & Hl3). cbn [perf_read].
  unfold Read. rewrite Hs'. unfold ReadAt. change (FileLength (hdr f')) with (Length f').
  rewrite Hl3, Hdl. change ((ContentSize <=? 0) || (0 >=? 0)) with true. cbv iota. rewrite !bind_Ok.
  change (zlen [] <? 10) with true. cbv iota. cbn [orb]. rewrite !bind_Ok.
  destruct (Remove_files_spec _ _ _ _ Hmem fs FileName d3 Hinv3) as (b & d4 & -> & Hinv4 & -> & Hv4 & _).
  rewrite bind_Ok, Hc3, Hc2, Hv1. rewrite Hc3, Hc2, Hv1 in Hv4.
  rewrite bool_decide_eq_true_2 by (rewrite dom_insert; set_solver).
  exists d4. split; [done|]. split; [done|]. rewrite Hv4, delete_insert_id; [done|].
  by apply not_elem_of_dom.
Qed.

Lemma PerformanceTest_fails_witness :
  exists d', PerformanceTest sample_char sample_words sample_table blank_header formatted.1 formatted.2 =
      Ok ([Line start_message; Stats; Line (write_message ++ Open_line FileName ++ says "Perf test: unable to write " FileName);
           Line (read_message ++ Open_line FileName ++ says "Perf test: unable to read " FileName); Stats], d').
Proof.
  destruct formatted_spec as (Hinv & Hv & Hf).
  destruct (PerformanceTest_fails sample_char sample_words sample_table blank_header formatted.1 formatted.2
    sample_memory Hinv) as (d' & E & _).
  - by rewrite Hv.
  - by rewrite formatted_files.
  - rewrite Hf. done.
  - exists d'. exact E.
Defined.
