(* ===== verification/Startup.v ===== *)
(** * Startup: threads/main.cc, threads/system.cc, threads/utility.cc

    The command line.  [Initialize] looks for the flags that say how the kernel is
    built, [main] for the commands it then performs; both walk over the whole of
    argv.  The commands on the file system are performed; at any other the kernel
    goes on with threads and user programs (Thread.v, Mips.v, Console.v).  A string
    is the list of its characters.  main also calls ThreadTest first, which no file
    of the build defines. *)

From S2P Require Import Text.
From S2P Require Import Prelude BitMap Machine Interrupt Disk SynchDisk FileHdr OpenFile Directory.
From S2P Require Import FileSys FsTest.

(** [!strcmp(a, s)] *)
Definition is_flag (a : list Z) (s : string) : bool := bool_decide (a = chars s).
Arguments is_flag a s%_string_scope.

(** ** utility.cc *)

(** [strchr(s, c) != 0]: the terminator is a character of the string. *)
Definition has_char (s : list Z) (c : Z) : bool := (c =? 0) || existsb (Z.eqb c) s.

(** [enableFlags] is NULL before DebugInit. *)
Definition DebugIsEnabled (enableFlags : option (list Z)) (flag : Z) : bool :=
  match enableFlags with
  | Some flags => has_char flags flag || has_char flags 43
  | None => false
  end.

(** ** Initialize *)

(** What the flags determine; [seed] is the string given to RandomInit. *)
Record options := mkOptions {
  debugArgs : list Z;
  randomYield : bool;
  seed : option (list Z);
  debugUserProg : bool;
  format_disk : bool
}.

Definition default_options : options := mkOptions [] false None false false.

(** One turn of the loop at the argument [a], with [rest] after it, and [argCount]. *)
Definition Initialize_turn (a : list Z) (rest : list (list Z)) (o : options) : res (options * nat) :=
  '(o, argCount) ←
    (if is_flag a "-d" then
       match rest with
       | [] => mret (mkOptions (chars "+") (randomYield o) (seed o) (debugUserProg o) (format_disk o), 1%nat)
       | b :: _ => mret (mkOptions b (randomYield o) (seed o) (debugUserProg o) (format_disk o), 2%nat)
       end
     else if is_flag a "-rs" then
       match rest with
       | [] => Err AssertFailed
       | b :: _ => mret (mkOptions (debugArgs o) true (Some b) (debugUserProg o) (format_disk o), 2%nat)
       end
     else mret (o, 1%nat));
  let o := if is_flag a "-s"
           then mkOptions (debugArgs o) (randomYield o) (seed o) true (format_disk o) else o in
  let o := if is_flag a "-f"
           then mkOptions (debugArgs o) (randomYield o) (seed o) (debugUserProg o) true else o in
  mret (o, argCount).

(** [for (argc--, argv++; argc > 0; argc -= argCount, argv += argCount)]; the
    length of [args] is fuel enough. *)
Fixpoint Initialize_loop (fuel : nat) (args : list (list Z)) (o : options) : res options :=
  match args, fuel with
  | [], _ => mret o
  | _, O => Err OutOfFuel
  | a :: rest, S fuel =>
      '(o, argCount) ← Initialize_turn a rest o; Initialize_loop fuel (drop argCount args) o
  end.
Definition Initialize_flags (args : list (list Z)) : res options :=
  Initialize_loop (length args) args default_options.

(** ** main *)

(** What main performs.  [AssertionFails] stands for an ASSERT that fails. *)
Inductive command :=
  | PrintCopyright
  | StartProcess (filename : list Z)
  | ConsoleTest (files : option (list Z * list Z))
  | SynchConsoleTest (files : option (list Z * list Z))
  | Halt
  | CopyFile (from to : list Z)
  | PrintFile (name : list Z)
  | RemoveFile (name : list Z)
  | ListFiles
  | PrintFileSystem
  | Performance
  | AssertionFails
  | Finish.

(** The arguments of -c and -sc. *)
Definition console_turn (test : option (list Z * list Z) -> command) (rest : list (list Z))
    : list command * option nat :=
  match rest with
  | [] => ([test None; Halt], None)
  | [_] => ([AssertionFails], None)
  | i :: o :: _ => ([test (Some (i, o)); Halt], None)
  end.

(** #ifdef USER_PROGRAM: the commands, and [argCount], or None when the loop does not
    go on. *)
Definition user_turn (a : list Z) (rest : list (list Z)) : list command * option nat :=
  if is_flag a "-x" then
    match rest with f :: _ => ([StartProcess f], Some 2%nat) | [] => ([AssertionFails], None) end
  else if is_flag a "-c" then console_turn ConsoleTest rest
  else if is_flag a "-sc" then console_turn SynchConsoleTest rest
  else ([], Some 1%nat).

(** #ifdef FILESYS: the same. *)
Definition filesys_turn (a : list Z) (rest : list (list Z)) (argCount : nat) : list command * option nat :=
  if is_flag a "-cp" then
    match rest with f :: t :: _ => ([CopyFile f t], Some 3%nat) | _ => ([AssertionFails], None) end
  else if is_flag a "-p" then
    match rest with n :: _ => ([PrintFile n], Some 2%nat) | [] => ([AssertionFails], None) end
  else if is_flag a "-r" then
    match rest with n :: _ => ([RemoveFile n], Some 2%nat) | [] => ([AssertionFails], None) end
  else if is_flag a "-l" then ([ListFiles], Some argCount)
  else if is_flag a "-D" then ([PrintFileSystem], Some argCount)
  else if is_flag a "-t" then ([Performance], Some argCount)
  else ([], Some argCount).

Definition main_turn (a : list Z) (rest : list (list Z)) : list command * option nat :=
  let first := if is_flag a "-z" then [PrintCopyright] else [] in
  let '(user, argCount) := user_turn a rest in
  match argCount with
  | None => (first ++ user, None)
  | Some n => let '(files, argCount) := filesys_turn a rest n in (first ++ user ++ files, argCount)
  end.

Fixpoint main_loop (fuel : nat) (args : list (list Z)) : list command :=
  match args, fuel with
  | a :: rest, S fuel =>
      let '(commands, argCount) := main_turn a rest in
      match argCount with
      | Some n => commands ++ main_loop fuel (drop n args)
      | None => commands
      end
  | _, _ => [Finish]
  end.
Definition main_commands (args : list (list Z)) : list command := main_loop (length args) args.

(** ** Performing the commands *)

(** What a command prints: text, the names of List, what FileSystem::Print shows, or
    the output of the performance test. *)
Inductive shown (P : Type) :=
  | Printed (text : list Z)
  | Names (names : list (list Z))
  | Everything (p : P)
  | Perf (ls : list perf_line).
Arguments Printed {P}. Arguments Names {P}. Arguments Everything {P}. Arguments Perf {P}.

(** copyright.h *)
Definition copyright : list Z :=
  chars "Copyright (c) 1992-1993 The Regents of the University of California.  All rights reserved.".

Section commands.
Context {D : Type} `{SectorStore D}.
Context (new_char : Z -> list Z) (new_words : list Z) (new_table : list DirectoryEntry)
  (new_header : FileHeader).
(** The files of the host. *)
Context (unix_file : list Z -> option (list Z)).

(** Print reads 10 bytes at a time: a turn for each byte of the longest file is
    enough. *)
Definition print_fuel : nat := S (Z.to_nat MaxFileSize).

(** The commands on the file system; None for the others. *)
Definition perform (fs : FileSystem) (c : command) : option (D -> res (shown _ * D)) :=
  match c with
  | PrintCopyright => Some (fun d => mret (Printed copyright, d))
  | CopyFile from to => Some (fun d =>
      '(out, d) ← Copy new_char new_words new_table new_header fs from (unix_file from) to d; mret (Printed out, d))
  | PrintFile name => Some (fun d =>
      '(out, d) ← Print new_table fs print_fuel name d; mret (Printed out, d))
  | RemoveFile name => Some (fun d =>
      '(_, d) ← FileSys.Remove new_char new_words new_table fs name d; mret (Printed [], d))
  | ListFiles => Some (fun d =>
      '(names, d) ← FileSystem_List new_table fs d; mret (Names names, d))
  | PrintFileSystem => Some (fun d =>
      '(p, d) ← FileSystem_Print new_words new_table fs d; mret (Everything p, d))
  | Performance => Some (fun d =>
      '(ms, d) ← PerformanceTest new_char new_words new_table new_header fs d; mret (Perf ms, d))
  | AssertionFails => Some (fun _ => Err AssertFailed)
  | _ => None
  end.

(** Up to the first command that is not the file system's, which is left with those
    that follow. *)
Fixpoint run_commands (fs : FileSystem) (cs : list command) (d : D)
    : res (list (shown _) * list command * D) :=
  match cs with
  | [] => mret ([], [], d)
  | c :: rest =>
      match perform fs c with
      | None => mret ([], cs, d)
      | Some f =>
          '(out, d) ← f d;
          '(outs, todo, d) ← run_commands fs rest d;
          mret (out :: outs, todo, d)
      end
  end.

(** One run of the program, with its arguments. *)
Definition boot (args : list (list Z)) (d : D) : res (list (shown _) * list command * D) :=
  o ← Initialize_flags args;
  '(fs, d) ← new_FileSystem new_char new_words new_table new_header (format_disk o) d;
  run_commands fs (main_commands args) d.

(** Several runs, each on the disk the last one left. *)
Fixpoint boots (runs : list (list (list Z))) (d : D) : res (list (list (shown _) * list command) * D) :=
  match runs with
  | [] => mret ([], d)
  | args :: runs =>
      '(outs, todo, d) ← boot args d;
      '(more, d) ← boots runs d;
      mret ((outs, todo) :: more, d)
  end.
End commands.

(** ** The command line is read back *)

(** The arguments that ask for a command after which main goes on. *)
Definition words (c : command) : list (list Z) :=
  match c with
  | PrintCopyright => [chars "-z"]
  | StartProcess f => [chars "-x"; f]
  | CopyFile f t => [chars "-cp"; f; t]
  | PrintFile n => [chars "-p"; n]
  | RemoveFile n => [chars "-r"; n]
  | ListFiles => [chars "-l"]
  | PrintFileSystem => [chars "-D"]
  | Performance => [chars "-t"]
  | _ => []
  end.
Definition goes_on (c : command) : bool := negb (bool_decide (words c = [])).

(** How a command line ends. *)
Inductive ending := AtEnd | AtConsole (files : option (list Z * list Z)) | AtSynchConsole (files : option (list Z * list Z)).
Definition file_words (files : option (list Z * list Z)) : list (list Z) :=
  match files with None => [] | Some (i, o) => [i; o] end.
Definition end_words (e : ending) : list (list Z) :=
  match e with
  | AtEnd => []
  | AtConsole f => chars "-c" :: file_words f
  | AtSynchConsole f => chars "-sc" :: file_words f
  end.
Definition end_commands (e : ending) : list command :=
  match e with
  | AtEnd => [Finish]
  | AtConsole f => [ConsoleTest f; Halt]
  | AtSynchConsole f => [SynchConsoleTest f; Halt]
  end.

Lemma main_turn_moves a rest cs n : main_turn a rest = (cs, Some n) -> (1 <= n)%nat.
Proof.
  unfold main_turn, user_turn, console_turn, filesys_turn. intros E.
  repeat (case_match; simplify_eq); lia.
Qed.

(** The fuel is enough. *)
Lemma main_loop_enough : forall fuel args, (length args <= fuel)%nat -> main_loop fuel args = main_commands args.
Proof.
  intros fuel. induction (lt_wf fuel) as [fuel _ IH]. intros args Hf. unfold main_commands.
  destruct args as [|a rest]; [by destruct fuel|]. destruct fuel as [|fuel]; [simpl in Hf; lia|].
  cbn [main_loop length]. destruct (main_turn a rest) as [cs [n|]] eqn:E; [|done].
  apply main_turn_moves in E. f_equal. simpl in Hf.
  assert (length (drop n (a :: rest)) <= length rest)%nat as Hd
    by (rewrite length_drop; simpl; lia).
  rewrite !IH by lia. done.
Qed.

Lemma main_commands_turn a rest cs n :
  main_turn a rest = (cs, Some n) -> main_commands (a :: rest) = cs ++ main_commands (drop n (a :: rest)).
Proof.
  intros E. unfold main_commands at 1. cbn [main_loop length]. rewrite E. f_equal.
  apply main_turn_moves in E. apply main_loop_enough. rewrite length_drop. simpl. lia.
Qed.

Lemma main_commands_words c tail :
  goes_on c = true -> main_commands (words c ++ tail) = c :: main_commands tail.
Proof.
  intros Hc. destruct c; try discriminate Hc; cbn [words app];
    (erewrite main_commands_turn by reflexivity); reflexivity.
Qed.

(** The commands of a command line are read back.  For every list of commands
    that return, whatever the names of their files -- also names that look like
    flags -- and for every ending, main performs exactly these commands in their
    order and then finishes or starts the console test; so no operand is taken for
    a command, and no argument is skipped. *)
Theorem main_round_trip cs e :
  Forall (fun c => goes_on c = true) cs ->
  main_commands (concat (words <$> cs) ++ end_words e) = cs ++ end_commands e.
Proof.
  induction 1 as [|c cs Hc _ IH].
  - destruct e as [|[[]|]|[[]|]]; reflexivity.
  - cbn [fmap list_fmap concat]. by rewrite <- app_assoc, main_commands_words, IH.
Qed.

(** [-cp -p -r -p -p -c]: a file named "-r" and one named "-p". *)
Lemma main_round_trip_witness :
  main_commands [chars "-cp"; chars "-p"; chars "-r"; chars "-p"; chars "-p"; chars "-c"] =
    [CopyFile (chars "-p") (chars "-r"); PrintFile (chars "-p"); ConsoleTest None; Halt].
Proof.
  exact (main_round_trip [CopyFile (chars "-p") (chars "-r"); PrintFile (chars "-p")] (AtConsole None)
    ltac:(repeat constructor)).
Defined.

(** ** The options *)

Lemma Initialize_turn_moves a rest o o' n : Initialize_turn a rest o = Ok (o', n) -> (1 <= n)%nat.
Proof.
  unfold Initialize_turn. intros E. repeat (case_match; simplify_eq/=); try discriminate; inv_res; lia.
Qed.

Definition is_option (a : list Z) : bool :=
  is_flag a "-d" || is_flag a "-rs" || is_flag a "-s" || is_flag a "-f".

(** Arguments that are none of its flags leave the options alone. *)
Lemma Initialize_ignores args : forall fuel o,
  Forall (fun a => is_option a = false) args -> (length args <= fuel)%nat ->
  Initialize_loop fuel args o = Ok o.
Proof.
  induction args as [|a rest IH]; intros fuel o HF Hl; [by destruct fuel|].
  destruct fuel as [|fuel]; [simpl in Hl; lia|]. inversion HF as [|? ? Ha HF']. subst. cbn [Initialize_loop].
  unfold is_option in Ha. apply orb_false_iff in Ha as [Ha H4]. apply orb_false_iff in Ha as [Ha H3].
  apply orb_false_iff in Ha as [H1 H2]. unfold Initialize_turn. rewrite H1, H2, H3, H4.
  unfold mret, res_ret. rewrite !bind_Ok. cbn [drop]. apply IH; [done|]. simpl in Hl. lia.
Qed.

(** ** What the runs do to the disk *)

(** A file system as its user sees it: the files and the number of free sectors. *)
Record fs_state := mkFs { s_files : gmap (list Z) (list Z); s_free : Z }.

Definition empty_fs : fs_state := mkFs ∅ 1019.

(** The sectors a file of [bytes] takes. *)
Definition sectors_of (bytes : list Z) : Z := 1 + divRoundUp (zlen bytes) SectorSize.

(** What is printed, and the files. *)
Definition spec_copy (bytes to : list Z) (a : fs_state) : list Z * fs_state :=
  if decide (fname to ∉ dom (s_files a) /\ Z.of_nat (size (s_files a)) < NumDirEntries /\
             sectors_of bytes <= s_free a)
  then (Open_line to, mkFs (<[fname to := bytes]> (s_files a)) (s_free a - sectors_of bytes))
  else (says "Copy: couldn't create output file " to, a).

Definition spec_remove (name : list Z) (a : fs_state) : fs_state :=
  match s_files a !! fname name with
  | Some bytes => mkFs (delete (fname name) (s_files a)) (s_free a + sectors_of bytes)
  | None => a
  end.

Section restart.
Context {P : Type} (unix_file : list Z -> option (list Z)).

Definition spec_command (c : command) (a : fs_state) : shown P * fs_state :=
  match c with
  | CopyFile from to =>
      match unix_file from with
      | Some bytes => let '(out, a) := spec_copy bytes to a in (Printed out, a)
      | None => (Printed (says "Copy: couldn't open input file " from), a)
      end
  | PrintFile name => (Printed (Print_text name (s_files a !! fname name)), a)
  | RemoveFile name => (Printed [], spec_remove name a)
  | _ => (Printed copyright, a)
  end.

Fixpoint spec_commands (cs : list command) (a : fs_state) : list (shown P) * fs_state :=
  match cs with
  | [] => ([], a)
  | c :: cs =>
      let '(out, a) := spec_command c a in
      let '(outs, a) := spec_commands cs a in (out :: outs, a)
  end.

(** A run: whether it formats, and the commands. *)
Record session := mkSession { formats_disk : bool; todo : list command }.

Definition session_args (s : session) : list (list Z) :=
  (if formats_disk s then [chars "-f"] else []) ++ concat (words <$> todo s).

Fixpoint spec_sessions (ss : list session) (a : fs_state)
    : list (list (shown P) * list command) * fs_state :=
  match ss with
  | [] => ([], a)
  | s :: ss =>
      let '(outs, a) := spec_commands (todo s) (if formats_disk s then empty_fs else a) in
      let '(more, a) := spec_sessions ss a in ((outs, [Finish]) :: more, a)
  end.

(** The commands the specification is about: copying (of files that are not too
    large), printing and removing, with names that are not flags of Initialize. *)
Definition plain (c : command) : bool :=
  match c with
  | PrintCopyright => true
  | CopyFile from to =>
      negb (is_option from) && negb (is_option to) &&
      match unix_file from with Some bytes => zlen bytes <=? MaxFileSize | None => true end
  | PrintFile name | RemoveFile name => negb (is_option name)
  | _ => false
  end.
End restart.

Section refinement.
Context {D : Type} `{SectorStoreLaws D}.
Context (new_char : Z -> list Z) (new_words : list Z) (new_table : list DirectoryEntry)
  (new_header : FileHeader) (Hmem : wf_memory new_char new_words new_table new_header).
Context (unix_file : list Z -> option (list Z)).

(** The disk [d] holds the file system [a]. *)
Definition represents (fs : FileSystem) (d : D) (a : fs_state) : Prop :=
  fs_inv fs d /\ view fs (contents d) = s_files a /\ fs_free fs (contents d) = s_free a.

Lemma represents_same fs d d' a :
  represents fs d a -> fs_inv fs d' -> contents d' = contents d -> represents fs d' a.
Proof. intros (_ & Hv & Hf) Hinv Hc. split; [done|]. by rewrite Hc. Qed.

(** As many files as names. *)
Lemma files_size fs (d : D) : fs_inv fs d -> zlen (files fs (contents d)) = Z.of_nat (size (view fs (contents d))).
Proof.
  intros [_ Hfs]. rewrite <- (size_dom (D := gset (list Z))). unfold view.
  rewrite dom_list_to_map_L, <- list_fmap_compose, size_list_to_set; [by rewrite length_fmap|].
  exact (dir_names _ (fs_dir _ _ Hfs)).
Qed.

(** What is known of a file that is there. *)
Lemma file_facts fs (d : D) n data :
  fs_inv fs d -> view fs (contents d) !! n = Some data ->
  zlen data <= MaxFileSize /\ exists s, (n, s) ∈ files fs (contents d) /\
    1 + numSectors (header_at (contents d) s) = sectors_of data.
Proof.
  intros [Hd Hfs] Hv. assert (n ∈ (files fs (contents d)).*1) as Hn.
  { apply view_name; [done|]. by apply elem_of_dom_2 in Hv. }
  apply list_elem_of_fmap in Hn as ([n' s] & -> & Hin). cbn [fst] in *.
  destruct (open_as_view fs (contents d) n' (mkOpenFile (header_at (contents d) s) 0) Hfs) as [Hh Hv'];
    [by exists s|]. cbn [hdr] in *. rewrite Hv in Hv'. injection Hv' as ->.
  pose proof (zlen_file_data (contents d) _ (store_wf_contents d Hd) Hh) as Hl.
  pose proof (hdr_size _ Hh). pose proof (hdr_fits _ Hh). rewrite Hl. split.
  - unfold MaxFileSize. unfold SectorSize in *. lia.
  - exists s. split; [done|]. unfold sectors_of. by rewrite Hl, (hdr_sectors _ Hh).
Qed.

(** One command. *)
Lemma perform_spec fs c d a :
  plain unix_file c = true -> represents fs d a ->
  exists f d', perform new_char new_words new_table new_header unix_file fs c = Some f /\
    let '(out, a') := spec_command unix_file c a in f d = Ok (out, d') /\ represents fs d' a'.
Proof.
  intros Hc Hr. pose proof Hr as (Hinv & Hv & Hf). destruct c; try discriminate Hc; cbn [perform spec_command plain] in *.
  - by exists (fun d => mret (Printed copyright, d)), d.
  - destruct (unix_file from) as [bytes|] eqn:Eu; eexists _.
    + apply andb_true_iff in Hc as [_ Hmax]. apply Z.leb_le in Hmax.
      destruct (Copy_file_spec _ _ _ _ Hmem fs from bytes to d Hinv Hmax) as (out & d' & E & Hinv' & Hd').
      exists d'. split; [done|]. cbv beta. rewrite E. unfold spec_copy.
      cbv zeta in Hd'. rewrite (files_size _ _ Hinv), Hv, Hf in Hd'. fold (sectors_of bytes) in Hd'.
      destruct (decide _), Hd' as [-> Hd']; (split; [done|]); [split; [done|exact Hd']|by eapply represents_same].
    + exists d. by split.
  - eexists _. destruct (Print_file_spec _ _ _ _ Hmem fs print_fuel name d Hinv) as (d' & E & Hinv' & Hc').
    { intros data Hd. destruct (file_facts _ _ _ _ Hinv Hd) as [Hmax _]. split; [done|].
      unfold print_fuel, zlen in *. lia. }
    exists d'. split; [done|]. cbv beta. rewrite E, Hv. split; [done|]. by eapply represents_same.
  - eexists _. destruct (Remove_files_spec _ _ _ _ Hmem fs name d Hinv) as (b & d' & E & Hinv' & -> & Hv' & Hno & Hfr & _).
    exists d'. split; [done|]. cbv beta. rewrite E. split; [done|]. cbn [snd]. unfold spec_remove.
    rewrite Hv in *. destruct (s_files a !! fname name) as [data|] eqn:Ed.
    + destruct (file_facts fs d (fname name) data Hinv) as (_ & s & Hs & Hsec); [by rewrite Hv|].
      split; [done|]. split; [done|]. cbn [s_free]. rewrite (Hfr s Hs), Hf. lia.
    + eapply represents_same; [done..|]. apply Hno. apply bool_decide_eq_false. by apply not_elem_of_dom.
Qed.

Lemma run_commands_spec fs cs : forall d a,
  Forall (fun c => plain unix_file c = true) cs -> represents fs d a ->
  let '(outs, a') := spec_commands unix_file cs a in
  exists d', run_commands new_char new_words new_table new_header unix_file fs (cs ++ [Finish]) d =
      Ok (outs, [Finish], d') /\ represents fs d' a'.
Proof.
  induction cs as [|c cs IH]; intros d a HF Hr; [by exists d|]. inversion HF as [|? ? Hc HF']. subst.
  destruct (perform_spec fs c d a Hc Hr) as (f & d1 & Ep & Hf). cbn [app run_commands spec_commands].
  destruct (spec_command unix_file c a) as [out a1]. destruct Hf as [Ef Hr1].
  pose proof (IH d1 a1 HF' Hr1) as Hrest. destruct (spec_commands unix_file cs a1) as [outs a2].
  destruct Hrest as (d2 & E2 & Hr2). exists d2. by rewrite Ep, Ef, bind_Ok, E2, bind_Ok.
Qed.

Lemma plain_words c : plain unix_file c = true -> goes_on c = true /\ Forall (fun a => is_option a = false) (words c).
Proof.
  intros Hc. split; [by destruct c|].
  destruct c; try discriminate Hc; cbn [words plain] in *;
    rewrite ?andb_true_iff, ?negb_true_iff in Hc; repeat constructor; apply Hc.
Qed.

Lemma session_flags s :
  Forall (fun c => plain unix_file c = true) (todo s) ->
  Initialize_flags (session_args s) = Ok (mkOptions [] false None false (formats_disk s)) /\
  main_commands (session_args s) = todo s ++ [Finish].
Proof.
  intros HF.
  assert (Forall (fun c => goes_on c = true) (todo s)) as Hg.
  { eapply Forall_impl; [exact HF|]. intros c Hc. apply (plain_words c Hc). }
  assert (Forall (fun a => is_option a = false) (concat (words <$> todo s))) as Ho.
  { apply Forall_concat, Forall_fmap. eapply Forall_impl; [exact HF|]. intros c Hc. apply (plain_words c Hc). }
  assert (main_commands (concat (words <$> todo s)) = todo s ++ [Finish]) as Em.
  { clear -Hg. induction Hg as [|c cs Hc _ IH]; [done|]. cbn [fmap list_fmap concat].
    by rewrite main_commands_words, IH. }
  unfold session_args, Initialize_flags. destruct (formats_disk s); cbn [app].
  - split.
    + cbn [length Initialize_loop]. change (Initialize_turn (chars "-f") (concat (words <$> todo s)) default_options)
        with (@Ok (options * nat) (mkOptions [] false None false true, 1%nat)).
      rewrite bind_Ok. cbn [drop]. by apply Initialize_ignores.
    + rewrite (main_commands_turn _ _ [] 1) by reflexivity. exact Em.
  - split; [by apply Initialize_ignores|exact Em].
Qed.

(** One run of the program. *)
Lemma boot_spec s d a :
  Forall (fun c => plain unix_file c = true) (todo s) ->
  (if formats_disk s then store_wf d else exists fs, represents fs d a) ->
  let '(outs, a') := spec_commands unix_file (todo s) (if formats_disk s then empty_fs else a) in
  exists fs d', boot new_char new_words new_table new_header unix_file (session_args s) d = Ok (outs, [Finish], d') /\
    represents fs d' a'.
Proof.
  intros HF Hd. destruct (session_flags s HF) as [Ei Em]. unfold boot. rewrite Ei, bind_Ok, Em.
  cbn [format_disk].
  assert (exists fs d1, new_FileSystem new_char new_words new_table new_header (formats_disk s) d = Ok (fs, d1) /\
    represents fs d1 (if formats_disk s then empty_fs else a)) as (fs & d1 & -> & Hr).
  { destruct (formats_disk s).
    - destruct (format_spec _ _ _ _ Hmem d Hd) as (fs & d1 & E & Hinv & Hv & Hf). by exists fs, d1.
    - destruct Hd as (fs & Hr). destruct (reopen_spec new_char new_words new_table new_header fs d (proj1 Hr))
        as (d1 & E & Hinv & Hc). exists fs, d1. split; [done|]. by eapply represents_same. }
  rewrite bind_Ok. pose proof (run_commands_spec fs (todo s) d1 _ HF Hr) as Hrun.
  destruct (spec_commands _ _ _) as [outs a2]. destruct Hrun as (d2 & E & Hr2). by exists fs, d2.
Qed.

Lemma boots_spec ss : forall fs d a,
  Forall (fun s => Forall (fun c => plain unix_file c = true) (todo s)) ss -> represents fs d a ->
  let '(outs, a') := spec_sessions unix_file ss a in
  exists fs' d', boots new_char new_words new_table new_header unix_file (session_args <$> ss) d = Ok (outs, d') /\
    represents fs' d' a'.
Proof.
  induction ss as [|s ss IH]; intros fs d a HF Hr; [by exists fs, d|]. inversion HF as [|? ? Hs HF']. subst.
  pose proof (boot_spec s d a Hs) as Hb. cbn [fmap list_fmap boots spec_sessions].
  destruct (spec_commands unix_file (todo s) _) as [outs a1].
  destruct Hb as (fs1 & d1 & E1 & Hr1).
  { destruct (formats_disk s); [apply Hr|by exists fs]. }
  rewrite E1, bind_Ok. pose proof (IH fs1 d1 a1 HF' Hr1) as Hrest.
  destruct (spec_sessions unix_file ss a1) as [more a2]. destruct Hrest as (fs2 & d2 & E2 & Hr2).
  exists fs2, d2. by rewrite E2, bind_Ok.
Qed.
End refinement.

(** C4: files survive restarts.  Take any disk and any number of runs of the
    program, each with its own command line, the first with -f, the others with or
    without, of copies of UNIX files (of at most MaxFileSize bytes, 3840, or that
    cannot be opened), printings and removals of files and -z, in any order and with
    names that are not flags of Initialize; a larger UNIX file is left out, since its
    Create runs past the header's table of sectors.  Every run reads its command line,
    formats or opens the file system, performs every command without a fault and
    finishes.  What each command prints, and which files with which contents and how
    many free sectors it leaves for the next run, is what the operations on a plain
    map from names (their first nine characters) to contents give: a copy adds a file and prints the line of
    FileSystem::Open when the UNIX file can be opened, the name is new and the
    directory and the disk have room, and otherwise prints its message and changes
    nothing; a removal deletes the file and frees its sectors; a printing shows the
    line of Open and then exactly the bytes copied, in this run or an earlier one, or
    the message that there is no such file. *)
Theorem restart_refines {D} `{SectorStoreLaws D} new_char new_words new_table new_header unix_file
    (first : session) (more : list session) (d : D) :
  wf_memory new_char new_words new_table new_header -> store_wf d -> formats_disk first = true ->
  Forall (fun s => Forall (fun c => plain unix_file c = true) (todo s)) (first :: more) ->
  let '(outs, a) := spec_sessions unix_file (first :: more) empty_fs in
  exists fs d', boots new_char new_words new_table new_header unix_file (session_args <$> first :: more) d =
      Ok (outs, d') /\ represents fs d' a.
Proof.
  intros Hmem Hd Hf HF. inversion HF as [|? ? Hs HF']. subst.
  pose proof (boot_spec _ _ _ _ Hmem unix_file first d empty_fs Hs) as Hb.
  cbn [fmap list_fmap boots spec_sessions]. rewrite Hf in *.
  destruct (spec_commands unix_file (todo first) empty_fs) as [outs a1].
  destruct (Hb Hd) as (fs1 & d1 & E1 & Hr1).
  pose proof (boots_spec _ _ _ _ Hmem unix_file more fs1 d1 a1 HF' Hr1) as Hrest.
  destruct (spec_sessions unix_file more a1) as [outs2 a2]. destruct Hrest as (fs2 & d2 & E2 & Hr2).
  exists fs2, d2. by rewrite E1, bind_Ok, E2, bind_Ok.
Qed.

(** [nachos -f -cp hello note -cp none note], then [nachos -p note -r note], then
    [nachos -p note]. *)
Lemma restart_refines_witness :
  let unix_file a := if is_flag a "hello" then Some [72; 105; 10] else None in
  exists d', boots sample_char sample_words sample_table blank_header unix_file
      [[chars "-f"; chars "-cp"; chars "hello"; chars "note"; chars "-cp"; chars "none"; chars "note"];
       [chars "-p"; chars "note"; chars "-r"; chars "note"];
       [chars "-p"; chars "note"]] fresh_synch_disk =
    Ok ([([Printed (says "FileSystem Open: " (chars "note"));
           Printed (says "Copy: couldn't open input file " (chars "none"))], [Finish]);
         ([Printed (says "FileSystem Open: " (chars "note") ++ [72; 105; 10]); Printed []], [Finish]);
         ([Printed (says "FileSystem Open: " (chars "note") ++ says "Print: unable to open file " (chars "note"))], [Finish])], d').
Proof.
  intros unix_file.
  pose proof (restart_refines sample_char sample_words sample_table blank_header unix_file
    (mkSession true [CopyFile (chars "hello") (chars "note"); CopyFile (chars "none") (chars "note")])
    [mkSession false [PrintFile (chars "note"); RemoveFile (chars "note")];
     mkSession false [PrintFile (chars "note")]]
    fresh_synch_disk sample_memory fresh_store_wf eq_refl ltac:(repeat constructor)) as H.
  match type of H with let '(_, _) := ?x in _ => let y := eval vm_compute in x in change x with y in H end.
  destruct H as (fs & d' & E & _). exists d'. exact E.
Defined.
