(* ===== verification/ExceptionProps.v ===== *)
(** * ExceptionProps: the properties of the system calls

    The program counter and the result of every call, and what the file calls do
    with bad arguments and short reads. *)

From S2P Require Import Prelude Interrupt Disk SynchDisk FileHdr OpenFile Directory FileSys BitMap.
From S2P Require Import Machine FDList AddrSpace Paging Swap Children Exception Executable PagingProps.

(** ** The registers through a call *)

(** Take a handler apart: its binds, lets, tests and pairs. *)
Ltac take_apart :=
  repeat match goal with
  | E : mbind _ _ = Ok _ |- _ =>
      let a := fresh "a" in let Ea := fresh "E" in apply bind_inv in E as (a & Ea & E); cbv beta in E
  | E : context [match ?p with (_, _) => _ end] |- _ => is_var p; destruct p
  | E : (let _ := _ in _) = Ok _ |- _ => cbv zeta in E
  | E : (if ?b then _ else _) = Ok _ |- _ => destruct b
  | E : match ?o with Some _ => _ | None => _ end = Ok _ |- _ => destruct o
  | E : mret _ = Ok _ |- _ => apply Ok_inj in E
  | E : Err _ = Ok _ |- _ => discriminate E
  | E : (_, _) = (_, _) |- _ => injection E as ?; subst
  | E : Ok _ = Ok _ |- _ => apply Ok_inj in E
  end; subst; try done.

Section registers.
Context {F W : Type} `{FileStore F W} `{FileOps F W} `{SectorStore W}.
Context (yield : vmem W -> res (vmem W)).

Definition regs (st : ust F W) : list Z := Machine.registers (mach st).

Lemma space_read_regs (st : ust F W) addr bytes b st' :
  space_read yield st addr bytes = Ok (b, st') -> regs st' = regs st.
Proof. unfold space_read. intros E. take_apart. Qed.

Lemma space_write_regs (st : ust F W) addr str bytes st' :
  space_write yield st addr str bytes = Ok st' -> regs st' = regs st.
Proof. unfold space_write. intros E. take_apart. Qed.

(** Use these on the parts. *)
Ltac use_regs :=
  repeat match goal with
  | E : space_read _ ?st _ _ = Ok (_, ?st') |- _ => apply space_read_regs in E
  | E : space_write _ ?st _ _ _ = Ok ?st' |- _ => apply space_write_regs in E
  end; repeat match goal with |- context [if ?b then _ else _] => destruct b end;
  unfold regs in *; simpl in *; congruence.

Lemma Create_regs (st st' : ust F W) addr :
  Create_Syscall_Func yield st addr = Ok st' -> regs st' = regs st.
Proof. unfold Create_Syscall_Func. intros E. take_apart. use_regs. Qed.

Lemma Open_regs new_object (st st' : ust F W) addr r :
  Open_Syscall_Func yield new_object st addr = Ok (r, st') -> regs st' = regs st.
Proof. unfold Open_Syscall_Func. intros E. take_apart; use_regs. Qed.

Lemma Write_regs (st st' : ust F W) addr size fd r :
  Write_Syscall_Func yield st addr size fd = Ok (r, st') -> regs st' = regs st.
Proof. unfold Write_Syscall_Func. intros E. take_apart; use_regs. Qed.

Lemma Read_regs new_char scanned (st st' : ust F W) addr size fd r :
  Read_Syscall_Func yield new_char scanned st addr size fd = Ok (r, st') -> regs st' = regs st.
Proof. unfold Read_Syscall_Func. intros E. take_apart; use_regs. Qed.

Lemma Close_regs garbage (st st' : ust F W) fd :
  Close_Syscall_Func garbage st fd = Ok st' -> regs st' = regs st.
Proof. unfold Close_Syscall_Func. intros E. take_apart. Qed.

Lemma Exec_regs new_words header_bytes stack_words new_fds new_thread new_record new_sem
    (st st' : ust F W) r sp :
  Exec_Syscall_Func yield new_words header_bytes stack_words new_fds new_thread new_record new_sem st =
    Ok (r, sp, st') -> regs st' = regs st.
Proof. unfold Exec_Syscall_Func. intros E. take_apart; use_regs. Qed.
End registers.

(** ** The return from a call *)

Lemma ReadRegister_inv m i v : ReadRegister m i = Ok v -> znth (Machine.registers m) i = Some v.
Proof. unfold ReadRegister. intros E. apply bind_inv in E as (u & _ & E). by apply zget_Ok in E. Qed.

Lemma WriteRegister_inv m i v m' :
  WriteRegister m i v = Ok m' ->
  forall j, znth (Machine.registers m') j = if j =? i then Some v else znth (Machine.registers m) j.
Proof.
  unfold WriteRegister. intros E j. apply bind_inv in E as (u & _ & E).
  apply bind_inv in E as (rs & E & E'). apply Ok_inj in E'. subst m'.
  apply zset_inv in E as [Hi ->]. simpl.
  destruct (Z.eqb_spec j i) as [->|Hne]; [by apply znth_insert_eq|]. apply znth_insert_ne; lia.
Qed.

(** After a system call with result [r]: the result in r2, the program counter one
    instruction on. *)
Definition advanced (rs : list Z) (r : Z) (rs' : list Z) : Prop :=
  exists pc npc, znth rs PCReg = Some pc /\ znth rs NextPCReg = Some npc /\
    znth rs' 2 = Some r /\ znth rs' PrevPCReg = Some pc /\ znth rs' PCReg = Some npc /\
    znth rs' NextPCReg = Some (s32 (npc + 4)) /\
    forall i, i <> 2 -> i <> PCReg -> i <> NextPCReg -> i <> PrevPCReg -> znth rs' i = znth rs i.

Lemma syscall_return_inv {F W} r (st st' : ust F W) :
  syscall_return r st = Ok st' -> advanced (regs st) r (regs st').
Proof.
  unfold syscall_return. intros E.
  apply bind_inv in E as (m1 & W1 & E). apply bind_inv in E as (pc & E0 & E).
  apply bind_inv in E as (m2 & W2 & E). apply bind_inv in E as (npc & E2 & E).
  apply bind_inv in E as (m3 & W3 & E). apply bind_inv in E as (pc2 & E4 & E).
  apply bind_inv in E as (m4 & W4 & E). apply Ok_inj in E. subst st'.
  unfold regs. cbn [mach set_mach].
  apply ReadRegister_inv in E0, E2, E4. pose proof (WriteRegister_inv _ _ _ _ W1) as W1'.
  pose proof (WriteRegister_inv _ _ _ _ W2) as W2'. pose proof (WriteRegister_inv _ _ _ _ W3) as W3'.
  pose proof (WriteRegister_inv _ _ _ _ W4) as W4'. clear W1 W2 W3 W4.
  rename W1' into W1, W2' into W2, W3' into W3, W4' into W4.
  unfold PCReg, NextPCReg, PrevPCReg in *.
  rewrite W3 in E4. simpl in E4. injection E4 as <-.
  rewrite W1 in E0. simpl in E0. rewrite W2, W1 in E2. simpl in E2.
  eexists _, _. split; [exact E0|]. split; [exact E2|]. rewrite !W4, !W3, !W2, !W1. simpl.
  split_and!; try done. intros i H1 H2 H3 H4.
  rewrite W4, W3, W2, W1.
  by rewrite !(proj2 (Z.eqb_neq _ _)) by done.
Qed.

Lemma WriteRegister_frame m i v m' : WriteRegister m i v = Ok m' -> m' = set_registers m (registers m').
Proof.
  unfold WriteRegister. intros E. apply bind_inv in E as (u & _ & E).
  apply bind_inv in E as (rs & _ & E). apply Ok_inj in E. by subst m'.
Qed.

Lemma syscall_return_frame {F W} r (st st' : ust F W) :
  syscall_return r st = Ok st' -> st' = set_mach st (set_registers (mach st) (regs st')).
Proof.
  unfold syscall_return. intros E. take_apart.
  repeat match goal with R : WriteRegister _ _ _ = Ok _ |- _ => apply WriteRegister_frame in R end.
  unfold regs. cbn [mach set_mach]. f_equal.
  repeat match goal with R : ?m = set_registers _ _ |- _ => rewrite R; clear R end. reflexivity.
Qed.

(** The state in which the thread goes on after the call, if it does. *)
Definition goes_on {F W} (o : outcome (F := F) (W := W)) : option (ust F W) :=
  match o with
  | Resumes st | Starts _ st | Joins _ st => Some st
  | Halts | Exits _ _ => None
  end.

Section calls.
Context {F W : Type} `{FileStore F W} `{FileOps F W} `{SectorStore W}.
Context (yield : vmem W -> res (vmem W)) (new_char : Z -> list Z) (garbage : Z) (new_words : Z -> list Z)
  (header_bytes stack_words : list Z) (new_fds : FD_List) (new_object : gmap Z F -> Z)
  (new_thread new_record new_sem : Z) (scanned : option (list Z)).

(** The call [type] with the arguments [r4], [r5] and [r6] does its work: the
    result it has, and the state it leaves. *)
Inductive call_result (st : ust F W) (r4 r5 r6 : Z) : Z -> Z -> ust F W -> Prop :=
| result_create st1 : Create_Syscall_Func yield st r4 = Ok st1 -> call_result st r4 r5 r6 SC_Create 0 st1
| result_open r st1 : Open_Syscall_Func yield new_object st r4 = Ok (r, st1) -> call_result st r4 r5 r6 SC_Open r st1
| result_write r st1 :
    Write_Syscall_Func yield st r4 r5 r6 = Ok (r, st1) -> call_result st r4 r5 r6 SC_Write r st1
| result_read r st1 :
    Read_Syscall_Func yield new_char scanned st r4 r5 r6 = Ok (r, st1) -> call_result st r4 r5 r6 SC_Read r st1
| result_close st1 : Close_Syscall_Func garbage st r4 = Ok st1 -> call_result st r4 r5 r6 SC_Close 0 st1
| result_exec r sp st1 :
    Exec_Syscall_Func yield new_words header_bytes stack_words new_fds new_thread new_record new_sem st = Ok (r, sp, st1) ->
    call_result st r4 r5 r6 SC_Exec r st1
| result_join sem :
    find_child (S (size (records (ukids st)))) (uchild st) r4 (ukids st) = Ok sem ->
    call_result st r4 r5 r6 SC_Join (match sem with Some _ => 0 | None => -1 end) st.

Lemma call_result_regs st r4 r5 r6 type r st1 : call_result st r4 r5 r6 type r st1 -> regs st1 = regs st.
Proof.
  destruct 1 as [st1 E|r st1 E|r st1 E|r st1 E|st1 E|r sp st1 E|sem E].
  - by apply Create_regs in E.
  - by apply Open_regs in E.
  - by apply Write_regs in E.
  - by apply Read_regs in E.
  - by apply Close_regs in E.
  - by apply Exec_regs in E.
  - done.
Qed.

(** A call that lets the program go on does its work, and returns. *)
Lemma syscall_inv type st out st' :
  syscall yield new_char garbage new_words header_bytes stack_words new_fds new_object new_thread new_record
    new_sem scanned type st = Ok out -> goes_on out = Some st' ->
  exists r4 r5 r6 r st1, znth (regs st) 4 = Some r4 /\ znth (regs st) 5 = Some r5 /\ znth (regs st) 6 = Some r6 /\
    call_result st r4 r5 r6 type r st1 /\ syscall_return r st1 = Ok st'.
Proof.
  unfold syscall, exit_with. intros E Ho. apply bind_inv in E as (r4 & E4 & E).
  apply bind_inv in E as (r5 & E5 & E). apply bind_inv in E as (r6 & E6 & E).
  apply ReadRegister_inv in E4, E5, E6. exists r4, r5, r6.
  repeat match type of E with
  | (if type =? ?c then _ else _) = Ok _ => destruct (Z.eqb_spec type c) as [->|_]
  end; take_apart; simpl in Ho; try discriminate Ho; injection Ho as <-;
  match goal with R : syscall_return ?r ?s = Ok _ |- _ => exists r, s end;
  (split; [done|]; split; [done|]; split; [done|]; split; [|done]);
  match goal with
  | J : find_child _ _ _ _ = Ok ?sem |- _ => exact (result_join _ _ _ _ sem J)
  | _ => by econstructor
  end.
Qed.
End calls.

(** C22: a system call returns to the next instruction, with its result.  Whenever
    the handler of a system call lets the program go on, at once or after waiting for
    a child, the call that r2 names has done its work with the arguments in r4, r5 and
    r6, and its result (what the call's function returns; 0 for Create and Close; 0
    for Join of a child, and -1 if there is none) is in r2; the three program counters
    are one instruction on (the delay slot is kept), and no other register has
    changed, nor anything else since the call did its work: the call is neither
    repeated nor skips anything. *)
Theorem syscall_advances {F W} `{FileStore F W} `{FileOps F W} `{SectorStore W}
    yield new_char garbage new_words header_bytes stack_words new_fds new_object new_thread new_record
    new_sem scanned (st : ust F W) out st' :
  HandleException yield new_char garbage new_words header_bytes stack_words new_fds new_object
    new_thread new_record new_sem scanned SyscallException st = Ok out ->
  goes_on out = Some st' ->
  exists type r4 r5 r6 r st1, znth (regs st) 2 = Some type /\
    znth (regs st) 4 = Some r4 /\ znth (regs st) 5 = Some r5 /\ znth (regs st) 6 = Some r6 /\
    call_result yield new_char garbage new_words header_bytes stack_words new_fds new_object
      new_thread new_record new_sem scanned st r4 r5 r6 type r st1 /\
    advanced (regs st) r (regs st') /\ st' = set_mach st1 (set_registers (mach st1) (regs st')).
Proof.
  unfold HandleException. intros E Ho. apply bind_inv in E as (type & E2 & E). apply ReadRegister_inv in E2.
  destruct (syscall_inv _ _ _ _ _ _ _ _ _ _ _ _ _ _ _ _ E Ho) as (r4 & r5 & r6 & r & st1 & E4 & E5 & E6 & Hc & Er).
  exists type, r4, r5, r6, r, st1. pose proof (syscall_return_inv _ _ _ Er) as Ha.
  rewrite (call_result_regs _ _ _ _ _ _ _ _ _ _ _ _ _ _ _ _ _ _ _ Hc) in Ha. split_and!; try done.
  by apply syscall_return_frame with r.
Qed.

(** ** Page faults *)

(** An entry with a frame that exists translates every read of its page. *)
Lemma Translate_hit m va size i e :
  wf_tables m -> access_size size -> misaligned va size = false ->
  maps m (vpn_of va) i e -> wf_entry e -> 0 <= physicalPage e < NumPhysPages ->
  exists m', Translate m va size false = Ok (NoException, phys e va, m') /\
    mainMemory m' = mainMemory m.
Proof.
  intros Hwt Hsz Ha Hm He Hp. destruct (set_entry_touch m _ i e false Hm) as (m' & Em & Hsame & _).
  exists m'. split; [|exact (same_mem _ _ Hsame)].
  rewrite (Translate_mapped m va size false i e Hwt Hsz Ha Hm He), andb_false_r, Em, bind_Ok.
  by rewrite (proj2 (Z.leb_le _ _)), (proj2 (Z.ltb_lt _ _)) by apply Hp.
Qed.

(** With a page table installed, the machine gets the one of the space. *)
Lemma to_machine_installed {F W} (st : ust F W) s v t :
  pageTable (mach st) = Some t ->
  to_machine st s v = set_mach (set_space st s v)
    (set_mainMemory (set_pageTable (mach st) (Some (table s))) (memory v)).
Proof. intros Ht. unfold to_machine. by rewrite Ht. Qed.

(** The handler of a page fault, when the page can be loaded. *)
Lemma page_fault_resumes {F W} `{FileStore F W} `{FileOps F W} `{SectorStore W}
    yield new_char garbage new_words header_bytes stack_words new_fds new_object new_thread new_record
    new_sem scanned (st : ust F W) va pp s v :
  zlen (regs st) = NumTotalRegs -> znth (regs st) BadVAddrReg = Some va -> 0 <= va ->
  load_page (F := F) yield (kernel_space st) (kernel_vm st) (va / PageSize) = Ok (pp, (s, v)) -> pp <> -1 ->
  HandleException yield new_char garbage new_words header_bytes stack_words new_fds new_object
    new_thread new_record new_sem scanned PageFaultException st = Ok (Resumes (to_machine st s v)).
Proof.
  intros Hl Hbad Hva E Hpp. unfold HandleException.
  destruct (zget_in_range (regs st) 2) as [r2 E2]; [rewrite Hl; done|].
  unfold ReadRegister. rewrite !ASSERT_true, !bind_Ok by done. unfold regs in E2, Hbad. rewrite E2, bind_Ok.
  rewrite (proj2 (zget_Ok _ _ _) Hbad), bind_Ok.
  rewrite Z.quot_div_nonneg by (unfold PageSize, SectorSize in *; lia). rewrite E, bind_Ok.
  by rewrite (proj2 (Z.eqb_neq pp (-1))).
Qed.

(** A program does not notice that its pages are loaded on demand.  When a
    read faults because its page is not in memory, and a frame is free, the
    handler returns to the program with its registers (the program counter among
    them) as they were; the access, which is made again, is then translated, to
    exactly the bytes of the program's image at its virtual addresses; the other
    pages stay where they are with what they hold. *)
Theorem page_fault_served {F W} `{FileStoreLaws F W} `{FileOps F W} `{SectorStore W}
    yield new_char garbage new_words header_bytes stack_words new_fds new_object new_thread new_record
    new_sem scanned (st : ust F W) va size pp bs t :
  tlb (mach st) = None -> pageTable (mach st) = Some t -> wf_tables (mach st) ->
  zlen (regs st) = NumTotalRegs -> znth (regs st) BadVAddrReg = Some va -> is_s32 va ->
  pageTableSize (mach st) = numPages (uspace st) ->
  wf_space (kernel_space st) -> wf_vm (kernel_vm st) -> fsl_ok (store (uvm st)) ->
  fsl_file (store (uvm st)) (filename (uspace st)) = Some bs -> wf_program (noffH (uspace st)) bs ->
  access_size size -> Translate (mach st) va size false = Ok (PageFaultException, 0, mach st) ->
  first_free (kernel_vm st) pp -> data_clipped (noffH (uspace st)) (va / PageSize) pp ->
  exists st' t', HandleException yield new_char garbage new_words header_bytes stack_words new_fds
      new_object new_thread new_record new_sem scanned PageFaultException st = Ok (Resumes st') /\
    regs st' = regs st /\ pageTable (mach st') = Some t' /\
    (exists pa m', Translate (mach st') va size false = Ok (NoException, pa, m') /\
       forall j, 0 <= j < size ->
         znth (mainMemory m') (pa + j) = image (noffH (uspace st)) bs (va + j)) /\
    (forall q, q <> va / PageSize -> znth t' q = znth t q) /\
    (forall i, i / PageSize <> pp -> znth (mainMemory (mach st')) i = znth (mainMemory (mach st)) i).
Proof.
  intros Htlb Hpt Hwt Hl Hbad Hva Hn Hs Hv Hok Hf Hwp Hsz HT Hfree Hd.
  assert (misaligned va size = false) as Ha.
  { unfold Translate in HT. by destruct (misaligned va size). }
  destruct (Translate_cases (mach st) va size false Hwt Hsz) as (ex & pa & m1 & E1 & _ & Hex).
  rewrite HT in E1. injection E1 as <- <- <-. destruct Hex as (_ & _ & _ & Hun).
  unfold unmapped in Hun. rewrite Htlb, Hpt in Hun. destruct Hun as (e & Ee & Hinv).
  assert (table (kernel_space st) = t) as Ht by (unfold kernel_space; by rewrite Hpt).
  rewrite <- Ht in Ee. destruct (page_index _ _ _ Hs Ee) as [Hp _]. pose proof (ws_pages _ Hs) as Hnp.
  assert (u32 va = va) as Hu.
  { unfold vpn_of, PageSize, SectorSize, NumPhysPages, is_s32, u32 in *. cbn [numPages kernel_space set_table] in *.
    clear - Hp Hnp Hva. change (2 ^ 31) with 2147483648 in *. change (2 ^ 32) with 4294967296 in *.
    Z.div_mod_to_equations. lia. }
  unfold vpn_of in *. rewrite Hu in *.
  destruct (load_page_spec yield (kernel_space st) (kernel_vm st) _ e pp bs Hs Hv Hok Hf Hwp Ee Hinv Hfree Hd)
    as (t' & v' & E & Et & _ & Hv' & _ & _ & Him & Hout & _).
  eexists _, t'. split.
  { eapply page_fault_resumes; [exact Hl|exact Hbad| |exact E|destruct Hfree; lia].
    rewrite <- Hu. apply u32_range. }
  rewrite (to_machine_installed _ _ _ t Hpt). split; [done|]. split; [done|].
  pose proof (zset_inv _ _ _ _ Et) as [Hr Et']. rewrite Ht in *.
  assert (znth t' (va / PageSize) = Some (mkEntry (va / PageSize) pp true (readOnly e) (use e) (dirty e)))
    as Ent by (rewrite Et'; by apply znth_insert_eq).
  assert (wf_entry (mkEntry (va / PageSize) pp true (readOnly e) (use e) (dirty e))) as Hwe.
  { change (numPages (kernel_space st)) with (numPages (uspace st)) in *. pose proof (proj1 Hfree) as Hpp.
    unfold NumPhysPages in *. split; unfold is_s32; cbn [virtualPage physicalPage]; lia. }
  assert (wf_tables (set_mainMemory (set_pageTable (mach st) (Some t')) (memory v'))) as Hwt'.
  { unfold wf_tables in *. cbn. rewrite Htlb in *. rewrite Hpt in Hwt. destruct Hwt as [HF Hlen].
    rewrite (zlen_zset _ _ _ _ Et). split; [|exact Hlen]. rewrite Et'. by apply Forall_insert. }
  split; [|split].
  - set (m := set_mainMemory (set_pageTable (mach st) (Some t')) (memory v')) in *.
    assert (maps m (vpn_of va) (vpn_of va) (mkEntry (va / PageSize) pp true (readOnly e) (use e) (dirty e)))
      as Hm.
    { split; [done|]. unfold m. cbn. rewrite Htlb. unfold vpn_of. rewrite Hu. split_and!; [done|rewrite Hn; apply Hp|done]. }
    destruct (Translate_hit m va size _ _ Hwt' Hsz Ha Hm Hwe (proj1 Hfree)) as (m' & Em & Emem).
    eexists _, m'. split; [exact Em|]. intros j Hj. rewrite Emem. unfold phys. cbn [physicalPage m].
    rewrite Hu. pose proof (aligned_end size va Hsz Ha) as Hend. rewrite Hu in Hend.
    rewrite <- Z.add_assoc. change (znth (memory v') (pp * PageSize + (va mod PageSize + j)) =
      image (noffH (uspace st)) bs (va + j)).
    rewrite Him by (pose proof (Z.mod_pos_bound va PageSize ltac:(done)); lia).
    f_equal. pose proof (Z.div_mod va PageSize ltac:(done)). cbn [noffH kernel_space set_table]. lia.
  - intros q Hq. rewrite Et'. destruct (decide (0 <= q)).
    + apply znth_insert_ne; lia.
    + by rewrite !znth_out by lia.
  - intros i Hi. apply Hout. intros Hin. apply Hi. symmetry. apply Z.div_unique with (i - pp * PageSize).
    + left. lia.
    + lia.
Qed.

(** ** Reading a file *)

(** C23: Read gives the program the bytes of the file, and more.  Let the buffer of
    the program lie in pages that are in memory, in distinct frames, and the
    descriptor (not that of the console) be of an open file.  When the file returns
    some bytes, at most the [size] asked for, their number is the result; they are
    stored in order from the program's address, and the rest of the [size] bytes of
    the program's buffer is overwritten with what the kernel's freshly allocated,
    uninitialised buffer held; but nothing is stored beyond the first 1000 bytes,
    although the result counts them.  Nothing else in memory changes. *)
Theorem Read_correct {F W} `{FileStore F W} `{FileOps F W} `{SectorStore W}
    yield new_char scanned (st : ust F W) addr size fd tbl p f into f' w' pa :
  fd_table (open_files (uspace st)) tbl -> 1 < fd -> tbl !! fd = Some p -> p <> 0 ->
  objects st !! p = Some f -> fo_read f size (store (uvm st)) = Ok (into, (f', w')) ->
  0 < zlen into <= size -> zlen (new_char size) = size ->
  zlen (mainMemory (mach st)) = MemorySize ->
  let stored := Z.min size 1000 in
  all_mapped (kernel_space st) (s32 addr) stored pa ->
  (forall i j, 0 <= i < stored -> 0 <= j < stored -> pa i = pa j -> i = j) ->
  exists st', Read_Syscall_Func yield new_char scanned st addr size fd = Ok (zlen into, st') /\
    (forall j, 0 <= j < zlen into -> j < stored -> znth (mainMemory (mach st')) (pa j) = znth into j) /\
    (forall j, zlen into <= j < stored -> znth (mainMemory (mach st')) (pa j) = znth (new_char size) j) /\
    (forall x, (forall j, 0 <= j < stored -> x <> pa j) ->
       znth (mainMemory (mach st')) x = znth (mainMemory (mach st)) x) /\
    objects st' = <[p := f']> (objects st) /\ regs st' = regs st.
Proof.
  intros Ht Hfd Ep Hp Ef Er Hlen Hnew Hm stored Hall Hinj. unfold Read_Syscall_Func, ConsoleInput, ConsoleOutput.
  rewrite (proj2 (Z.eqb_neq size 0)), (proj2 (Z.ltb_ge size 0)), (proj2 (Z.ltb_ge fd 0)),
    (proj2 (Z.eqb_neq fd 1)), (proj2 (Z.eqb_neq fd 0)) by lia. cbv zeta.
  rewrite (fd_get_spec _ _ fd Ht), Ep, bind_Ok. cbn [default from_option id].
  rewrite (proj2 (Z.eqb_neq p 0)) by done. cbn [negb]. unfold get_object. rewrite Ef, bind_Ok, Er, bind_Ok.
  rewrite Z.gtb_ltb, (proj2 (Z.ltb_lt _ _)) by lia.
  destruct (zwrite (new_char size) 0 into) as [b|e] eqn:Eb.
  2:{ rewrite zwrite_Ok in Eb by lia. discriminate Eb. }
  rewrite bind_Ok. pose proof (zlen_zwrite _ _ _ _ Eb) as Hb.
  destruct (write_loop_mapped yield (kernel_space st) (s32 addr) stored b pa 1000 0
    (set_memory (set_store (uvm st) w') (mainMemory (mach st))) Hall) as (m & Ew & _ & Hin & Hout);
    [lia|lia|lia|lia|done|done|].
  assert (forall s v, write_loop (F := F) yield 1000 0 (s32 addr) size b s v = write_loop yield 1000 0 (s32 addr) stored b s v) as Hbound.
  { intros s v. destruct (Z.le_ge_cases size 1000); [unfold stored; by rewrite Z.min_l|apply write_loop_bound; lia]. }
  unfold space_write, write. cbn [uspace uvm mach set_space set_objects kernel_vm] in *.
  change (kernel_space _) with (kernel_space st).
  change (kernel_vm _) with (set_memory (set_store (uvm st) w') (mainMemory (mach st))).
  rewrite Hbound, Ew, !bind_Ok. eexists. split; [reflexivity|]. cbn.
  assert (forall j, 0 <= j < stored -> znth m (pa j) = if j <? zlen into then znth into j else
    znth (new_char size) j) as Hval.
  { intros j Hj. rewrite Hin, (znth_zwrite _ _ _ _ j Eb) by lia.
    rewrite (proj2 (Z.leb_le 0 j)) by lia. by rewrite Z.add_0_l, Z.sub_0_r. }
  split; [|split; [|split; [|done]]].
  - intros j Hj Hs. rewrite Hval by lia. by rewrite (proj2 (Z.ltb_lt _ _)) by lia.
  - intros j Hj. rewrite Hval by lia. by rewrite (proj2 (Z.ltb_ge _ _)) by lia.
  - exact Hout.
Qed.

(** ** A running program *)

#[local] Instance sample_files : FileStore OpenFile (SynchDisk * sys unit) :=
  nachos_files sample_table formatted.1.
#[local] Instance sample_ops : FileOps OpenFile (SynchDisk * sys unit) :=
  nachos_ops sample_char sample_words sample_table blank_header formatted.1.
#[local] Instance sample_laws : FileStoreLaws OpenFile (SynchDisk * sys unit) :=
  nachos_files_laws sample_char sample_words sample_table blank_header sample_memory formatted.1.

(** It runs in [note_space], has no open file, and [rs] in its registers. *)
Definition running (rs : list Z) : ust OpenFile (SynchDisk * sys unit) :=
  mkUst (mkMachine (replicate (Z.to_nat MemorySize) 0) rs None (Some loaded_table) 3 false 0)
    (note_space loaded_table) (note_vm formatted.2) ∅ None None (mkChildren ∅ 0).

(** The registers in a call of [type] with the arguments [a] and [b], [c]. *)
Definition call_regs (type a b c : Z) : list Z :=
  [0; 0; type; 0; a; b; c] ++ replicate 27 0 ++ [100; 104; 96; 0; 0; 0].

Lemma syscall_advances_witness :
  exists st', HandleException Ok sample_char 0 sample_char [] [] fd_sample (fun _ => 1) 1 1 1 None
      SyscallException (running (call_regs SC_Close (-1) 0 0)) = Ok (Resumes st') /\
    advanced (regs (running (call_regs SC_Close (-1) 0 0))) 0 (regs st') /\
    znth (regs st') PCReg = Some 104.
Proof.
  assert (exists st', HandleException Ok sample_char 0 sample_char [] [] fd_sample (fun _ => 1) 1 1 1 None
      SyscallException (running (call_regs SC_Close (-1) 0 0)) = Ok (Resumes st')) as [st' E]
    by (eexists; reflexivity).
  destruct (syscall_advances Ok sample_char 0 sample_char [] [] fd_sample (fun _ => 1) 1 1 1 None
    _ _ st' E eq_refl) as (type & r4 & r5 & r6 & r & st1 & Et & _ & _ & _ & Hc & Hr & _). exists st'.
  assert (type = SC_Close) as -> by (injection Et as <-; reflexivity).
  assert (r = 0) as -> by (inversion Hc; reflexivity).
  split; [exact E|]. split; [exact Hr|].
  destruct Hr as (pc & npc & _ & En & _ & _ & Ep & _). rewrite Ep, <- En. reflexivity.
Defined.

(** The program of [note_space], before any of its pages is loaded, after an
    access to the address 132. *)
Definition faulting {W} (d : W) : ust OpenFile W :=
  mkUst (mkMachine (replicate (Z.to_nat MemorySize) 0)
           ([0; 0; 0; 0; 0; 0; 0] ++ replicate 27 0 ++ [100; 104; 96; 0; 0; 132])
           None (Some blank_table) 3 false 0)
    (note_space blank_table) (note_vm d) ∅ None None (mkChildren ∅ 0).

Lemma page_fault_served_witness :
  exists d st' pa m', HandleException Ok sample_char 0 sample_char [] [] fd_sample (fun _ => 1) 1 1 1 None
      PageFaultException (faulting d) = Ok (Resumes st') /\ regs st' = regs (faulting d) /\
    Translate (mach st') 132 4 false = Ok (NoException, pa, m').
Proof.
  destruct note_created as (d & bytes & _ & Hinv & Hl & Hv & _). exists d.
  destruct (page_fault_served Ok sample_char 0 sample_char [] [] fd_sample (fun _ => 1) 1 1 1 None
    (faulting d) 132 4 0 bytes blank_table) as (st' & t' & E & Hr & _ & (pa & m' & ET & _) & _).
  - reflexivity.
  - reflexivity.
  - split; [|done]. repeat constructor; simpl; word_lia.
  - reflexivity.
  - reflexivity.
  - word_lia.
  - reflexivity.
  - apply note_space_wf; [reflexivity|exact blank_table_virt].
  - apply (note_vm_wf d).
  - exact Hinv.
  - exact Hv.
  - split; try (left; reflexivity); try (unfold wf_segment; simpl; lia).
  - by right; right.
  - reflexivity.
  - split; [done|]. split; [reflexivity|]. lia.
  - intros Hin. discriminate Hin.
  - exists st', pa, m'. split; [exact E|]. split; [exact Hr|exact ET].
Defined.

(** A process with the open file 100 as descriptor 2. *)
Lemma fd_three : exists l m, fd_table l m /\ m !! 2 = Some 100.
Proof.
  destruct (fd_put_spec fd_sample ∅ 0 fd_sample_table) as (i1 & m1 & l1 & _ & E1 & T1 & S1).
  destruct (fd_put_spec l1 m1 0 T1) as (i2 & m2 & l2 & _ & E2 & T2 & S2).
  destruct (fd_put_spec l2 m2 100 T2) as (i3 & m3 & l3 & _ & E3 & T3 & _).
  exists l3, m3. split; [exact T3|]. rewrite S1 in E2. rewrite S2, S1 in E3.
  vm_compute in E1. injection E1 as _ <-. vm_compute in E2. injection E2 as _ <-.
  vm_compute in E3. injection E3 as _ <-. reflexivity.
Qed.

(** The three pages of [loaded_table], each in the frame of its number. *)
Lemma loaded_mapped l n : 0 <= n <= 384 -> all_mapped (set_open_files (note_space loaded_table) l) 0 n id.
Proof.
  intros Hn. split; [lia|]. split; [lia|]. intros i Hi. rewrite Z.add_0_l.
  assert (Z.quot i PageSize = 0 \/ Z.quot i PageSize = 1 \/ Z.quot i PageSize = 2) as Hp.
  { unfold PageSize, SectorSize. rewrite Z.quot_div_nonneg by lia. Z.div_mod_to_equations. lia. }
  pose proof (Z.quot_rem' i PageSize) as Hqr.
  destruct Hp as [Hp|[Hp|Hp]]; (eexists; rewrite Hp in Hqr |- *; split; [reflexivity|];
    split; [reflexivity|]; split; [done|]; unfold phys_addr; cbn; unfold id; lia).
Qed.

(** It reads 350 bytes from the beginning of the file "note", which has 300. *)
Definition reading {W} (f : OpenFile) (l : FD_List) (d : W) : ust OpenFile W :=
  mkUst (mach (running (call_regs SC_Read 0 350 2))) (set_open_files (note_space loaded_table) l)
    (note_vm d) {[100 := f]} None None (mkChildren ∅ 0).

Lemma Read_correct_witness :
  exists f l d bs st', zlen bs = 300 /\
    Read_Syscall_Func Ok sample_char None (reading f l d) 0 350 2 = Ok (300, st') /\
    znth (mainMemory (mach st')) 299 = znth bs 299 /\ znth (mainMemory (mach st')) 349 = Some 1.
Proof.
  destruct note_created as (d & bs & _ & Hinv & Hl & Hv & _). destruct fd_three as (l & m & Ht & Em).
  assert (fsl_ok d) as Hok by exact Hinv.
  destruct (fsl_open note d Hok) as (o & d1 & _ & Hinv1 & _ & Ho). change (fsl_file d note) with (view formatted.1 (contents d) !! fname note) in Ho.
  rewrite Hv in Ho. destruct o as [[h sp]|]; [|done].
  destruct (fsl_read (mkOpenFile h 0) 350 0 d1 bs Hinv1 Ho ltac:(done) ltac:(done)) as (d2 & Er & _).
  exists (mkOpenFile h 0), l, d1, bs.
  destruct (Read_correct Ok sample_char None (reading (mkOpenFile h 0) l d1) 0 350 2 m 100 (mkOpenFile h 0) bs
    (mkOpenFile h (s32 (0 + zlen bs))) d2 id) as (st' & E & Hin & Hout & _).
  - exact Ht.
  - lia.
  - exact Em.
  - done.
  - apply lookup_singleton_eq.
  - change (fo_read _ 350 _) with (Read (mkOpenFile h 0) 350 d1). unfold Read. cbn [seekPosition].
    change (fs_read_at _ _ _ _) with (ReadAt (mkOpenFile h 0) 350 0 d1) in Er. rewrite Er, bind_Ok.
    rewrite drop_0, take_ge by (unfold zlen in Hl; lia). reflexivity.
  - lia.
  - reflexivity.
  - reflexivity.
  - apply loaded_mapped. lia.
  - intros i j _ _ E. exact E.
  - exists st'. split; [exact Hl|]. rewrite E, Hl. split; [done|]. split.
    + apply (Hin 299); lia.
    + exact (Hout 349 ltac:(lia)).
Defined.

(** ** Bad arguments *)

(** C24: what the calls refuse.  Write and Read with a negative descriptor, a size
    that is not positive or the wrong console end return -1 (0 for no bytes) and
    do nothing else; Read of a descriptor that is not in use returns -1; Close of
    a negative descriptor does nothing, but of one that is not in use it deletes
    whatever pointer its uninitialised local holds; a call number the handler
    does not know (Fork and Yield among them) aborts the whole simulator. *)
Theorem syscall_errors {F W} `{FileStore F W} `{FileOps F W} `{SectorStore W}
    yield new_char garbage new_words header_bytes stack_words new_fds new_object new_thread new_record
    new_sem scanned (st : ust F W) addr size fd tbl :
  fd_table (open_files (uspace st)) tbl -> zlen (regs st) = NumTotalRegs ->
  (fd < 0 \/ size <= 0 \/ fd = ConsoleInput ->
     Write_Syscall_Func yield st addr size fd = Ok (if (fd >=? 0) && (size =? 0) then 0 else -1, st)) /\
  (fd < 0 \/ size <= 0 \/ fd = ConsoleOutput \/ (fd <> ConsoleInput /\ tbl !! fd = None) ->
     Read_Syscall_Func yield new_char scanned st addr size fd = Ok (if size =? 0 then 0 else -1, st)) /\
  (fd < 0 -> Close_Syscall_Func garbage st fd = Ok st) /\
  (0 <= fd -> tbl !! fd = None -> objects st !! garbage = None ->
     match Close_Syscall_Func garbage st fd with
     | Ok st' => garbage = 0 /\ regs st' = regs st /\ objects st' = objects st
     | Err e => garbage <> 0 /\ e = NullDeref
     end) /\
  (forall type, ~ SC_Halt <= type <= SC_Close ->
     syscall yield new_char garbage new_words header_bytes stack_words new_fds new_object new_thread
       new_record new_sem scanned type st = Err AssertFailed).
Proof.
  intros Ht Hl. split; [|split; [|split; [|split]]].
  - intros Hbad. unfold Write_Syscall_Func, ConsoleInput in *. rewrite Z.geb_leb.
    destruct (Z.ltb_spec fd 0), (Z.leb_spec 0 fd); try lia; [done|].
    destruct (Z.eqb_spec size 0); [done|]. destruct (Z.ltb_spec size 0); [done|].
    destruct (Z.eqb_spec fd 0); [done|lia].
  - intros Hbad. unfold Read_Syscall_Func, ConsoleInput, ConsoleOutput in *.
    destruct (Z.eqb_spec size 0); [done|]. destruct (Z.ltb_spec size 0); [done|].
    destruct (Z.ltb_spec fd 0); [done|]. cbv zeta. destruct (Z.eqb_spec fd 1); [done|].
    destruct Hbad as [?|[?|[?|[Hne Hn]]]]; try lia. rewrite (proj2 (Z.eqb_neq fd 0)) by done.
    by rewrite (fd_get_spec _ _ fd Ht), Hn, bind_Ok.
  - intros Hfd. unfold Close_Syscall_Func. by destruct (Z.ltb_spec fd 0); [|lia].
  - intros Hfd Hn Hg. unfold Close_Syscall_Func. destruct (Z.ltb_spec fd 0); [lia|].
    rewrite (fd_remove_unused _ _ garbage fd Ht Hn), bind_Ok. cbv zeta.
    destruct (Z.eqb_spec garbage 0); cbn [negb]; [done|]. unfold get_object. simpl. by rewrite Hg.
  - intros type Hty. unfold syscall.
    assert (forall i, 0 <= i < NumTotalRegs -> exists x, ReadRegister (mach st) i = Ok x) as Hrd.
    { intros i Hi. unfold ReadRegister. rewrite ASSERT_true by (apply andb_true_intro; split;
        [apply Z.geb_le|apply Z.ltb_lt]; lia). rewrite bind_Ok. apply zget_in_range. unfold regs in Hl. lia. }
    destruct (Hrd 4) as [r4 ->]; [done|]. destruct (Hrd 5) as [r5 ->]; [done|].
    destruct (Hrd 6) as [r6 ->]; [done|]. rewrite !bind_Ok.
    unfold SC_Halt, SC_Create, SC_Open, SC_Write, SC_Read, SC_Close, SC_Exit, SC_Exec, SC_Join in *.
    repeat match goal with |- context [type =? ?n] =>
      rewrite (proj2 (Z.eqb_neq type n)) by lia end. done.
Qed.

Lemma syscall_errors_witness :
  Read_Syscall_Func Ok sample_char None (running (call_regs SC_Read 0 5 9)) 0 5 9 =
    Ok (-1, running (call_regs SC_Read 0 5 9)) /\
  Close_Syscall_Func 77 (running (call_regs SC_Close 9 0 0)) 9 = Err NullDeref.
Proof.
  destruct (syscall_errors Ok sample_char 77 sample_char [] [] fd_sample (fun _ => 1) 1 1 1 None
    (running (call_regs SC_Read 0 5 9)) 0 5 9 ∅ fd_sample_table ltac:(reflexivity))
    as (_ & HR & _).
  destruct (syscall_errors Ok sample_char 77 sample_char [] [] fd_sample (fun _ => 1) 1 1 1 None
    (running (call_regs SC_Close 9 0 0)) 0 0 9 ∅ fd_sample_table ltac:(reflexivity))
    as (_ & _ & _ & HC & _).
  split.
  - apply HR. right. right. right. split; [discriminate|apply lookup_empty].
  - specialize (HC ltac:(lia) (lookup_empty _) (lookup_empty _)).
    destruct (Close_Syscall_Func 77 (running (call_regs SC_Close 9 0 0)) 9) as [st'|e].
    + destruct HC as [HC _]. discriminate HC.
    + destruct HC as [_ ->]. reflexivity.
Defined.
