(* ===== verification/Bytes.v ===== *)
(** * Bytes: the file system handles bytes

    Every operation of the file system, from sectors to Create, returns bytes and
    leaves only bytes on the disk, whether or not the file system is well formed:
    this is all the memory of a program relies on. *)

From S2P Require Import Prelude BitMap Machine Interrupt Disk SynchDisk FileHdr OpenFile Directory.
From S2P Require Import FileSys FDList AddrSpace Children Exception Executable.

(** [typed Q r]: the result of [r], if it has one, satisfies [Q]. *)
Notation typed Q r := (holds Q (fun _ => True) r).
Notation bytes := (Forall is_u8).

Lemma typed_intro {A} (Q : A -> Prop) (r : res A) : (forall a, r = Ok a -> Q a) -> typed Q r.
Proof. destruct r; simpl; auto. Qed.

Lemma typed_elim {A} (Q : A -> Prop) (r : res A) a : typed Q r -> r = Ok a -> Q a.
Proof. by intros Hr ->. Qed.

(** Bind with the typing of the first part given. *)
Tactic Notation "tbind" uconstr(L) "as" simple_intropattern_list(p) :=
  eapply holds_bind; [eapply L | intros p].

(** A part of which only the value matters. *)
Lemma typed_bind {A B} (Q : B -> Prop) (r : res A) (f : A -> res B) :
  (forall a, r = Ok a -> typed Q (f a)) -> typed Q (r ≫= f).
Proof. destruct r; simpl; auto. Qed.
Tactic Notation "tval" "as" simple_intropattern(p) ident(E) := apply typed_bind; intros p E.

(** What the kernel needs of the file system and the disk. *)
Class ByteStore (F W : Type) `{FileStore F W} `{FileOps F W} `{SectorStore W} := {
  bs_ok : W -> Prop;
  bs_file : F -> Prop;
  bs_open name w : bs_ok w ->
    typed (fun '(o, _, w') => match o with Some f => bs_file f | None => True end /\ bs_ok w') (fs_open name w);
  bs_read_at f n p w : bs_ok w -> typed (fun '(bs, w') => bytes bs /\ bs_ok w') (fs_read_at f n p w);
  bs_create name size w : bytes name -> bs_ok w -> typed (fun '(_, w') => bs_ok w') (fo_create name size w);
  bs_read f n w : bs_file f -> is_s32 n -> bs_ok w ->
    typed (fun '(bs, (f', w')) => bytes bs /\ is_s32 (zlen bs) /\ bs_file f' /\ bs_ok w') (fo_read f n w);
  bs_write f bs n w : bs_file f -> bytes bs -> is_s32 n -> bs_ok w ->
    typed (fun '(r, (f', w')) => is_s32 r /\ bs_file f' /\ bs_ok w') (fo_write f bs n w);
  bs_ReadSector s w : bs_ok w -> typed (fun '(bs, w') => bytes bs /\ bs_ok w') (ReadSector s w);
  bs_WriteSector s bs w : bytes bs -> zlen bs = SectorSize -> bs_ok w -> typed bs_ok (WriteSector s bs w)
}.

(** ** Sectors and open files *)

Section disk.
Context {D : Type} `{SectorStoreLaws D}.
Context (new_char : Z -> list Z) (Hchar : forall n, bytes (new_char n)).
Implicit Types (d : D) (f : OpenFile).

Definition byte_disk (d : D) : Prop := store_wf d /\ Forall bytes (contents d).

Lemma off_disk s d : store_wf d -> znth (contents d) s = None -> ~ valid_sector s.
Proof.
  intros Hd E Hs. destruct (znth_in_range (contents d) s) as [? E']; [by rewrite contents_len|congruence].
Qed.

Lemma ReadSector_bytes s d : byte_disk d ->
  typed (fun '(bs, d') => bytes bs /\ zlen bs = SectorSize /\ byte_disk d') (ReadSector s d).
Proof.
  intros [Hd HF]. destruct (znth (contents d) s) as [bs|] eqn:E.
  - destruct (ReadSector_ok d s bs Hd E) as (d' & -> & Hd' & Hc). cbn. unfold byte_disk. rewrite Hc.
    split; [exact (Forall_znth _ _ _ _ HF E)|]. split; [exact (sector_len _ _ _ Hd E)|done].
  - by rewrite (proj1 (Sector_aborts d s [] Hd (off_disk s d Hd E))).
Qed.

Lemma WriteSector_bytes s bs d : bytes bs -> zlen bs = SectorSize -> byte_disk d -> typed byte_disk (WriteSector s bs d).
Proof.
  intros Hb Hl [Hd HF]. destruct (znth (contents d) s) as [x|] eqn:E.
  - assert (valid_sector s) as Hs.
    { apply znth_Some_range in E. by rewrite contents_len in E. }
    destruct (WriteSector_ok d s bs Hd Hs Hl) as (d' & -> & Hd' & Hc). split; [done|]. rewrite Hc.
    by apply Forall_insert.
  - by rewrite (proj2 (Sector_aborts d s bs Hd (off_disk s d Hd E))).
Qed.

Lemma FetchFrom_typed s d : byte_disk d ->
  typed (fun '(h, d') => is_s32 (FileHdr.numBytes h) /\ zlen (dataSectors h) = NumDirect /\ byte_disk d') (FileHdr.FetchFrom s d).
Proof.
  intros Hd. tbind ReadSector_bytes as [bs d'] (_ & _ & Hd'); [done|]. split; [|by split].
  unfold hdr_of_bytes, int_at. cbn. apply s32_range.
Qed.

Lemma hdr_bytes_typed h : zlen (dataSectors h) = NumDirect -> bytes (hdr_bytes h) /\ zlen (hdr_bytes h) = SectorSize.
Proof.
  intros Hl. unfold hdr_bytes. split.
  - rewrite !Forall_app. split_and!; try apply le_bytes_u8. apply Forall_concat, Forall_fmap, Forall_true.
    intros x. apply le_bytes_u8.
  - rewrite !zlen_app, !zlen_le_bytes. unfold zlen at 1. rewrite (length_concat_eq 4), length_fmap.
    + unfold zlen, NumDirect, SectorSize in *. lia.
    + apply Forall_fmap, Forall_true. intros x. apply length_le_bytes.
Qed.

Lemma WriteBack_typed h s d : zlen (dataSectors h) = NumDirect -> byte_disk d -> typed byte_disk (FileHdr.WriteBack h s d).
Proof. intros [Hb Hl]%hdr_bytes_typed Hd. by apply WriteSector_bytes. Qed.

Lemma new_OpenFile_typed s d : byte_disk d ->
  typed (fun '(f, d') => is_s32 (FileHdr.numBytes (hdr f)) /\ byte_disk d') (new_OpenFile s d).
Proof. intros Hd. tbind FetchFrom_typed as [h d'] (Hn & _ & Hd'); [done|]. by split. Qed.

Lemma read_sectors_typed h n : forall i d, byte_disk d ->
  typed (fun '(bs, d') => bytes bs /\ (n = O \/ 0 <= i) /\ byte_disk d') (read_sectors n i h d).
Proof.
  induction n as [|n IH]; intros i d Hd; cbn [read_sectors]; [cbn; auto|].
  tval as s Es. tbind ReadSector_bytes as [bs d1] (Hb & _ & Hd1); [done|].
  tbind IH as [buf d2] (Hb2 & _ & Hd2); [done|]. split; [by apply Forall_app|]. split; [right|done].
  unfold ByteToSector in Es. rewrite Z.quot_mul in Es by done. apply zget_Ok in Es.
  apply znth_Some_range in Es. lia.
Qed.

(** A transfer that succeeds does not start before the file. *)
Lemma transfer_start position numBytes :
  0 < numBytes -> 0 <= divRoundDown position SectorSize -> 0 <= position - divRoundDown position SectorSize * SectorSize ->
  0 <= position.
Proof. unfold divRoundDown, SectorSize. intros. Z.quot_rem_to_equations. lia. Qed.

(** The number of bytes a transfer is cut to. *)
Definition cut (f : OpenFile) (numBytes position : Z) : Z :=
  if s32 (position + numBytes) >? FileLength (hdr f) then FileLength (hdr f) - position else numBytes.

Lemma cut_range f n p :
  is_s32 n -> is_s32 (FileHdr.numBytes (hdr f)) -> 0 < n -> p < FileLength (hdr f) ->
  0 < cut f n p /\ (0 <= p -> is_s32 (cut f n p)).
Proof. unfold cut, FileLength. intros Hn Hl Hp Hlt. destruct (_ >? _); split; intros; word_lia || lia. Qed.

Lemma last_sector p n : 0 < n -> (Z.to_nat (1 + divRoundDown (p + n - 1) SectorSize - divRoundDown p SectorSize) <> 0)%nat.
Proof. unfold divRoundDown, SectorSize. intros. Z.quot_rem_to_equations. lia. Qed.

Lemma ReadAt_typed f n p d : byte_disk d ->
  typed (fun '(bs, d') => bytes bs /\ byte_disk d' /\
    (is_s32 n -> is_s32 (FileHdr.numBytes (hdr f)) -> is_s32 (zlen bs))) (ReadAt f n p d).
Proof.
  intros Hd. unfold ReadAt. fold (cut f n p).
  destruct (Z.leb_spec n 0); [by cbn; split_and!|]. rewrite Z.geb_leb.
  destruct (Z.leb_spec (FileLength (hdr f)) p); [by cbn; split_and!|]. cbn [orb].
  tbind read_sectors_typed as [buf d'] (Hb & Hi & Hd'); [done|]. tval as into Ei.
  split; [by eapply Forall_zread|]. split; [done|]. intros Hn Hl.
  destruct (cut_range f n p Hn Hl) as [Hc Hs]; [lia|lia|].
  rewrite (zlen_zread _ _ _ _ Ei). apply zread_inv in Ei as (Hoff & _).
  apply Hs. destruct Hi as [Hi|Hi]; [by apply last_sector in Hi|by eapply transfer_start].
Qed.

Lemma write_sectors_typed h n : forall i buf d, bytes buf -> byte_disk d ->
  typed (fun d' => (n = O \/ 0 <= i) /\ byte_disk d') (write_sectors n i h buf d).
Proof.
  induction n as [|n IH]; intros i buf d Hb Hd; cbn [write_sectors]; [cbn; auto|].
  tval as s Es. tval as bs Eb.
  tbind WriteSector_bytes as d1 Hd1; [exact (Forall_zread _ _ _ _ _ Hb Eb)|exact (zlen_zread _ _ _ _ Eb)|done|].
  eapply holds_mono; [apply IH; [by apply Forall_drop|done]| |done]. intros d2 [_ Hd2]. split; [right|done].
  unfold ByteToSector in Es. rewrite Z.quot_mul in Es by done. apply zget_Ok in Es.
  apply znth_Some_range in Es. lia.
Qed.

Lemma fill_typed b f buf off s d : bytes buf -> byte_disk d ->
  typed (fun '(buf', d') => bytes buf' /\ byte_disk d') (fill b f buf off s d).
Proof.
  intros Hb Hd. destruct b; [|done]. tbind ReadAt_typed as [bs d'] (Hbs & Hd' & _); [done|].
  tval as buf' E. split; [exact (Forall_zwrite _ _ _ _ _ Hb Hbs E)|done].
Qed.

Lemma WriteAt_typed f from n p d : bytes from -> byte_disk d ->
  typed (fun '(r, d') => byte_disk d' /\ (is_s32 n -> is_s32 (FileHdr.numBytes (hdr f)) -> is_s32 r)) (WriteAt new_char f from n p d).
Proof.
  intros Hf Hd. unfold WriteAt. fold (cut f n p).
  destruct (Z.leb_spec n 0); [by cbn; split_and!|]. rewrite Z.geb_leb.
  destruct (Z.leb_spec (FileLength (hdr f)) p); [by cbn; split_and!|]. cbn [orb].
  tbind fill_typed as [b1 d1] (Hb1 & Hd1); [apply Hchar|done|].
  tbind fill_typed as [b2 d2] (Hb2 & Hd2); [done|done|].
  tval as data Ed. tval as buf Eb.
  tbind write_sectors_typed as d3 [Hi Hd3]; [exact (Forall_zwrite _ _ _ _ _ Hb2 (Forall_zread _ _ _ _ _ Hf Ed) Eb)|done|].
  split; [done|]. intros Hn Hl. destruct (cut_range f n p Hn Hl) as [Hc Hs]; [lia|lia|].
  apply zwrite_inv in Eb as (Hoff & _). apply Hs.
  destruct Hi as [Hi|Hi]; [by apply last_sector in Hi|by eapply transfer_start].
Qed.

(** ** The directory and the map of free sectors *)

Definition byte_entry (e : DirectoryEntry) : Prop := bytes (ename e) /\ bytes (padding e).

Lemma table_bytes_typed t : Forall byte_entry t -> bytes (table_bytes t).
Proof.
  intros Ht. apply Forall_concat, Forall_fmap. eapply Forall_impl; [exact Ht|]. intros e [Hn Hp]. cbn.
  unfold entry_bytes. apply Forall_cons. split; [destruct (inUse e); word_lia|].
  rewrite !Forall_app. split_and!; auto using Forall_take, Forall_drop, le_bytes_u8.
Qed.

Lemma table_of_bytes_typed n : forall bs, bytes bs -> Forall byte_entry (table_of_bytes n bs).
Proof.
  induction n as [|n IH]; intros bs Hb; cbn [table_of_bytes]; constructor; auto using Forall_drop.
  split; cbn; rewrite ?Forall_app; auto 6 using Forall_take, Forall_drop.
Qed.

Lemma init_loop_typed n : forall i t, Forall byte_entry t -> typed (Forall byte_entry) (init_loop n i t).
Proof.
  induction n as [|n IH]; intros i t Ht; cbn [init_loop]; [done|]. tval as e Ee. tval as t' Et.
  apply IH. eapply Forall_zset; [exact Ht| |exact Et]. exact (Forall_znth _ _ _ _ Ht (proj1 (zget_Ok _ _ _) Ee)).
Qed.

Lemma strncpy_typed n : forall src, bytes src -> bytes (strncpy n src).
Proof.
  induction n as [|n IH]; intros src Hs; cbn [strncpy]; [constructor|].
  destruct Hs as [|c src Hc Hs]; [|destruct (c =? 0)]; constructor; auto; word_lia.
Qed.

Lemma add_loop_typed name s n : bytes name -> forall i t, Forall byte_entry t ->
  typed (fun '(_, t') => Forall byte_entry t') (add_loop n i t name s).
Proof.
  intros Hn. induction n as [|n IH]; intros i t Ht; cbn [add_loop]; [done|]. tval as e Ee.
  destruct (negb (inUse e)); [|by apply IH]. tval as t' Et. cbn.
  eapply Forall_zset; [exact Ht| |exact Et]. apply zget_Ok in Ee. destruct (Forall_znth _ _ _ _ Ht Ee) as [H1 H2].
  split; cbn [ename padding fill_entry]; [|done]. rewrite Forall_app. auto using Forall_drop, strncpy_typed.
Qed.

Context (new_words : list Z) (new_table : list DirectoryEntry) (new_header : FileHeader).
Context (Htable : Forall byte_entry new_table) (Hheader : zlen (dataSectors new_header) = NumDirect).
Context (fs : FileSystem).

Lemma new_Directory_typed : typed (fun dir => Forall byte_entry (Directory.table dir)) (new_Directory new_table NumDirEntries).
Proof. unfold new_Directory. tbind init_loop_typed as t Ht; done. Qed.

Lemma load_directory_typed d : byte_disk d ->
  typed (fun '(dir, d') => Forall byte_entry (Directory.table dir) /\ byte_disk d') (load_directory new_table fs d).
Proof.
  intros Hd. unfold load_directory. tbind new_Directory_typed as dir Ht. unfold Directory.FetchFrom.
  tbind ReadAt_typed as [bs d'] (Hb & Hd' & _); [done|]. tval as mem Em. split; [|done].
  apply table_of_bytes_typed. exact (Forall_zwrite _ _ _ _ _ (table_bytes_typed _ Ht) Hb Em).
Qed.

Lemma load_map_typed d : byte_disk d -> typed (fun '(_, d') => byte_disk d') (load_map new_words fs d).
Proof.
  intros Hd. unfold load_map, fetch_map. tval as b Eb.
  tbind ReadAt_typed as [bs d'] (_ & Hd' & _); [done|]. by tval as mem Em.
Qed.

Lemma write_map_typed b f d : byte_disk d -> typed byte_disk (write_map new_char b f d).
Proof.
  intros Hd. unfold write_map. tbind WriteAt_typed as [r d'] [Hd' _]; [|done|done].
  apply Forall_concat, Forall_fmap, Forall_true. intros x. apply le_bytes_u8.
Qed.

Lemma Directory_WriteBack_typed dir f d :
  Forall byte_entry (Directory.table dir) -> byte_disk d -> typed byte_disk (Directory.WriteBack new_char dir f d).
Proof.
  intros Ht Hd. unfold Directory.WriteBack. tbind WriteAt_typed as [r d'] [Hd' _]; [by apply table_bytes_typed|done|done].
Qed.

Lemma Add_typed dir name s : bytes name -> Forall byte_entry (Directory.table dir) ->
  typed (fun '(_, dir') => Forall byte_entry (Directory.table dir')) (Add dir name s).
Proof.
  intros Hn Ht. unfold Add. tval as i Ei. destruct (negb (i =? -1)); [done|].
  tbind add_loop_typed as [b t] Ht'; done.
Qed.

Lemma allocate_loop_len n : forall i ds b, typed (fun '(ds', _) => zlen ds' = zlen ds) (allocate_loop n i ds b).
Proof.
  induction n as [|n IH]; intros i ds b; cbn [allocate_loop]; [done|].
  tval as [s b'] Es. tval as ds' Ed. eapply holds_mono; [apply IH| |done]. intros [ds2 b2] ->.
  by rewrite (zlen_zset _ _ _ _ Ed).
Qed.

Lemma Allocate_typed b size :
  typed (fun '(_, (h, _)) => zlen (dataSectors h) = NumDirect) (Allocate new_header b size).
Proof.
  unfold Allocate. tval as c Ec. destruct (c <? _); [done|]. tbind allocate_loop_len as [ds b'] Hl. cbn. by rewrite Hl.
Qed.

Lemma Create_typed name size d : bytes name -> byte_disk d ->
  typed (fun '(_, d') => byte_disk d') (Create new_char new_words new_table new_header fs name size d).
Proof.
  intros Hn Hd. unfold Create. tbind load_directory_typed as [dir d1] [Ht Hd1]; [done|].
  tval as found _E. destruct (negb (found =? -1)); [done|].
  tbind load_map_typed as [b d2] Hd2; [done|]. tval as [s b'] _E2. destruct (s =? -1); [done|].
  tbind Add_typed as [added dir'] Ht'; [done|done|]. destruct (negb added); [done|].
  tbind Allocate_typed as [ok [h b2]] Hh. destruct (negb ok); [done|].
  tbind WriteBack_typed as d3 Hd3; [done|done|].
  tbind Directory_WriteBack_typed as d4 Hd4; [done|done|].
  tbind write_map_typed as d5 Hd5; done.
Qed.

Lemma Open_typed name d : byte_disk d ->
  typed (fun '(o, _, d') => match o with Some f => is_s32 (FileHdr.numBytes (hdr f)) | None => True end /\ byte_disk d')
    (Open new_table fs name d).
Proof.
  intros Hd. unfold Open. tbind load_directory_typed as [dir d1] [Ht Hd1]; [done|]. tval as s _E.
  destruct (s >=? 0); [|done]. tbind new_OpenFile_typed as [f d2] [Hf Hd2]; done.
Qed.

(** ** The interface *)

#[local] Instance bytes_files : FileStore OpenFile D := nachos_files new_table fs.
#[local] Instance bytes_ops : FileOps OpenFile D := nachos_ops new_char new_words new_table new_header fs.

Lemma Read_typed f n d : is_s32 (FileHdr.numBytes (hdr f)) -> is_s32 n -> byte_disk d ->
  typed (fun '(bs, (f', d')) => bytes bs /\ is_s32 (zlen bs) /\ is_s32 (FileHdr.numBytes (hdr f')) /\ byte_disk d')
    (Read f n d).
Proof. intros Hf Hn Hd. unfold Read. tbind ReadAt_typed as [bs d'] (Hb & Hd' & Hl); [done|]. cbn. auto. Qed.

Lemma Write_typed f bs n d : is_s32 (FileHdr.numBytes (hdr f)) -> bytes bs -> is_s32 n -> byte_disk d ->
  typed (fun '(r, (f', d')) => is_s32 r /\ is_s32 (FileHdr.numBytes (hdr f')) /\ byte_disk d') (Write new_char f bs n d).
Proof. intros Hf Hb Hn Hd. unfold Write. tbind WriteAt_typed as [r d'] (Hd' & Hl); [done|done|]. cbn. auto. Qed.

Lemma nachos_read_at_typed f n p d : byte_disk d ->
  typed (fun '(bs, d') => bytes bs /\ byte_disk d') (ReadAt f n p d).
Proof. intros Hd. eapply holds_mono; [by apply ReadAt_typed| |done]. intros [bs d'] (Hb & Hd' & _). done. Qed.

Lemma nachos_sector_typed s d : byte_disk d ->
  typed (fun '(bs, d') => bytes bs /\ byte_disk d') (ReadSector s d).
Proof. intros Hd. eapply holds_mono; [by apply ReadSector_bytes| |done]. intros [bs d'] (Hb & _ & Hd'). done. Qed.

(** The Nachos file system is a store of bytes. *)
Definition nachos_bytes : ByteStore OpenFile D := {|
  bs_ok := byte_disk;
  bs_file f := is_s32 (FileHdr.numBytes (hdr f));
  bs_open := Open_typed;
  bs_read_at := nachos_read_at_typed;
  bs_create := Create_typed;
  bs_read := Read_typed;
  bs_write := Write_typed;
  bs_ReadSector := nachos_sector_typed;
  bs_WriteSector := WriteSector_bytes
|}.
End disk.
