(* ===== verification/Userland.v ===== *)
(** * Userland: user programs on the kernel

    The handlers of Exception.v as the kernel of the machine: on any store of
    bytes they keep the machine, the address space and the buffers well-formed,
    whatever the program passes them; so running a program is safe (Mips.v). *)

From S2P Require Import Prelude BitMap NList Interrupt Disk SynchDisk FileHdr OpenFile Directory FileSys Coff2Noff.
From S2P Require Import Machine Mips FDList AddrSpace Paging Process Children Exception Executable Bytes.

(** ** The address space *)

Section space.
Context {F W : Type} `{ByteStore F W}.
Context (yield : vmem W -> res (vmem W)).
Implicit Types (s : AddrSpace) (v : vmem W).

(** The memory, the static buffer and the disk hold bytes. *)
Record vm_ok (v : vmem W) : Prop := {
  vo_size : zlen (memory v) = MemorySize;
  vo_memory : bytes (memory v);
  vo_buf : bytes (buf v);
  vo_store : bs_ok (store v)
}.

(** [s] has a well-formed page table of the size of the one of [s0], and has its
    open files. *)
Record space_ok (s0 s : AddrSpace) : Prop := {
  so_entries : Forall wf_entry (table s);
  so_table : zlen (table s) = zlen (table s0);
  so_pages : numPages s = numPages s0;
  so_fds : open_files s = open_files s0
}.

Context (Hyield : forall v, vm_ok v -> typed vm_ok (yield v)).

Notation tspace s0 r := (typed (fun '(_, (s', v')) => space_ok s0 s' /\ vm_ok v') r).
Notation tspace' s0 r := (typed (fun '(s', v') => space_ok s0 s' /\ vm_ok v') r).

Lemma vm_write v p bs m : vm_ok v -> bytes bs -> zwrite (memory v) p bs = Ok m -> vm_ok (set_memory v m).
Proof.
  intros [A1 A2 A3 A4] Hb E. split; cbn; try done.
  - by rewrite (zlen_zwrite _ _ _ _ E).
  - exact (Forall_zwrite _ _ _ _ _ A2 Hb E).
Qed.

Lemma vm_set_store v w : vm_ok v -> bs_ok w -> vm_ok (set_store v w).
Proof. intros [] Hw. by split. Qed.

Lemma vm_print v out : vm_ok v -> vm_ok (print v out).
Proof. intros []. by split. Qed.

Lemma vm_set_frames v f : vm_ok v -> vm_ok (set_frames v f).
Proof. intros []. by split. Qed.

Lemma vm_set_sectors v b : vm_ok v -> vm_ok (set_sectors v b).
Proof. intros []. by split. Qed.

Lemma space_set_table s0 s t :
  space_ok s0 s -> Forall wf_entry t -> zlen t = zlen (table s) -> space_ok s0 (set_table s t).
Proof. intros [] Ht Hl. split; cbn; try done. congruence. Qed.

Lemma space_set_entry s0 s i e t :
  space_ok s0 s -> wf_entry e -> (table s).[i := e] = Ok t -> space_ok s0 (set_table s t).
Proof.
  intros Hs He E. apply space_set_table; [done| |exact (zlen_zset _ _ _ _ E)].
  exact (Forall_zset _ _ _ _ _ (so_entries _ _ Hs) He E).
Qed.

Lemma space_entry s0 s i e : space_ok s0 s -> (table s).[i] = Ok e -> wf_entry e.
Proof. intros Hs E%zget_Ok. exact (Forall_znth _ _ _ _ (so_entries _ _ Hs) E). Qed.

Lemma space_set_page_sector s0 s p : space_ok s0 s -> space_ok s0 (set_page_sector s p).
Proof. intros []. by split. Qed.

Lemma space_set_victum s0 s p : space_ok s0 s -> space_ok s0 (set_victum s p).
Proof. intros []. by split. Qed.

Lemma space_set_stack_base s0 s p : space_ok s0 s -> space_ok s0 (set_stack_base s p).
Proof. intros []. by split. Qed.

Lemma space_set_args s0 s a b : space_ok s0 s -> space_ok s0 (set_args s a b).
Proof. intros []. by split. Qed.

Lemma minus_one_s32 : is_s32 (-1).
Proof. word_lia. Qed.

Hint Resolve vm_set_store vm_print vm_set_frames vm_set_sectors space_set_page_sector space_set_victum
  space_set_stack_base space_set_args minus_one_s32 : user.

(** *** Pages and the disk *)

Lemma readPage_typed s v pp vp : vm_ok v -> typed (fun '(_, v') => vm_ok v') (readPage s v pp vp).
Proof.
  intros Hv. unfold readPage. tval as sector _E. destruct (_ || _); [done|].
  tbind bs_ReadSector as [bs w] [Hb Hw]; [apply Hv|]. tval as m Em. cbn.
  apply vm_set_store; [|done]. by eapply vm_write.
Qed.

Lemma writePage_typed s0 s v pp vp : space_ok s0 s -> vm_ok v -> tspace s0 (writePage s v pp vp).
Proof.
  intros Hs Hv. unfold writePage. tval as sector _E.
  eapply holds_bind with (P := fun '(_, (s', v')) => space_ok s0 s' /\ vm_ok v').
  - destruct (_ || _); [|done]. tval as [n b] _E2. tval as u _E3. tval as b' _E4. tval as p _E5. cbn. auto with user.
  - intros [n [s1 v1]] [Hs1 Hv1]. tval as bs Eb.
    tbind bs_WriteSector as w Hw; [exact (Forall_zread _ _ _ _ _ (vo_memory _ Hv1) Eb)|exact (zlen_zread _ _ _ _ Eb)|apply Hv1|].
    cbn. auto with user.
Qed.

Lemma write_out_typed s0 n : forall s v pp vp, space_ok s0 s -> vm_ok v -> tspace' s0 (write_out yield n s v pp vp).
Proof.
  induction n as [|n IH]; intros s v pp vp Hs Hv; cbn [write_out];
    (tbind writePage_typed as [r [s1 v1]] [Hs1 Hv1]; [done|done|]); destruct (r <? 0); try done.
  tbind Hyield as v2 Hv2; [done|]. by apply IH.
Qed.

(** *** Eviction *)

Definition scan_ok (t : list TranslationEntry) (c : scan) : Prop :=
  Forall wf_entry (sc_table c) /\ zlen (sc_table c) = zlen t.

Lemma set_use_wf e b : wf_entry e -> wf_entry (set_use e b).
Proof. done. Qed.

Lemma scan_page_typed t frames j c : scan_ok t c -> typed (fun '(c', _) => scan_ok t c') (scan_page frames j c).
Proof.
  intros [Ht Hl]. unfold scan_page. tval as curr Ec. destruct (negb (valid curr)); [done|].
  eapply holds_bind with (P := fun '(t', _) => Forall wf_entry t' /\ zlen t' = zlen t).
  - destruct (unused c <? 0); [|done]. destruct (use curr); [|done]. tval as t' Et. split.
    + eapply Forall_zset; [exact Ht| |exact Et]. apply zget_Ok in Ec. exact (Forall_znth _ _ _ _ Ht Ec).
    + by rewrite (zlen_zset _ _ _ _ Et).
  - intros [t' u] Ht'. tval as b _E. tval as cu _E2. tval as sh _E3.
    destruct sh; [done|]. repeat (destruct (_ && _); [done|]). done.
Qed.

Lemma scan_loop_typed t n : forall i frames s c, scan_ok t c -> typed (scan_ok t) (scan_loop n i frames s c).
Proof.
  induction n as [|n IH]; intros i frames s c Hc; cbn [scan_loop]; [done|].
  tbind scan_page_typed as [c' stop] Hc'; [done|]. destruct stop; [done|]. by apply IH.
Qed.

Lemma try_store_page_typed s0 s v : space_ok s0 s -> vm_ok v ->
  typed (fun '(r, (s', v')) => is_s32 r /\ space_ok s0 s' /\ vm_ok v') (try_store_page yield s v).
Proof.
  intros Hs Hv. unfold try_store_page.
  tbind scan_loop_typed as c [Hc Hl]; [split; [apply Hs|reflexivity]|]. cbn [table set_table].
  assert (space_ok s0 (set_table s (sc_table c))) as Hs1 by (by apply space_set_table).
  tval as b Eb. assert (wf_entry b) as Hb by (apply zget_Ok in Eb; exact (Forall_znth _ _ _ _ Hc Eb)).
  tval as sh _E. destruct sh; [cbn; auto with user|].
  eapply holds_bind with (P := fun '(s', v', b') => space_ok s0 s' /\ vm_ok v' /\ wf_entry b').
  - destruct (_ || _); [|cbn; auto with user].
    tbind (write_out_typed s0) as [s2 v2] [Hs2 Hv2]; [auto with user|done|]. tval as t Et. cbn.
    assert (wf_entry (set_frame (set_valid b false) (-1))) as Hb' by (split; [apply Hb|apply minus_one_s32]).
    split_and!; try done. by eapply space_set_entry.
  - intros [[s2 v2] b2] (Hs2 & Hv2 & Hb2). destruct (_ && _).
    + tval as n _E2. tval as f _E3. tval as t Et. cbn. split; [auto with user|]. split; [|auto with user].
      eapply (space_set_entry _ _ _ (set_readOnly b2 false)); [exact Hs2|exact Hb2|exact Et].
    + tval as f _E3. tval as t Et. cbn. split; [apply Hb2|]. split; [|auto with user].
      eapply space_set_entry; [exact Hs2| |exact Et]. split; [apply Hb2|apply minus_one_s32].
Qed.

Lemma store_page_typed s0 n : forall s v, space_ok s0 s -> vm_ok v ->
  typed (fun '(r, (s', v')) => is_s32 r /\ space_ok s0 s' /\ vm_ok v') (store_page yield n s v).
Proof.
  induction n as [|n IH]; intros s v Hs Hv; cbn [store_page];
    (tbind (try_store_page_typed s0) as [r [s1 v1]] (Hr & Hs1 & Hv1); [done|done|]);
    destruct (r =? -1); try done. by apply IH.
Qed.

(** *** Loading *)

Lemma free_frame_typed n : forall i frames,
  typed (fun o => match o with Some j => i <= j < i + Z.of_nat n | None => True end) (free_frame n i frames).
Proof.
  induction n as [|n IH]; intros i frames; cbn [free_frame]; [done|]. tval as x _E.
  destruct (x =? 0); [cbn; lia|]. eapply holds_mono; [apply IH| |done]. intros [j|]; [lia|done].
Qed.

Lemma find_frame_typed s0 s v p : space_ok s0 s -> vm_ok v -> tspace' s0 (find_frame yield s v p).
Proof.
  intros Hs Hv. unfold find_frame. tbind free_frame_typed as o Ho.
  eapply holds_bind with (P := fun '(s', v') => space_ok s0 s' /\ vm_ok v').
  - destruct o as [i|]; [|done]. tval as page Ep. tval as t Et. tval as f _E. cbn. split; [|auto with user].
    eapply space_set_entry; [exact Hs| |exact Et]. split; [exact (proj1 (space_entry _ _ _ _ Hs Ep))|].
    cbn. unfold NumPhysPages in Ho. word_lia.
  - intros [s1 v1] [Hs1 Hv1]. tval as page Ep. destruct (_ =? -1); [|done].
    tbind (store_page_typed s0) as [r [s2 v2]] (Hr & Hs2 & Hv2); [done|done|].
    tval as page2 Ep2. tval as f _E. tval as t Et. cbn. split; [|auto with user].
    eapply space_set_entry; [exact Hs2| |exact Et]. split; [exact (proj1 (space_entry _ _ _ _ Hs2 Ep2))|done].
Qed.

Lemma open_file_keeps name v : bs_ok (store v) ->
  typed (fun '(_, v') => memory v' = memory v /\ buf v' = buf v /\ bs_ok (store v')) (open_file name v).
Proof. intros Hw. unfold open_file. by tbind bs_open as [[o out] w] [_ Hw']. Qed.

Lemma open_file_typed name v : vm_ok v ->
  typed (fun '(o, v') => match o with Some f => bs_file f | None => True end /\ vm_ok v') (open_file name v).
Proof.
  intros Hv. unfold open_file. tbind bs_open as [[o out] w] [Ho Hw]; [apply Hv|]. cbn. auto with user.
Qed.

Lemma load_segment_typed data g s v p pp : vm_ok v ->
  typed (fun '(_, v') => vm_ok v') (load_segment data g s p pp v).
Proof.
  intros Hv. unfold load_segment. destruct (in_segment g p); [|done].
  tbind open_file_typed as [o v1] [_ Hv1]; [done|]. destruct o as [f|]; [|done].
  tbind bs_read_at as [bs w2] [Hb Hw2]; [apply Hv1|]. tval as m Em. cbn.
  apply vm_set_store; [|done]. eapply vm_write; [|exact Hb|exact Em]. auto with user.
Qed.

Lemma load_page_typed s0 s v p : space_ok s0 s -> vm_ok v -> tspace s0 (load_page yield s v p).
Proof.
  intros Hs Hv. unfold load_page. destruct (_ || _); [done|]. tval as page Ep.
  destruct (negb _); [done|]. destruct (valid page); [done|].
  tbind (find_frame_typed s0) as [s1 v1] [Hs1 Hv1]; [done|done|]. tval as page1 Ep1. tval as d _E.
  destruct d.
  - tbind readPage_typed as [n v2] Hv2; [done|]. done.
  - tval as m Em. assert (vm_ok (set_memory v1 m)) as Hv2.
    { eapply vm_write; [done| |exact Em]. apply Forall_replicate. word_lia. }
    tbind load_segment_typed as [ok v3] Hv3; [done|]. destruct (negb ok); [done|].
    tbind load_segment_typed as [ok2 v4] Hv4; [done|]. destruct (negb ok2); [done|].
    tval as t Et. cbn. split; [|done]. eapply (space_set_entry _ _ _ (set_valid page1 true)); [exact Hs1| |exact Et].
    exact (space_entry _ _ _ _ Hs1 Ep1).
Qed.

(** *** Access to the program's memory *)

Lemma fault_in_typed s0 s v p : space_ok s0 s -> vm_ok v -> tspace s0 (fault_in yield s v p).
Proof.
  intros Hs Hv. unfold fault_in. tval as page Ep.
  eapply holds_bind with (P := fun '(s', v') => space_ok s0 s' /\ vm_ok v').
  - destruct (_ || _); [|done]. tbind (load_page_typed s0) as [r [s1 v1]] Hp; done.
  - intros [s1 v1] [Hs1 Hv1]. by tval as page1 _E.
Qed.

Lemma read_loop_typed s0 n : forall i addr k s v, space_ok s0 s -> vm_ok v -> tspace' s0 (read_loop yield n i addr k s v).
Proof.
  induction n as [|n IH]; intros i addr k s v Hs Hv; cbn [read_loop]; [done|]. destruct (_ || _); [|done].
  tbind (fault_in_typed s0) as [page [s1 v1]] [Hs1 Hv1]; [done|done|]. tval as x Ex. tval as b Eb.
  assert (vm_ok (set_buf v1 b)) as Hv2.
  { destruct Hv1 as [A1 A2 A3 A4]. split; cbn; try done. apply zget_Ok in Ex.
    exact (Forall_zset _ _ _ _ _ A3 (Forall_znth _ _ _ _ A2 Ex) Eb). }
  destruct (_ && _); [done|]. by apply IH.
Qed.

Lemma write_loop_typed s0 str n : bytes str ->
  forall i addr k s v, space_ok s0 s -> vm_ok v -> tspace' s0 (write_loop yield n i addr k str s v).
Proof.
  intros Hstr. induction n as [|n IH]; intros i addr k s v Hs Hv; cbn [write_loop]; [done|]. destruct (_ || _); [|done].
  tbind (fault_in_typed s0) as [page [s1 v1]] [Hs1 Hv1]; [done|done|]. tval as c Ec. tval as m Em.
  assert (vm_ok (set_memory v1 m)) as Hv2.
  { destruct Hv1 as [A1 A2 A3 A4]. split; cbn; try done.
    - by rewrite (zlen_zset _ _ _ _ Em).
    - apply zget_Ok in Ec. exact (Forall_zset _ _ _ _ _ A2 (Forall_znth _ _ _ _ Hstr Ec) Em). }
  destruct (_ && _); [done|]. by apply IH.
Qed.

Lemma c_string_typed bs : bytes bs -> typed bytes (c_string bs).
Proof.
  induction 1 as [|c bs Hc Hb IH]; cbn [c_string]; [done|]. destruct (c =? 0); [constructor|].
  eapply holds_bind; [exact IH|]. intros cs Hcs. by constructor.
Qed.

(** *** A new space and its arguments *)

Lemma read_typed s0 s v addr k : space_ok s0 s -> vm_ok v -> tspace' s0 (read yield s v addr k).
Proof. apply read_loop_typed. Qed.

Lemma write_typed s0 s v addr str k : bytes str -> space_ok s0 s -> vm_ok v -> tspace' s0 (write yield s v addr str k).
Proof. intros Hb. by apply write_loop_typed. Qed.

(** The spaces [cur] of the caller and [this]. *)
Definition two_ok (c0 t0 : AddrSpace) (p : AddrSpace * AddrSpace * vmem W) : Prop :=
  space_ok c0 p.1.1 /\ space_ok t0 p.1.2 /\ vm_ok p.2.

Lemma read_argv_typed c0 n : forall i a l c s v, space_ok c0 s -> vm_ok v -> tspace c0 (read_argv yield n i a l c s v).
Proof.
  induction n as [|n IH]; intros i a l c s v Hs Hv; cbn [read_argv]; [done|].
  tbind (read_typed c0) as [s1 v1] [Hs1 Hv1]; [done|done|]. tval as bs _E. cbv zeta. tval as l' _E2.
  destruct (_ =? 0); [done|]. by apply IH.
Qed.

Lemma copy_args_typed c0 t0 n : forall i l st s t v, space_ok c0 s -> space_ok t0 t -> vm_ok v ->
  typed (fun '(_, p) => two_ok c0 t0 p) (copy_args yield n i l st s t v).
Proof.
  induction n as [|n IH]; intros i l st s t v Hs Ht Hv; cbn [copy_args]; [done|].
  tval as a _E. tbind (read_typed c0) as [s1 v1] [Hs1 Hv1]; [done|done|].
  tbind c_string_typed as str Hstr; [apply Hv1|]. cbv zeta. tval as st' _E2.
  tbind (write_typed t0) as [t2 v2] [Ht2 Hv2]; [|by apply space_set_stack_base|done|by apply IH].
  apply Forall_app. split; [done|]. constructor; [word_lia|constructor].
Qed.

Lemma push_pointers_typed t0 n : forall i st t v, space_ok t0 t -> vm_ok v -> tspace' t0 (push_pointers yield n i st t v).
Proof.
  induction n as [|n IH]; intros i st t v Ht Hv; cbn [push_pointers]; [done|]. tval as p _E.
  tbind (write_typed t0) as [t1 v1] [Ht1 Hv1]; [apply le_bytes_u8|done|done|]. by apply IH.
Qed.

Lemma createStackArgs_typed c0 t0 stack_words s t v a name :
  bytes name -> space_ok c0 s -> space_ok t0 t -> vm_ok v ->
  typed (fun '(_, p) => two_ok c0 t0 p) (createStackArgs yield stack_words s t v a name).
Proof.
  intros Hn Hs Ht Hv. unfold createStackArgs. cbv zeta.
  tbind (write_typed t0) as [t1 v1] [Ht1 Hv1]; [|by apply space_set_stack_base|done|].
  { apply Forall_app. split; [done|]. constructor; [word_lia|constructor]. }
  tval as st _E. tbind (read_argv_typed c0) as [[l c] [s1 v2]] [Hs1 Hv2]; [done|done|]. tval as l' _E2.
  tbind (copy_args_typed c0 t0) as [st' [[s2 t2] v3]] (Hs2 & Ht2 & Hv3); [done|done|done|].
  tbind (push_pointers_typed t0) as [t3 v4] [Ht3 Hv4]; [by apply space_set_stack_base|done|].
  tbind (write_typed t0) as [t4 v5] [Ht4 Hv5]; [apply le_bytes_u8|done|done|].
  split; [done|]. split; [|done]. cbn. auto with user.
Qed.

(** A table of open files whose descriptors fit an int. *)
Definition fds_ok (l : FD_List) : Prop := (exists t, fd_table l t) /\ is_s32 (fd_size l).

Lemma fd_put_typed l f : fds_ok l -> typed (fun '(i, l') => is_s32 i /\ fds_ok l') (fd_put l f).
Proof.
  intros [[t Ht] Hn]. destruct (fd_put_spec l t f Ht) as (i & t' & l' & -> & Es & Ht' & Hl). cbn.
  split; [|split; [by exists t'|congruence]]. cbn [spec_fd] in Es. injection Es as Ei _. subst i.
  unfold spec_find. destruct (filter _ _) as [|j r] eqn:E; [word_lia|].
  assert (j ∈ filter (fun i => i ∉ dom t) (seqZ 0 (fd_size l))) as Hj by (rewrite E; apply list_elem_of_here).
  apply list_elem_of_filter in Hj as [_ Hj]. apply elem_of_seqZ in Hj. word_lia.
Qed.

Lemma fd_remove_typed l g i : fds_ok l -> typed (fun '(_, l') => fds_ok l') (fd_remove l g i).
Proof.
  intros [[t Ht] Hn]. destruct (fd_remove_spec l t g i Ht) as (l' & -> & Ht' & Hl).
  split; [by eexists|congruence].
Qed.

(** A space a program can be started in. *)
Record new_ok (s : AddrSpace) : Prop := {
  no_entries : Forall wf_entry (table s);
  no_table : zlen (table s) = numPages s;
  no_pages : 0 <= numPages s <= NumPhysPages;
  no_fds : fds_ok (open_files s)
}.

Lemma new_ok_kept s s' : new_ok s -> space_ok s s' -> new_ok s'.
Proof. intros [] []. split; [done|congruence|congruence|congruence]. Qed.

Lemma new_ok_space s : new_ok s -> space_ok s s.
Proof. by intros []. Qed.

Lemma read_header_typed header_bytes f w : bs_ok w -> typed (fun '(_, w') => bs_ok w') (read_header header_bytes f w).
Proof. intros Hw. unfold read_header. tbind bs_read_at as [bs w2] [_ Hw2]; done. Qed.

Lemma AddrSpace_name_typed new_words header_bytes fds name v :
  fds_ok fds -> bs_ok (store v) ->
  typed (fun '(o, v') => match o with Some s => new_ok s | None => True end /\
      memory v' = memory v /\ buf v' = buf v /\ bs_ok (store v'))
    (AddrSpace_name new_words header_bytes fds name v).
Proof.
  intros Hf Hw. unfold AddrSpace_name. tbind open_file_keeps as [o v1] (Hm1 & Hb1 & Hw1); [done|].
  destruct o as [f|]; [|done].
  tbind fd_put_typed as [i0 l0] [_ Hl0]; [done|]. tbind fd_put_typed as [i1 l1] [_ Hl1]; [done|].
  tbind read_header_typed as [h w2] Hw2; [done|].
  destruct (negb _); [done|]. tval as u Ea. apply ASSERT_inv, Z.leb_le in Ea. tval as disk _E. split; [|done].
  pose proof (u32_range (divRoundUp (s32 (space_size h)) PageSize)) as Hr. unfold is_u32 in Hr.
  set (n := u32 _) in *. split; cbn; [| |lia|done].
  - apply Forall_fmap, Forall_forall. intros x Hx%elem_of_seqZ. unfold NumPhysPages in Ea. split; cbn; word_lia.
  - unfold zlen. rewrite length_fmap, length_seqZ. lia.
Qed.
End space.

(** ** The handlers *)

(** The records of children have identifiers that fit an int. *)
Definition kids_ok (c : children) : Prop :=
  map_Forall (fun _ r => is_s32 (cid r)) (records c) /\ is_s32 (globalID c).

Lemma update_record_typed a f c :
  (forall r, is_s32 (cid r) -> is_s32 (cid (f r))) -> kids_ok c -> typed kids_ok (update_record a f c).
Proof.
  intros Hf [Hr Hg]. unfold update_record, get_record. destruct (records c !! a) as [r|] eqn:E; [|done].
  split; [|done]. cbn. apply map_Forall_insert_2; [|done]. by eapply Hf, Hr.
Qed.

Lemma number_record_typed a c : kids_ok c -> typed kids_ok (number_record a c).
Proof.
  intros Hc. unfold number_record. tbind update_record_typed as c' Hc'; [|done|].
  - intros r _. apply Hc.
  - split; [apply Hc'|apply s32_range].
Qed.

Lemma add_child_typed child t a sem c : kids_ok c -> typed (fun '(_, c') => kids_ok c') (add_child child t a sem c).
Proof.
  intros Hc. assert (kids_ok (set_records c (<[a:=new_ChildThread t a sem]> (records c)))) as Hc0.
  { split; [|apply Hc]. cbn. apply map_Forall_insert_2; [|apply Hc]. cbn; word_lia. }
  unfold add_child. destruct child as [first|]; (tbind number_record_typed as c1 Hc1; [done|]); [|done].
  tval as f _E. tbind update_record_typed as c2 Hc2; [done|done|]. tbind update_record_typed as c3 Hc3; [done|done|].
  tval as g _E2. tbind update_record_typed as c4 Hc4; [done|done|]. tbind update_record_typed as c5 Hc5; done.
Qed.

Lemma notifyParent_typed p status c : kids_ok c -> typed (fun '(_, c') => kids_ok c') (notifyParent p status c).
Proof.
  intros Hc. destruct p as [a|]; [|done]. cbn [notifyParent]. tbind update_record_typed as c1 Hc1; [done|done|].
  by tval as r _E.
Qed.

Lemma getID_typed p c : kids_ok c -> typed is_s32 (getID p c).
Proof.
  intros [Hr _]. destruct p as [a|]; [|cbn; word_lia]. cbn [getID]. unfold get_record.
  destruct (records c !! a) as [r|] eqn:E; [|done]. exact (Hr a r E).
Qed.

Section handlers.
Context {F W : Type} `{ByteStore F W}.
Context (yield : vmem W -> res (vmem W)) (Hyield : forall v, vm_ok v -> typed vm_ok (yield v)).
Implicit Types (st : ust F W).

(** What the kernel keeps for the current thread. *)
Record kernel_ok (st : ust F W) : Prop := {
  ko_table : Forall wf_entry (table (uspace st));
  ko_fds : fds_ok (open_files (uspace st));
  ko_buf : bytes (buf (uvm st));
  ko_store : bs_ok (store (uvm st));
  ko_objects : map_Forall (fun _ f => bs_file f) (objects st);
  ko_kids : kids_ok (ukids st)
}.

Definition user_ok (st : ust F W) : Prop := wf_cpu (mach st) /\ kernel_ok st.

Lemma kernel_space_ok st : user_ok st -> space_ok (kernel_space st) (kernel_space st).
Proof.
  intros [[[_ Ht] _] Hk]. split; try done. unfold kernel_space. cbn. unfold wf_tables in Ht.
  destruct (pageTable (mach st)) as [pt|]; cbn; [|apply Hk].
  destruct (tlb (mach st)); [done|apply Ht].
Qed.

Lemma kernel_vm_ok st : user_ok st -> vm_ok (kernel_vm st).
Proof. intros [[[Hc _] _] Hk]. split; cbn; apply Hc || apply Hk. Qed.

Lemma to_machine_ok st s v : user_ok st -> space_ok (kernel_space st) s -> vm_ok v -> user_ok (to_machine st s v).
Proof.
  intros [[[Hc Ht] R0] Hk] Hs Hv. split; [split; [split|done]|].
  - destruct Hc. split; cbn; try done; apply Hv.
  - unfold wf_tables in *. cbn. destruct (tlb (mach st)), (pageTable (mach st)) as [pt|] eqn:E; cbn; try done.
    split; [apply Hs|]. rewrite (so_table _ _ Hs). unfold kernel_space. rewrite E. apply Ht.
  - destruct Hk. split; cbn; try done; try apply Hv; [apply Hs|]. by rewrite (so_fds _ _ Hs).
Qed.

Lemma set_store_ok st w : user_ok st -> bs_ok w -> user_ok (set_space st (uspace st) (set_store (uvm st) w)).
Proof. intros [Hm []] Hw. by split. Qed.

Lemma set_objects_ok st o : user_ok st -> map_Forall (fun _ f => bs_file f) o -> user_ok (set_objects st o).
Proof. intros [Hm []] Ho. by split. Qed.

Lemma set_files_ok st l : user_ok st -> fds_ok l -> user_ok (set_space st (set_open_files (uspace st) l) (uvm st)).
Proof. intros [Hm []] Hl. by split. Qed.

Lemma set_kids_ok st c k : user_ok st -> kids_ok k -> user_ok (set_kids st c k).
Proof. intros [Hm []] Hl. by split. Qed.

Lemma printf_ok st o : user_ok st -> user_ok (printf st o).
Proof. intros [Hm []]. by split. Qed.

Lemma open_file_ok st name : user_ok st ->
  typed (fun '(o, v') => match o with Some f => bs_file f | None => True end /\
    user_ok (set_space st (uspace st) v')) (open_file name (uvm st)).
Proof.
  intros Hst. unfold open_file. tbind bs_open as [[o out] w] [Hf Hw]; [apply Hst|].
  split; [exact Hf|]. exact (printf_ok _ out (set_store_ok _ _ Hst Hw)).
Qed.

Hint Resolve set_store_ok set_objects_ok set_files_ok set_kids_ok printf_ok : user.

Lemma space_read_typed st addr n : user_ok st ->
  typed (fun '(b, st') => bytes b /\ user_ok st') (space_read yield st addr n).
Proof.
  intros Hst. unfold space_read.
  tbind (read_typed yield Hyield (kernel_space st)) as [s v] [Hs Hv]; [by apply kernel_space_ok|by apply kernel_vm_ok|].
  split; [apply Hv|by apply to_machine_ok].
Qed.

Lemma space_write_typed st addr str n : bytes str -> user_ok st -> typed user_ok (space_write yield st addr str n).
Proof.
  intros Hb Hst. unfold space_write.
  tbind (write_typed yield Hyield (kernel_space st)) as [s v] [Hs Hv];
    [done|by apply kernel_space_ok|by apply kernel_vm_ok|]. by apply to_machine_ok.
Qed.

(** *** Files *)

Lemma Create_call st addr : user_ok st -> typed user_ok (Create_Syscall_Func yield st addr).
Proof.
  intros Hst. unfold Create_Syscall_Func. tbind space_read_typed as [b st1] [Hb Hst1]; [done|].
  tbind c_string_typed as name Hn; [done|]. tbind bs_create as [r w] Hw; [done|apply Hst1|]. cbn. auto with user.
Qed.

Lemma Open_call new_object st addr : user_ok st ->
  typed (fun '(r, st') => is_s32 r /\ user_ok st') (Open_Syscall_Func yield new_object st addr).
Proof.
  intros Hst. unfold Open_Syscall_Func. tbind space_read_typed as [b st1] [Hb Hst1]; [done|].
  tval as name _E. tbind open_file_ok as [file v] [Hf Hst2]; [exact Hst1|]. cbv zeta.
  destruct file as [f|]; [|split; [word_lia|done]].
  set (st2 := set_space st1 _ _) in *.
  assert (user_ok (set_objects st2 (<[new_object (objects st2) := f]> (objects st2)))) as Hst3.
  { apply set_objects_ok; [done|]. apply map_Forall_insert_2; [done|apply Hst2]. }
  tbind fd_put_typed as [fd l] [Hfd Hl]; [apply Hst3|].
  pose proof (set_files_ok _ _ Hst3 Hl) as Hst4.
  set (st4 := set_space (set_objects st2 _) _ _) in *. clearbody st4.
  assert (user_ok (set_objects st4 (delete (new_object (objects st2)) (objects st4)))) as Hst5.
  { apply set_objects_ok; [done|]. apply map_Forall_delete, Hst4. }
  destruct (fd =? -1), (fd =? 0); (split; [word_lia || done|done]).
Qed.

Lemma get_object_typed st p : user_ok st -> typed bs_file (get_object st p).
Proof.
  intros Hst. unfold get_object. destruct (objects st !! p) as [f|] eqn:E; [|done].
  exact (ko_objects _ (proj2 Hst) p f E).
Qed.

Lemma store_object st p f w : user_ok st -> bs_file f -> bs_ok w ->
  let st := set_objects st (<[p := f]> (objects st)) in
  user_ok (set_space st (uspace st) (set_store (uvm st) w)).
Proof.
  intros Hst Hf Hw. apply set_store_ok; [|done]. apply set_objects_ok; [done|].
  apply map_Forall_insert_2; [done|apply Hst].
Qed.

Lemma Write_call st addr size fd : is_s32 size -> user_ok st ->
  typed (fun '(r, st') => is_s32 r /\ user_ok st') (Write_Syscall_Func yield st addr size fd).
Proof.
  intros Hsz Hst. unfold Write_Syscall_Func.
  destruct (fd <? 0); [split; [word_lia|done]|]. destruct (size =? 0); [split; [word_lia|done]|].
  destruct (size <? 0); [split; [word_lia|done]|]. destruct (fd =? ConsoleInput); [split; [word_lia|done]|].
  tbind space_read_typed as [b st1] [Hb Hst1]; [done|]. destruct (fd =? ConsoleOutput).
  - tval as out _E. cbn. auto with user.
  - tval as p _E. destruct (negb (p =? 0)); [|split; [word_lia|done]].
    tbind get_object_typed as f Hf; [done|]. tbind bs_write as [r [f' w]] (Hr & Hf' & Hw); [done|done|done|apply Hst1|].
    split; [done|]. by apply store_object.
Qed.

Lemma c_string_len bs s : c_string bs = Ok s -> 0 <= zlen s < zlen bs.
Proof.
  revert s. induction bs as [|c bs IH]; intros s; cbn [c_string]; [done|]. unfold zlen in *. cbn [length].
  destruct (c =? 0); [intros [= <-]; cbn; lia|]. intros E. apply bind_inv in E as (s' & E & [= <-]). apply IH in E. cbn [length]. lia.
Qed.

(** A word of the input, if there is one. *)
Definition word_ok (scanned : option (list Z)) : Prop := match scanned with Some word => bytes word | None => True end.

Lemma Read_call new_char scanned st addr size fd :
  (forall n, bytes (new_char n) /\ zlen (new_char n) = Z.max 0 n) -> word_ok scanned -> is_s32 size -> user_ok st ->
  typed (fun '(r, st') => is_s32 r /\ user_ok st') (Read_Syscall_Func yield new_char scanned st addr size fd).
Proof.
  intros Hchar Hscan Hsz Hst. unfold Read_Syscall_Func.
  destruct (size =? 0); [split; [word_lia|done]|]. destruct (Z.ltb_spec size 0); [split; [word_lia|done]|].
  destruct (fd <? 0); [split; [word_lia|done]|]. cbv zeta. destruct (fd =? ConsoleOutput); [split; [word_lia|done]|].
  destruct (Hchar size) as [Hnb Hnl]. destruct (fd =? ConsoleInput).
  - eapply holds_bind with (P := fun b => bytes b /\ zlen b = zlen (new_char size)).
    { destruct scanned as [word|]; [|done]. apply typed_intro. intros b Eb. split; [|exact (zlen_zwrite _ _ _ _ Eb)].
      refine (Forall_zwrite _ _ _ _ _ Hnb _ Eb). apply Forall_app. split; [done|]. constructor; [word_lia|constructor]. }
    intros b [Hb Hbl].
    tbind space_write_typed as st1 Hst1; [done|done|]. tval as str Es. split; [|done].
    apply c_string_len in Es. word_lia.
  - tval as p _E. destruct (negb (p =? 0)); [|split; [word_lia|done]].
    tbind get_object_typed as f Hf; [done|].
    tbind bs_read as [into [f' w]] (Hi & Hl & Hf' & Hw); [done|done|apply Hst|].
    pose proof (store_object st p f' w Hst Hf' Hw) as Hst1. cbv zeta in Hst1.
    destruct (_ >? 0); [|by split]. tval as b Eb.
    tbind space_write_typed as st2 Hst2; [exact (Forall_zwrite _ _ _ _ _ Hnb Hi Eb)|done|]. by split.
Qed.

Lemma Close_call garbage st fd : user_ok st -> typed user_ok (Close_Syscall_Func garbage st fd).
Proof.
  intros Hst. unfold Close_Syscall_Func. destruct (fd <? 0); [done|].
  tbind fd_remove_typed as [p l] Hl; [apply Hst|]. cbv zeta. pose proof (set_files_ok _ _ Hst Hl) as Hst1.
  destruct (negb (p =? 0)); [|done]. tval as f _E. cbn. apply set_objects_ok; [done|]. apply map_Forall_delete, Hst1.
Qed.

(** *** Processes *)

Lemma ReadRegister_typed m i : wf_core m -> typed is_s32 (ReadRegister m i).
Proof.
  intros Hm. unfold ReadRegister. tval as u _E. apply typed_intro. intros x E. apply zget_Ok in E.
  exact (Forall_znth _ _ _ _ (wf_ints _ Hm) E).
Qed.

Lemma WriteRegister_typed m i x :
  wf_cpu m -> 0 < i < NumTotalRegs -> i <> LoadReg -> is_s32 x -> typed wf_cpu (WriteRegister m i x).
Proof.
  intros [Hm R0] Hi Hl Hx. rewrite WriteRegister_set by lia.
  destruct (set_reg_wf m i x Hm ltac:(lia) Hx ltac:(done)) as (m' & E & Hm'). rewrite E. split; [done|].
  rewrite (set_reg_get _ _ _ _ 0 E). by rewrite (proj2 (Z.eqb_neq 0 i)) by lia.
Qed.

Lemma syscall_return_typed r st : is_s32 r -> user_ok st -> typed user_ok (syscall_return r st).
Proof.
  intros Hr [Hm Hk]. unfold syscall_return.
  tbind WriteRegister_typed as m1 Hm1; [done|done|done|done|].
  tbind ReadRegister_typed as pc Hpc; [apply Hm1|].
  tbind WriteRegister_typed as m2 Hm2; [done|done|done|done|].
  tbind ReadRegister_typed as npc Hn; [apply Hm2|].
  tbind WriteRegister_typed as m3 Hm3; [done|done|done|done|]. tval as pc2 _E.
  tbind WriteRegister_typed as m4 Hm4; [done|done|done|apply s32_range|]. split; [done|]. by destruct Hk.
Qed.

(** What the outcome of a handler leaves. *)
Definition outcome_ok (out : outcome (F := F) (W := W)) : Prop :=
  match out with
  | Resumes st | Exits _ st | Joins _ st => user_ok st
  | Starts sp st => user_ok st /\ forall s, sp = Some s -> new_ok s
  | Halts => True
  end.

Lemma exit_with_typed status st : user_ok st -> typed outcome_ok (exit_with status st).
Proof.
  intros Hst. unfold exit_with. tbind notifyParent_typed as [sig kids] Hk; [apply Hst|]. cbn. auto with user.
Qed.

Lemma Exec_call new_words header_bytes stack_words new_fds t a sem st : fds_ok new_fds -> user_ok st ->
  typed (fun '(r, sp, st') => is_s32 r /\ user_ok st' /\ forall s, sp = Some s -> new_ok s)
    (Exec_Syscall_Func yield new_words header_bytes stack_words new_fds t a sem st).
Proof.
  intros Hfds Hst. unfold Exec_Syscall_Func. tval as r4 _E. tbind space_read_typed as [b st1] [Hb Hst1]; [done|].
  tbind c_string_typed as name Hname; [done|]. tval as args _E2.
  tbind add_child_typed as [child kids] Hkids; [apply Hst1|]. cbv zeta.
  pose proof (set_kids_ok _ child _ Hst1 Hkids) as Hst2. set (st2 := set_kids st1 child kids) in *. clearbody st2.
  tbind AddrSpace_name_typed as [sp v] (Hsp & Hmem & Hbuf & Hw); [done|apply Hst2|].
  assert (user_ok (set_space st2 (uspace st2) v)) as Hst3.
  { destruct Hst2 as [Hm []]. split; [done|]. split; cbn; try done. by rewrite Hbuf. }
  set (st3 := set_space st2 (uspace st2) v) in *. clearbody st3. destruct sp as [s|]; [|split; [word_lia|done]].
  eapply holds_bind with (P := fun '(s', st') => new_ok s' /\ user_ok st').
  - destruct (negb (args =? 0)); [|done].
    tbind (createStackArgs_typed yield Hyield (kernel_space st3) s) as [n [[cur s'] v']] (Hcur & Hs' & Hv');
      [done|by apply kernel_space_ok|by apply new_ok_space|by apply kernel_vm_ok|].
    cbn in Hcur, Hs', Hv'. split; [by eapply new_ok_kept|by apply to_machine_ok].
  - intros [s' st4] [Hs' Hst4]. tbind getID_typed as sid Hsid; [apply Hst4|]. split; [done|]. split; [done|].
    by intros ? [= <-].
Qed.

Context (new_char : Z -> list Z) (garbage : Z) (new_words : Z -> list Z)
  (header_bytes stack_words : list Z) (new_fds : FD_List) (new_object : gmap Z F -> Z).
Context (Hchar : forall n, bytes (new_char n) /\ zlen (new_char n) = Z.max 0 n) (Hfds : fds_ok new_fds).

Lemma syscall_typed t a sem scanned type st : word_ok scanned -> user_ok st ->
  typed outcome_ok (syscall yield new_char garbage new_words header_bytes stack_words new_fds new_object t a sem
    scanned type st).
Proof.
  intros Hscan Hst. unfold syscall.
  tbind ReadRegister_typed as r4 H4; [apply Hst|]. tbind ReadRegister_typed as r5 H5; [apply Hst|].
  tbind ReadRegister_typed as r6 H6; [apply Hst|].
  destruct (type =? SC_Halt); [done|].
  destruct (type =? SC_Create).
  { tbind Create_call as st1 Hst1; [done|]. tbind syscall_return_typed as st2 Hst2; done. }
  destruct (type =? SC_Open).
  { tbind Open_call as [r st1] [Hr Hst1]; [done|]. tbind syscall_return_typed as st2 Hst2; done. }
  destruct (type =? SC_Write).
  { tbind Write_call as [r st1] [Hr Hst1]; [done|done|]. tbind syscall_return_typed as st2 Hst2; done. }
  destruct (type =? SC_Read).
  { tbind Read_call as [r st1] [Hr Hst1]; [done|done|done|done|]. tbind syscall_return_typed as st2 Hst2; done. }
  destruct (type =? SC_Close).
  { tbind Close_call as st1 Hst1; [done|]. tbind syscall_return_typed as st2 Hst2; done. }
  destruct (type =? SC_Exit); [by apply exit_with_typed|].
  destruct (type =? SC_Exec).
  { tbind Exec_call as [[r sp] st1] (Hr & Hst1 & Hsp); [done|done|]. tbind syscall_return_typed as st2 Hst2; done. }
  destruct (type =? SC_Join); [|done]. tval as o _E.
  destruct o; (tbind syscall_return_typed as st2 Hst2; [word_lia|done|]); done.
Qed.

Lemma HandleException_typed t a sem scanned which st : word_ok scanned -> user_ok st ->
  typed outcome_ok (HandleException yield new_char garbage new_words header_bytes stack_words new_fds new_object t a
    sem scanned which st).
Proof.
  intros Hscan Hst. unfold HandleException. tval as type _E.
  destruct which; try (apply exit_with_typed; by apply printf_ok); try exact (printf_ok _ _ Hst).
  { by apply syscall_typed. }
  tval as bad _E2.
  tbind (load_page_typed yield Hyield (kernel_space st)) as [r [s v]] [Hs Hv]; [by apply kernel_space_ok|by apply kernel_vm_ok|].
  cbv zeta. pose proof (to_machine_ok _ _ _ Hst Hs Hv) as Hst1. destruct (r =? -1); [|done]. by apply exit_with_typed.
Qed.
End handlers.

(** ** The kernel of the machine *)

Section kernel.
Context {F W : Type} `{ByteStore F W}.
Context (yield : vmem W -> res (vmem W)).
Context (new_char : Z -> list Z) (garbage : Z) (new_words : Z -> list Z)
  (header_bytes stack_words : list Z) (new_fds : FD_List) (new_object : gmap Z F -> Z).
(** The addresses of the next thread, record and semaphore, and the next word of
    the input. *)
Context (new_thread new_record new_sem : ust F W -> Z) (scanned : ust F W -> option (list Z)).
(** The thread system: the state in which a program runs next when the current
    one starts another, exits or waits. *)
Context (dispatch : outcome (F := F) (W := W) -> res (ust F W)).

Definition handle (which : ExceptionType) (st : ust F W) : res (outcome (F := F) (W := W)) :=
  HandleException yield new_char garbage new_words header_bytes stack_words new_fds new_object
    (new_thread st) (new_record st) (new_sem st) (scanned st) which st.

Definition next (out : outcome (F := F) (W := W)) : res (ust F W) :=
  match out with Resumes st => mret st | _ => dispatch out end.

(** The machine's kernel; its state is the mode and what the handlers work on. *)
#[local] Instance user_kernel : Kernel (MachineStatus * ust F W) := {
  setStatus s k := (s, k.2);
  ExceptionHandler which m k :=
    out ← handle which (set_mach k.2 m); st ← next out; mret (mach st, (k.1, st))
}.

Context (Hyield : forall v, vm_ok v -> typed vm_ok (yield v)).
Context (Hchar : forall n, bytes (new_char n) /\ zlen (new_char n) = Z.max 0 n) (Hfds : fds_ok new_fds).
Context (Hscan : forall st, word_ok (scanned st)).
Context (Hdispatch : forall out, outcome_ok out -> typed user_ok (dispatch out)).

Lemma handle_ok which st : user_ok st -> typed user_ok (out ← handle which st; next out).
Proof.
  intros Hst. eapply holds_bind with (P := outcome_ok); [unfold handle; by apply HandleException_typed|].
  intros [] Ho; cbn [next]; [exact Ho|..]; by apply Hdispatch.
Qed.

#[local] Instance user_contract : KernelContract (MachineStatus * ust F W).
Proof.
  refine {| kernel_inv := fun k => kernel_ok k.2; kernel_fault := fun _ => True |}.
  - done.
  - intros which m k Hm Hk. assert (user_ok (set_mach k.2 m)) as Hst by (split; [done|]; by destruct Hk).
    pose proof (handle_ok which (set_mach k.2 m) Hst) as Hh. cbn [ExceptionHandler user_kernel]. revert Hh.
    destruct (handle which (set_mach k.2 m)) as [out|f]; [|done]. rewrite !bind_Ok.
    destruct (next out) as [st'|f]; intros Hh; [exact Hh|done].
Defined.

(** A part outside the handlers keeps the state well-formed, if it does not fault. *)
Definition keeps_ok (outside : Machine -> MachineStatus * ust F W -> res (Machine * (MachineStatus * ust F W))) : Prop :=
  forall m k, wf_cpu m -> kernel_ok k.2 -> typed (fun '(m', k') => wf_cpu m' /\ kernel_ok k'.2) (outside m k).

(** Running a program on the kernel, from a state in which a program can run. *)
Lemma run_on_kernel OneTick Debug fuel m k :
  keeps_ok OneTick -> keeps_ok Debug -> wf_cpu m -> kernel_ok k.2 ->
  holds (fun '(m', k') => wf_cpu m' /\ kernel_ok k'.2)
    (fun f => exists n m0 k0, (n < fuel)%nat /\ Run OneTick Debug n m k = Ok (m0, k0) /\
       wf_cpu m0 /\ kernel_ok k0.2 /\ round_fault OneTick Debug m0 k0 f)
    (Run OneTick Debug fuel m k).
Proof. intros HT HD Hm Hk. by apply (Run_loop_faults (H0 := user_contract)). Qed.

(** The state of a program that StartProcess has just started. *)
Definition started (m : Machine) (sp : AddrSpace) (v : vmem W) (child parent : option Z) (kids : children) : ust F W :=
  mkUst m sp v ∅ child parent kids.

Lemma started_ok {V} fds name current m v (s : sys V) sp m1 v1 s1 child parent kids :
  StartProcess new_words header_bytes fds name current m v s = Ok (Some sp, (m1, (v1, s1))) ->
  wf_core m -> tlb m = None -> fds_ok fds -> bs_ok (store v) -> bytes (buf v) -> kids_ok kids ->
  wf_cpu m1 /\ kernel_ok (started m1 sp v1 child parent kids).
Proof.
  intros E Hm Ht Hf Hw Hb Hk. unfold StartProcess in E. apply bind_inv in E as ([o v2] & EA & E).
  pose proof (typed_elim _ _ _ (AddrSpace_name_typed new_words header_bytes fds name v Hf Hw) EA) as (Ho & _ & Hbuf & Hw2).
  destruct o as [sp'|]; [|discriminate E]. apply bind_inv in E as (s2 & _ & E). apply bind_inv in E as (m2 & E2 & E).
  injection E as <- <- <- <-. destruct Ho as [O1 O2 O3 O4].
  destruct (start_machine sp' m O2 Hm Ht O1 O3) as (m' & E' & Hcpu & _).
  rewrite E2 in E'. injection E' as <-. split; [done|]. split; cbn; try done. by rewrite Hbuf.
Qed.
End kernel.

(** ** Nachos: the kernel on its file system *)

Section nachos.
Context {D : Type} `{SectorStoreLaws D}.
Context (new_char : Z -> list Z) (new_map : list Z) (new_table : list DirectoryEntry) (new_header : FileHeader)
  (fs : FileSystem).
Context (Hchar : forall n, bytes (new_char n) /\ zlen (new_char n) = Z.max 0 n).
Context (Htable : Forall byte_entry new_table) (Hheader : zlen (dataSectors new_header) = NumDirect).

#[local] Instance user_files : FileStore OpenFile D := nachos_files new_table fs.
#[local] Instance user_ops : FileOps OpenFile D := nachos_ops new_char new_map new_table new_header fs.
#[local] Instance user_bytes : ByteStore OpenFile D :=
  nachos_bytes new_char (fun n => proj1 (Hchar n)) new_map new_table new_header Htable Hheader fs.

(** C8: no program breaks the machine.  Start any file with StartProcess, on a
    disk that holds any bytes whatever -- the executable, its header and the file
    system itself may be corrupt -- and run it, with the system calls and exceptions
    served by the handlers of exception.cc on the file system of the disk, for any
    number of instructions, whatever the program does and passes to its calls.  If
    the parts outside (the ticks of the clock, the threads that run in between)
    keep the state well-formed, then so does the whole: the machine keeps its
    memory, its registers within 32 bits, register 0 zero and one page table as
    long as it believes; the table of open files stays a table, and only bytes
    reach the disk.  If the run faults, then in a round it has reached in such a
    state, and because of what happens there: the instruction is one of the two at
    which the interpreter crashes (the trap of DIV, the assertion of the partial loads
    and stores), or it raises an exception for which the handler (or the thread system
    after it) faults, or an outside part does after the instruction. *)
Theorem user_programs_safe {V} yield garbage new_words header_bytes stack_words new_fds new_object
    new_thread new_record new_sem scanned dispatch OneTick Debug fuel
    name current m (v : vmem D) (s : sys V) sp m1 v1 s1 child parent kids :
  let kernel := user_kernel yield new_char garbage new_words header_bytes stack_words new_fds new_object
    new_thread new_record new_sem scanned dispatch in
  (forall v, vm_ok v -> typed vm_ok (yield v)) -> fds_ok new_fds -> (forall st, word_ok (scanned st)) ->
  (forall out, outcome_ok out -> typed user_ok (dispatch out)) -> keeps_ok OneTick -> keeps_ok Debug ->
  wf_core m -> tlb m = None -> byte_disk (store v) -> bytes (buf v) -> kids_ok kids ->
  StartProcess new_words header_bytes new_fds name current m v s = Ok (Some sp, (m1, (v1, s1))) ->
  let start := (SystemMode, started m1 sp v1 child parent kids) in
  holds (fun '(m', k') => wf_cpu m' /\ kernel_ok k'.2 /\ byte_disk (store (uvm k'.2)))
    (fun f => exists n m0 k0, (n < fuel)%nat /\ Run OneTick Debug n m1 start = Ok (m0, k0) /\
       wf_cpu m0 /\ kernel_ok k0.2 /\ round_fault OneTick Debug m0 k0 f)
    (Run OneTick Debug fuel m1 start).
Proof.
  intros kernel Hy Hf Hsc Hd HT HD Hm Ht Hdisk Hb Hk E start. change (bs_ok (F := OpenFile) (store v)) in Hdisk.
  destruct (started_ok new_words header_bytes new_fds name current m v s sp m1 v1 s1 child parent kids E Hm Ht Hf Hdisk Hb Hk)
    as [Hcpu Hko].
  eapply holds_mono; [eapply run_on_kernel; [exact Hy|exact Hchar|exact Hf|exact Hsc|exact Hd|exact HT|exact HD|exact Hcpu|exact Hko]| |done].
  intros [m' k'] [H1' H2']. split; [done|]. split; [done|]. exact (ko_store _ H2').
Qed.
End nachos.

(** A disk as an array of sectors. *)
Definition array : Type := list (list Z).
#[local] Instance array_store : SectorStore array := {
  ReadSector n c := _ ← ASSERT ((0 <=? n) && (n <? NumSectors)); bs ← c.[n]; mret (bs, c);
  WriteSector n bs c := _ ← ASSERT ((0 <=? n) && (n <? NumSectors)); c.[n := bs]
}.
#[local] Instance array_laws : SectorStoreLaws array.
Proof.
  refine {| store_wf := wf_contents; contents c := c |}.
  - intros c Hc. apply Hc.
  - intros c n bs Hc E. exact (Forall_znth _ _ _ _ (proj2 Hc) E).
  - intros c n bs Hc E. pose proof (znth_Some_range _ _ _ E) as Hr. rewrite (proj1 Hc) in Hr.
    exists c. cbn. rewrite (proj2 (Z.leb_le 0 n)), (proj2 (Z.ltb_lt n NumSectors)) by lia. cbn.
    by rewrite (proj2 (zget_Ok _ _ _) E).
  - intros c n bs [Hl HF] [Hn1 Hn2] Hb. cbn. rewrite (proj2 (Z.leb_le 0 n)), (proj2 (Z.ltb_lt n NumSectors)) by lia.
    cbn. rewrite zset_Ok by lia. eexists. split; [reflexivity|]. split; [|done].
    split; [by rewrite zlen_insert|by apply Forall_insert].
  - intros c n bs Hc Hn. assert ((0 <=? n) && (n <? NumSectors) = false) as Hb.
    { unfold valid_sector in Hn. apply andb_false_iff. rewrite Z.leb_gt, Z.ltb_ge. lia. }
    cbn. by rewrite Hb.
Defined.

(** A program that calls Close(-1), converted by coff2noff. *)
Definition user_program : list Z :=
  match coff2noff sample_garbage (le_bytes 2 MIPSELMAGIC ++ le_bytes 2 1 ++ replicate 16 0 ++ le_bytes 2 OMAGIC ++
      replicate 54 0 ++ sample_section text 0 12 116 ++
      le_bytes 4 0x2404FFFF ++ le_bytes 4 0x24020008 ++ le_bytes 4 12) with
  | inr out => out
  | inl _ => []
  end.

(** A formatted disk with the program as the file "p". *)
Definition program_disk : res (FileSystem * array) :=
  '(fs, d) ← format sample_char sample_words sample_table blank_header
               (replicate (Z.to_nat NumSectors) (replicate (Z.to_nat SectorSize) 0));
  '(_, d) ← Create sample_char sample_words sample_table blank_header fs [112] (zlen user_program) d;
  '(o, _, d) ← Open sample_table fs [112] d;
  match o with
  | Some f => '(_, (_, d)) ← Write sample_char f user_program (zlen user_program) d; mret (fs, d)
  | None => Err NullDeref
  end.

Definition byte_array (c : array) : bool :=
  (zlen c =? NumSectors) &&
  forallb (fun bs => (zlen bs =? SectorSize) && forallb (fun b => (0 <=? b) && (b <? 256)) bs) c.

Lemma byte_array_ok c : byte_array c = true -> byte_disk c.
Proof.
  unfold byte_array. rewrite andb_true_iff, forallb_forall, Z.eqb_eq. intros [Hl HF].
  assert (wf_contents c) as Hc; [split; [done|]|split; [exact Hc|]].
  - apply Forall_forall. intros bs Hbs%list_elem_of_In. apply HF in Hbs. rewrite andb_true_iff in Hbs. lia.
  - apply Forall_forall. intros bs Hbs%list_elem_of_In. apply HF in Hbs. rewrite andb_true_iff in Hbs.
    destruct Hbs as [_ Hb]. rewrite forallb_forall in Hb. apply Forall_forall. intros b H%list_elem_of_In.
    apply Hb in H. rewrite andb_true_iff in H. word_lia.
Qed.

(** All frames and sectors are free. *)
Definition empty_vm {W} (w : W) : vmem W :=
  mkVM (replicate (Z.to_nat MemorySize) 0) (replicate (Z.to_nat NumPhysPages) 0)
    (mkBitMap NumSectors 32 (replicate 32 0)) (replicate 1000 0) [] w.

Section sample_run.
Context (fs : FileSystem).
#[local] Instance run_files : FileStore OpenFile array := user_files sample_table fs.
#[local] Instance run_ops : FileOps OpenFile array := user_ops sample_char sample_words sample_table blank_header fs.
#[local] Instance run_kernel : Kernel (MachineStatus * ust OpenFile array) :=
  user_kernel (F := OpenFile) Ok sample_char 0 zero_words [] [] fd_sample (fun _ => 100) (fun _ => 1)
    (fun _ => 2) (fun _ => 3) (fun _ => None) (fun _ => Err AssertFailed).
Definition run_start (d : array) := StartProcess zero_words [] fd_sample [112] 7 (new_Machine 0 0 false) (empty_vm d) idle_sys.
Definition run_program n m sp v := Run (fun m (k : MachineStatus * ust OpenFile array) => Ok (m, k)) (fun m k => Ok (m, k)) n m
  (SystemMode, started (F := OpenFile) m sp v None None (mkChildren ∅ 0)).
End sample_run.

(** The registers after the program on the disk has run for [n] rounds. *)
Definition registers_after (n : nat) (r : res (FileSystem * array)) : option (list Z) :=
  match r with
  | Ok (fs, d) =>
      match run_start fs d with
      | Ok (Some sp, (m, (v, _))) =>
          match run_program fs n m sp v with Ok (m, _) => Some (registers m) | Err _ => None end
      | _ => None
      end
  | Err _ => None
  end.

Lemma registers_after_inv n r rs : registers_after n r = Some rs ->
  exists fs d sp m1 v1 s1 m' k', r = Ok (fs, d) /\ run_start fs d = Ok (Some sp, (m1, (v1, s1))) /\
    run_program fs n m1 sp v1 = Ok (m', k') /\ registers m' = rs.
Proof.
  unfold registers_after. destruct r as [[fs d]|f]; [|discriminate].
  destruct (run_start fs d) as [[[sp|] [m1 [v1 s1]]]|f] eqn:E2; [|intros [=]..].
  destruct (run_program fs n m1 sp v1) as [[m' k']|f] eqn:E3; [|intros [=]]. intros [= <-].
  by exists fs, d, sp, m1, v1, s1, m', k'.
Qed.

Definition holds_bytes (r : res (FileSystem * array)) : bool :=
  match r with Ok (_, d) => byte_array d | Err _ => false end.

Lemma sample_fds : fds_ok fd_sample.
Proof. split; [exists ∅; exact fd_sample_table|]. split; [discriminate|reflexivity]. Qed.

Lemma sample_char_ok n : bytes (sample_char n) /\ zlen (sample_char n) = Z.max 0 n.
Proof.
  unfold sample_char, zlen. rewrite length_replicate. split; [|lia]. apply Forall_replicate. word_lia.
Qed.

Lemma sample_table_ok : Forall byte_entry sample_table.
Proof. apply Forall_replicate. split; apply Forall_replicate; word_lia. Qed.

(** The program faults on its first page, which is loaded from the disk, makes
    its call and goes on. *)
Lemma user_programs_safe_witness :
  exists fs d sp m1 v1 s1 m' k', program_disk = Ok (fs, d) /\ run_start fs d = Ok (Some sp, (m1, (v1, s1))) /\
    run_program fs 4 m1 sp v1 = Ok (m', k') /\ znth (registers m') 2 = Some 0 /\ znth (registers m') PCReg = Some 12 /\
    wf_cpu m' /\ byte_disk (store (uvm k'.2)).
Proof.
  assert (exists rs, registers_after 4 program_disk = Some rs /\ znth rs 2 = Some 0 /\ znth rs PCReg = Some 12)
    as (rs & Hrs & H2 & Hpc) by (eexists; split; [vm_compute; reflexivity|by split]).
  assert (holds_bytes program_disk = true) as Hb by (vm_compute; reflexivity).
  destruct (registers_after_inv _ _ _ Hrs) as (fs & d & sp & m1 & v1 & s1 & m' & k' & E1 & E2 & E3 & Er).
  clear Hrs. rewrite E1 in Hb. cbn [holds_bytes] in Hb.
  pose proof (user_programs_safe sample_char sample_words sample_table blank_header fs sample_char_ok sample_table_ok eq_refl
    Ok 0 zero_words [] [] fd_sample (fun _ => 100) (fun _ => 1) (fun _ => 2) (fun _ => 3) (fun _ => None)
    (fun _ => Err AssertFailed) (fun m k => Ok (m, k)) (fun m k => Ok (m, k)) 4
    [112] 7 (new_Machine 0 0 false) (empty_vm d) idle_sys sp m1 v1 s1 None None (mkChildren ∅ 0)
    (fun v Hv => Hv) sample_fds (fun _ => I) (fun _ _ => I) (fun m k Hm Hk => conj Hm Hk)
    (fun m k Hm Hk => conj Hm Hk) (new_Machine_wf 0 0 false) eq_refl (byte_array_ok d Hb)) as Hrun.
  specialize (Hrun ltac:(apply Forall_replicate; word_lia) ltac:(split; [apply map_Forall_empty|cbn; word_lia]) E2).
  cbv zeta in Hrun.
  match type of Hrun with holds _ _ ?r => change r with (run_program fs 4 m1 sp v1) in Hrun end.
  rewrite E3 in Hrun. destruct Hrun as (Hm & _ & Hd). rewrite <- Er in H2, Hpc.
  exists fs, d, sp, m1, v1, s1, m', k'. by split_and!.
Defined.
