(* ===== verification/VirtMem.v ===== *)
(** * VirtMem: the memory of a program, as it sees it

    Behind the page tables and frames an address space is an array of bytes: what
    the program's file says at first, then what was stored.  The kernel's accesses
    ([AddrSpace::read] and [write]) fault pages in as they go, and yet act on this
    array alone, for two spaces that share the memory. *)

From S2P Require Import Prelude BitMap Machine Interrupt Disk SynchDisk FDList AddrSpace Paging.

(** ** Counting *)

Section counting.
Context {A : Type} (P : A -> Prop) `{forall x, Decision (P x)}.

Lemma count_replaced (l : list A) i x y :
  l !! i = Some x -> P x -> ~ P y ->
  length (filter P l) = S (length (filter P (<[i := y]> l))).
Proof.
  revert i. induction l as [|z l IH]; intros i E Hx Hy; [done|]. destruct i as [|i].
  - injection E as ->. change (<[0%nat := y]> (x :: l)) with (y :: l).
    by rewrite filter_cons_True, filter_cons_False by done.
  - change (<[S i := y]> (z :: l)) with (z :: <[i := y]> l). change (l !! i = Some x) in E.
    rewrite !filter_cons. destruct (decide (P z)); cbn [length]; rewrite (IH i E Hx Hy); done.
Qed.

Lemma count_pos (l : list A) x : x ∈ l -> P x -> (0 < length (filter P l))%nat.
Proof.
  intros Hl Hx. assert (x ∈ filter P l) as Hin by (by apply list_elem_of_filter).
  destruct (filter P l); [by apply not_elem_of_nil in Hin|cbn; lia].
Qed.
End counting.

Section virtual.
Context {F W : Type} `{FileStoreLaws F W} `{SectorStore W}.
Context (yield : vmem W -> res (vmem W)).
Implicit Types (s o : AddrSpace) (v : vmem W) (bs bo : list Z).

(** The byte at the virtual address [a] of the space [s], whose file holds [bs]. *)
Definition vbyte s bs v (a : Z) : option Z :=
  match znth (table s) (a / PageSize) with
  | Some e => if valid e then znth (memory v) (physicalPage e * PageSize + a mod PageSize) else image (noffH s) bs a
  | None => None
  end.

(** The program of a space.  Its file can be read, and its header is that of a file
    coff2noff makes: segments with numbers below 2^28, the data right after the text,
    no byte after the data.  On every page of its initialised data the end that
    addrspace.cc:645 computes, [start + size - file_offset], is outside the frame, so
    that it is clipped to the frame; a program for which it is inside loses data
    (Paging.v), and is left out.  No page is read-only. *)
Record program s v bs : Prop := {
  pr_space : wf_space s;
  pr_file : fsl_file (store v) (filename s) = Some bs;
  pr_header : wf_program (noffH s) bs;
  pr_data : forall p pp, wf_frame p pp -> data_clipped (noffH s) p pp;
  pr_entries : Forall (fun e => wf_entry e /\ readOnly e = false) (table s)
}.

(** Page [p] is in the frame [f]. *)
Definition in_frame s (p f : Z) : Prop :=
  exists e, znth (table s) p = Some e /\ valid e = true /\ physicalPage e = f.

(** The pages in memory are in frames that are taken, each in one of its own. *)
Record resident_pages s v : Prop := {
  rp_taken : forall p f, in_frame s p f -> 0 <= f < NumPhysPages /\
    exists n, znth (available_pages v) f = Some n /\ n <> 0;
  rp_inj : forall p q f, in_frame s p f -> in_frame s q f -> p = q
}.

Definition missing s : nat := length (filter (fun e => valid e = false) (table s)).
Definition free_frames v : nat := length (filter (fun n : Z => n = 0) (available_pages v)).

(** Two spaces whose programs never need more frames than there are. *)
Record coherent s bs o bo v : Prop := {
  co_vm : wf_vm v;
  co_store : fsl_ok (store v);
  co_space : program s v bs;
  co_other : program o v bo;
  co_resident : resident_pages s v;
  co_other_resident : resident_pages o v;
  co_disjoint : forall p q f, in_frame s p f -> ~ in_frame o q f;
  co_enough : (missing s + missing o <= free_frames v)%nat
}.

Lemma coherent_sym s bs o bo v : coherent s bs o bo v -> coherent o bo s bs v.
Proof. intros []. split; try done; [|lia]. intros p q f Ho Hs. by eapply co_disjoint0. Qed.

(** What an access to a space keeps: everything but the page table. *)
Definition kept s s' : Prop := s' = set_table s (table s').

Lemma kept_refl s : kept s s.
Proof. by destruct s. Qed.

Lemma kept_trans s1 s2 s3 : kept s1 s2 -> kept s2 s3 -> kept s1 s3.
Proof. unfold kept. intros E1 E2. rewrite E2, E1. done. Qed.

Lemma kept_pages s s' : kept s s' -> numPages s' = numPages s.
Proof. by intros ->. Qed.

(** *** One page *)

Lemma frame_exists v : wf_vm v -> (0 < free_frames v)%nat -> exists pp, first_free v pp.
Proof.
  intros Hv Hf.
  destruct (free_frame_spec (available_pages v) (Z.to_nat NumPhysPages) 0) as [(r & _ & Hr & Hz & Hlow)|[_ Hall]];
    [lia|rewrite (wv_frames _ Hv); done| |].
  - exists r. rewrite (wv_frames _ Hv) in Hr. by split.
  - exfalso. unfold free_frames in Hf. destruct (filter _ _) as [|x l] eqn:E; [cbn in Hf; lia|].
    assert (x ∈ filter (fun n : Z => n = 0) (available_pages v)) as Hx by (rewrite E; apply list_elem_of_here).
    apply list_elem_of_filter in Hx as [-> Hx]. apply list_elem_of_lookup in Hx as [i Hi].
    pose proof (lookup_lt_Some _ _ _ Hi). apply (Hall (Z.of_nat i)); [unfold zlen; lia|].
    rewrite znth_lookup by lia. by rewrite Nat2Z.id.
Qed.

Lemma page_address p j : 0 <= j < PageSize -> (p * PageSize + j) / PageSize = p /\ (p * PageSize + j) mod PageSize = j.
Proof. unfold PageSize, SectorSize. intros. Z.div_mod_to_equations. lia. Qed.

Lemma frame_address f g i j :
  0 <= i < PageSize -> 0 <= j < PageSize -> f * PageSize + i = g * PageSize + j -> f = g /\ i = j.
Proof. unfold PageSize, SectorSize. lia. Qed.

Lemma frame_outside f g i :
  0 <= i < PageSize -> f <> g -> ~ g * PageSize <= f * PageSize + i < (g + 1) * PageSize.
Proof. unfold PageSize, SectorSize. lia. Qed.

Lemma mod_page a : 0 <= a mod PageSize < PageSize.
Proof. by apply Z.mod_pos_bound. Qed.

(** Page [p] is loaded into the free frame [pp]. *)
Lemma load_virtual s bs o bo v p e :
  coherent s bs o bo v -> znth (table s) p = Some e -> valid e = false ->
  exists s' v' e' pp, load_page yield s v p = Ok (pp, (s', v')) /\ 0 <= pp /\ znth (table s') p = Some e' /\ valid e' = true /\
    kept s s' /\ missing s = S (missing s') /\ buf v' = buf v /\ coherent s' bs o bo v' /\
    (forall a, vbyte s' bs v' a = vbyte s bs v a) /\ (forall a, vbyte o bo v' a = vbyte o bo v a).
Proof.
  intros Hc Ee Hval. pose proof Hc as [Hv Hok Hs Ho Rs Ro Hdis Hen].
  pose proof (znth_Some_range _ _ _ Ee) as Hp. pose proof (znth_lookup (table s) p ltac:(lia)) as Elk. rewrite Ee in Elk.
  assert (0 < missing s)%nat as Hmiss.
  { apply (count_pos (fun e => valid e = false) _ e); [|done]. by eapply list_elem_of_lookup_2. }
  destruct (frame_exists v Hv ltac:(lia)) as [pp Hpp]. pose proof Hpp as (Hr & Hz & _).
  destruct (page_index s p e (pr_space _ _ _ Hs) Ee) as [Hpn _]. pose proof (ws_pages _ (pr_space _ _ _ Hs)) as Hnp.
  assert (wf_frame p pp) as Hwf by (split; [unfold NumPhysPages in *; lia|done]).
  destruct (load_page_spec yield s v p e pp bs (pr_space _ _ _ Hs) Hv Hok (pr_file _ _ _ Hs) (pr_header _ _ _ Hs) Ee Hval
    Hpp (pr_data _ _ _ Hs p pp Hwf)) as (t & v' & E & Et & Ef & Hv' & Hok' & Hfl & Him & Hout & Hbuf).
  apply zset_inv in Et as [_ Et]. apply zset_inv in Ef as [_ Ef].
  set (e' := mkEntry p pp true (readOnly e) (use e) (dirty e)) in *.
  assert (znth t p = Some e') as Ep by (rewrite Et; by apply znth_insert_eq).
  assert (forall q, q <> p -> znth t q = znth (table s) q) as Hq.
  { intros q Hq. destruct (decide (0 <= q)); [|by rewrite !znth_out by lia]. rewrite Et. apply znth_insert_ne; lia. }
  assert (forall q f, in_frame (set_table s t) q f -> (q = p /\ f = pp) \/ (q <> p /\ in_frame s q f)) as Hin.
  { intros q f (x & Ex & Hx & Hf). cbn in Ex. destruct (decide (q = p)) as [->|Hne].
    - left. rewrite Ep in Ex. injection Ex as <-. by split.
    - right. rewrite Hq in Ex by done. split; [done|]. by exists x. }
  assert (forall s0 q f, resident_pages s0 v -> in_frame s0 q f -> f <> pp) as Hfresh.
  { intros s0 q f R Hf ->. destruct (rp_taken _ _ R _ _ Hf) as (_ & n & En & Hn). congruence. }
  assert (forall f n, znth (available_pages v) f = Some n -> n <> 0 -> exists n', znth (available_pages v') f = Some n' /\ n' <> 0) as Htk.
  { intros f n En Hn. destruct (decide (f = pp)) as [->|Hne]; [congruence|].
    exists n. split; [|done]. pose proof (znth_Some_range _ _ _ En). rewrite Ef, znth_insert_ne by lia. done. }
  assert (missing s = S (missing (set_table s t))) as C1.
  { pose proof (count_replaced (fun e => valid e = false) (table s) (Z.to_nat p) e e' (eq_sym Elk) Hval ltac:(done)) as C1.
    by rewrite <- Et in C1. }
  exists (set_table s t), v', e', pp. split; [exact E|]. split; [lia|]. split; [exact Ep|]. split; [done|]. split; [done|].
  split; [exact C1|]. split; [done|]. split; [|split].
  - split.
    + exact Hv'.
    + exact Hok'.
    + destruct Hs as [W1 W2 W3 W4 W5]. split; cbn; [|by rewrite Hfl|done|done|].
      2: { rewrite Et. apply Forall_insert; [done|]. destruct (Forall_znth _ _ _ _ W5 Ee) as [_ Hro]. split; [|done].
           unfold wf_entry, is_s32. cbn. unfold NumPhysPages in *. lia. }
      destruct W1 as [A1 A2 A3 A4 A5]. split; cbn; try done.
      * rewrite Et. by rewrite zlen_insert.
      * intros q x Ex. destruct (decide (q = p)) as [->|Hne]; [rewrite Ep in Ex; by injection Ex as <-|].
        rewrite Hq in Ex by done. by eapply A3.
    + destruct Ho as [W1 W2 W3 W4 W5]. split; [done|by rewrite Hfl|done|done|done].
    + split.
      * intros q f Hf. destruct (Hin q f Hf) as [[-> ->]|[Hne Hf']].
        -- split; [done|]. exists 1. split; [|done]. rewrite Ef. apply znth_insert_eq. rewrite (wv_frames _ Hv). lia.
        -- destruct (rp_taken _ _ Rs _ _ Hf') as (Hrange & n & En & Hn). split; [done|]. by eapply Htk.
      * intros q1 q2 f H1' H2'. destruct (Hin q1 f H1') as [[-> ->]|[N1 F1]], (Hin q2 _ H2') as [[-> E2]|[N2 F2]]; try done.
        -- by destruct (Hfresh s q2 pp Rs F2).
        -- subst f. by destruct (Hfresh s q1 pp Rs F1).
        -- exact (rp_inj _ _ Rs _ _ _ F1 F2).
    + split; [|apply Ro]. intros q f Hf. destruct (rp_taken _ _ Ro _ _ Hf) as (Hrange & n & En & Hn). split; [done|]. by eapply Htk.
    + intros q1 q2 f H1' H2'. destruct (Hin q1 f H1') as [[-> ->]|[N1 F1]]; [by destruct (Hfresh o q2 pp Ro H2')|].
      by eapply Hdis.
    + pose proof (znth_lookup (available_pages v) pp ltac:(lia)) as Elf. rewrite Hz in Elf.
      pose proof (count_replaced (fun n : Z => n = 0) (available_pages v) (Z.to_nat pp) 0 1 (eq_sym Elf) eq_refl ltac:(done)) as C2.
      rewrite <- Ef in C2. unfold free_frames in *. lia.
  - intros a. unfold vbyte. cbn [table set_table noffH]. destruct (decide (a / PageSize = p)) as [Hpa|Hne].
    + rewrite Hpa, Ep, Ee, Hval. cbn [valid e' physicalPage]. rewrite Him by apply mod_page. f_equal.
      rewrite <- Hpa. pose proof (Z.div_mod a PageSize ltac:(done)). lia.
    + rewrite Hq by done. destruct (znth (table s) (a / PageSize)) as [x|] eqn:Ex; [|done].
      destruct (valid x) eqn:Hx; [|done]. apply Hout, frame_outside; [apply mod_page|].
      apply (Hfresh s (a / PageSize)); [done|]. by exists x.
  - intros a. unfold vbyte. destruct (znth (table o) (a / PageSize)) as [x|] eqn:Ex; [|done].
    destruct (valid x) eqn:Hx; [|done]. apply Hout, frame_outside; [apply mod_page|].
    apply (Hfresh o (a / PageSize)); [done|]. by exists x.
Qed.

(** Nothing a program sees has changed: its bytes, those of the other program. *)
Definition same_view s bs o bo v s' v' : Prop :=
  (forall a, vbyte s' bs v' a = vbyte s bs v a) /\ (forall a, vbyte o bo v' a = vbyte o bo v a).

Lemma fault_in_virtual s bs o bo v p :
  coherent s bs o bo v -> 0 <= p < numPages s ->
  exists s' v' e, fault_in yield s v p = Ok (e, (s', v')) /\ znth (table s') p = Some e /\ valid e = true /\
    kept s s' /\ buf v' = buf v /\ coherent s' bs o bo v' /\ same_view s bs o bo v s' v'.
Proof.
  intros Hc Hp. pose proof (co_space _ _ _ _ _ Hc) as Hs. unfold fault_in.
  destruct (znth_in_range (table s) p) as [e Ee]; [by rewrite (ws_table _ (pr_space _ _ _ Hs))|].
  rewrite (proj2 (zget_Ok _ _ _) Ee), bind_Ok. destruct (valid e) eqn:Hval; cbn [negb orb].
  - destruct (rp_taken _ _ (co_resident _ _ _ _ _ Hc) p (physicalPage e)) as [Hf _]; [by exists e|].
    rewrite (proj2 (Z.eqb_neq _ _)) by lia. unfold mret, res_ret. rewrite ?bind_Ok, ?(proj2 (zget_Ok _ _ _) Ee), ?bind_Ok.
    exists s, v, e. split; [done|]. split; [done|]. split; [done|]. split; [apply kept_refl|]. by split_and!.
  - destruct (load_virtual s bs o bo v p e Hc Ee Hval) as (s' & v' & e' & pp & E & _ & Ee' & Hval' & Hk & _ & Hb & Hc' & Hv1 & Hv2).
    rewrite E. unfold mret, res_ret. rewrite ?bind_Ok, (proj2 (zget_Ok _ _ _) Ee'), bind_Ok.
    exists s', v', e'. by split_and!.
Qed.

(** *** One byte *)

Lemma page_of s a : 0 <= a < numPages s * PageSize -> 0 <= a / PageSize < numPages s.
Proof. unfold PageSize, SectorSize. intros. Z.div_mod_to_equations. lia. Qed.

Lemma phys_of s bs o bo v a e :
  coherent s bs o bo v -> 0 <= a -> znth (table s) (a / PageSize) = Some e -> valid e = true ->
  phys_addr e a = physicalPage e * PageSize + a mod PageSize /\ 0 <= phys_addr e a < MemorySize /\
  vbyte s bs v a = znth (memory v) (phys_addr e a).
Proof.
  intros Hc Ha Ee Hval. destruct (rp_taken _ _ (co_resident _ _ _ _ _ Hc) (a / PageSize) (physicalPage e)) as [Hf _]; [by exists e|].
  assert (phys_addr e a = physicalPage e * PageSize + a mod PageSize) as ->.
  { unfold phys_addr. by rewrite Z.rem_mod_nonneg by done. }
  split; [done|]. split.
  - pose proof (mod_page a). unfold MemorySize, NumPhysPages, PageSize, SectorSize in *. lia.
  - unfold vbyte. by rewrite Ee, Hval.
Qed.

(** Coherence is not about the contents of memory and buffer. *)
Lemma coherent_set_bytes s bs o bo v v' :
  available_pages v' = available_pages v -> available_sectors v' = available_sectors v -> store v' = store v ->
  zlen (memory v') = zlen (memory v) -> coherent s bs o bo v -> coherent s bs o bo v'.
Proof.
  intros E1 E2 E3 E4 [[V1 V2 V3] C2 [A1 A2 A3 A4 A5] [B1 B2 B3 B4 B5] [R1 R2] [O1 O2] C7 C8].
  constructor; [constructor; congruence|by rewrite E3|constructor; by rewrite ?E3|constructor; by rewrite ?E3|..]; try done.
  - constructor; [|done]. intros p f Hf. rewrite E1. by apply R1 with p.
  - constructor; [|done]. intros p f Hf. rewrite E1. by apply O1 with p.
  - unfold free_frames. by rewrite E1.
Qed.

(** Bytes of one page are stored through its entry. *)
Lemma store_block s bs o bo v a e c m :
  coherent s bs o bo v -> 0 <= a -> a mod PageSize + zlen c <= PageSize ->
  znth (table s) (a / PageSize) = Some e -> valid e = true -> zwrite (memory v) (phys_addr e a) c = Ok m ->
  coherent s bs o bo (set_memory v m) /\
  (forall x, vbyte s bs (set_memory v m) x = if (a <=? x) && (x <? a + zlen c) then znth c (x - a) else vbyte s bs v x) /\
  (forall x, vbyte o bo (set_memory v m) x = vbyte o bo v x).
Proof.
  intros Hc Ha Hpage Ee Hval Em. destruct (phys_of s bs o bo v a e Hc Ha Ee Hval) as (Ep & Hr & _). rewrite Ep in *.
  pose proof (zlen_zwrite _ _ _ _ Em) as Hl. pose proof (fun i => znth_zwrite _ _ _ _ i Em) as Hm. clear Em.
  assert (forall f j, 0 <= j < PageSize -> f <> physicalPage e -> znth m (f * PageSize + j) = znth (memory v) (f * PageSize + j)) as Hout.
  { intros f j Hj Hne. rewrite Hm. pose proof (mod_page a). unfold PageSize, SectorSize in *.
    destruct (Z.leb_spec (physicalPage e * 128 + a mod 128) (f * 128 + j)),
      (Z.ltb_spec (f * 128 + j) (physicalPage e * 128 + a mod 128 + zlen c)); cbn [andb]; done || lia. }
  split; [by apply (coherent_set_bytes s bs o bo v)|]. split.
  - intros x. unfold vbyte. destruct (decide (x / PageSize = a / PageSize)) as [Hx|Hne].
    + rewrite Hx, Ee, Hval. cbn [memory set_memory]. rewrite Hm.
      pose proof (Z.div_mod x PageSize ltac:(done)) as Dx. pose proof (Z.div_mod a PageSize ltac:(done)) as Da. rewrite Hx in Dx.
      replace (x - a) with (physicalPage e * PageSize + x mod PageSize - (physicalPage e * PageSize + a mod PageSize)) by lia.
      destruct (Z.leb_spec a x), (Z.ltb_spec x (a + zlen c)),
        (Z.leb_spec (physicalPage e * PageSize + a mod PageSize) (physicalPage e * PageSize + x mod PageSize)),
        (Z.ltb_spec (physicalPage e * PageSize + x mod PageSize) (physicalPage e * PageSize + a mod PageSize + zlen c));
        cbn [andb]; done || lia.
    + assert ((a <=? x) && (x <? a + zlen c) = false) as ->.
      { apply andb_false_iff. rewrite Z.leb_gt, Z.ltb_ge. destruct (Z.lt_ge_cases x a); [by left|right].
        apply Z.nlt_ge. intros Hlt. apply Hne. unfold PageSize, SectorSize in *. Z.div_mod_to_equations. lia. }
      destruct (znth (table s) (x / PageSize)) as [ex|] eqn:Ex; [|done]. destruct (valid ex) eqn:Hx; [|done].
      cbn [memory set_memory]. apply Hout; [apply mod_page|]. intros Hpp. apply Hne.
      apply (rp_inj _ _ (co_resident _ _ _ _ _ Hc) _ _ (physicalPage e)); [by exists ex|by exists e].
  - intros x. unfold vbyte. destruct (znth (table o) (x / PageSize)) as [ex|] eqn:Ex; [|done].
    destruct (valid ex) eqn:Hx; [|done]. cbn [memory set_memory]. apply Hout; [apply mod_page|]. intros Hpp.
    apply (co_disjoint _ _ _ _ _ Hc (a / PageSize) (x / PageSize) (physicalPage e)); [by exists e|by exists ex].
Qed.

Lemma store_virtual s bs o bo v a e c m :
  coherent s bs o bo v -> 0 <= a -> znth (table s) (a / PageSize) = Some e -> valid e = true ->
  (memory v).[phys_addr e a := c] = Ok m ->
  coherent s bs o bo (set_memory v m) /\
  (forall x, vbyte s bs (set_memory v m) x = if x =? a then Some c else vbyte s bs v x) /\
  (forall x, vbyte o bo (set_memory v m) x = vbyte o bo v x).
Proof.
  intros Hc Ha Ee Hval Em%zset_zwrite. pose proof (mod_page a) as Hp.
  destruct (store_block s bs o bo v a e [c] m Hc Ha ltac:(change (zlen [c]) with 1; lia) Ee Hval Em) as (Hc' & Hs & Ho).
  split; [done|]. split; [|done]. intros x. rewrite Hs. change (zlen [c]) with 1.
  destruct (Z.eqb_spec x a) as [->|Hne].
  - rewrite (proj2 (Z.leb_le _ _)), (proj2 (Z.ltb_lt _ _)) by lia. by rewrite Z.sub_diag.
  - destruct (Z.leb_spec a x), (Z.ltb_spec x (a + 1)); cbn [andb]; done || lia.
Qed.

Lemma coherent_set_buf s bs o bo v b : coherent s bs o bo v -> coherent s bs o bo (set_buf v b).
Proof. intros Hc. by apply (coherent_set_bytes s bs o bo v). Qed.

(** *** Ranges of bytes *)

(** The bytes [l] are the ones transferred from index [i] on: up to the count, or
    a string with its NUL when the count is 0. *)
Definition chunk (bytes i : Z) (l : list Z) : Prop :=
  (0 < bytes /\ i + zlen l = bytes) \/ (bytes = 0 /\ exists str, l = str ++ [0] /\ Forall (fun c => c <> 0) str).

Lemma chunk_cons bytes i x l :
  chunk bytes i (x :: l) -> (bytes =? 0) || (i <? bytes) = true /\
    (if (bytes =? 0) && (x =? 0) then l = [] else chunk bytes (i + 1) l).
Proof.
  unfold chunk, zlen. cbn [length]. intros [[Hb Hl]|(-> & str & E & Hs)].
  - rewrite (proj2 (Z.eqb_neq bytes 0)), (proj2 (Z.ltb_lt i bytes)) by lia. split; [done|]. left. split; [done|lia].
  - split; [done|]. cbn [Z.eqb andb]. destruct str as [|y str]; injection E as -> ->.
    + done.
    + apply Forall_cons in Hs as [Hy Hs]. rewrite (proj2 (Z.eqb_neq y 0)) by done. right. split; [done|]. by exists str.
Qed.

Lemma chunk_nil bytes i : chunk bytes i [] -> (bytes =? 0) || (i <? bytes) = false.
Proof.
  unfold chunk, zlen. cbn [length]. intros [[Hb Hl]|(-> & [|y str] & E & _)]; [|done..].
  rewrite (proj2 (Z.eqb_neq bytes 0)), (proj2 (Z.ltb_ge i bytes)) by lia. done.
Qed.

Lemma space_bound s : wf_space s -> numPages s * PageSize <= 4096.
Proof. intros Hs. pose proof (ws_pages _ Hs). unfold NumPhysPages, PageSize, SectorSize in *. lia. Qed.

Lemma znth_cons (x : Z) l j : 0 <= j -> znth (x :: l) (j + 1) = znth l j.
Proof. intros Hj. rewrite !znth_lookup by lia. by replace (Z.to_nat (j + 1)) with (S (Z.to_nat j)) by lia. Qed.

Lemma take_insert_next (l : list Z) i x :
  0 <= i < zlen l -> take (Z.to_nat (i + 1)) (<[Z.to_nat i := x]> l) = take (Z.to_nat i) l ++ [x].
Proof.
  intros Hi. unfold zlen in Hi. replace (Z.to_nat (i + 1)) with (S (Z.to_nat i)) by lia.
  rewrite (take_S_r _ _ x) by (apply list_lookup_insert_eq; lia). by rewrite take_insert_ge by lia.
Qed.

Lemma read_virtual bs o bo addr bytes l : forall n i s v,
  coherent s bs o bo v -> chunk bytes i l -> (length l <= n)%nat -> 0 <= addr -> 0 <= i ->
  addr + i + zlen l <= numPages s * PageSize -> i + zlen l <= zlen (buf v) ->
  (forall j, 0 <= j < zlen l -> vbyte s bs v (addr + i + j) = znth l j) ->
  exists s' v', read_loop yield n i addr bytes s v = Ok (s', v') /\ kept s s' /\ coherent s' bs o bo v' /\
    same_view s bs o bo v s' v' /\ zlen (buf v') = zlen (buf v) /\
    take (Z.to_nat (i + zlen l)) (buf v') = take (Z.to_nat i) (buf v) ++ l.
Proof.
  induction l as [|x l IH]; intros n i s v Hc Hch Hn Ha Hi Hend Hbl Hbytes.
  - exists s, v. assert (read_loop yield n i addr bytes s v = Ok (s, v)) as ->.
    { destruct n; cbn [read_loop]; [done|]. by rewrite (chunk_nil _ _ Hch). }
    split; [done|]. split; [apply kept_refl|]. split; [done|]. split; [done|]. split; [done|].
    change (zlen []) with 0. by rewrite Z.add_0_r, app_nil_r.
  - destruct n as [|n]; [cbn in Hn; lia|]. destruct (chunk_cons _ _ _ _ Hch) as [Hgo Hrest]. cbn [read_loop]. rewrite Hgo.
    assert (zlen (x :: l) = zlen l + 1) as Hl by (unfold zlen; cbn [length]; lia). rewrite Hl in *.
    assert (0 <= zlen l) by (unfold zlen; lia).
    pose proof (space_bound s (pr_space _ _ _ (co_space _ _ _ _ _ Hc))) as Hsb.
    rewrite s32_id, Z.quot_div_nonneg by (done || word_lia || lia).
    destruct (fault_in_virtual s bs o bo v ((addr + i) / PageSize) Hc) as (s1 & v1 & e & E & Ee & Hval & Hk & Hb & Hc1 & Hsv).
    { apply page_of. lia. }
    rewrite E, bind_Ok. destruct (phys_of s1 bs o bo v1 (addr + i) e Hc1 ltac:(lia) Ee Hval) as (_ & _ & Hx).
    rewrite (proj1 Hsv) in Hx. specialize (Hbytes 0 ltac:(lia)) as Hx0. rewrite Z.add_0_r, Hx in Hx0.
    change (znth (x :: l) 0) with (Some x) in Hx0. rewrite (proj2 (zget_Ok _ _ _) Hx0), bind_Ok, zset_Ok, bind_Ok by (rewrite Hb; lia).
    pose proof (coherent_set_buf _ _ _ _ _ (<[Z.to_nat i := x]> (buf v1)) Hc1) as Hc2. cbv zeta.
    assert (take (Z.to_nat (i + 1)) (<[Z.to_nat i:=x]> (buf v1)) = take (Z.to_nat i) (buf v) ++ [x]) as Ht
      by (rewrite Hb; apply take_insert_next; lia).
    destruct ((bytes =? 0) && (x =? 0)).
    + subst l. eexists s1, _. split; [reflexivity|]. split; [done|]. split; [exact Hc2|]. split; [exact Hsv|].
      cbn [buf set_buf]. split; [by rewrite zlen_insert, Hb|]. exact Ht.
    + destruct (IH n (i + 1) s1 (set_buf v1 (<[Z.to_nat i := x]> (buf v1))) Hc2 Hrest) as (s2 & v2 & E2 & Hk2 & Hc3 & Hsv2 & Hb2 & Ht2).
      * cbn in Hn. lia.
      * done.
      * lia.
      * rewrite (kept_pages _ _ Hk). lia.
      * cbn [buf set_buf]. rewrite zlen_insert, Hb. lia.
      * intros j Hj. replace (addr + (i + 1) + j) with (addr + i + (j + 1)) by lia.
        change (vbyte s1 bs v1 (addr + i + (j + 1)) = znth l j). rewrite (proj1 Hsv), Hbytes by lia. apply znth_cons. lia.
      * exists s2, v2. split; [exact E2|]. split; [by eapply kept_trans|]. split; [done|]. split; [|split].
        -- split; intros a; [rewrite (proj1 Hsv2)|rewrite (proj2 Hsv2)]; apply Hsv.
        -- rewrite Hb2. cbn [buf set_buf]. by rewrite zlen_insert, Hb.
        -- replace (i + (zlen l + 1)) with (i + 1 + zlen l) by lia. rewrite Ht2. cbn [buf set_buf]. rewrite Ht.
           by rewrite <- app_assoc.
Qed.

Lemma write_virtual bs o bo addr bytes str l : forall n i s v,
  coherent s bs o bo v -> chunk bytes i l -> (length l <= n)%nat -> 0 <= addr -> 0 <= i ->
  addr + i + zlen l <= numPages s * PageSize ->
  (forall j, 0 <= j < zlen l -> znth str (i + j) = znth l j) ->
  exists s' v', write_loop yield n i addr bytes str s v = Ok (s', v') /\ kept s s' /\ coherent s' bs o bo v' /\
    buf v' = buf v /\ (forall a, vbyte o bo v' a = vbyte o bo v a) /\
    forall a, vbyte s' bs v' a =
      if (addr + i <=? a) && (a <? addr + i + zlen l) then znth l (a - (addr + i)) else vbyte s bs v a.
Proof.
  induction l as [|x l IH]; intros n i s v Hc Hch Hn Ha Hi Hend Hstr.
  - exists s, v. assert (write_loop yield n i addr bytes str s v = Ok (s, v)) as ->.
    { destruct n; cbn [write_loop]; [done|]. by rewrite (chunk_nil _ _ Hch). }
    split; [done|]. split; [apply kept_refl|]. split; [done|]. split; [done|]. split; [done|].
    intros a. change (zlen []) with 0. destruct (Z.leb_spec (addr + i) a), (Z.ltb_spec a (addr + i + 0)); cbn [andb]; done || lia.
  - destruct n as [|n]; [cbn in Hn; lia|]. destruct (chunk_cons _ _ _ _ Hch) as [Hgo Hrest]. cbn [write_loop]. rewrite Hgo.
    assert (zlen (x :: l) = zlen l + 1) as Hl by (unfold zlen; cbn [length]; lia). rewrite Hl in *.
    assert (0 <= zlen l) by (unfold zlen; lia).
    pose proof (space_bound s (pr_space _ _ _ (co_space _ _ _ _ _ Hc))) as Hsb.
    rewrite s32_id, Z.quot_div_nonneg by (done || word_lia || lia).
    destruct (fault_in_virtual s bs o bo v ((addr + i) / PageSize) Hc) as (s1 & v1 & e & E & Ee & Hval & Hk & Hb & Hc1 & Hsv).
    { apply page_of. lia. }
    rewrite E, bind_Ok. specialize (Hstr 0 ltac:(lia)) as Hx0. rewrite Z.add_0_r in Hx0.
    change (znth (x :: l) 0) with (Some x) in Hx0. rewrite (proj2 (zget_Ok _ _ _) Hx0), bind_Ok.
    destruct (phys_of s1 bs o bo v1 (addr + i) e Hc1 ltac:(lia) Ee Hval) as (_ & Hr & _).
    assert ((memory v1).[phys_addr e (addr + i) := x] = Ok (<[Z.to_nat (phys_addr e (addr + i)) := x]> (memory v1))) as Em
      by (apply zset_Ok; by rewrite (wv_memory _ (co_vm _ _ _ _ _ Hc1))).
    rewrite Em, bind_Ok. destruct (store_virtual s1 bs o bo v1 (addr + i) e x _ Hc1 ltac:(lia) Ee Hval Em) as (Hc2 & Hin & Hout).
    set (v2 := set_memory v1 _) in *. cbv zeta.
    assert (forall a, vbyte s1 bs v2 a = if a =? addr + i then Some x else vbyte s bs v a) as Hin'.
    { intros a. rewrite Hin. destruct (a =? addr + i); [done|apply Hsv]. }
    assert (forall a, vbyte o bo v2 a = vbyte o bo v a) as Hout' by (intros a; rewrite Hout; apply Hsv).
    destruct ((bytes =? 0) && (x =? 0)).
    + subst l. exists s1, v2. split; [done|]. split; [done|]. split; [done|]. split; [exact Hb|]. split; [done|].
      intros a. rewrite Hin'. change (zlen [] + 1) with 1.
      destruct (Z.eqb_spec a (addr + i)) as [->|Hne].
      * rewrite (proj2 (Z.leb_le _ _)), (proj2 (Z.ltb_lt _ _)) by lia. cbn [andb]. by rewrite Z.sub_diag.
      * destruct (Z.leb_spec (addr + i) a), (Z.ltb_spec a (addr + i + 1)); cbn [andb]; done || lia.
    + destruct (IH n (i + 1) s1 v2 Hc2 Hrest) as (s2 & v3 & E2 & Hk2 & Hc3 & Hb2 & Ho2 & Hi2).
      * cbn in Hn. lia.
      * done.
      * lia.
      * rewrite (kept_pages _ _ Hk). lia.
      * intros j Hj. replace (i + 1 + j) with (i + (j + 1)) by lia. rewrite Hstr by lia. apply znth_cons. lia.
      * exists s2, v3. split; [exact E2|]. split; [by eapply kept_trans|]. split; [done|]. split; [by rewrite Hb2|].
        split; [intros a; by rewrite Ho2|]. intros a. rewrite Hi2, Hin'.
        destruct (Z.leb_spec (addr + (i + 1)) a), (Z.ltb_spec a (addr + (i + 1) + zlen l)), (Z.leb_spec (addr + i) a),
          (Z.ltb_spec a (addr + i + (zlen l + 1))), (Z.eqb_spec a (addr + i)) as [->|]; cbn [andb]; try done; try lia.
        -- replace (a - (addr + i)) with (a - (addr + (i + 1)) + 1) by lia. symmetry. apply znth_cons. lia.
        -- by rewrite Z.sub_diag.
Qed.
End virtual.
