(* ===== verification/Args.v ===== *)
(** * Args: the arguments of a new program

    [AddrSpace::createStackArgs] copies the argument vector of Exec from the
    memory of the caller to the stack of the new program, through the page tables
    of both. *)

From S2P Require Import Prelude BitMap Machine Interrupt Disk SynchDisk FDList AddrSpace Paging VirtMem.
From S2P Require Import Process PagingProps.

(** ** Blocks of bytes in an array *)

Definition bytes_at (l : list Z) (p : Z) (bs : list Z) : Prop :=
  0 <= p /\ forall j, 0 <= j < zlen bs -> znth l (p + j) = znth bs j.

Lemma bytes_at_frame l l' p bs :
  (forall a, p <= a < p + zlen bs -> znth l' a = znth l a) -> bytes_at l p bs -> bytes_at l' p bs.
Proof. intros Hf [Hp Hb]. split; [done|]. intros j Hj. rewrite Hf by lia. by apply Hb. Qed.

Lemma bytes_at_zwrite l p bs l' : zwrite l p bs = Ok l' -> bytes_at l' p bs.
Proof.
  intros E. pose proof (zwrite_inv _ _ _ _ E) as (Hp & _ & _). split; [done|]. intros j Hj.
  rewrite (znth_zwrite _ _ _ _ _ E), (proj2 (Z.leb_le _ _)), (proj2 (Z.ltb_lt _ _)) by lia.
  cbn [andb]. f_equal. lia.
Qed.

Lemma zwrite_exists (l : list Z) p bs : 0 <= p -> p + zlen bs <= zlen l -> exists l', zwrite l p bs = Ok l'.
Proof. intros Hp Hl. eexists. by apply zwrite_Ok. Qed.

Lemma zwrite_frame (l : list Z) p bs l' a : zwrite l p bs = Ok l' -> ~ p <= a < p + zlen bs -> znth l' a = znth l a.
Proof.
  intros E Ha. rewrite (znth_zwrite _ _ _ _ _ E).
  destruct (Z.leb_spec p a), (Z.ltb_spec a (p + zlen bs)); cbn [andb]; done || lia.
Qed.

Lemma bytes_at_app l p b1 b2 : bytes_at l p (b1 ++ b2) <-> bytes_at l p b1 /\ bytes_at l (p + zlen b1) b2.
Proof.
  assert (0 <= zlen b1 /\ 0 <= zlen b2) as [H1 H2] by (unfold zlen; lia).
  split.
  - intros [Hp Hb]. rewrite zlen_app in Hb. split; (split; [lia|]).
    + intros j Hj. rewrite Hb by lia. rewrite !znth_lookup by lia. rewrite lookup_app_l; [done|]. unfold zlen in *. lia.
    + intros j Hj. rewrite <- Z.add_assoc, Hb by lia. rewrite !znth_lookup by lia.
      rewrite lookup_app_r by (unfold zlen in *; lia). f_equal. unfold zlen. lia.
  - intros [[Hp A] [_ B]]. split; [done|]. rewrite zlen_app. intros j Hj. destruct (Z.lt_ge_cases j (zlen b1)).
    + rewrite A by lia. rewrite !znth_lookup by lia. rewrite lookup_app_l; [done|]. unfold zlen in *. lia.
    + replace (p + j) with (p + zlen b1 + (j - zlen b1)) by lia. rewrite B by lia. rewrite !znth_lookup by lia.
      rewrite lookup_app_r by (unfold zlen in *; lia). f_equal. unfold zlen. lia.
Qed.

Lemma bytes_at_range l p bs : bytes_at l p bs -> bs <> [] -> p + zlen bs <= zlen l.
Proof.
  intros [Hp Hb] Hne. assert (0 < zlen bs) by (destruct bs; [done|unfold zlen; cbn; lia]).
  destruct (znth_in_range bs (zlen bs - 1)) as [x Ex]; [lia|]. rewrite <- Hb in Ex by lia.
  apply znth_Some_range in Ex. lia.
Qed.

(** On a concrete array. *)
Lemma bytes_at_slice l p bs : 0 <= p -> take (length bs) (drop (Z.to_nat p) l) = bs -> bytes_at l p bs.
Proof.
  intros Hp E. split; [done|]. intros j Hj. rewrite <- E, !znth_lookup by lia. unfold zlen in Hj.
  rewrite lookup_take_lt, lookup_drop by lia. f_equal. lia.
Qed.

(** ** Spaces as arrays *)

Section arrays.
Context {F W : Type} `{FileStoreLaws F W} `{SectorStore W}.
Context (yield : vmem W -> res (vmem W)).
Implicit Types (s o : AddrSpace) (v : vmem W) (bs bo l lo : list Z).

(** The program of [s] sees the bytes [l]. *)
Definition sees s bs v l : Prop :=
  zlen l = numPages s * PageSize /\ forall a, 0 <= a < zlen l -> vbyte s bs v a = znth l a.

(** Two programs that see [l] and [lo]; the buffer of [read] has its size. *)
Record pair_sees s bs l o bo lo v : Prop := {
  ps_coherent : coherent s bs o bo v;
  ps_this : sees s bs v l;
  ps_other : sees o bo v lo;
  ps_buf : zlen (buf v) = 1000
}.

Lemma pair_sees_sym s bs l o bo lo v : pair_sees s bs l o bo lo v -> pair_sees o bo lo s bs l v.
Proof. intros []. by split; [apply coherent_sym|..]. Qed.

Lemma read_block s bs l o bo lo v addr bytes c :
  pair_sees s bs l o bo lo v -> chunk bytes 0 c -> zlen c <= 1000 -> c <> [] -> bytes_at l addr c ->
  exists s' v', read yield s v addr bytes = Ok (s', v') /\ kept s s' /\ pair_sees s' bs l o bo lo v' /\
    take (length c) (buf v') = c.
Proof.
  intros [Hc Hs Ho Hb] Hch Hlen Hne Hat. pose proof (bytes_at_range _ _ _ Hat Hne) as Hr. destruct Hat as [Ha Hat].
  destruct (read_virtual yield bs o bo addr bytes c 1000 0 s v Hc Hch) as (s' & v' & E & Hk & Hc' & [Hv1 Hv2] & Hb' & Ht).
  - unfold zlen in Hlen. lia.
  - done.
  - done.
  - destruct Hs as [Hs _]. lia.
  - lia.
  - intros j Hj. rewrite Z.add_0_r. rewrite (proj2 Hs) by lia. by apply Hat.
  - exists s', v'. split; [exact E|]. split; [done|]. split.
    + split; [done|split; [by rewrite (kept_pages _ _ Hk); apply Hs|]|split; [apply Ho|]|congruence].
      * intros a Hr'. rewrite Hv1. by apply Hs.
      * intros a Hr'. rewrite Hv2. by apply Ho.
    + rewrite Z.add_0_l in Ht. unfold zlen in Ht. by rewrite Nat2Z.id in Ht.
Qed.

Lemma write_block s bs l o bo lo v addr bytes str c l' :
  pair_sees s bs l o bo lo v -> chunk bytes 0 c -> zlen c <= 1000 -> prefix c str -> zwrite l addr c = Ok l' ->
  exists s' v', write yield s v addr str bytes = Ok (s', v') /\ kept s s' /\ pair_sees s' bs l' o bo lo v'.
Proof.
  intros [Hc Hs Ho Hb] Hch Hlen [rest ->] Ew. pose proof (zwrite_inv _ _ _ _ Ew) as (Ha & Hend & _).
  destruct (write_virtual yield bs o bo addr bytes (c ++ rest) c 1000 0 s v Hc Hch) as (s' & v' & E & Hk & Hc' & Hb' & Ho' & Hs').
  - unfold zlen in Hlen. lia.
  - done.
  - done.
  - destruct Hs as [Hs _]. lia.
  - intros j Hj. rewrite Z.add_0_l, !znth_lookup by lia. apply lookup_app_l. unfold zlen in Hj. lia.
  - exists s', v'. split; [exact E|]. split; [done|].
    split; [done|split; [rewrite (kept_pages _ _ Hk), (zlen_zwrite _ _ _ _ Ew); apply Hs|]|split; [apply Ho|]|congruence].
    + intros a Hr'. rewrite (zlen_zwrite _ _ _ _ Ew) in Hr'. rewrite Hs', (znth_zwrite _ _ _ _ _ Ew), Z.add_0_r.
      destruct (_ && _); [done|]. by apply Hs.
    + intros a Hr'. rewrite Ho'. by apply Ho.
Qed.

(** A C string, short enough for the buffer. *)
Definition c_str (str : list Z) : Prop := Forall (fun c => c <> 0) str /\ zlen str < 1000.

Lemma read_string s bs l o bo lo v addr str :
  pair_sees s bs l o bo lo v -> c_str str -> bytes_at l addr (str ++ [0]) ->
  exists s' v', read yield s v addr 0 = Ok (s', v') /\ kept s s' /\ pair_sees s' bs l o bo lo v' /\
    c_string (buf v') = Ok str.
Proof.
  intros Hp [Hs Hl] Hat.
  destruct (read_block s bs l o bo lo v addr 0 (str ++ [0]) Hp) as (s' & v' & E & Hk & Hp' & Ht).
  - right. split; [done|]. by exists str.
  - rewrite zlen_app. change (zlen [0]) with 1. lia.
  - by destruct str.
  - done.
  - exists s', v'. split; [done|]. split; [done|]. split; [done|].
    rewrite <- (take_drop (length (str ++ [0])) (buf v')), Ht, <- app_assoc. by apply c_string_prefix.
Qed.

Lemma read_word s bs l o bo lo v addr x :
  pair_sees s bs l o bo lo v -> is_s32 x -> bytes_at l addr (le_bytes 4 x) ->
  exists s' v' w, read yield s v addr 4 = Ok (s', v') /\ kept s s' /\ pair_sees s' bs l o bo lo v' /\
    zread (buf v') 0 4 = Ok w /\ s32 (le_value w) = x.
Proof.
  intros Hp Hx Hat. destruct (read_block s bs l o bo lo v addr 4 (le_bytes 4 x) Hp) as (s' & v' & E & Hk & Hp' & Ht).
  - left. by rewrite zlen_le_bytes.
  - by rewrite zlen_le_bytes.
  - done.
  - done.
  - exists s', v', (le_bytes 4 x). split; [done|]. split; [done|]. split; [done|]. split.
    + rewrite zread_Ok by (rewrite ?(ps_buf _ _ _ _ _ _ _ Hp'); done). f_equal. exact Ht.
    + rewrite le_value_bytes. change (x mod 2 ^ (8 * Z.of_nat 4)) with (u32 x). rewrite s32_u32. by apply s32_id.
Qed.

(** What a space looks like does not depend on its members for the stack. *)
Lemma pair_sees_stack s bs l o bo lo v b :
  pair_sees s bs l o bo lo v -> pair_sees (set_stack_base s b) bs l o bo lo v.
Proof.
  intros [[C1 C2 [[A1 A2 A3 A4 A5] A6 A7 A8 A9] C4 [R1 R2] C6 C7 C8] Hs Ho Hb].
  constructor; [constructor|..]; try done; constructor; done.
Qed.

Lemma pair_sees_args s bs l o bo lo v a b :
  pair_sees s bs l o bo lo v -> pair_sees (set_args s a b) bs l o bo lo v.
Proof.
  intros [[C1 C2 [[A1 A2 A3 A4 A5] A6 A7 A8 A9] C4 [R1 R2] C6 C7 C8] Hs Ho Hb].
  constructor; [constructor|..]; try done; constructor; done.
Qed.

Lemma pair_sees_bound s bs l o bo lo v : pair_sees s bs l o bo lo v -> zlen l <= 4096.
Proof. intros [Hc [-> _] _ _]. apply space_bound, (pr_space _ _ _ (co_space _ _ _ _ _ Hc)). Qed.

(** *** The pointers of the caller *)

(** The pointers [ptrs] and a null pointer, one after the other. *)
Definition words_at (l : list Z) (p : Z) (ptrs : list Z) : Prop :=
  forall i x, ptrs !! i = Some x -> bytes_at l (p + 4 * Z.of_nat i) (le_bytes 4 x).

Lemma words_at_cons l p x ptrs :
  words_at l p (x :: ptrs) <-> bytes_at l p (le_bytes 4 x) /\ words_at l (p + 4) ptrs.
Proof.
  split.
  - intros Hw. split; [specialize (Hw 0%nat x eq_refl); by rewrite Z.add_0_r in Hw|].
    intros i y Hi. specialize (Hw (S i) y Hi). by replace (p + 4 + 4 * Z.of_nat i) with (p + 4 * Z.of_nat (S i)) by lia.
  - intros [Hx Hw] [|i] y Hi; [injection Hi as <-; by rewrite Z.add_0_r|].
    specialize (Hw i y Hi). by replace (p + 4 * Z.of_nat (S i)) with (p + 4 + 4 * Z.of_nat i) by lia.
Qed.

(** The entries of an array of the code from an index on. *)
Definition entries (a : list Z) (i : Z) (xs : list Z) : Prop :=
  forall k x, xs !! k = Some x -> znth a (i + Z.of_nat k) = Some x.

Lemma entries_cons a i x xs : entries a i (x :: xs) <-> znth a i = Some x /\ entries a (i + 1) xs.
Proof.
  split.
  - intros He. split; [specialize (He 0%nat x eq_refl); by rewrite Z.add_0_r in He|].
    intros k y Hk. specialize (He (S k) y Hk). by replace (i + 1 + Z.of_nat k) with (i + Z.of_nat (S k)) by lia.
  - intros [Hx He] [|k] y Hk; [injection Hk as <-; by rewrite Z.add_0_r|].
    specialize (He k y Hk). by replace (i + Z.of_nat (S k)) with (i + 1 + Z.of_nat k) by lia.
Qed.

Definition pointer (p : Z) : Prop := 0 < p < 2 ^ 31.

Lemma read_argv_sees bs l o bo lo argv_addr ptrs : forall n arg ca count s v,
  pair_sees s bs l o bo lo v -> Forall pointer ptrs -> 0 <= arg -> 0 <= argv_addr ->
  words_at l (argv_addr + 4 * arg) (ptrs ++ [0]) -> (length ptrs < n)%nat -> arg + zlen ptrs < zlen ca ->
  exists ca' s' v', read_argv yield n arg argv_addr ca count s v = Ok (ca', count + zlen ptrs, (s', v')) /\
    kept s s' /\ pair_sees s' bs l o bo lo v' /\ zlen ca' = zlen ca /\ entries ca' arg ptrs /\
    forall i, 0 <= i < arg -> znth ca' i = znth ca i.
Proof.
  induction ptrs as [|p ptrs IH]; intros n arg ca count s v Hp HF Harg Ha Hw Hn Hl.
  all: destruct n as [|n]; [cbn in Hn; lia|]; cbn [read_argv app] in *.
  all: apply words_at_cons in Hw as [Hx Hw]; pose proof (pair_sees_bound _ _ _ _ _ _ _ Hp) as Hbd.
  all: pose proof (bytes_at_range _ _ _ Hx ltac:(done)) as Hend; rewrite zlen_le_bytes in Hend.
  all: rewrite s32_id by word_lia; replace (argv_addr + arg * 4) with (argv_addr + 4 * arg) by lia.
  - destruct (read_word s bs l o bo lo v _ 0 Hp ltac:(word_lia) Hx) as (s' & v' & w & -> & Hk & Hp' & Ew & Ex).
    change (zlen []) with 0 in Hl. rewrite bind_Ok, Ew, bind_Ok, Ex. cbv zeta. rewrite zset_Ok, bind_Ok by lia. cbn [Z.eqb].
    eexists _, s', v'. split; [by rewrite Z.add_0_r|]. split; [done|]. split; [done|]. split; [by rewrite zlen_insert|].
    split; [by intros k x Hk'|]. intros i Hi. apply znth_insert_ne; lia.
  - apply Forall_cons in HF as [Hptr HF].
    destruct (read_word s bs l o bo lo v _ p Hp ltac:(unfold pointer in Hptr; word_lia) Hx) as (s' & v' & w & -> & Hk & Hp' & Ew & Ex).
    assert (zlen (p :: ptrs) = zlen ptrs + 1) as Hz by (unfold zlen; cbn [length]; lia). rewrite Hz in *.
    assert (0 <= zlen ptrs) by (unfold zlen; lia).
    rewrite bind_Ok, Ew, bind_Ok, Ex. cbv zeta. rewrite zset_Ok, bind_Ok by lia.
    rewrite (proj2 (Z.eqb_neq p 0)) by (unfold pointer in Hptr; lia).
    destruct (IH n (arg + 1) (<[Z.to_nat arg := p]> ca) (count + 1) s' v' Hp' HF) as (ca' & s2 & v2 & E & Hk2 & Hp2 & Hl2 & He & Hlow).
    + lia.
    + done.
    + by replace (argv_addr + 4 * (arg + 1)) with (argv_addr + 4 * arg + 4) by lia.
    + cbn in Hn. lia.
    + rewrite zlen_insert. lia.
    + exists ca', s2, v2. rewrite E. split; [do 3 f_equal; lia|]. split; [by eapply kept_trans|]. split; [done|].
      rewrite zlen_insert in Hl2. split; [done|]. split.
      * apply entries_cons. split; [|done]. rewrite Hlow by lia. apply znth_insert_eq. lia.
      * intros i Hi. rewrite Hlow by lia. apply znth_insert_ne; lia.
Qed.

(** *** The strings *)

(** Storing a string without its NUL, where there is a zero already. *)
Lemma push_string s bs l o bo lo v b str :
  pair_sees s bs l o bo lo v -> c_str str -> 0 <= b -> b + zlen str < zlen l -> znth l (b + zlen str) = Some 0 ->
  exists s' v' l', write yield s v b (str ++ [0]) (zlen str) = Ok (s', v') /\ kept s s' /\
    pair_sees s' bs l' o bo lo v' /\ bytes_at l' b (str ++ [0]) /\
    forall a, ~ b <= a < b + zlen str + 1 -> znth l' a = znth l a.
Proof.
  intros Hp [Hs Hlen] Hb Hend Hz. assert (0 <= zlen str) as Hl0 by (unfold zlen; lia).
  set (c := match str with [] => [0] | _ => str end).
  assert (zlen c <= zlen str + 1 /\ zlen str <= zlen c) as [Hc1 Hc2] by (subst c; destruct str; unfold zlen; cbn [length]; lia).
  destruct (zwrite_exists l b c Hb ltac:(lia)) as [l' Ew].
  destruct (write_block s bs l o bo lo v b (zlen str) (str ++ [0]) c l' Hp) as (s' & v' & E & Hk & Hp').
  - subst c. destruct str as [|x str]; [right; split; [done|]; by exists []|left]. unfold zlen. cbn [length]. lia.
  - lia.
  - subst c. destruct str; [by exists []|by exists [0]].
  - done.
  - exists s', v', l'. split; [exact E|]. split; [done|]. split; [done|]. split.
    + subst c. destruct str as [|x str]; [by apply (bytes_at_zwrite l)|]. apply bytes_at_app.
      split; [by apply (bytes_at_zwrite l)|]. split; [lia|]. intros j Hj. change (zlen [0]) with 1 in Hj.
      assert (j = 0) as -> by lia. rewrite Z.add_0_r, (zwrite_frame _ _ _ _ _ Ew) by lia. exact Hz.
    + intros a Ha. apply (zwrite_frame _ _ _ _ _ Ew). lia.
Qed.

(** The bytes the strings take, each with its NUL. *)
Definition room (strs : list (list Z)) : Z := foldr (fun str n => zlen str + 1 + n) 0 strs.

Lemma room_nonneg strs : 0 <= room strs.
Proof. induction strs as [|str strs IH]; cbn [room foldr]; [done|]. unfold room, zlen in *. lia. Qed.

(** The string at [ptr], within a range. *)
Definition string_in (l : list Z) (low hi ptr : Z) (str : list Z) : Prop :=
  low <= ptr /\ ptr + zlen str + 1 <= hi /\ bytes_at l ptr (str ++ [0]).

Lemma string_in_weaken l low hi low' hi' ptr str :
  low' <= low -> hi <= hi' -> string_in l low hi ptr str -> string_in l low' hi' ptr str.
Proof. intros H1' H2' (A & B & C). split; [lia|]. split; [lia|done]. Qed.

Lemma copy_args_sees bc lc bt ca strs : forall ptrs arg st cur this v lt,
  pair_sees cur bc lc this bt lt v -> Forall2 (fun p str => bytes_at lc p (str ++ [0])) ptrs strs -> Forall c_str strs ->
  entries ca arg ptrs -> 0 <= arg -> arg + 1 + zlen strs <= zlen st ->
  room strs <= stack_base this <= zlen lt ->
  (forall a, stack_base this - room strs <= a < stack_base this -> znth lt a = Some 0) ->
  exists st' cur' this' v' lt' nptrs,
    copy_args yield (length strs) arg ca st cur this v = Ok (st', (cur', this', v')) /\
    pair_sees cur' bc lc this' bt lt' v' /\ stack_base this' = stack_base this - room strs /\ zlen st' = zlen st /\
    entries st' (arg + 1) nptrs /\ (forall i, 0 <= i < arg + 1 -> znth st' i = znth st i) /\
    Forall2 (string_in lt' (stack_base this - room strs) (stack_base this)) nptrs strs /\
    (forall a, ~ stack_base this - room strs <= a < stack_base this -> znth lt' a = znth lt a) /\ zlen lt' = zlen lt.
Proof.
  induction strs as [|str strs IH]; intros ptrs arg st cur this v lt Hp Hpt HF He Harg Hst Hroom Hz.
  { exists st, cur, this, v, lt, []. cbn [length copy_args room foldr] in *. rewrite Z.sub_0_r.
    split; [done|]. split; [done|]. split; [done|]. split; [done|]. split; [by intros k x Hk|]. split; [done|].
    split; [constructor|done]. }
  inversion Hpt as [|p ? ptrs' ? Hat Hpt' E1 E2]; subst. apply Forall_cons in HF as [Hstr HF].
  apply entries_cons in He as [Hca He]. cbn [length copy_args]. pose proof (pair_sees_bound _ _ _ _ _ _ _ (pair_sees_sym _ _ _ _ _ _ _ Hp)) as Hbd.
  assert (zlen (str :: strs) = zlen strs + 1) as Hzl by (unfold zlen; cbn [length]; lia). rewrite Hzl in *.
  change (room (str :: strs)) with (zlen str + 1 + room strs) in *. pose proof (room_nonneg strs) as Hrn.
  assert (0 <= zlen str /\ 0 <= zlen strs) as [Hl1 Hl2] by (unfold zlen; lia).
  rewrite (proj2 (zget_Ok _ _ _) Hca), bind_Ok.
  destruct (read_string cur bc lc this bt lt v p str Hp Hstr Hat) as (cur1 & v1 & -> & _ & Hp1 & Es).
  rewrite bind_Ok, Es, bind_Ok. cbv zeta. set (b := s32 (stack_base this - (zlen str + 1))).
  assert (b = stack_base this - (zlen str + 1)) as Hb by (unfold b; apply s32_id; word_lia). clearbody b.
  cbn [stack_base set_stack_base]. rewrite zset_Ok, bind_Ok by lia.
  destruct (push_string (set_stack_base this b) bt lt cur1 bc lc v1 b str) as (this2 & v2 & lt2 & -> & Hk2 & Hp2 & Hat2 & Hfr2).
  { by apply pair_sees_stack, pair_sees_sym. } { done. } { lia. } { lia. } { apply Hz. lia. }
  rewrite bind_Ok. assert (stack_base this2 = b) as Hsb by (rewrite Hk2; done).
  pose proof (ps_this _ _ _ _ _ _ _ Hp2) as [Hlt2 _].
  assert (zlen lt2 = zlen lt) as Hlt.
  { rewrite Hlt2, (kept_pages _ _ Hk2). symmetry. apply (ps_other _ _ _ _ _ _ _ Hp). }
  destruct (IH ptrs' (arg + 1) (<[Z.to_nat (arg + 1) := b]> st) cur1 this2 v2 lt2) as
    (st' & cur' & this' & v' & lt' & nptrs & E & Hp' & Hsb' & Hst' & He' & Hlow & HF2 & Hfr & Hlt').
  - by apply pair_sees_sym.
  - done.
  - done.
  - done.
  - lia.
  - rewrite zlen_insert. lia.
  - lia.
  - intros a Ha. rewrite Hfr2 by lia. apply Hz. lia.
  - rewrite zlen_insert in Hst'. exists st', cur', this', v', lt', (b :: nptrs). split; [exact E|]. split; [done|].
    split; [lia|]. split; [done|]. split; [|split; [|split]].
    + apply entries_cons. split; [|done]. rewrite Hlow by lia. apply znth_insert_eq. lia.
    + intros i Hi. rewrite Hlow by lia. apply znth_insert_ne; lia.
    + constructor.
      * split; [lia|]. split; [lia|]. eapply bytes_at_frame; [|exact Hat2]. rewrite zlen_app. change (zlen [0]) with 1.
        intros a Ha. apply Hfr. lia.
      * eapply Forall2_impl; [exact HF2|]. intros q t. apply string_in_weaken; lia.
    + split; [|congruence]. intros a Ha. rewrite Hfr by lia. apply Hfr2. lia.
Qed.

(** *** The vector of the new program *)

Lemma push_pointers_sees bt o bo lo st ptrs : forall arg this v lt,
  pair_sees this bt lt o bo lo v -> entries st arg ptrs -> 0 <= arg -> 0 <= stack_base this ->
  stack_base this + 4 * (arg + zlen ptrs) <= zlen lt ->
  exists this' v' lt', push_pointers yield (length ptrs) arg st this v = Ok (this', v') /\ kept this this' /\
    pair_sees this' bt lt' o bo lo v' /\ words_at lt' (stack_base this + 4 * arg) ptrs /\
    forall a, ~ stack_base this + 4 * arg <= a < stack_base this + 4 * (arg + zlen ptrs) -> znth lt' a = znth lt a.
Proof.
  induction ptrs as [|p ptrs IH]; intros arg this v lt Hp He Harg Hsb Hend.
  { exists this, v, lt. split; [done|]. split; [apply kept_refl|]. split; [done|]. split; [by intros i x Hi|done]. }
  apply entries_cons in He as [Hx He]. cbn [length push_pointers].
  assert (zlen (p :: ptrs) = zlen ptrs + 1) as Hz by (unfold zlen; cbn [length]; lia). rewrite Hz in *.
  assert (0 <= zlen ptrs) by (unfold zlen; lia). pose proof (pair_sees_bound _ _ _ _ _ _ _ Hp) as Hbd.
  rewrite (proj2 (zget_Ok _ _ _) Hx), bind_Ok, s32_id by word_lia.
  replace (stack_base this + arg * 4) with (stack_base this + 4 * arg) by lia.
  destruct (zwrite_exists lt (stack_base this + 4 * arg) (le_bytes 4 p)) as [lt1 Ew]; [lia|rewrite zlen_le_bytes; lia|].
  destruct (write_block this bt lt o bo lo v (stack_base this + 4 * arg) 4 (le_bytes 4 p) (le_bytes 4 p) lt1 Hp)
    as (this1 & v1 & -> & Hk1 & Hp1); [left; by rewrite zlen_le_bytes|by rewrite zlen_le_bytes|done|done|].
  rewrite bind_Ok. assert (stack_base this1 = stack_base this) as Hsb1 by (by rewrite Hk1).
  destruct (IH (arg + 1) this1 v1 lt1 Hp1 He) as (this' & v' & lt' & E & Hk & Hp' & Hw & Hfr).
  - lia.
  - lia.
  - rewrite Hsb1, (zlen_zwrite _ _ _ _ Ew). lia.
  - rewrite Hsb1 in *. exists this', v', lt'. split; [exact E|]. split; [by eapply kept_trans|]. split; [done|]. split.
    + apply words_at_cons. split; [|by replace (stack_base this + 4 * arg + 4) with (stack_base this + 4 * (arg + 1)) by lia].
      eapply bytes_at_frame; [|by apply (bytes_at_zwrite lt)]. rewrite zlen_le_bytes. intros a Ha. apply Hfr. lia.
    + intros a Ha. rewrite Hfr by lia. apply (zwrite_frame _ _ _ _ _ Ew). rewrite zlen_le_bytes. lia.
Qed.

(** An argument vector at [p]: pointers to the strings, and a null pointer. *)
Definition argument_vector (l : list Z) (p : Z) (args : list (list Z)) : Prop :=
  exists ptrs, words_at l p (ptrs ++ [0]) /\ Forall pointer ptrs /\
    Forall2 (fun q str => bytes_at l q (str ++ [0])) ptrs args.

Lemma words_at_app l p a b : words_at l p (a ++ b) <-> words_at l p a /\ words_at l (p + 4 * zlen a) b.
Proof.
  revert p. induction a as [|x a IH]; intros p; cbn [app].
  - change (zlen []) with 0. rewrite Z.add_0_r. split; [|by intros [_ ?]]. intros Hw. split; [by intros i y Hi|done].
  - rewrite !words_at_cons, IH. replace (p + 4 + 4 * zlen a) with (p + 4 * zlen (x :: a)) by (unfold zlen; cbn [length]; lia).
    tauto.
Qed.

Lemma words_at_frame l l' p ptrs :
  (forall a, p <= a < p + 4 * zlen ptrs -> znth l' a = znth l a) -> words_at l p ptrs -> words_at l' p ptrs.
Proof.
  intros Hf Hw i x Hi. eapply bytes_at_frame; [|by apply Hw]. rewrite zlen_le_bytes. intros a Ha. apply Hf.
  apply lookup_lt_Some in Hi. unfold zlen. lia.
Qed.

(** Rounding down to a multiple of 4. *)
Lemma align x : Z.land x (Z.lnot 3) = 4 * (x / 4).
Proof.
  change (Z.lnot 3) with (Z.lnot (Z.ones 2)). rewrite <- Z.ldiff_land, Z.ldiff_ones_r by done.
  rewrite Z.shiftl_mul_pow2, Z.shiftr_div_pow2 by done. change (2 ^ 2) with 4. lia.
Qed.

(** The pointers and the null pointer, below the strings. *)
Lemma push_vector bt o bo lo st ptrs strs low hi this v lt :
  pair_sees this bt lt o bo lo v -> entries st 0 ptrs -> 0 < stack_base this ->
  Forall2 (string_in lt low hi) ptrs strs -> stack_base this + 4 * zlen ptrs + 4 <= low -> low <= hi <= zlen lt ->
  exists this1 v1 this' v' lt', push_pointers yield (length ptrs) 0 st this v = Ok (this1, v1) /\
    stack_base this1 = stack_base this /\
    write yield this1 v1 (s32 (stack_base this1 + zlen ptrs * 4)) (le_bytes 4 0) 4 = Ok (this', v') /\ kept this this' /\
    pair_sees this' bt lt' o bo lo v' /\ argument_vector lt' (stack_base this) strs /\
    forall a, ~ stack_base this <= a < low -> znth lt' a = znth lt a.
Proof.
  intros Hp He Hb HF Hlow Hhi. assert (0 <= zlen ptrs) as Hl by (unfold zlen; lia).
  pose proof (pair_sees_bound _ _ _ _ _ _ _ Hp) as Hbd.
  destruct (push_pointers_sees bt o bo lo st ptrs 0 this v lt Hp He) as (this1 & v1 & lt1 & E1 & Hk1 & Hp1 & Hw & Hfr); [lia..|].
  assert (stack_base this1 = stack_base this) as Hsb by (by rewrite Hk1).
  pose proof (ps_this _ _ _ _ _ _ _ Hp1) as [Hl1 _]. rewrite (kept_pages _ _ Hk1) in Hl1.
  pose proof (ps_this _ _ _ _ _ _ _ Hp) as [Hl0 _]. assert (zlen lt1 = zlen lt) as Hl1' by congruence.
  destruct (zwrite_exists lt1 (stack_base this + 4 * zlen ptrs) (le_bytes 4 0)) as [lt' Ew]; [lia|rewrite zlen_le_bytes; lia|].
  destruct (write_block this1 bt lt1 o bo lo v1 (stack_base this + 4 * zlen ptrs) 4 (le_bytes 4 0) (le_bytes 4 0) lt' Hp1)
    as (this' & v' & E2 & Hk2 & Hp'); [by left|done|done|exact Ew|].
  assert (forall a, ~ stack_base this <= a < low -> znth lt' a = znth lt a) as Hout.
  { intros a Ha. rewrite (zwrite_frame _ _ _ _ _ Ew) by (rewrite zlen_le_bytes; lia). apply Hfr. lia. }
  exists this1, v1, this', v', lt'. split; [exact E1|]. split; [done|]. split.
  { rewrite Hsb, s32_id by word_lia. by replace (zlen ptrs * 4) with (4 * zlen ptrs) by lia. }
  split; [by eapply kept_trans|]. split; [done|]. split; [|done]. exists ptrs. split; [|split].
  - apply words_at_app. split.
    + eapply words_at_frame; [|rewrite Z.mul_0_r, Z.add_0_r in Hw; exact Hw]. intros a Ha.
      apply (zwrite_frame _ _ _ _ _ Ew). rewrite zlen_le_bytes. lia.
    + apply words_at_cons. split; [by apply (bytes_at_zwrite lt1)|]. by intros i x Hi.
  - apply Forall_forall. intros q Hq. apply list_elem_of_lookup in Hq as [i Hi].
    destruct (Forall2_lookup_l _ _ _ _ _ HF Hi) as (str & _ & H1' & H2' & _). unfold pointer.
    assert (0 <= zlen str) by (unfold zlen; lia). word_lia.
  - eapply Forall2_impl; [exact HF|]. intros q str (A & B & C). eapply bytes_at_frame; [|exact C].
    rewrite zlen_app. change (zlen [0]) with 1. intros a Ha. apply Hout. lia.
Qed.

(** The name, with its NUL. *)
Lemma push_name bt lt o bo lo this v b name :
  pair_sees this bt lt o bo lo v -> c_str name -> 0 <= b -> b + zlen name + 1 <= zlen lt ->
  exists this' v' lt', write yield this v b (name ++ [0]) 0 = Ok (this', v') /\ kept this this' /\
    pair_sees this' bt lt' o bo lo v' /\ zlen lt' = zlen lt /\ bytes_at lt' b (name ++ [0]) /\
    forall a, ~ b <= a < b + zlen name + 1 -> znth lt' a = znth lt a.
Proof.
  intros Hp [Hn Hl] Hb Hend. assert (zlen (name ++ [0]) = zlen name + 1) as Hz by (rewrite zlen_app; done).
  destruct (zwrite_exists lt b (name ++ [0])) as [lt1 Ew]; [lia..|].
  destruct (write_block this bt lt o bo lo v b 0 (name ++ [0]) (name ++ [0]) lt1 Hp) as (this1 & v1 & E & Hk & Hp1).
  { right. split; [done|]. by exists name. } { lia. } { reflexivity. } { exact Ew. }
  exists this1, v1, lt1. split; [exact E|]. split; [done|]. split; [done|]. split; [by apply zlen_zwrite in Ew|].
  split; [by apply (bytes_at_zwrite lt)|]. intros a Ha. apply (zwrite_frame _ _ _ _ _ Ew). lia.
Qed.

(** Where the vector of a program goes, below its strings. *)
Definition vector_base (stack : Z) (strs : list (list Z)) : Z :=
  4 * ((stack - room strs - (zlen strs * 4 + 4)) / 4).

(** C10: a new program gets the arguments of Exec.  Let the two programs, the caller
    and the new one, be such as addrspace.cc loads whole: well-formed headers, the
    data right after the text and up to the end of the file, no page read-only, and on
    each page of initialised data the end computed at addrspace.cc:645 clipped to the
    frame (for the others that line loses data, and they are left out); and let there
    be a free frame for each page that the two still have on disk.  Let the caller see
    at [argv_addr] a vector of at most 18 strings (each, and the name, shorter than the
    kernel's buffer of 1000), and let the memory the new program sees below its stack
    pointer be zero, with room for a copy.  Then createStackArgs, which reads the one
    memory and writes the other through their page tables and loads pages of both as
    it goes, leaves in the new program, from the aligned address it has recorded as
    argv, the vector of the name and the arguments, with argc their number; no other
    byte the new program sees has changed, and none the caller sees. *)
Theorem createStackArgs_correct stack_words bc lc bt lt cur this v argv_addr name args :
  pair_sees cur bc lc this bt lt v -> argument_vector lc argv_addr args -> 0 <= argv_addr ->
  c_str name -> Forall c_str args -> (length args <= 18)%nat -> zlen stack_words = 19 ->
  let strs := name :: args in
  let base := vector_base (stack_base this) strs in
  0 < base -> stack_base this <= zlen lt ->
  (forall a, base <= a < stack_base this -> znth lt a = Some 0) ->
  exists cur' this' v' lt',
    createStackArgs yield stack_words cur this v argv_addr name = Ok (base - 8, (cur', this', v')) /\
    pair_sees cur' bc lc this' bt lt' v' /\ argument_vector lt' base strs /\
    argc this' = zlen strs /\ argv this' = base /\ stack_base this' = base - 8 /\
    forall a, ~ base <= a < stack_base this -> znth lt' a = znth lt a.
Proof.
  intros Hp (ptrs & Hw & Hptr & Hat) Ha Hname Hargs Hn Hsw strs base Hbase Htop Hz.
  pose proof (pair_sees_bound _ _ _ _ _ _ _ (pair_sees_sym _ _ _ _ _ _ _ Hp)) as Hbd.
  pose proof (room_nonneg args) as Hrn. pose proof (Forall2_length _ _ _ Hat) as Hlen.
  assert (0 <= zlen name /\ 0 <= zlen args <= 18 /\ zlen ptrs = zlen args) as (Hl1 & Hl2 & Hzp) by (unfold zlen; lia).
  assert (zlen strs = zlen args + 1) as Hzs by (unfold strs, zlen; cbn [length]; lia).
  assert (room strs = zlen name + 1 + room args) as Hroom by done.
  assert (base <= stack_base this - room strs - (zlen strs * 4 + 4)) as Hbelow
    by (unfold base, vector_base; Z.div_mod_to_equations; lia).
  unfold createStackArgs. cbv zeta. cbn [stack_base set_stack_base].
  set (b := s32 (stack_base this - (zlen name + 1))).
  assert (b = stack_base this - (zlen name + 1)) as Hb by (unfold b; apply s32_id; word_lia). clearbody b.
  destruct (push_name bt lt cur bc lc (set_stack_base this b) v b name) as (this1 & v1 & lt1 & -> & Hk1 & Hp1 & Hlt1 & Hn1 & Hfr1);
    [by apply pair_sees_stack, pair_sees_sym|done|lia|lia|].
  assert (stack_base this1 = b) as Hsb1 by (by rewrite Hk1). rewrite bind_Ok, Hsb1, zset_Ok, bind_Ok by lia.
  destruct (read_argv_sees bc lc this1 bt lt1 argv_addr ptrs 19 0 (replicate 20 0) 1 cur v1) as
    (ca & cur1 & v2 & -> & _ & Hp2 & Hca & Hce & _);
    [by apply pair_sees_sym|done|done|done|by rewrite Z.mul_0_r, Z.add_0_r|unfold zlen in Hl2; lia|rewrite Hzp; change (zlen (replicate 20 0)) with 20; lia|].
  change (zlen (replicate 20 0)) with 20 in Hca. rewrite bind_Ok, Hzp, zset_Ok, bind_Ok by lia.
  replace (Z.to_nat (1 + zlen args - 1)) with (length args) by (unfold zlen; lia).
  destruct (copy_args_sees bc lc bt (<[Z.to_nat (1 + zlen args) := 0]> ca) args ptrs 0 (<[Z.to_nat 0 := b]> stack_words) cur1 this1 v2 lt1)
    as (st & cur2 & this2 & v3 & lt2 & nptrs & -> & Hp3 & Hsb2 & Hst & Hse & Hslow & HF & Hfr2 & Hlt2);
    [done|done|done| |done|rewrite zlen_insert; lia|lia| |].
  { intros k x Hk. rewrite Z.add_0_l. pose proof (Hce k x Hk) as E. rewrite Z.add_0_l in E.
    apply lookup_lt_Some in Hk. rewrite znth_insert_ne by (unfold zlen; lia). done. }
  { intros a Har. rewrite Hfr1 by lia. apply Hz. lia. }
  rewrite bind_Ok, Hsb2, Hsb1, align, (s32_id (b - room args - _)) by word_lia. rewrite Hsb1 in *.
  replace (4 * ((b - room args - ((1 + zlen args) * 4 + 4)) / 4)) with base
    by (unfold base, vector_base; rewrite Hroom, Hzs; do 2 f_equal; lia).
  pose proof (Forall2_length _ _ _ HF) as Hnl.
  destruct (push_vector bt cur2 bc lc st (b :: nptrs) strs (b - room args) (stack_base this) (set_stack_base this2 base) v3 lt2)
    as (this3 & v4 & this4 & v5 & lt' & E3 & Hsb3 & E4 & Hk4 & Hp4 & Hvec & Hfr3).
  - by apply pair_sees_stack, pair_sees_sym.
  - apply entries_cons. split; [|exact Hse]. rewrite Hslow by lia. apply znth_insert_eq. lia.
  - done.
  - constructor.
    + split; [lia|]. split; [lia|]. eapply bytes_at_frame; [|exact Hn1]. rewrite zlen_app. change (zlen [0]) with 1.
      intros a Har. apply Hfr2. lia.
    + eapply Forall2_impl; [exact HF|]. intros q str. apply string_in_weaken; lia.
  - cbn [stack_base set_stack_base]. replace (zlen (b :: nptrs)) with (zlen strs) by (unfold strs, zlen; cbn [length]; lia). lia.
  - lia.
  - replace (Z.to_nat (1 + zlen args)) with (length (b :: nptrs)) by (unfold zlen; cbn [length]; lia).
    replace (1 + zlen args) with (zlen (b :: nptrs)) by (unfold zlen; cbn [length]; lia). cbn [stack_base set_stack_base] in *.
    rewrite E3, bind_Ok, E4, bind_Ok. assert (stack_base this4 = base) as Hsb4 by (by rewrite Hk4).
    cbn [stack_base set_args]. rewrite Hsb4, s32_id by word_lia. eexists _, _, _, lt'. split; [reflexivity|].
    split; [by apply pair_sees_sym, pair_sees_stack, pair_sees_args|]. split; [exact Hvec|].
    split; [cbn; unfold strs, zlen; cbn [length]; lia|]. split; [done|]. split; [done|].
    intros a Har. rewrite Hfr3, Hfr2, Hfr1 by lia. done.
Qed.

(** ** The kernel's accesses refine those to two arrays *)

(** What the handlers do with a program's memory: fetch [n] bytes or a string,
    store bytes or a string; [mine] says in which of the two spaces. *)
Inductive access :=
| Fetch (mine : bool) (addr n : Z)
| FetchString (mine : bool) (addr : Z)
| Store (mine : bool) (addr : Z) (bytes : list Z)
| StoreString (mine : bool) (addr : Z) (str : list Z).

Definition is_mine (a : access) : bool :=
  match a with Fetch m _ _ | FetchString m _ | Store m _ _ | StoreString m _ _ => m end.

(** As [AddrSpace::read] and [write] do it. *)
Definition space_access (a : access) s v : res (list Z * (AddrSpace * vmem W)) :=
  match a with
  | Fetch _ addr n => '(s, v) ← read yield s v addr n; mret (take (Z.to_nat n) (buf v), (s, v))
  | FetchString _ addr => '(s, v) ← read yield s v addr 0; str ← c_string (buf v); mret (str, (s, v))
  | Store _ addr bytes => sv ← write yield s v addr bytes (zlen bytes); mret ([], sv)
  | StoreString _ addr str => sv ← write yield s v addr (str ++ [0]) 0; mret ([], sv)
  end.

Fixpoint spaces_run (ops : list access) s o v : res (list (list Z) * (AddrSpace * AddrSpace * vmem W)) :=
  match ops with
  | [] => mret ([], (s, o, v))
  | a :: ops =>
      '(r, (s, o, v)) ← (if is_mine a then '(r, (s, v)) ← space_access a s v; mret (r, (s, o, v))
                         else '(r, (o, v)) ← space_access a o v; mret (r, (s, o, v)));
      '(rs, st) ← spaces_run ops s o v;
      mret (r :: rs, st)
  end.

(** On an array of bytes; at most what the static buffer holds. *)
Definition array_access (a : access) l : res (list Z * list Z) :=
  match a with
  | Fetch _ addr n => if (1 <=? n) && (n <=? 1000) then bs ← zread l addr n; mret (bs, l) else Err OutOfBounds
  | FetchString _ addr =>
      if 0 <=? addr then
        str ← c_string (drop (Z.to_nat addr) l);
        if zlen str <? 1000 then mret (str, l) else Err OutOfBounds
      else Err OutOfBounds
  | Store _ addr bytes =>
      if (1 <=? zlen bytes) && (zlen bytes <=? 1000) then l ← zwrite l addr bytes; mret ([], l) else Err OutOfBounds
  | StoreString _ addr str =>
      if bool_decide (c_str str) then l ← zwrite l addr (str ++ [0]); mret ([], l) else Err OutOfBounds
  end.

Fixpoint arrays_run (ops : list access) l lo : res (list (list Z) * (list Z * list Z)) :=
  match ops with
  | [] => mret ([], (l, lo))
  | a :: ops =>
      '(r, (l, lo)) ← (if is_mine a then '(r, l) ← array_access a l; mret (r, (l, lo))
                       else '(r, lo) ← array_access a lo; mret (r, (l, lo)));
      '(rs, ls) ← arrays_run ops l lo;
      mret (r :: rs, ls)
  end.

(** One access to the first space. *)
Lemma access_sees a s bs l o bo lo v r l' :
  pair_sees s bs l o bo lo v -> array_access a l = Ok (r, l') ->
  exists s' v', space_access a s v = Ok (r, (s', v')) /\ kept s s' /\ pair_sees s' bs l' o bo lo v'.
Proof.
  intros Hp E. destruct a as [m addr n|m addr|m addr bytes|m addr str]; cbn [array_access space_access] in *.
  - destruct ((1 <=? n) && (n <=? 1000)) eqn:Hn; [|done]. apply andb_true_iff in Hn as [?%Z.leb_le ?%Z.leb_le].
    apply bind_inv in E as (c & Er & [= <- <-]). pose proof (zread_inv _ _ _ _ Er) as (Ha & _ & Hend & Ec).
    pose proof (zlen_zread _ _ _ _ Er) as Hlen.
    destruct (read_block s bs l o bo lo v addr n c Hp) as (s' & v' & -> & Hk & Hp' & Ht).
    + left. lia. + lia. + intros ->. unfold zlen in Hlen. cbn in Hlen. lia.
    + apply bytes_at_slice; [done|]. assert (length c = Z.to_nat n) as -> by (unfold zlen in Hlen; lia). done.
    + exists s', v'. rewrite bind_Ok. split; [|done]. assert (Z.to_nat n = length c) as -> by (unfold zlen in Hlen; lia). by rewrite Ht.
  - destruct (Z.leb_spec 0 addr); [|done]. apply bind_inv in E as (str & Es & E).
    destruct (Z.ltb_spec (zlen str) 1000); [|done]. apply Ok_inj in E as [= <- <-].
    apply c_string_inv in Es as [HF (rest & Er)].
    destruct (read_string s bs l o bo lo v addr str Hp) as (s' & v' & -> & Hk & Hp' & Hc); [done| |].
    + apply bytes_at_slice; [done|]. rewrite Er. change (0 :: rest) with ([0] ++ rest). by rewrite app_assoc, take_app_length.
    + exists s', v'. by rewrite bind_Ok, Hc.
  - destruct ((1 <=? zlen bytes) && (zlen bytes <=? 1000)) eqn:Hn; [|done]. apply andb_true_iff in Hn as [?%Z.leb_le ?%Z.leb_le].
    apply bind_inv in E as (l1 & Ew & [= <- <-]).
    destruct (write_block s bs l o bo lo v addr (zlen bytes) bytes bytes l1 Hp) as (s' & v' & -> & Hk & Hp'); [left; lia|lia|done|done|].
    exists s', v'. by rewrite bind_Ok.
  - destruct (bool_decide_reflect (c_str str)) as [[HF Hl]|]; [|done]. apply bind_inv in E as (l1 & Ew & [= <- <-]).
    destruct (write_block s bs l o bo lo v addr 0 (str ++ [0]) (str ++ [0]) l1 Hp) as (s' & v' & -> & Hk & Hp').
    + right. split; [done|]. by exists str.
    + rewrite zlen_app. change (zlen [0]) with 1. lia.
    + done.
    + done.
    + exists s', v'. by rewrite bind_Ok.
Qed.

(** C9: behind demand paging each program has a memory of its own.  Let two
    programs see the arrays [l] and [lo].  Both are such as addrspace.cc loads whole:
    well-formed headers, the data right after the text and up to the end of the file,
    no page read-only, and on each page of initialised data the end computed at
    addrspace.cc:645 clipped to the frame (for the others that line loses data, and
    they are left out); their resident pages are in distinct frames, and there is a
    free frame for each page that the two still have on disk, so that nothing is
    swapped out.  Whatever sequence of fetches and stores, of bytes and of strings, the
    kernel makes in the two spaces, in any order and loading pages as it goes: if
    the sequence is good on two plain arrays (every access inside its array, and at
    most the 1000 bytes of the kernel's buffer), every access succeeds with the
    arrays' result, and the programs then see the arrays after it.  So no access
    to one space is ever seen in the other. *)
Theorem spaces_refine_arrays ops : forall s bs l o bo lo v rs l' lo',
  pair_sees s bs l o bo lo v -> arrays_run ops l lo = Ok (rs, (l', lo')) ->
  exists s' o' v', spaces_run ops s o v = Ok (rs, (s', o', v')) /\ kept s s' /\ kept o o' /\
    pair_sees s' bs l' o' bo lo' v'.
Proof.
  induction ops as [|a ops IH]; intros s bs l o bo lo v rs l' lo' Hp E; cbn [arrays_run spaces_run] in *.
  { apply Ok_inj in E as [= <- <- <-]. exists s, o, v. split; [done|]. split; [apply kept_refl|]. split; [apply kept_refl|done]. }
  apply bind_inv in E as ([r [l1 lo1]] & E1 & E). apply bind_inv in E as ([rs1 ls] & E2 & E). injection E as <- ->.
  destruct (is_mine a); apply bind_inv in E1 as ([r1 x] & Ea & [= <- <- <-]).
  - destruct (access_sees a s bs l o bo lo v _ _ Hp Ea) as (s1 & v1 & -> & Hk1 & Hp1). rewrite !bind_Ok.
    destruct (IH _ _ _ _ _ _ _ _ _ _ Hp1 E2) as (s' & o' & v' & -> & Hk & Hko & Hp').
    exists s', o', v'. split; [done|]. split; [by eapply kept_trans|done].
  - destruct (access_sees a o bo lo s bs l v _ _ (pair_sees_sym _ _ _ _ _ _ _ Hp) Ea) as (o1 & v1 & -> & Hk1 & Hp1). rewrite !bind_Ok.
    destruct (IH _ _ _ _ _ _ _ _ _ _ (pair_sees_sym _ _ _ _ _ _ _ Hp1) E2) as (s' & o' & v' & -> & Hk & Hko & Hp').
    exists s', o', v'. split; [done|]. split; [done|]. split; [by eapply kept_trans|done].
Qed.
End arrays.

(** ** A caller with two arguments *)

(** The calling program: the vector of "ab" and "c" at 0. *)
Definition caller_file : list Z := le_bytes 4 12 ++ le_bytes 4 15 ++ le_bytes 4 0 ++ [97; 98; 0] ++ [99; 0].

#[local] Existing Instance ram_files.
#[local] Existing Instance ram_laws.
(** Nothing is swapped out. *)
#[local] Instance ram_sectors : SectorStore ram := {|
  ReadSector _ _ := Err OutOfBounds;
  WriteSector _ _ _ := Err OutOfBounds
|}.

(** A program of 3 pages, not loaded yet, whose text is its whole file. *)
Definition text_space (name file : list Z) : AddrSpace :=
  mkSpace fd_sample blank_table 3 name (mkNoff NOFFMAGIC (mkSegment 0 0 (zlen file)) (mkSegment 0 0 0) (mkSegment 0 0 0))
    (mkBitMap 3 1 [0]) [-1; -1; -1] 0 368 0 0 false.
(** Two programs in an empty memory. *)
Definition two_programs (f g : list Z) : vmem ram := note_vm [([99], f); ([112], g)].
Definition arg_vm : vmem ram := two_programs caller_file [1; 2; 3; 4].
Definition padded (file : list Z) : list Z := file ++ replicate (Z.to_nat (384 - zlen file)) 0.

Lemma text_space_program name file (v : vmem ram) :
  zlen file < 384 -> ram_lookup name (store v) = Some file -> program (text_space name file) v file.
Proof.
  intros Hl Hf. assert (0 <= zlen file) by (unfold zlen; lia). split.
  - destruct (empty_bitmap 3 1 ltac:(lia) eq_refl ltac:(lia)) as [H1 H2].
    split; [done|done|exact blank_table_virt|by split_and!|done].
  - exact Hf.
  - split; [|done|by left|]; unfold wf_segment; cbn; lia.
  - by intros p pp _ [=].
  - unfold text_space, blank_table. cbn. repeat constructor; discriminate.
Qed.

Lemma text_space_empty name file p f : ~ in_frame (text_space name file) p f.
Proof.
  intros (e & E & Hv & _). change (znth blank_table p = Some e) in E. unfold znth in E.
  destruct (0 <=? p); [|done]. apply list_lookup_fmap_Some in E as (i & -> & _). done.
Qed.

Lemma check_range (P : Z -> Prop) `{forall a, Decision (P a)} m n :
  forallb (fun a => bool_decide (P a)) (seqZ m n) = true -> forall a, m <= a < m + n -> P a.
Proof.
  intros Hb a Ha. rewrite forallb_forall in Hb. apply (bool_decide_eq_true_1 _), Hb, list_elem_of_In, elem_of_seqZ. exact Ha.
Qed.

(** The bytes of the text are those of the file, then zeros. *)
Definition shows (name file : list Z) : bool :=
  forallb (fun a => bool_decide (vbyte (text_space name file) file (two_programs [] []) a = znth (padded file) a)) (seqZ 0 384).

Lemma text_space_sees name file (v : vmem ram) :
  shows name file = true -> zlen (padded file) = 384 -> sees (text_space name file) file v (padded file).
Proof.
  intros Hb Hl. split; [by rewrite Hl|]. rewrite Hl. intros a Ha.
  assert (forall a, 0 <= a < 0 + 384 -> vbyte (text_space name file) file (two_programs [] []) a = znth (padded file) a) as Hs
    by exact (check_range _ 0 384 Hb).
  rewrite <- Hs by lia.
  unfold vbyte. destruct (znth (table (text_space name file)) (a / PageSize)) as [e|] eqn:E; [|done].
  destruct (valid e) eqn:Hv; [|done]. exfalso. eapply text_space_empty. by exists e.
Qed.

Lemma text_pair f g :
  zlen f < 384 -> zlen g < 384 -> shows [99] f = true -> shows [112] g = true ->
  zlen (padded f) = 384 -> zlen (padded g) = 384 ->
  pair_sees (text_space [99] f) f (padded f) (text_space [112] g) g (padded g) (two_programs f g).
Proof.
  intros Hf Hg Sf Sg Lf Lg. split; [split|..].
  - apply note_vm_wf.
  - exact I.
  - by apply text_space_program.
  - by apply text_space_program.
  - split; intros; exfalso; by eapply text_space_empty.
  - split; intros; exfalso; by eapply text_space_empty.
  - intros p q f0 Hf0. exfalso. by eapply text_space_empty.
  - apply Nat.leb_le. vm_compute. reflexivity.
  - by apply text_space_sees.
  - by apply text_space_sees.
  - reflexivity.
Qed.

Lemma arg_pair :
  pair_sees (text_space [99] caller_file) caller_file (padded caller_file)
    (text_space [112] [1; 2; 3; 4]) [1; 2; 3; 4] (padded [1; 2; 3; 4]) arg_vm.
Proof. apply text_pair; vm_compute; reflexivity. Qed.

Lemma createStackArgs_correct_witness :
  exists cur' this' v' lt',
    createStackArgs Ok (replicate 19 0) (text_space [99] caller_file) (text_space [112] [1; 2; 3; 4]) arg_vm 0 [112] =
      Ok (336, (cur', this', v')) /\
    argument_vector lt' 344 [[112]; [97; 98]; [99]] /\ argc this' = 3 /\ argv this' = 344.
Proof.
  destruct (createStackArgs_correct Ok (replicate 19 0) caller_file (padded caller_file) [1; 2; 3; 4] (padded [1; 2; 3; 4])
    (text_space [99] caller_file) (text_space [112] [1; 2; 3; 4]) arg_vm 0 [112] [[97; 98]; [99]]) as
    (cur' & this' & v' & lt' & E & _ & Hv & Hc & Ha & _).
  - exact arg_pair.
  - exists [12; 15]. split; [|split].
    + repeat first [apply words_at_cons; split; [by apply bytes_at_slice|]|by intros i x Hi].
    + repeat constructor; unfold pointer; lia.
    + constructor; [by apply bytes_at_slice|]. constructor; [by apply bytes_at_slice|constructor].
  - lia.
  - split; [by repeat constructor|reflexivity].
  - repeat constructor; by repeat constructor.
  - cbn. lia.
  - reflexivity.
  - reflexivity.
  - vm_compute. discriminate.
  - apply (check_range _ 344 24). vm_compute. reflexivity.
  - exists cur', this', v', lt'. split; [exact E|]. split; [exact Hv|]. split; [exact Hc|exact Ha].
Defined.

Lemma spaces_refine_arrays_witness :
  exists s' o' v',
    spaces_run Ok [Fetch true 12 2; StoreString false 126 [104; 105; 33]; Store true 127 [9; 9]; FetchString false 126; FetchString true 12]
      (text_space [99] caller_file) (text_space [112] [1; 2; 3; 4]) arg_vm =
    Ok ([[97; 98]; []; []; [104; 105; 33]; [97; 98]], (s', o', v')).
Proof.
  destruct (spaces_refine_arrays Ok
    [Fetch true 12 2; StoreString false 126 [104; 105; 33]; Store true 127 [9; 9]; FetchString false 126; FetchString true 12]
    _ _ _ _ _ _ _ [[97; 98]; []; []; [104; 105; 33]; [97; 98]]
    (take 127 (padded caller_file) ++ [9; 9] ++ drop 129 (padded caller_file))
    (take 126 (padded [1; 2; 3; 4]) ++ [104; 105; 33; 0] ++ drop 130 (padded [1; 2; 3; 4])) arg_pair)
    as (s' & o' & v' & E & _).
  - vm_compute. reflexivity.
  - exists s', o', v'. exact E.
Defined.
