(* ===== verification/UserMem.v ===== *)
(** * UserMem: programs on demand-paged memory

    A program whose pages are loaded on demand runs as on a machine that holds
    its whole memory: instruction by instruction, with a fault in between, at
    most one for each page, after which the instruction is made again. *)

From S2P Require Import Prelude BitMap NList Interrupt Disk SynchDisk Machine Mips FDList AddrSpace Paging.
From S2P Require Import Process Children Exception PagingProps ExceptionProps Bytes Userland VirtMem Args.

(** ** The machine without paging *)

(** Every page of the program is in the frame of its number. *)
Record all_loaded (m : Machine) : Prop := {
  fl_tlb : tlb m = None;
  fl_table : exists t, pageTable m = Some t /\ forall p, 0 <= p < pageTableSize m ->
    exists e, znth t p = Some e /\ valid e = true /\ readOnly e = false /\ physicalPage e = p;
  fl_pages : 0 <= pageTableSize m <= NumPhysPages
}.

Definition flat_bytes (m : Machine) : list Z := take (Z.to_nat (pageTableSize m * PageSize)) (mainMemory m).

(** A kernel that serves no exception. *)
#[local] Instance no_kernel : Kernel unit := {| setStatus _ k := k; ExceptionHandler _ _ _ := Err AssertFailed |}.
#[local] Instance no_contract : KernelContract unit.
Proof. by refine {| kernel_inv _ := True; kernel_fault _ := True |}. Defined.

(** What an exception does before the handler: the load in progress ends. *)
Definition flush (va : Z) (m : Machine) : res Machine := m ← set_reg m BadVAddrReg va; DelayedLoad m 0 0.

Lemma RaiseException_flush {K} `{Kernel K} which va m (k : K) m1 :
  flush va m = Ok m1 ->
  RaiseException which va m k = ('(m, k) ← ExceptionHandler which m1 (setStatus SystemMode k); mret (m, setStatus UserMode k)).
Proof. unfold flush, RaiseException. intros E. apply bind_inv in E as (m0 & -> & E). by rewrite bind_Ok, E. Qed.

Lemma no_exception which va m r : RaiseException which va m tt <> Ok r.
Proof.
  unfold RaiseException. destruct (set_reg m BadVAddrReg va) as [m1|f]; [|done]. rewrite bind_Ok.
  by destruct (DelayedLoad m1 0 0).
Qed.

Lemma flush_wf va m : wf_machine m -> is_s32 va ->
  exists m', flush va m = Ok m' /\ wf_cpu m' /\ znth (registers m') BadVAddrReg = Some va.
Proof.
  intros Hm Hva. unfold flush. destruct (set_reg_wf m BadVAddrReg va) as (m1 & E1 & H1); [done..|].
  rewrite E1, bind_Ok. destruct (DelayedLoad_wf m1 0 0) as (m2 & E2 & H2); [done|done|word_lia|].
  exists m2. split; [done|]. split; [done|]. destruct (wf_load _ (proj1 H1)) as (lr & El & Hlr).
  pose proof (DelayedLoad_regs _ _ _ _ _ BadVAddrReg E2 El) as Hr.
  rewrite !(proj2 (Z.eqb_neq BadVAddrReg _)) in Hr by (unfold NumGPRegs in Hlr; unfold BadVAddrReg, LoadReg, LoadValueReg; lia).
  rewrite (set_reg_get _ _ _ _ _ E1), Z.eqb_refl in Hr. by apply zget_Ok.
Qed.

(** *** Touched tables *)

Lemma same_entries_lookup l l' p e :
  Forall2 same_entry l l' -> znth l p = Some e -> exists e', znth l' p = Some e' /\ same_entry e e'.
Proof.
  intros HF E. pose proof (znth_Some_range _ _ _ E) as Hp. rewrite znth_lookup in E by lia.
  destruct (Forall2_lookup_l _ _ _ _ _ HF E) as (e' & E' & Hs). exists e'. by rewrite znth_lookup by lia.
Qed.

Lemma same_entry_sym e e' : same_entry e e' -> same_entry e' e.
Proof. intros (? & ? & ? & ?). by repeat split. Qed.

Lemma same_entries_sym l l' : Forall2 same_entry l l' -> Forall2 same_entry l' l.
Proof. intros HF. apply Forall2_flip. eapply Forall2_impl; [exact HF|]. intros e e'. apply same_entry_sym. Qed.

Lemma same_entries_missing l l' :
  Forall2 same_entry l l' -> length (filter (fun e => valid e = false) l) = length (filter (fun e => valid e = false) l').
Proof.
  induction 1 as [|e e' l l' (_ & _ & C & _) _ IH]; [done|].
  rewrite !filter_cons, C. destruct (decide (valid e' = false)); cbn [length]; congruence.
Qed.

Lemma same_entries_writable l l' :
  Forall2 same_entry l l' -> Forall (fun e => wf_entry e /\ readOnly e = false) l -> Forall (fun e => wf_entry e /\ readOnly e = false) l'.
Proof.
  induction 1 as [|e e' l l' (A & B & _ & D) _ IH]; [done|]. intros [[[W1 W2] Wr] HF]%Forall_cons.
  constructor; [|by apply IH]. unfold wf_entry. split; [split|]; congruence.
Qed.

Lemma flat_same m m' : same_mapping m m' -> all_loaded m -> all_loaded m'.
Proof.
  intros [Em _ Es Et Ep _] [F1 (t & F2 & F3) F4]. split.
  - rewrite F1 in Et. by destruct (tlb m').
  - rewrite F2 in Ep. destruct (pageTable m') as [t'|]; [|done]. exists t'. split; [done|]. rewrite Es. intros p Hp.
    destruct (F3 p Hp) as (e & Ee & A & B & C). destruct (same_entries_lookup _ _ _ _ Ep Ee) as (e' & Ee' & _ & D1 & D2 & D3).
    exists e'. split_and!; congruence.
  - by rewrite Es.
Qed.

Lemma flat_bytes_same m m' : same_mapping m m' -> flat_bytes m' = flat_bytes m.
Proof. intros Hs. unfold flat_bytes. by rewrite (same_mem _ _ Hs), (same_size _ _ Hs). Qed.

(** *** Accesses of the flat machine *)

(** An access within one page of a program of [n] pages. *)
Definition good_access (n va size : Z) : Prop :=
  misaligned va size = false /\ 0 <= va /\ va + size <= n * PageSize /\ va mod PageSize + size <= PageSize.

Lemma size_pos size : access_size size -> 1 <= size <= 4.
Proof. intros [->|[->| ->]]; lia. Qed.

Lemma flat_Translate m va size w :
  all_loaded m -> wf_tables m -> access_size size -> is_s32 va ->
  exists ex pa m1, Translate m va size w = Ok (ex, pa, m1) /\
    (ex <> NoException \/
     ex = NoException /\ pa = va /\ good_access (pageTableSize m) va size /\ same_mapping m m1).
Proof.
  intros [F1 (t & F2 & F3) F4] Hwf Hsz Hva. destruct (Translate_cases m va size w Hwf Hsz) as (ex & pa & m1 & E & Hsame & Hex).
  exists ex, pa, m1. split; [done|]. destruct (decide (ex = NoException)) as [->|Hne]; [right|by left].
  destruct Hex as (Hal & _ & _ & i & e & [_ Hm] & _ & _ & _ & _ & ->). rewrite F1, F2 in Hm. destruct Hm as (-> & Hlt & Ee).
  pose proof (vpn_nonneg va). destruct (F3 (vpn_of va) ltac:(lia)) as (e' & Ee' & _ & _ & Hp). rewrite Ee in Ee'. injection Ee' as <-.
  pose proof (aligned_end size va Hsz Hal) as Hend. unfold phys. rewrite Hp. unfold vpn_of in *.
  pose proof (Z.div_mod (u32 va) PageSize ltac:(done)) as Hdm. pose proof (mod_page (u32 va)).
  assert (u32 va < 4096) as Hsm by (unfold NumPhysPages, PageSize, SectorSize in *; lia).
  assert (u32 va = va) as Hu by (clear - Hva Hsm; word_lia). rewrite Hu in *.
  split; [done|]. split; [lia|]. split; [|done]. split; [done|]. split; [rewrite <- Hu; apply u32_range|].
  unfold PageSize, SectorSize in *. split; [lia|done].
Qed.

Lemma flat_ReadMem m va size r m1 u :
  all_loaded m -> wf_machine m -> access_size size -> is_s32 va -> ReadMem va size m tt = Ok (r, (m1, u)) ->
  good_access (pageTableSize m) va size /\ same_mapping m m1 /\
    exists bs, zread (mainMemory m) va size = Ok bs /\ Forall is_u8 bs /\ r = Some (truncate size (le_value bs)).
Proof.
  intros Hf [Hc Ht] Hsz Hva E. destruct (flat_Translate m va size false Hf Ht Hsz Hva) as (ex & pa & m2 & ET & Hcase).
  destruct Hcase as [Hne|(-> & -> & Hg & Hs)].
  - unfold ReadMem in E. rewrite ET, bind_Ok, decide_False in E by done. apply bind_inv in E as (x & E & _). by apply no_exception in E.
  - pose proof Hg as (_ & Ha & Hend & _). pose proof (fl_pages _ Hf). pose proof (size_pos _ Hsz). pose proof (wf_memory _ Hc) as Hmem.
    assert (zread (mainMemory m) va size = Ok (take (Z.to_nat size) (drop (Z.to_nat va) (mainMemory m)))) as Er.
    { apply zread_Ok; [done|lia|]. rewrite Hmem. unfold MemorySize, NumPhysPages, PageSize, SectorSize in *. lia. }
    pose proof (Forall_zread _ _ _ _ _ (wf_bytes _ Hc) Er) as HF.
    rewrite (ReadMem_translated va size m tt va m2 _ Hsz ET Hs Er HF) in E. injection E as <- <- <-.
    split; [done|]. split; [done|]. eexists. by split_and!.
Qed.

Lemma flat_WriteMem m va size v r m1 u :
  all_loaded m -> wf_machine m -> access_size size -> is_s32 va -> WriteMem va size v m tt = Ok (r, (m1, u)) ->
  good_access (pageTableSize m) va size /\ r = true /\
    exists m2 mem, same_mapping m m2 /\ zwrite (mainMemory m) va (bytes_of size v) = Ok mem /\ m1 = set_mainMemory m2 mem.
Proof.
  intros Hf [Hc Ht] Hsz Hva E. destruct (flat_Translate m va size true Hf Ht Hsz Hva) as (ex & pa & m2 & ET & Hcase).
  destruct Hcase as [Hne|(-> & -> & Hg & Hs)].
  - unfold WriteMem in E. rewrite ET, bind_Ok, decide_False in E by done. apply bind_inv in E as (x & E & _). by apply no_exception in E.
  - pose proof Hg as (_ & Ha & Hend & _). pose proof (fl_pages _ Hf). pose proof (wf_memory _ Hc) as Hmem.
    destruct (WriteMem_translated va size v m tt va m2 Hsz ET Hs Ha) as (mem & Ew & EW).
    { rewrite Hmem. unfold MemorySize, NumPhysPages, PageSize, SectorSize in *. lia. }
    rewrite EW in E. injection E as <- <- <-. split; [done|]. split; [done|]. by exists m2, mem.
Qed.

(** ** Computations on the registers *)

(** [f] reads and writes registers only. *)
Definition regs_op (f : Machine -> res Machine) : Prop :=
  forall m m' m1, registers m = registers m' -> f m = Ok m1 ->
    m1 = set_registers m (registers m1) /\ f m' = Ok (set_registers m' (registers m1)).

Lemma regs_op_set r v : regs_op (fun m => set_reg m r v).
Proof.
  intros m m' m1 Hr E. unfold set_reg in *. apply bind_inv in E as (l & E & Em). apply Ok_inj in Em as <-.
  split; [done|]. by rewrite <- Hr, E.
Qed.

Lemma regs_op_get r (h : Z -> Machine -> res Machine) :
  (forall a, regs_op (h a)) -> regs_op (fun m => a ← reg m r; h a m).
Proof.
  intros Hh m m' m1 Hr E. apply bind_inv in E as (a & Ea & E). unfold reg in *. rewrite <- Hr, Ea, bind_Ok. by apply (Hh a m m' m1).
Qed.

Lemma regs_op_bind f g : regs_op f -> regs_op g -> regs_op (fun m => m ← f m; g m).
Proof.
  intros Hf Hg m m' m2 Hr E. apply bind_inv in E as (m1 & E1 & E2). destruct (Hf m m' m1 Hr E1) as [Em1 ->]. rewrite bind_Ok.
  destruct (Hg m1 (set_registers m' (registers m1)) m2 eq_refl E2) as [Em2 ->]. rewrite Em1 in Em2. by split.
Qed.

Ltac regs_ops := repeat first [apply regs_op_set | apply regs_op_get; intros ? | apply regs_op_bind].

Lemma regs_op_DelayedLoad a b : regs_op (fun m => DelayedLoad m a b).
Proof. unfold DelayedLoad. regs_ops. Qed.

Lemma regs_op_flush va : regs_op (flush va).
Proof. unfold flush. apply regs_op_bind; [apply regs_op_set|apply regs_op_DelayedLoad]. Qed.

Lemma regs_op_complete a b pc : regs_op (complete a b pc).
Proof. unfold complete. apply regs_op_bind; [apply regs_op_DelayedLoad|]. regs_ops. Qed.

Lemma regs_op_link r : regs_op (link r).
Proof. unfold link. regs_ops. Qed.

(** ** A space whose entries are touched *)

Section touched.
Context {F W : Type} `{FileStoreLaws F W}.
Context (s o : AddrSpace) (bs bo : list Z) (v : vmem W) (t : list TranslationEntry).
Hypothesis Ht : Forall2 same_entry (table s) t.

Lemma touched_lookup p e' : znth t p = Some e' -> exists e, znth (table s) p = Some e /\ same_entry e e'.
Proof.
  intros E. destruct (same_entries_lookup _ _ _ _ (same_entries_sym _ _ Ht) E) as (e & Ee & Hs).
  exists e. split; [done|by apply same_entry_sym].
Qed.

Lemma touched_frame p f : in_frame (set_table s t) p f -> in_frame s p f.
Proof.
  intros (e' & E & Hv & Hf). destruct (touched_lookup p e' E) as (e & Ee & _ & B & C & _). exists e. split_and!; congruence.
Qed.

Lemma touched_missing : missing (set_table s t) = missing s.
Proof. symmetry. by apply same_entries_missing. Qed.

Lemma touched_vbyte a : vbyte (set_table s t) bs v a = vbyte s bs v a.
Proof.
  unfold vbyte. cbn [table set_table noffH]. destruct (znth t (a / PageSize)) as [e'|] eqn:E.
  - destruct (touched_lookup _ e' E) as (e & -> & _ & B & C & _). by rewrite B, C.
  - destruct (znth (table s) (a / PageSize)) as [e|] eqn:E2; [|done].
    destruct (same_entries_lookup _ _ _ _ Ht E2) as (e' & Ee' & _). congruence.
Qed.

Lemma touched_coherent : coherent s bs o bo v -> coherent (set_table s t) bs o bo v.
Proof.
  intros [C1 C2 [[A1 A2 A3 A4 A5] A6 A7 A8 A9] C4 [R1 R2] C6 C7 C8]. constructor; try done.
  - constructor; try done.
    + constructor; try done.
      * cbn. unfold zlen. by rewrite <- (Forall2_length _ _ _ Ht).
      * intros p e' E. destruct (touched_lookup p e' E) as (e & Ee & A & _). rewrite <- A. by apply A3.
    + exact (same_entries_writable _ _ Ht A9).
  - constructor.
    + intros p f Hf. by apply (R1 p f), touched_frame.
    + intros p q f Hp Hq. by apply (R2 p q f); apply touched_frame.
  - intros p q f Hf. apply (C7 p q f). by apply touched_frame.
  - by rewrite touched_missing.
Qed.

Lemma touched_sees l lo : pair_sees s bs l o bo lo v -> pair_sees (set_table s t) bs l o bo lo v.
Proof.
  intros [Hc [Hl Hs] Ho Hb]. split; [by apply touched_coherent| |done|done]. split; [done|].
  intros a Ha. rewrite touched_vbyte. by apply Hs.
Qed.
End touched.

(** ** The machine with paging *)

Section paged.
Context {F W : Type} `{FileStoreLaws F W} `{FileOps F W} `{SectorStore W}.
Context (yield : vmem W -> res (vmem W)).
Context (new_char : Z -> list Z) (garbage : Z) (new_words : Z -> list Z)
  (header_bytes stack_words : list Z) (new_fds : FD_List) (new_object : gmap Z F -> Z)
  (new_thread new_record new_sem : ust F W -> Z) (scanned : ust F W -> option (list Z))
  (dispatch : outcome (F := F) (W := W) -> res (ust F W)).
#[local] Instance paged_kernel : Kernel (MachineStatus * ust F W) :=
  user_kernel yield new_char garbage new_words header_bytes stack_words new_fds new_object
    new_thread new_record new_sem scanned dispatch.
(** What the program's file holds, and the other program in memory. *)
Context (bs : list Z) (o : AddrSpace) (bo lo : list Z).
Implicit Types (m mf : Machine) (k : MachineStatus * ust F W) (N : nat).

Definition space_of m k : AddrSpace := kernel_space (set_mach k.2 m).
Definition vm_of m k : vmem W := kernel_vm (set_mach k.2 m).

(** [m], with the kernel, is the flat machine [mf] with at most [N] pages still
    to load: the registers are the same, and the program sees the memory of [mf]. *)
Record related N m k mf : Prop := {
  rl_regs : registers mf = registers m;
  rl_tlb : tlb m = None;
  rl_table : pageTable m = Some (table (space_of m k));
  rl_size : pageTableSize m = numPages (space_of m k);
  rl_flat : all_loaded mf;
  rl_flat_size : pageTableSize mf = pageTableSize m;
  rl_sees : pair_sees (space_of m k) bs (flat_bytes mf) o bo lo (vm_of m k);
  rl_missing : (missing (space_of m k) <= N)%nat
}.

(** A page was loaded: the registers are as an exception leaves them. *)
Definition page_loaded N mf m' k' : Prop :=
  exists N' va rs, N = S N' /\ is_s32 va /\ flush va mf = Ok (set_registers mf rs) /\ related N' m' k' (set_registers mf rs).

Lemma related_registers N m k mf rs : related N m k mf -> related N (set_registers m rs) k (set_registers mf rs).
Proof. intros [A1 A2 A3 A4 [B1 B2 B3] A6 A7 A8]. by split. Qed.

Lemma related_tables N m k mf : related N m k mf -> wf_tables m.
Proof.
  intros R. unfold wf_tables. rewrite (rl_tlb _ _ _ _ R), (rl_table _ _ _ _ R).
  pose proof (co_space _ _ _ _ _ (ps_coherent _ _ _ _ _ _ _ (rl_sees _ _ _ _ R))) as Hp. split.
  - eapply Forall_impl; [exact (pr_entries _ _ _ Hp)|]. intros e He. apply He.
  - rewrite (rl_size _ _ _ _ R), (ws_table _ (pr_space _ _ _ Hp)). pose proof (ws_pages _ (pr_space _ _ _ Hp)). lia.
Qed.

(** Touched tables on either side. *)
Lemma related_touched N m k mf m1 mf1 :
  related N m k mf -> same_mapping m m1 -> same_mapping mf mf1 -> related N m1 k mf1.
Proof.
  intros [A1 A2 A3 A4 A5 A6 A7 A8] S Sf. pose proof (same_pt _ _ S) as Hpt. rewrite A3 in Hpt.
  destruct (pageTable m1) as [t1|] eqn:Et; [|done]. cbn in Hpt.
  assert (space_of m1 k = set_table (space_of m k) t1) as Es by (unfold space_of, kernel_space; cbn; by rewrite Et).
  assert (vm_of m1 k = vm_of m k) as Ev by (unfold vm_of, kernel_vm; cbn; by rewrite (same_mem _ _ S)).
  split.
  - by rewrite (same_regs _ _ S), (same_regs _ _ Sf).
  - pose proof (same_tlb _ _ S) as Htl. rewrite A2 in Htl. by destruct (tlb m1).
  - by rewrite Es.
  - rewrite Es, (same_size _ _ S), A4. done.
  - by eapply flat_same.
  - rewrite (same_size _ _ S), (same_size _ _ Sf). done.
  - rewrite Es, Ev, (flat_bytes_same _ _ Sf). by apply touched_sees.
  - rewrite Es, touched_missing; done.
Qed.

(** A good access is translated, or faults because its page is not there. *)
Lemma paged_Translate N m k mf va size w :
  related N m k mf -> access_size size -> good_access (pageTableSize mf) va size ->
  exists e, znth (table (space_of m k)) (va / PageSize) = Some e /\
    if valid e then exists m1, Translate m va size w = Ok (NoException, phys_addr e va, m1) /\ same_mapping m m1
    else exists pa, Translate m va size w = Ok (PageFaultException, pa, m).
Proof.
  intros R Hsz (Hal & Ha & Hend & _). pose proof (size_pos _ Hsz) as Hpos. pose proof (rl_sees _ _ _ _ R) as Hps.
  pose proof (ps_coherent _ _ _ _ _ _ _ Hps) as Hc. pose proof (co_space _ _ _ _ _ Hc) as Hp.
  rewrite (rl_flat_size _ _ _ _ R), (rl_size _ _ _ _ R) in Hend.
  pose proof (space_bound _ (pr_space _ _ _ Hp)) as Hsb. pose proof (page_of (space_of m k) va ltac:(split; [done|lia])) as Hpg.
  assert (u32 va = va) as Hu by (clear - Ha Hend Hpos Hsb; word_lia). pose proof (related_tables _ _ _ _ R) as Hwt.
  destruct (znth_in_range (table (space_of m k)) (va / PageSize)) as [e Ee]; [by rewrite (ws_table _ (pr_space _ _ _ Hp))|].
  exists e. split; [done|]. destruct (Forall_znth _ _ _ _ (pr_entries _ _ _ Hp) Ee) as [Hwe Hro].
  destruct (valid e) eqn:Hval.
  - destruct (phys_of _ bs o bo (vm_of m k) va e Hc Ha Ee Hval) as (Epa & _).
    destruct (rp_taken _ _ (co_resident _ _ _ _ _ Hc) (va / PageSize) (physicalPage e)) as [Hf _]; [by exists e|].
    assert (maps m (vpn_of va) (vpn_of va) e) as Hm.
    { split; [done|]. rewrite (rl_tlb _ _ _ _ R), (rl_table _ _ _ _ R). unfold vpn_of. rewrite Hu, (rl_size _ _ _ _ R).
      split_and!; [done|apply Hpg|done]. }
    destruct (set_entry_touch m _ _ e w Hm) as (m1 & Em & Hs & _). exists m1. split; [|done].
    rewrite (Translate_mapped m va size w _ e Hwt Hsz Hal Hm Hwe), Hro, Em, bind_Ok. cbn [andb].
    rewrite (proj2 (Z.leb_le _ _)), (proj2 (Z.ltb_lt _ _)) by apply Hf. cbn [andb negb]. rewrite Epa. unfold phys. by rewrite Hu.
  - destruct (Translate_cases m va size w Hwt Hsz) as (ex & pa & m1 & E & _ & Hex). exists pa. rewrite E.
    assert (forall i e', maps m (vpn_of va) i e' -> False) as Hno.
    { intros i e' [Hv Hm]. rewrite (rl_tlb _ _ _ _ R), (rl_table _ _ _ _ R) in Hm. destruct Hm as (_ & _ & Em).
      unfold vpn_of in Em. rewrite Hu in Em. congruence. }
    destruct ex; try done.
    + by destruct Hex as (_ & _ & _ & i & e' & Hm & _); destruct (Hno i e').
    + by destruct Hex as [-> _].
    + by destruct Hex as (_ & _ & _ & i & e' & Hm & _); destruct (Hno i e').
    + by destruct Hex as (_ & _ & i & e' & Hm & _); destruct (Hno i e').
    + destruct Hex as [_ [Hb|[_ Hb]]]; [congruence|]. exfalso. unfold vpn_of in Hb. rewrite Hu, (rl_size _ _ _ _ R) in Hb. lia.
Qed.

(** *** A page fault *)

Lemma fault_sim N m k mf va e :
  related N m k mf -> wf_machine mf -> is_s32 va -> 0 <= va ->
  znth (table (space_of m k)) (va / PageSize) = Some e -> valid e = false ->
  exists m' k', RaiseException PageFaultException va m k = Ok (m', k') /\ page_loaded N mf m' k'.
Proof.
  intros R Hwf Hva Ha Ee Hval. pose proof (rl_sees _ _ _ _ R) as Hps.
  destruct (flush_wf va mf Hwf Hva) as (mff & Ef & [[Hcf _] _] & Hbad).
  destruct (regs_op_flush va _ m _ (rl_regs _ _ _ _ R) Ef) as [Emff Em]. rewrite (RaiseException_flush _ _ _ _ _ Em).
  destruct (load_virtual yield (space_of m k) bs o bo (vm_of m k) _ e (ps_coherent _ _ _ _ _ _ _ Hps) Ee Hval)
    as (s' & v' & e' & pp & EL & Hpp & _ & _ & Hk & Hmiss & Hb & Hc' & Hv1 & Hv2).
  set (m1 := set_registers m (registers mff)) in *. set (st := set_mach k.2 m1).
  assert (pageTable (mach st) = Some (table (space_of m k))) as Hpt by apply R.
  assert (HandleException yield new_char garbage new_words header_bytes stack_words new_fds new_object (new_thread st)
    (new_record st) (new_sem st) (scanned st) PageFaultException st = Ok (Resumes (to_machine st s' v'))) as EH.
  { apply (page_fault_resumes yield _ _ _ _ _ _ _ _ _ _ _ st va pp s' v').
    - exact (wf_regs _ Hcf).
    - exact Hbad.
    - exact Ha.
    - exact EL.
    - lia. }
  cbn [ExceptionHandler paged_kernel user_kernel setStatus]. unfold handle. cbn [snd]. fold st. rewrite EH, bind_Ok. cbn [Userland.next].
  unfold mret, res_ret. rewrite !bind_Ok. rewrite (to_machine_installed st s' v' _ Hpt).
  eexists _, _. split; [reflexivity|]. pose proof (rl_missing _ _ _ _ R) as HN. destruct N as [|N]; [lia|].
  exists N, va, (registers mff). split; [done|]. split; [done|]. rewrite <- Emff. split; [exact Ef|]. rewrite Emff.
  destruct Hps as [_ [Hl Hs] [Hlo Ho] Hbuf]. destruct R as [A1 A2 A3 A4 [B1 B2 B3] A6 A7 A8].
  set (m' := set_mainMemory (set_pageTable m1 (Some (table s'))) (memory v')).
  set (k' := (UserMode, set_mach (set_space st s' v') m')).
  assert (space_of m' k' = s') as Es by (unfold space_of, kernel_space; cbn; by destruct s').
  assert (vm_of m' k' = v') as Ev by (unfold vm_of, kernel_vm; cbn; by destruct v').
  change (related N m' k' (set_registers mf (registers mff))).
  split; try rewrite Es; try rewrite Ev; try done.
  - cbn. by rewrite (kept_pages _ _ Hk).
  - change (flat_bytes (set_registers mf (registers mff))) with (flat_bytes mf). split; [done| |split; [done|]|congruence].
    + split; [by rewrite (kept_pages _ _ Hk)|]. intros a Hr. rewrite Hv1. by apply Hs.
    + intros a Hr. rewrite Hv2. by apply Ho.
  - lia.
Qed.

(** *** Loads and stores *)

Lemma resident_bytes N m k mf va size e :
  related N m k mf -> access_size size -> good_access (pageTableSize mf) va size ->
  znth (table (space_of m k)) (va / PageSize) = Some e -> valid e = true ->
  0 <= phys_addr e va /\ phys_addr e va + size <= zlen (mainMemory m) /\
  forall j, 0 <= j < size -> znth (mainMemory m) (phys_addr e va + j) = znth (mainMemory mf) (va + j).
Proof.
  intros R Hsz (_ & Ha & Hend & Hpage) Ee Hval. pose proof (size_pos _ Hsz) as Hpos. pose proof (rl_sees _ _ _ _ R) as Hps.
  pose proof (ps_coherent _ _ _ _ _ _ _ Hps) as Hc. pose proof (ps_this _ _ _ _ _ _ _ Hps) as [Hl Hs].
  destruct (phys_of _ bs o bo (vm_of m k) va e Hc Ha Ee Hval) as (Epa & Hr & _).
  pose proof (wv_memory _ (co_vm _ _ _ _ _ Hc)) as Hmem. change (memory (vm_of m k)) with (mainMemory m) in Hmem.
  destruct (rp_taken _ _ (co_resident _ _ _ _ _ Hc) (va / PageSize) (physicalPage e)) as [Hf _]; [by exists e|].
  split; [lia|]. split.
  - rewrite Epa, Hmem. unfold MemorySize, NumPhysPages, PageSize, SectorSize in *. lia.
  - intros j Hj. pose proof (mod_page va).
    assert ((va + j) / PageSize = va / PageSize /\ (va + j) mod PageSize = va mod PageSize + j) as [Hd Hm].
    { rewrite (Z.div_mod va PageSize ltac:(done)) at 1 3. rewrite (Z.mul_comm PageSize), <- !Z.add_assoc. apply page_address. lia. }
    assert (vbyte (space_of m k) bs (vm_of m k) (va + j) = znth (mainMemory m) (phys_addr e va + j)) as <-.
    { unfold vbyte. rewrite Hd, Ee, Hval, Hm, Epa. change (memory (vm_of m k)) with (mainMemory m). f_equal. lia. }
    rewrite <- (rl_size _ _ _ _ R), <- (rl_flat_size _ _ _ _ R) in Hl.
    rewrite Hs by lia. apply znth_take. lia.
Qed.

Lemma ReadMem_sim N m k mf va size r mf1 u :
  related N m k mf -> wf_machine mf -> access_size size -> is_s32 va -> ReadMem va size mf tt = Ok (r, (mf1, u)) ->
  same_mapping mf mf1 /\
  ((exists m1, ReadMem va size m k = Ok (r, (m1, k)) /\ related N m1 k mf1) \/
   (exists m1 k1, ReadMem va size m k = Ok (None, (m1, k1)) /\ page_loaded N mf m1 k1)).
Proof.
  intros R Hwf Hsz Hva E. destruct (flat_ReadMem _ _ _ _ _ _ (rl_flat _ _ _ _ R) Hwf Hsz Hva E) as (Hg & Hsf & c & Ec & HF & ->).
  split; [done|]. destruct (paged_Translate N m k mf va size false R Hsz Hg) as (e & Ee & HT). destruct (valid e) eqn:Hval.
  - left. destruct HT as (m1 & ET & Hs). exists m1. split; [|by eapply related_touched].
    destruct (resident_bytes N m k mf va size e R Hsz Hg Ee Hval) as (Hp & Hend & Hb). pose proof (size_pos _ Hsz).
    apply (ReadMem_translated va size m k (phys_addr e va) m1 c Hsz ET Hs); [|done].
    rewrite zread_Ok by (done || lia). f_equal. symmetry. apply list_eq_znth.
    + rewrite (zlen_zread _ _ _ _ Ec). symmetry. exact (zlen_zread _ _ _ _ (zread_Ok (mainMemory m) _ size Hp ltac:(lia) Hend)).
    + intros i Hi. rewrite (zlen_zread _ _ _ _ Ec) in Hi. rewrite (znth_zread _ _ _ _ _ Ec Hi), <- Hb by done.
      symmetry. apply znth_take_drop; lia.
  - right. destruct HT as (pa & ET). destruct Hg as (_ & Ha & _). destruct (fault_sim N m k mf va e R Hwf Hva Ha Ee Hval) as (m1 & k1 & ER & Hl).
    exists m1, k1. split; [|done]. unfold ReadMem. rewrite ET, bind_Ok, decide_False by done. by rewrite ER, bind_Ok.
Qed.

Lemma WriteMem_sim N m k mf va size x r mf1 u :
  related N m k mf -> wf_machine mf -> access_size size -> is_s32 va -> WriteMem va size x mf tt = Ok (r, (mf1, u)) ->
  (exists m1, WriteMem va size x m k = Ok (r, (m1, k)) /\ related N m1 k mf1) \/
  (exists m1 k1, WriteMem va size x m k = Ok (false, (m1, k1)) /\ page_loaded N mf m1 k1).
Proof.
  intros R Hwf Hsz Hva E. destruct (flat_WriteMem _ _ _ _ _ _ _ (rl_flat _ _ _ _ R) Hwf Hsz Hva E) as (Hg & -> & mf2 & memf & Hsf & Ewf & ->).
  destruct (paged_Translate N m k mf va size true R Hsz Hg) as (e & Ee & HT). destruct (valid e) eqn:Hval.
  - left. destruct HT as (m1 & ET & Hs). destruct (resident_bytes N m k mf va size e R Hsz Hg Ee Hval) as (Hp & Hend & _).
    destruct (WriteMem_translated va size x m k _ m1 Hsz ET Hs Hp Hend) as (mem & Ew & EW). exists (set_mainMemory m1 mem). split; [done|].
    pose proof (rl_sees _ _ _ _ R) as [Hc [Hl Hsee] [Hlo Ho] Hbuf]. destruct Hg as (_ & Ha & Hgend & Hpage).
    assert (zlen (bytes_of size x) = size) as Hbl by (unfold bytes_of; rewrite zlen_le_bytes; pose proof (size_pos _ Hsz); lia).
    destruct (store_block yield (space_of m k) bs o bo (vm_of m k) va e (bytes_of size x) mem Hc Ha ltac:(lia) Ee Hval Ew) as (Hc' & Hin & Hout).
    assert (related N (set_mainMemory m mem) k (set_mainMemory mf memf)) as R'.
    { destruct R as [A1 A2 A3 A4 [B1 B2 B3] A6 A7 A8]. split; try done.
      change (pair_sees (space_of m k) bs (flat_bytes (set_mainMemory mf memf)) o bo lo (set_memory (vm_of m k) mem)).
      unfold flat_bytes. cbn [mainMemory set_mainMemory pageTableSize]. unfold flat_bytes in Hl, Hsee.
      assert (0 <= pageTableSize mf * PageSize <= zlen (mainMemory mf)) as Hz.
      { rewrite (wf_memory _ (proj1 Hwf)). unfold MemorySize, NumPhysPages, PageSize, SectorSize in *. lia. }
      rewrite zlen_take in Hl, Hsee by done.
      split; [done| |split; [done|]|done].
      - split; rewrite zlen_take by (by rewrite (zlen_zwrite _ _ _ _ Ewf)); [done|]. intros a Hr.
        rewrite Hin, znth_take, (znth_zwrite _ _ _ _ _ Ewf) by lia. destruct (_ && _); [done|].
        rewrite Hsee by done. apply znth_take. lia.
      - intros a Hr. rewrite Hout. by apply Ho. }
    eapply (related_touched _ _ _ _ _ _ R').
    + destruct Hs. by split.
    + destruct Hsf. by split.
  - right. destruct HT as (pa & ET). destruct Hg as (_ & Ha & _). destruct (fault_sim N m k mf va e R Hwf Hva Ha Ee Hval) as (m1 & k1 & ER & Hl).
    exists m1, k1. split; [|done]. unfold WriteMem. rewrite ET, bind_Ok, decide_False by done. by rewrite ER, bind_Ok.
Qed.

(** *** One instruction *)

(** When the flat machine executes without an exception, so does the paged one;
    or it loads a page of the program, and returns. *)
Definition sim N mf0 (rf : res (flow * (Machine * unit))) (r : res (flow * (Machine * (MachineStatus * ust F W)))) : Prop :=
  forall f mf' u, rf = Ok (f, (mf', u)) ->
    (exists m' k', r = Ok (f, (m', k')) /\ related N m' k' mf') \/
    (exists m' k', r = Ok (Return, (m', k')) /\ page_loaded N mf0 m' k').

Lemma sim_err N mf0 e r : sim N mf0 (Err e) r.
Proof. by intros f mf' u [=]. Qed.

Lemma sim_ret N mf0 m k mf f : related N m k mf -> sim N mf0 (mret (f, (mf, tt))) (mret (f, (m, k))).
Proof. intros R f' mf' u [= <- <- _]. left. by exists m, k. Qed.

Lemma sim_raise N mf0 mf which va r : sim N mf0 (raise which va mf tt) r.
Proof. intros f mf' u E. apply bind_inv in E as (x & E & _). by apply no_exception in E. Qed.

Lemma sim_pure {A} N mf0 (x : res A) ff g :
  (forall a, sim N mf0 (ff a) (g a)) -> sim N mf0 (x ≫= ff) (x ≫= g).
Proof. intros Hs. destruct x; [apply Hs|apply sim_err]. Qed.

Lemma sim_reg N mf0 m k mf r ff g :
  related N m k mf -> (forall a, sim N mf0 (ff a) (g a)) -> sim N mf0 (reg mf r ≫= ff) (reg m r ≫= g).
Proof. intros R. unfold reg. rewrite (rl_regs _ _ _ _ R). apply sim_pure. Qed.

Lemma sim_regs N mf0 f m k mf ff g :
  regs_op f -> related N m k mf -> (forall m1 mf1, related N m1 k mf1 -> sim N mf0 (ff mf1) (g m1)) ->
  sim N mf0 (f mf ≫= ff) (f m ≫= g).
Proof.
  intros Hf R Hs. destruct (f mf) as [mf1|e] eqn:E; [|apply sim_err].
  destruct (Hf mf m mf1 (rl_regs _ _ _ _ R) E) as [-> ->]. rewrite !bind_Ok. by apply Hs, related_registers.
Qed.

Lemma sim_set N mf0 r x m k mf ff g :
  related N m k mf -> (forall m1 mf1, related N m1 k mf1 -> sim N mf0 (ff mf1) (g m1)) ->
  sim N mf0 (set_reg mf r x ≫= ff) (set_reg m r x ≫= g).
Proof. apply (sim_regs N mf0 (fun m => set_reg m r x)), regs_op_set. Qed.

Lemma sim_link N mf0 r m k mf ff g :
  related N m k mf -> (forall m1 mf1, related N m1 k mf1 -> sim N mf0 (ff mf1) (g m1)) ->
  sim N mf0 (link r mf ≫= ff) (link r m ≫= g).
Proof. apply (sim_regs N mf0 (link r)), regs_op_link. Qed.

(** A word loaded, or the end of the instruction. *)
Lemma sim_load N m k mf va size (ff : Z -> Machine -> unit -> _) (g : Z -> Machine -> _ -> _) :
  related N m k mf -> wf_machine mf -> access_size size -> is_s32 va ->
  (forall x m1 mf1, related N m1 k mf1 -> same_mapping mf mf1 -> sim N mf (ff x mf1 tt) (g x m1 k)) ->
  sim N mf ('(r, (m, u)) ← ReadMem va size mf tt; match r with None => mret (Return, (m, u)) | Some x => ff x m u end)
    ('(r, (m, k)) ← ReadMem va size m k; match r with None => mret (Return, (m, k)) | Some x => g x m k end).
Proof.
  intros R Hwf Hsz Hva Hs f mf' u E. destruct (ReadMem va size mf tt) as [[r [mf1 []]]|e] eqn:ER; [|done].
  destruct (ReadMem_sim N m k mf va size r mf1 tt R Hwf Hsz Hva ER) as (Hsame & [(m1 & -> & R1)|(m1 & k1 & -> & Hl)]).
  - destruct (flat_ReadMem _ _ _ _ _ _ (rl_flat _ _ _ _ R) Hwf Hsz Hva ER) as (_ & _ & c & _ & _ & ->). exact (Hs _ _ _ R1 Hsame f mf' u E).
  - right. by exists m1, k1.
Qed.

Lemma same_mapping_registers m m1 rs : same_mapping m m1 -> same_mapping (set_registers m rs) (set_registers m1 rs).
Proof. intros []. by split. Qed.

(** A page loaded after the flat machine has touched its table. *)
Lemma page_loaded_touched N mf mf1 m' k' : same_mapping mf mf1 -> page_loaded N mf1 m' k' -> page_loaded N mf m' k'.
Proof.
  intros S (N' & va & rs & -> & Hva & Ef & R). exists N', va, rs. split; [done|]. split; [done|].
  destruct (regs_op_flush va mf1 mf _ (same_regs _ _ S) Ef) as [_ ->]. split; [done|].
  eapply related_touched; [exact R|done|]. destruct S as [E1 E2 E3 E4 E5 [E6 E7]]. split; cbn; try congruence.
  - unfold same_table in *. destruct (tlb mf), (tlb mf1); try done. by apply same_entries_sym.
  - unfold same_table in *. destruct (pageTable mf), (pageTable mf1); try done. by apply same_entries_sym.
  - by split.
Qed.

Lemma sim_store N mf0 m k mf pc va size x :
  related N m k mf -> same_mapping mf0 mf -> wf_machine mf -> access_size size -> is_s32 va ->
  sim N mf0 (store_value pc va size x mf tt) (store_value pc va size x m k).
Proof.
  intros R Hs Hwf Hsz Hva f mf' u E. unfold store_value in *.
  destruct (WriteMem va size x mf tt) as [[r [mf1 []]]|e] eqn:EW; [|done]. rewrite bind_Ok in E.
  destruct (WriteMem_sim N m k mf va size x r mf1 tt R Hwf Hsz Hva EW) as [(m1 & -> & R1)|(m1 & k1 & -> & Hl)]; rewrite bind_Ok.
  - destruct (flat_WriteMem _ _ _ _ _ _ _ (rl_flat _ _ _ _ R) Hwf Hsz Hva EW) as (_ & -> & _). injection E as <- <-.
    left. by exists m1, k.
  - right. exists m1, k1. split; [done|]. by eapply page_loaded_touched.
Qed.

(** Through a case of the switch. *)
Ltac sim_steps :=
  repeat (cbv zeta; first
    [ apply sim_err
    | eapply sim_ret; eassumption
    | apply sim_raise
    | eapply sim_reg; [eassumption|]; intros ?
    | eapply sim_set; [eassumption|]; intros ? ? ?
    | eapply sim_link; [eassumption|]; intros ? ? ?
    | apply sim_pure; intros ?
    | case_match ]).
Ltac sim_cases := match goal with |- context [opCode ?i] => destruct (opCode i) end; sim_steps.

Section groups.
Variables (N : nat) (m : Machine) (k : MachineStatus * ust F W) (mf : Machine) (i : Instruction) (pc : Z).
Hypotheses (R : related N m k mf) (Hwf : wf_machine mf).
Notation simulates ex := (sim N mf (ex i pc mf tt) (ex i pc m k)).

Lemma sim_add : simulates exec_add.
Proof. unfold exec_add. sim_steps; sim_cases. Qed.

Lemma sim_branch : simulates exec_branch.
Proof. unfold exec_branch, branch. sim_cases. Qed.

Lemma sim_div : simulates exec_div.
Proof. unfold exec_div. sim_cases. Qed.

Lemma sim_jump : simulates exec_jump.
Proof. unfold exec_jump. sim_cases. Qed.

Lemma sim_shift : simulates exec_shift.
Proof. unfold exec_shift. sim_cases. Qed.

Lemma sim_logic : simulates exec_logic.
Proof. unfold exec_logic. sim_cases. Qed.

Lemma sim_sub : simulates exec_sub.
Proof. unfold exec_sub. sim_steps; sim_cases. Qed.

Lemma sim_hilo : simulates exec_hilo.
Proof. unfold exec_hilo. sim_cases. Qed.

Lemma sim_last : simulates exec_last.
Proof. unfold exec_last. sim_cases. Qed.

Lemma sim_load_into size va f :
  access_size size -> is_s32 va -> sim N mf (load_into i pc va size f mf tt) (load_into i pc va size f m k).
Proof.
  intros Hsz Hva. unfold load_into.
  apply (sim_load N m k mf va size (fun x m u => mret (Next pc (rt i) (f x), (m, u))) (fun x m k => mret (Next pc (rt i) (f x), (m, k))));
    [done..|]. intros x m1 mf1 R1 _. by apply sim_ret.
Qed.

Lemma sim_exec_load : simulates exec_load.
Proof. unfold exec_load. sim_cases; apply sim_load_into; auto with word; unfold access_size; auto. Qed.

Lemma word_size : access_size 4.
Proof. by right; right. Qed.

Lemma sim_load_partial : simulates exec_load_partial.
Proof.
  unfold exec_load_partial. eapply sim_reg; [done|]. intros a. cbv zeta. apply sim_pure. intros _.
  apply (sim_load N m k mf _ 4 (fun x m u => old ← merge_source i m; match opCode i with
    | OP_LWL => mret (Next pc (rt i) (merge_LWL (Z.land (s32 (a + extra i)) 3) old x), (m, u))
    | OP_LWR => mret (Next pc (rt i) (merge_LWR (Z.land (s32 (a + extra i)) 3) old x), (m, u))
    | _ => Err AssertFailed end)
    (fun x m k => old ← merge_source i m; match opCode i with
    | OP_LWL => mret (Next pc (rt i) (merge_LWL (Z.land (s32 (a + extra i)) 3) old x), (m, k))
    | OP_LWR => mret (Next pc (rt i) (merge_LWR (Z.land (s32 (a + extra i)) 3) old x), (m, k))
    | _ => Err AssertFailed end)); [done|done|exact word_size|auto with word|].
  intros x m1 mf1 R1 _. assert (merge_source i mf1 = merge_source i m1) as ->.
  { unfold merge_source, reg. by rewrite (rl_regs _ _ _ _ R1). }
  apply sim_pure. intros old. sim_cases.
Qed.

Lemma sim_exec_store : simulates exec_store.
Proof.
  unfold exec_store. sim_cases; eapply sim_store; auto with word; unfold access_size; auto; reflexivity.
Qed.

Lemma sim_store_partial merge : sim N mf (store_partial i merge pc mf tt) (store_partial i merge pc m k).
Proof.
  unfold store_partial. eapply sim_reg; [done|]. intros a. cbv zeta. apply sim_pure. intros _.
  set (va := Z.land (s32 (a + extra i)) (Z.lnot 3)).
  assert (is_s32 va) as Hva by (apply is_s32_land; [apply s32_range|apply is_s32_lnot; word_lia]).
  apply (sim_load N m k mf va 4
    (fun x m u => b ← reg m (rt i); (store_value pc va 4 (merge (Z.land (s32 (a + extra i)) 3) x b) m u : res _))
    (fun x m k => b ← reg m (rt i); (store_value pc va 4 (merge (Z.land (s32 (a + extra i)) 3) x b) m k : res _)));
    [done|done|exact word_size|done|].
  intros x m1 mf1 R1 S1. eapply sim_reg; [done|]. intros b.
  apply sim_store; [done|done|by eapply same_mapping_machine|exact word_size|done].
Qed.

Lemma sim_store_word : simulates exec_store_word.
Proof.
  unfold exec_store_word. destruct (opCode i); first [apply sim_err | apply sim_store_partial | sim_steps].
  eapply sim_store; [done|reflexivity|done|exact word_size|auto with word].
Qed.

Lemma sim_exec : simulates exec.
Proof.
  unfold exec. destruct (opCode i);
    first [apply sim_err | apply sim_add | apply sim_branch | apply sim_div | apply sim_jump | apply sim_exec_load
          | apply sim_load_partial | apply sim_hilo | apply sim_logic | apply sim_exec_store | apply sim_shift
          | apply sim_sub | apply sim_store_word | apply sim_last].
Qed.
End groups.

Lemma OneInstruction_sim N m k mf mf' u :
  related N m k mf -> wf_cpu mf -> OneInstruction mf tt = Ok (mf', u) ->
  exists m' k', OneInstruction m k = Ok (m', k') /\ (related N m' k' mf' \/ page_loaded N mf m' k').
Proof.
  intros R [Hwf _] E. unfold OneInstruction in *.
  destruct (reg_get mf PCReg (proj1 Hwf) ltac:(done)) as (pc & Epc & Hpc). rewrite Epc, bind_Ok in E.
  assert (reg m PCReg = Ok pc) as -> by (unfold reg in *; by rewrite <- (rl_regs _ _ _ _ R)). rewrite bind_Ok.
  destruct (ReadMem pc 4 mf tt) as [[r [mf1 []]]|e] eqn:ER; [|done]. rewrite bind_Ok in E.
  destruct (flat_ReadMem _ _ _ _ _ _ (rl_flat _ _ _ _ R) Hwf word_size Hpc ER) as (_ & _ & c & _ & _ & ->).
  destruct (ReadMem_sim N m k mf pc 4 _ mf1 tt R Hwf word_size Hpc ER) as (S1 & [(m1 & -> & R1)|(m1 & k1 & -> & Hl)]);
    rewrite bind_Ok; [|by exists m1, k1; auto].
  apply bind_inv in E as (i & -> & E). rewrite bind_Ok. apply bind_inv in E as (npc & En & E).
  assert (reg m1 NextPCReg = Ok npc) as -> by (unfold reg in *; by rewrite <- (rl_regs _ _ _ _ R1)). rewrite bind_Ok.
  apply bind_inv in E as ([f [mf2 []]] & Ex & E).
  destruct (sim_exec N m1 k mf1 i (s32 (npc + 4)) R1 ltac:(by eapply same_mapping_machine) _ _ _ Ex)
    as [(m2 & k2 & -> & R2)|(m2 & k2 & -> & Hl)]; rewrite bind_Ok.
  - destruct f as [pa lr lv|]; [|injection E as <- _; by exists m2, k2; auto].
    apply bind_inv in E as (mf3 & Ec & E). injection E as <- _.
    destruct (regs_op_complete lr lv pa mf2 m2 mf3 (rl_regs _ _ _ _ R2) Ec) as [-> ->]. rewrite bind_Ok.
    eexists _, k2. split; [done|]. left. by apply related_registers.
  - exists m2, k2. split; [done|]. right. by eapply page_loaded_touched.
Qed.

(** *** A run *)

(** The flat machine from [mf] to [mf'] in [a] instructions and [b] interruptions. *)
Inductive flat_run : nat -> nat -> Machine -> Machine -> Prop :=
| flat_end mf : flat_run 0 0 mf mf
| flat_instruction a b mf mf1 mf' :
    OneInstruction mf tt = Ok (mf1, tt) -> flat_run a b mf1 mf' -> flat_run (S a) b mf mf'
| flat_flush a b va mf mf1 mf' :
    flush va mf = Ok mf1 -> flat_run a b mf1 mf' -> flat_run a (S b) mf mf'.

(** For [n] rounds the program makes no exception, wherever it is interrupted. *)
Fixpoint no_exceptions (n : nat) (mf : Machine) : Prop :=
  match n with
  | O => True
  | S n =>
      match OneInstruction mf tt with Ok (mf1, _) => no_exceptions n mf1 | Err _ => False end /\
      forall va, match flush va mf with Ok mf1 => no_exceptions n mf1 | Err _ => False end
  end.

(** What happens between instructions leaves the program alone. *)
Definition preserves (f : Machine -> MachineStatus * ust F W -> res (Machine * (MachineStatus * ust F W))) : Prop :=
  forall N m k mf, related N m k mf -> exists m' k', f m k = Ok (m', k') /\ related N m' k' mf.

Lemma Run_loop_sim OneTick Debug n : preserves OneTick -> preserves Debug -> forall N m k mf,
  wf_cpu mf -> no_exceptions n mf -> related N m k mf ->
  exists a b m' k' mf', Run_loop OneTick Debug n m k = Ok (m', k') /\ (a + b = n)%nat /\ (b <= N)%nat /\
    flat_run a b mf mf' /\ related (N - b) m' k' mf'.
Proof.
  intros HT HD. induction n as [|n IH]; intros N m k mf Hwf Hq R.
  { exists 0%nat, 0%nat, m, k, mf. rewrite Nat.sub_0_r. split; [done|]. split; [done|]. split; [lia|]. split; [constructor|done]. }
  destruct Hq as [Hq Hqf]. destruct (OneInstruction mf tt) as [[mf1 []]|e] eqn:E; [|done].
  pose proof (OneInstruction_ok mf tt Hwf I) as Hok. rewrite E in Hok. destruct Hok as [Hwf1 _].
  destruct (OneInstruction_sim N m k mf mf1 tt R Hwf E) as (m1 & k1 & E1 & Hcase). cbn [Run_loop]. rewrite E1, bind_Ok.
  destruct Hcase as [R1|(N' & va & rs & -> & Hva & Ef & R1)].
  - destruct (HT _ _ _ _ R1) as (m2 & k2 & -> & R2). rewrite bind_Ok. destruct (HD _ _ _ _ R2) as (m3 & k3 & -> & R3). rewrite bind_Ok.
    destruct (IH N m3 k3 mf1 Hwf1 Hq R3) as (a & b & m' & k' & mf' & -> & Hab & Hb & Hrun & R').
    exists (S a), b, m', k', mf'. split; [done|]. split; [lia|]. split; [done|]. split; [by eapply flat_instruction|done].
  - destruct (HT _ _ _ _ R1) as (m2 & k2 & -> & R2). rewrite bind_Ok. destruct (HD _ _ _ _ R2) as (m3 & k3 & -> & R3). rewrite bind_Ok.
    specialize (Hqf va). rewrite Ef in Hqf. destruct (flush_wf va mf (proj1 Hwf) Hva) as (mff & Ef' & Hwf' & _).
    rewrite Ef in Ef'. injection Ef' as <-.
    destruct (IH N' m3 k3 _ Hwf' Hqf R3) as (a & b & m' & k' & mf' & -> & Hab & Hb & Hrun & R').
    exists a, (S b), m', k', mf'. split; [done|]. split; [lia|]. split; [lia|]. split; [by eapply flat_flush|done].
Qed.

(** C7: a program does not notice that its pages are loaded on demand.  Let the
    machine hold a program of which at most [N] pages are still on disk, and the
    flat machine the same program with all its pages in memory.  The program is one
    that addrspace.cc loads whole: its header is well-formed, the data right after the
    text and up to the end of the file, no page read-only, and on each page of
    initialised data the end computed at addrspace.cc:645 is clipped to the frame (for
    the others that line loses data, and they are left out); so is the other program
    in memory.  There are free frames for all the pages that the two have on disk.
    What happens between instructions (the clock tick and the debugger) never faults
    and leaves program and machine as they are related; in particular no other thread
    runs that changes this memory.  Then, as long as the program makes no system call
    or error on the flat machine, wherever it is interrupted, [Machine::Run] on the
    paged machine never faults, and each of its rounds either executes the instruction
    the flat machine executes, with the same registers, or loads one page, through
    the handler of page faults, and leaves the instruction to be made again; this
    happens at most [N] times.  Afterwards the program sees the memory of the flat
    machine, and what the other program sees has not changed.  All that shows of a
    fault is that a delayed load in progress is completed by it. *)
Theorem paging_transparent OneTick Debug n N m k mf :
  preserves OneTick -> preserves Debug -> wf_cpu mf -> no_exceptions n mf -> related N m k mf ->
  exists a b m' k' mf', Run OneTick Debug n m k = Ok (m', k') /\ (a + b = n)%nat /\ (b <= N)%nat /\
    flat_run a b mf mf' /\ related (N - b) m' k' mf'.
Proof.
  intros HT HD Hwf Hq R. unfold Run. apply Run_loop_sim; try done. by destruct R.
Qed.

(** *** The flat machine of a program *)

Definition identity_table (n : Z) : list TranslationEntry :=
  (fun i => mkEntry i i true false false false) <$> seqZ 0 n.
Definition flat_machine m (l : list Z) : Machine :=
  mkMachine (l ++ replicate (Z.to_nat (MemorySize - zlen l)) 0) (registers m) None (Some (identity_table (pageTableSize m)))
    (pageTableSize m) (singleStep m) (runUntilTime m).

Lemma identity_entry n p : 0 <= p < n -> znth (identity_table n) p = Some (mkEntry p p true false false false).
Proof.
  intros Hp. rewrite znth_lookup by lia. unfold identity_table. rewrite list_lookup_fmap, lookup_seqZ_lt by lia.
  cbn. do 2 f_equal; lia.
Qed.

Lemma related_flat_machine m k l :
  tlb m = None -> pageTable m = Some (table (space_of m k)) -> pageTableSize m = numPages (space_of m k) ->
  pair_sees (space_of m k) bs l o bo lo (vm_of m k) -> related (missing (space_of m k)) m k (flat_machine m l).
Proof.
  intros Ht Hp Hs Hsee. pose proof (ps_this _ _ _ _ _ _ _ Hsee) as [Hl _].
  pose proof (ws_pages _ (pr_space _ _ _ (co_space _ _ _ _ _ (ps_coherent _ _ _ _ _ _ _ Hsee)))) as Hn.
  split; try done.
  - split; [done| |cbn; by rewrite Hs]. exists (identity_table (pageTableSize m)). split; [done|]. intros p Hr.
    exists (mkEntry p p true false false false). split; [by apply identity_entry|]. done.
  - assert (flat_bytes (flat_machine m l) = l) as ->; [|done]. unfold flat_bytes, flat_machine. cbn [mainMemory pageTableSize].
    rewrite Hs, <- Hl. unfold zlen. by rewrite Nat2Z.id, take_app_length.
Qed.
End paged.

(** ** A program of two pages *)

#[local] Existing Instance ram_files.
#[local] Existing Instance ram_laws.
#[local] Existing Instance ram_sectors.
#[local] Instance ram_ops : FileOps (list Z) ram := {|
  fo_create _ _ _ := Err OutOfBounds;
  fo_read _ _ _ := Err OutOfBounds;
  fo_write _ _ _ _ := Err OutOfBounds
|}.

(** addiu r4, r0, 65; sw r4, 128(r0); lw r5, 128(r0); j 0 *)
Definition loop_text : list Z := le_bytes 4 0x24040041 ++ le_bytes 4 0xAC040080 ++ le_bytes 4 0x8C050080 ++ le_bytes 4 0x08000000.
Definition loop_regs : list Z := replicate 35 0 ++ [4; 0; 0; 0; 0].
Definition loop_machine : Machine := mkMachine (replicate (Z.to_nat MemorySize) 0) loop_regs None (Some blank_table) 3 false 0.
Definition loop_state : MachineStatus * ust (list Z) ram :=
  (SystemMode, mkUst loop_machine (text_space [99] loop_text) (two_programs loop_text [1; 2; 3; 4]) ∅ None None (mkChildren ∅ 0)).
Definition loop_flat : Machine := flat_machine loop_machine (padded loop_text).

Definition machine_ok (m : Machine) : bool :=
  (zlen (mainMemory m) =? MemorySize) && forallb (fun b => (0 <=? b) && (b <? 256)) (mainMemory m) &&
  (zlen (registers m) =? NumTotalRegs) && forallb (fun b => (- 2 ^ 31 <=? b) && (b <? 2 ^ 31)) (registers m).

Lemma loop_flat_wf : wf_cpu loop_flat.
Proof.
  assert (machine_ok loop_flat = true) as Hb by (vm_compute; reflexivity). unfold machine_ok in Hb.
  rewrite !andb_true_iff, !Z.eqb_eq, !forallb_forall in Hb. destruct Hb as [[[H1 H2] H3] H4].
  split; [split; [split|]|].
  - exact H1.
  - apply Forall_forall. intros b Hin%list_elem_of_In. apply H2 in Hin. rewrite andb_true_iff in Hin. word_lia.
  - exact H3.
  - apply Forall_forall. intros b Hin%list_elem_of_In. apply H4 in Hin. rewrite andb_true_iff in Hin. unfold is_s32. lia.
  - exists 0. split; [vm_compute; reflexivity|done].
  - split; [|vm_compute; by split]. apply Forall_fmap, Forall_forall. intros i Hi%elem_of_seqZ. cbn in Hi |- *.
    unfold wf_entry. cbn. word_lia.
  - vm_compute. reflexivity.
Qed.

Lemma loop_quiet : no_exceptions 6 loop_flat.
Proof. vm_compute. repeat first [exact I | split | intros ?]. Qed.

Lemma paging_transparent_witness :
  exists a b m' k' mf',
    @Run _ (user_kernel Ok zero_words 0 zero_words [] [] fd_sample (fun _ => 1) (fun _ => 1) (fun _ => 1) (fun _ => 1)
      (fun _ => None) (fun _ => Err AssertFailed)) (fun m k => Ok (m, k)) (fun m k => Ok (m, k)) 6 loop_machine loop_state = Ok (m', k') /\
    (a + b = 6)%nat /\ (b <= 3)%nat /\ flat_run a b loop_flat mf'.
Proof.
  destruct (paging_transparent Ok zero_words 0 zero_words [] [] fd_sample (fun _ => 1) (fun _ => 1) (fun _ => 1) (fun _ => 1)
    (fun _ => None) (fun _ => Err AssertFailed) loop_text (text_space [112] [1; 2; 3; 4]) [1; 2; 3; 4] (padded [1; 2; 3; 4])
    (fun m k => Ok (m, k)) (fun m k => Ok (m, k)) 6 3 loop_machine loop_state loop_flat)
    as (a & b & m' & k' & mf' & E & Hab & Hb & Hrun & _).
  - intros N m k mf R. by exists m, k.
  - intros N m k mf R. by exists m, k.
  - exact loop_flat_wf.
  - exact loop_quiet.
  - apply (related_flat_machine loop_text (text_space [112] [1; 2; 3; 4]) [1; 2; 3; 4] (padded [1; 2; 3; 4]) loop_machine loop_state
      (padded loop_text)); try reflexivity. apply text_pair; vm_compute; reflexivity.
  - exists a, b, m', k', mf'. split; [exact E|]. split; [exact Hab|]. split; [exact Hb|exact Hrun].
Defined.
