(* ===== verification/UserProgs.v ===== *)
(** * UserProgs: the user programs of test/

    A user program is C code that calls the kernel through the stubs of
    test/start.s.  It is a tree: a call is a node, and what the kernel answers
    selects the subtree that goes on.  A pointer passed to the kernel is the
    object it points into, from the pointer on; an access outside an array is a
    fault, as in the kernel.  What uninitialised variables hold is a parameter. *)

From S2P Require Import Text.
From S2P Require Import Prelude FDList AddrSpace.

(** ** Calls and programs *)

(** userprog/syscall.h. *)
Inductive request :=
| Halt
| Exit (status : Z)
| Exec (name : list Z) (args : list (list Z))
| Join (id : Z)
| Create (name : list Z)
| Open (name : list Z)
| Read (size id : Z)
| Write (buffer : list Z) (size id : Z)
| Close (id : Z).

#[export] Instance request_eq_dec : EqDecision request.
Proof. solve_decision. Defined.

(** The result of a call, and the bytes a Read has put at the pointer. *)
Record answer := mkAnswer { value : Z; data : list Z }.

Inductive prog (A : Type) :=
| Ret (a : A)
| Sys (c : request) (k : answer -> prog A)
| Wrong (e : fault).
Arguments Ret {A} a. Arguments Sys {A} c k. Arguments Wrong {A} e.

Fixpoint prog_then {A B} (p : prog A) (f : A -> prog B) : prog B :=
  match p with
  | Ret a => f a
  | Sys c k => Sys c (fun a => prog_then (k a) f)
  | Wrong e => Wrong e
  end.
#[export] Instance prog_ret : MRet prog := fun A a => Ret a.
#[export] Instance prog_bind : MBind prog := fun A B f p => prog_then p f.

Definition ask (c : request) : prog answer := Sys c Ret.
Definition ask_value (c : request) : prog Z := Sys c (fun a => Ret (value a)).
(** A call whose result is not used. *)
Definition ask_do (c : request) : prog unit := Sys c (fun _ => Ret tt).
Definition lift {A} (r : res A) : prog A := match r with Ok a => Ret a | Err e => Wrong e end.

(** A string literal, with its NUL; a line of text. *)
Definition lit (s : string) : list Z := chars s ++ [0].
Arguments lit s%_string_scope.
Definition line (s : string) : list Z := lit (s +++ newline).
Arguments line s%_string_scope.

(** *** A run *)

(** How a run ends: the program returns, makes a call that never returns, waits
    for an answer that does not come, or accesses an array outside of it. *)
Inductive run_end (A : Type) := Returned (a : A) | Stopped (c : request) | Blocked (c : request) | Failed (e : fault).
Arguments Returned {A} a. Arguments Stopped {A} c. Arguments Blocked {A} c. Arguments Failed {A} e.

Definition stops (c : request) : bool := match c with Halt | Exit _ => true | _ => false end.

Section run.
Context {K : Type} (kernel : request -> K -> option (answer * K)).

(** The calls with their answers, the end, and the state of the kernel then. *)
Fixpoint run {A} (p : prog A) (k : K) : list (request * answer) * run_end A * K :=
  match p with
  | Ret a => ([], Returned a, k)
  | Wrong e => ([], Failed e, k)
  | Sys c next =>
      if stops c then ([], Stopped c, k)
      else match kernel c k with
           | None => ([], Blocked c, k)
           | Some (a, k) => let '(tr, o, k) := run (next a) k in ((c, a) :: tr, o, k)
           end
  end.
End run.

(** [__start] of start.s. *)
Definition start (main : prog unit) : prog unit := main ;; ask_do (Exit 0).

(** ** Printing *)

(** [prints(s, file)] *)
Fixpoint prints (s : list Z) (file : Z) : prog unit :=
  match s with
  | [] => Wrong OutOfBounds
  | c :: rest => if c =? 0 then Ret tt else ask_do (Write s 1 file) ;; prints rest file
  end.

(** [printd(n, file)] *)
Fixpoint printd (fuel : nat) (n file : Z) : prog unit :=
  match fuel with
  | O => Wrong OutOfFuel
  | S fuel =>
      n ← (if n <? 0 then ask_do (Write (lit "-") 1 file) ;; Ret (s32 (- n)) else Ret n);
      let i := Z.quot n 10 in
      (if negb (i =? 0) then printd fuel i file else Ret tt) ;;
      let c := s8 (s8 (Z.rem n 10) + 48) in
      ask_do (Write [c] 1 file)
  end.

(** The bound on the depth of [printd]: the digits of an int, and one more for the
    smallest int, whose sign is printed twice. *)
Definition depth : nat := 11.

(** ** The programs *)

(** halt.c *)
Definition halt_main : prog unit := ask_do Halt.

(** argtest.c, argkid.c *)
Definition argtest_main : prog unit :=
  prints (line "PARENT exists") ConsoleOutput ;;
  kid ← ask_value (Exec (chars "./test/argkid") [chars "argument1"; chars "argument2"]);
  prints (lit "PARENT after exec; argkid pid is ") ConsoleOutput ;;
  printd depth kid ConsoleOutput ;;
  prints (line "") ConsoleOutput ;;
  prints (line "PARENT about to Join argkid") ConsoleOutput ;;
  joinval ← ask_value (Join kid);
  prints (lit "PARENT off Join with value of ") ConsoleOutput ;;
  printd depth joinval ConsoleOutput ;;
  prints (line "") ConsoleOutput ;;
  ask_do Halt.

Fixpoint argkid_args (n : nat) (i argc : Z) (argv : list (list Z)) : prog unit :=
  match n with
  | O => Ret tt
  | S n =>
      if i <? argc then
        prints (lit "Arg[") ConsoleOutput ;;
        printd depth i ConsoleOutput ;;
        prints (lit "]=<") ConsoleOutput ;;
        arg ← lift (argv.[i]);
        prints arg ConsoleOutput ;;
        prints (line ">") ConsoleOutput ;;
        argkid_args n (i + 1) argc argv
      else Ret tt
  end.
Definition argkid_main (argc : Z) (argv : list (list Z)) : prog unit :=
  ask_do (Write (line "argkid exists") 14 ConsoleOutput) ;;
  argkid_args (Z.to_nat argc) 0 argc argv ;;
  ask_do (Write (line "argkid is about to exit") 23 ConsoleOutput) ;;
  ask_do (Exit 17).

(** fork.c: start a child, wait for it. *)
Definition fork_main : prog unit :=
  prints (line "PARENT exists") ConsoleOutput ;;
  kid ← ask_value (Exec (chars "./test/kid") [chars "kid"]);
  prints (lit "PARENT after exec; kid pid is ") ConsoleOutput ;;
  printd depth kid ConsoleOutput ;;
  prints (line "") ConsoleOutput ;;
  prints (line "PARENT about to Join kid") ConsoleOutput ;;
  joinval ← ask_value (Join kid);
  prints (lit "PARENT off Join with value of ") ConsoleOutput ;;
  printd depth joinval ConsoleOutput ;;
  prints (line "") ConsoleOutput ;;
  ask_do Halt.

(** multiprog.c *)
Definition multiprog_main : prog unit :=
  prints (line "PARENT exists") ConsoleOutput ;;
  child1 ← ask_value (Exec (chars "./test/child1") [chars "kid"]);
  child2 ← ask_value (Exec (chars "./test/child2") [chars "kid"]);
  prints (lit "PARENT after exec; child1 pid is ") ConsoleOutput ;;
  printd depth child1 ConsoleOutput ;;
  prints (line "") ConsoleOutput ;;
  prints (line "PARENT is about to Join child1") ConsoleOutput ;;
  joinval ← ask_value (Join child1);
  prints (lit "PARENT off Join with value of ") ConsoleOutput ;;
  printd depth joinval ConsoleOutput ;;
  prints (line "") ConsoleOutput ;;
  prints (lit "PARENT after exec; child2 pid is ") 32 ;;     (* the third argument is ConsoleOutput *)
  printd depth child2 ConsoleOutput ;;
  prints (line "") ConsoleOutput ;;
  prints (line "PARENT is about to Join child2") ConsoleOutput ;;
  joinval ← ask_value (Join child2);
  prints (lit "PARENT off Join with value of ") ConsoleOutput ;;
  printd depth joinval ConsoleOutput ;;
  prints (line "") ConsoleOutput ;;
  prints (line "PARENT is about to Join non-exist child") ConsoleOutput ;;
  joinval ← ask_value (Join 3);
  prints (lit "PARENT off Join with value of ") ConsoleOutput ;;
  printd depth joinval ConsoleOutput ;;
  prints (line "") ConsoleOutput ;;
  ask_do Halt.

(** The loop that delays a child: [j++], [n] times. *)
Fixpoint delay (n : nat) (j : Z) : Z := match n with O => j | S n => delay n (s32 (j + 1)) end.

(** kid.c, kid5.c, child1.c, child2.c; [j] is what the local holds at first. *)
Definition kid_main (j : Z) : prog unit :=
  ask_do (Write (line "Kid exists") 11 ConsoleOutput) ;;
  let j := delay 10000 j in
  ask_do (Write (line "Kid is about to exit") 21 ConsoleOutput) ;;
  ask_do (Exit 0) ;;
  ask_do (Write (line "KID after Exit()!") 18 ConsoleOutput) ;;
  ask_do Halt.
Definition kid5_main (j : Z) : prog unit :=
  ask_do (Write (line "KID5 exists") 12 ConsoleOutput) ;;
  let j := delay 10000 j in
  ask_do (Write (line "KID5 is about to exit") 22 ConsoleOutput) ;;
  ask_do (Exit 5) ;;
  ask_do (Write (line "KID5 after Exit()!") 19 ConsoleOutput) ;;
  ask_do Halt.
Definition child1_main (j : Z) : prog unit :=
  ask_do (Write (line "Child1 exists") 11 ConsoleOutput) ;;
  let j := delay 10000 j in
  ask_do (Write (line "Child1 is about to exit") 21 ConsoleOutput) ;;
  ask_do (Exit 0) ;;
  ask_do (Write (line "Child1 after Exit()!") 18 ConsoleOutput) ;;
  ask_do Halt.
Definition child2_main (j : Z) : prog unit :=
  ask_do (Write (line "Child2 exists") 11 ConsoleOutput) ;;
  let j := delay 10000 j in
  ask_do (Write (line "Child2 is about to exit") 21 ConsoleOutput) ;;
  ask_do (Exit 0) ;;
  ask_do (Write (line "Child2 after Exit()!") 18 ConsoleOutput) ;;
  ask_do Halt.

(** deepfork.c, kid4.c *)
Definition deepfork_main : prog unit :=
  ask_do (Write (line "PARENT exists") 14 ConsoleOutput) ;;
  kid ← ask_value (Exec (chars "./test/kid4") [chars "kid4"]);
  ask_do (Write (lit "PARENT after exec; kid pid is ") 30 ConsoleOutput) ;;
  printd depth kid ConsoleOutput ;;
  ask_do (Write (line "") 1 ConsoleOutput) ;;
  ask_do (Write (line "PARENT is about to Join kid") 28 ConsoleOutput) ;;
  joinval ← ask_value (Join kid);
  ask_do (Write (lit "PARENT off Join with value of ") 30 ConsoleOutput) ;;
  printd depth joinval ConsoleOutput ;;
  ask_do (Write (line "") 1 ConsoleOutput) ;;
  ask_do Halt.

(** [for (i = 0; i++; i < 100000) j++;]: the condition is the old value of [i]. *)
Fixpoint kid4_delay (fuel : nat) (i j : Z) : res (Z * Z) :=
  match fuel with
  | O => Err OutOfFuel
  | S fuel => if i =? 0 then mret (s32 (i + 1), j) else kid4_delay fuel (s32 (i + 1)) (s32 (j + 1))
  end.
Definition kid4_main (j : Z) : prog unit :=
  ask_do (Write (line "KID4 exists") 12 ConsoleOutput) ;;
  _ ← lift (kid4_delay 1 0 j);
  kid ← ask_value (Exec (chars "./test/kid5") [chars "kid5"]);
  ask_do (Write (lit "KID4 after exec; kid5 pid is ") 29 ConsoleOutput) ;;
  printd depth kid ConsoleOutput ;;
  ask_do (Write (line "") 1 ConsoleOutput) ;;
  ask_do (Write (line "KID4 is about to Join kid5") 27 ConsoleOutput) ;;
  joinval ← ask_value (Join kid);
  ask_do (Write (lit "KID4 off Join with value of ") 28 ConsoleOutput) ;;
  printd depth joinval ConsoleOutput ;;
  ask_do (Write (line "") 1 ConsoleOutput) ;;
  ask_do (Write (line "KID4 is about to exit") 22 ConsoleOutput) ;;
  ask_do (Exit 4) ;;
  ask_do (Write (line "KID4 after Exit()!") 19 ConsoleOutput) ;;
  ask_do Halt.

(** hellofile.c, test.c, bogus1.c *)
Definition hellofile_main : prog unit :=
  ask_do (Create (chars "hello.out")) ;;
  ask_do (Write (line "Past the Create()") 18 ConsoleOutput) ;;
  myfile ← ask_value (Open (chars "hello.out"));
  ask_do (Write (lit "Past the Open(): returned ") 26 ConsoleOutput) ;;
  printd depth myfile ConsoleOutput ;;
  ask_do (Write (line "") 1 ConsoleOutput) ;;
  ask_do (Write (line "Hello, file.") 13 myfile) ;;
  ask_do (Write (line "Past the Write()") 17 ConsoleOutput) ;;
  ask_do Halt.

Definition test_main : prog unit :=
  ask_do (Create (chars "someFile")) ;;
  fd ← ask_value (Open (chars "someFile"));
  ask_do (Write (lit "this is a string!") 32 fd) ;;
  ask_do (Close fd) ;;
  ask_do (Exit 0).

Definition bogus1_main (arr : list Z) : prog unit :=
  _ ← lift (arr.[10000 := 1]);
  ask_do (Write (line "Shouldn't see this message!") 28 ConsoleOutput) ;;
  ask_do Halt.

(** fromcons.c: the characters up to a Q, and their number; [c] is what the
    variable holds at first. *)
Fixpoint fromcons_loop (fuel : nat) (count c : Z) : prog unit :=
  match fuel with
  | O => Wrong OutOfFuel
  | S fuel =>
      a ← ask (Read 1 ConsoleInput);
      c ← lift (zwrite [c] 0 (data a) ≫= fun v => v.[0]);
      if c =? 81 then
        prints (line "") ConsoleOutput ;;
        printd depth count ConsoleOutput ;;
        prints (line " characters seen.") ConsoleOutput ;;
        ask_do Halt ;;
        fromcons_loop fuel count c
      else
        let count := s32 (count + 1) in
        ask_do (Write [c] 1 ConsoleOutput) ;;
        fromcons_loop fuel count c
  end.
Definition fromcons_main (fuel : nat) (c : Z) : prog unit := fromcons_loop fuel 0 c.

(** *** shell.c *)

(** [do Read(&buffer[i], 1, input); while (buffer[i++] != '\n');] *)
Fixpoint read_line (fuel : nat) (buffer : list Z) (i : Z) : prog (list Z * Z) :=
  match fuel with
  | O => Wrong OutOfFuel
  | S fuel =>
      a ← ask (Read 1 ConsoleInput);
      buffer ← lift (zwrite buffer i (data a));
      c ← lift (buffer.[i]);
      if negb (c =? 10) then read_line fuel buffer (i + 1) else Ret (buffer, i + 1)
  end.

(** One turn of [while (1)]. *)
Definition shell_turn (buffer : list Z) : prog (list Z) :=
  ask_do (Write [45; 45] 2 ConsoleOutput) ;;
  '(buffer, i) ← read_line 61 buffer 0;
  let i := i - 1 in
  buffer ← lift (buffer.[i := 0]);
  if i >? 0 then
    name ← lift (c_string buffer);
    newProc ← ask_value (Exec name [chars "Child"]);
    _ ← ask_value (Join newProc);
    Ret buffer
  else Ret buffer.

(** [turns] turns; [buffer] is what the array of 60 characters holds at first. *)
Fixpoint shell_main (turns : nat) (buffer : list Z) : prog unit :=
  match turns with
  | O => Wrong OutOfFuel
  | S turns => buffer ← shell_turn buffer; shell_main turns buffer
  end.

(** *** sort.c, matmult.c *)

(** [for (i = ..; ..; i++) body], [n] turns. *)
Fixpoint for_loop {A} (n : nat) (i : Z) (body : Z -> A -> res A) (a : A) : res A :=
  match n with O => mret a | S n => a ← body i a; for_loop n (i + 1) body a end.

(** [if (A[j] > A[j + 1])] swap. *)
Definition compare_swap (j : Z) (a : list Z) : res (list Z) :=
  x ← a.[j];
  y ← a.[j + 1];
  if x >? y then
    let tmp := x in
    a ← a.[j := y];
    a.[j + 1 := tmp]
  else mret a.

(** The array of [n] elements (1024 in the program), and its sort. *)
Definition reverse_order (n : Z) : res (list Z) :=
  for_loop (Z.to_nat n) 0 (fun i a => a.[i := n - i]) (replicate (Z.to_nat n) 0).
Definition sort_pass (n i : Z) (a : list Z) : res (list Z) :=
  for_loop (Z.to_nat (n - 1 - i - i)) i compare_swap a.      (* j = i; j < 1023 - i *)
Definition sort_array (n : Z) : res (list Z) :=
  a ← reverse_order n;
  for_loop (Z.to_nat (n - 1)) 0 (sort_pass n) a.
Definition sort_main : prog unit :=
  a ← lift (sort_array 1024);
  x ← lift (a.[0]);
  ask_do (Exit x).

Definition Dim : Z := 20.
(** The element [i][j] of an [int [Dim][Dim]]. *)
Definition elem (i j : Z) : Z := i * Dim + j.
Definition matmult_init (st : list Z * list Z * list Z) : res (list Z * list Z * list Z) :=
  for_loop 20 0 (fun i => for_loop 20 0 (fun j '(A, B, C) =>
    A ← A.[elem i j := i];
    B ← B.[elem i j := j];
    C ← C.[elem i j := 0];
    mret (A, B, C))) st.
Definition multiply (A B C : list Z) : res (list Z) :=
  for_loop 20 0 (fun i => for_loop 20 0 (fun j => for_loop 20 0 (fun k C =>
    c ← C.[elem i j];
    a ← A.[elem i k];
    b ← B.[elem k j];
    C.[elem i j := s32 (c + s32 (a * b))]))) C.
Definition matmult_main : prog unit :=
  '(A, B, C) ← lift (matmult_init (replicate 400 0, replicate 400 0, replicate 400 0));
  C ← lift (multiply A B C);
  x ← lift (C.[elem (Dim - 1) (Dim - 1)]);
  ask_do (Exit x).

(** *** fileio.c *)

Fixpoint assign (a : list Z) (i : Z) (s : list Z) : res (list Z) :=
  match s with [] => mret a | c :: s => a ← a.[i := c]; assign a (i + 1) s end.

(** The cases after the two buffers are set up; [notopen] is uninitialised. *)
Definition fileio_cases (buffer buffer1 buffer2 : list Z) (notopen : Z) : prog unit :=
  prints (lit (newline +++ newline +++ "Standard procedure: Create, Open, Write, Close, Read, Close" +++ newline)) ConsoleOutput ;;
  ask_do (Create (chars "dir_test/newFile")) ;;
  fd ← ask_value (Open (chars "dir_test/newFile"));
  ask_do (Write buffer 32 fd) ;;
  ask_do (Close fd) ;;
  fd ← ask_value (Open (chars "dir_test/newFile"));
  a ← ask (Read 32 fd);
  buffer1 ← lift (zwrite buffer1 0 (data a));
  ask_do (Close fd) ;;
  prints (lit "Read Data: ") ConsoleOutput ;;
  prints buffer1 ConsoleOutput ;;
  prints (lit (newline +++ newline +++ "File does not exist: Open, Write, Read" +++ newline)) ConsoleOutput ;;
  nullfd ← ask_value (Open (chars "dir_test/does.not.exist"));
  ask_do (Write buffer 32 nullfd) ;;
  buffer1 ← lift (assign buffer1 0 (replicate 128 0));
  a ← ask (Read 32 nullfd);
  buffer1 ← lift (zwrite buffer1 0 (data a));
  ask_do (Close nullfd) ;;
  prints buffer ConsoleOutput ;;
  prints (lit (newline +++ newline +++ "File is already open: Open, Open, Write/Read, Write/Read (each fd)" +++ newline)) ConsoleOutput ;;
  ask_do (Create (chars "dir_test/alreadyOpen")) ;;
  alreadyOpen ← ask_value (Open (chars "dir_test/alreadyOpen"));
  alreadyOpen2 ← ask_value (Open (chars "dir_test/alreadyOpen"));
  ask_do (Write buffer 32 alreadyOpen) ;;
  ask_do (Write buffer2 32 alreadyOpen2) ;;
  ask_do (Close alreadyOpen) ;;
  ask_do (Close alreadyOpen2) ;;
  prints (lit (newline +++ newline +++ "File already exists: Create, Create" +++ newline)) ConsoleOutput ;;
  ask_do (Create (chars "dir_test/alreadyExists")) ;;
  ask_do (Create (chars "dir_test/alreadyExists")) ;;
  prints (lit (newline +++ newline +++ "Open, close, open on same file" +++ newline)) ConsoleOutput ;;
  ask_do (Create (chars "dir_test/oco_test")) ;;
  oco_test ← ask_value (Open (chars "dir_test/oco_test"));
  ask_do (Close oco_test) ;;
  oco_test2 ← ask_value (Open (chars "dir_test/oco_test"));
  ask_do (Write buffer 32 oco_test) ;;
  ask_do (Write buffer 32 oco_test2) ;;
  ask_do (Close oco_test2) ;;
  prints (lit (newline +++ newline +++ "Close a file not opened" +++ newline)) ConsoleOutput ;;
  ask_do (Close notopen) ;;
  let notopen := -1 in
  ask_do (Close notopen) ;;
  prints (lit (newline +++ newline +++ "Invalid write size" +++ newline)) ConsoleOutput ;;
  ask_do (Create (chars "dir_test/rwtest")) ;;
  rwtest ← ask_value (Open (chars "dir_test/rwtest"));
  ask_do (Write buffer (-1) rwtest) ;;
  ask_do (Close rwtest) ;;
  prints (lit (newline +++ newline +++ "Invalid read size" +++ newline)) ConsoleOutput ;;
  ask_do (Create (chars "dir_test/rwtest2")) ;;
  rwtest ← ask_value (Open (chars "dir_test/rwtest2"));
  buffer1 ← lift (assign buffer1 0 (replicate 128 0));
  a ← ask (Read (-1) rwtest);
  buffer1 ← lift (zwrite buffer1 0 (data a));
  ask_do (Close rwtest) ;;
  prints buffer1 ConsoleOutput ;;
  ask_do (Exit 0).

(** The arrays hold anything at first: three of 128 characters and one of 81. *)
Definition fileio_main (buffer buffer1 buffer2 nl : list Z) (notopen : Z) : prog unit :=
  nl ← lift (assign nl 0 (replicate 80 42));
  nl ← lift (nl.[81 := 0]);
  prints (line "FILE IO TEST CASES") ConsoleOutput ;;
  prints nl ConsoleOutput ;;
  buffer ← lift (assign buffer 0 (chars "an string"));
  buffer ← lift (buffer.[10 := 0]);
  buffer2 ← lift (assign buffer2 0 (chars "an string"));
  buffer2 ← lift (assign buffer2 10 [50; 0]);
  buffer1 ← lift (assign buffer1 0 (replicate 128 0));
  fileio_cases buffer buffer1 buffer2 notopen.

(** ** Runs compose *)

Section runs.
Context {K : Type} (kernel : request -> K -> option (answer * K)).

(** [p] returns [a] after the calls [tr]. *)
Definition returns {A} (p : prog A) (k : K) (tr : list (request * answer)) (a : A) (k' : K) : Prop :=
  run kernel p k = (tr, Returned a, k').

Lemma run_bind {A B} (p : prog A) (f : A -> prog B) k tr a k' :
  returns p k tr a k' ->
  run kernel (p ≫= f) k = let '(tr', o, k'') := run kernel (f a) k' in (tr ++ tr', o, k'').
Proof.
  unfold returns. revert k tr. induction p as [x|c next IH|e]; intros k tr E; cbn in *.
  - injection E as <- <- <-. by destruct (run kernel (f x) k) as [[??]?].
  - destruct (stops c); [done|]. destruct (kernel c k) as [[x k1]|]; [|done].
    destruct (run kernel (next x) k1) as [[tr1 o1] k2] eqn:E1. injection E as <- -> ->.
    change (prog_then (next x) f) with (next x ≫= f). rewrite (IH _ _ _ E1).
    by destruct (run kernel (f a) k') as [[??]?].
  - done.
Qed.

Lemma run_assoc {A B C} (p : prog A) (f : A -> prog B) (g : B -> prog C) k :
  run kernel ((p ≫= f) ≫= g) k = run kernel (p ≫= fun a => f a ≫= g) k.
Proof.
  revert k. induction p as [x|c next IH|e]; intros k; [done| |done]. cbn. destruct (stops c); [done|].
  destruct (kernel c k) as [[a k1]|]; [|done]. specialize (IH a k1). unfold mbind, prog_bind in IH. by rewrite IH.
Qed.

Lemma returns_bind {A B} (p : prog A) (f : A -> prog B) k tr a k1 tr' b k2 :
  returns p k tr a k1 -> returns (f a) k1 tr' b k2 -> returns (p ≫= f) k (tr ++ tr') b k2.
Proof. intros H1 H2. unfold returns. by rewrite (run_bind _ _ _ _ _ _ H1), H2. Qed.
End runs.
