(* ===== verification/UserProgsProps.v ===== *)
(** * UserProgsProps: the properties of the programs of test/

    What the programs do when they run on a terminal: the numbers they print, the
    echo of fromcons, the jobs of the shell, and the results of sort and matmult. *)

From S2P Require Import Text.
From S2P Require Import Prelude FDList AddrSpace UserProgs.

(** ** A terminal *)

(** What the programs rely on, as syscall.h documents the calls: a Read of a character
    from the console waits for the next one typed; the other calls that return do so,
    and leave the keyboard alone.  So the programs that Exec runs come to their end,
    and neither read from the keyboard nor halt the machine.  (The kernel's own Read
    of the console, with scanf, takes a whole word at a time: see exception.cc.) *)
Class Terminal (K : Type) := {
  kernel : request -> K -> option (answer * K);
  typed : K -> list Z;
  kernel_reads k :
    match typed k with
    | [] => kernel (Read 1 ConsoleInput) k = None
    | c :: rest => exists a k', kernel (Read 1 ConsoleInput) k = Some (a, k') /\ data a = [c] /\ typed k' = rest
    end;
  kernel_answers c k :
    match c with Read _ _ => True | _ => exists a k', kernel c k = Some (a, k') /\ typed k' = typed k end
}.

(** What was written: the file and the characters that are in the buffer. *)
Definition written (c : request * answer) : list (Z * list Z) :=
  match c.1 with Write buffer size id => [(id, take (Z.to_nat size) buffer)] | _ => [] end.
Definition transcript (tr : list (request * answer)) : list (Z * list Z) := tr ≫= written.
(** The characters of [s], one at a time. *)
Definition one_by_one (file : Z) (s : list Z) : list (Z * list Z) := (fun c => (file, [c])) <$> s.
Definition only_writes (tr : list (request * answer)) : Prop := Forall (fun c => written c <> []) tr.

(** The calls [tr] write [s] to [file], one character at a time. *)
Definition writes (file : Z) (s : list Z) (tr : list (request * answer)) : Prop :=
  transcript tr = one_by_one file s /\ only_writes tr.

Lemma transcript_app a b : transcript (a ++ b) = transcript a ++ transcript b.
Proof. apply bind_app. Qed.

Lemma one_by_one_app file a b : one_by_one file (a ++ b) = one_by_one file a ++ one_by_one file b.
Proof. apply fmap_app. Qed.

Lemma writes_app file a b ta tb : writes file a ta -> writes file b tb -> writes file (a ++ b) (ta ++ tb).
Proof.
  intros [E1 W1] [E2 W2]. split; [by rewrite transcript_app, one_by_one_app, E1, E2|by apply Forall_app].
Qed.

Lemma writes_nil file : writes file [] [].
Proof. split; [done|constructor]. Qed.

Lemma digit_char d : -128 <= d < 80 -> s8 (s8 d + 48) = 48 + d.
Proof. intros Hd. unfold s8. rewrite (Z.mod_small (d + 2 ^ 7)), Z.mod_small; lia. Qed.

Section terminal.
Context {K : Type} `{Terminal K}.

Lemma returns_do c k :
  stops c = false -> match c with Read _ _ => False | _ => True end ->
  exists a k', returns kernel (ask_do c) k [(c, a)] tt k' /\ typed k' = typed k.
Proof.
  intros Hs Hc. pose proof (kernel_answers c k) as Ha. unfold returns, ask_do. cbn [run]. rewrite Hs.
  destruct c; try done; destruct Ha as (a & k' & -> & Ht); by exists a, k'.
Qed.

Lemma write_one c rest file k :
  exists k' tr, returns kernel (ask_do (Write (c :: rest) 1 file)) k tr tt k' /\ typed k' = typed k /\ writes file [c] tr.
Proof.
  destruct (returns_do (Write (c :: rest) 1 file) k eq_refl I) as (a & k' & E & Ht).
  exists k', [(Write (c :: rest) 1 file, a)]. split; [done|]. split; [done|]. split; [done|by constructor].
Qed.

(** [prints] writes the string, without its NUL. *)
Lemma prints_writes s rest file : Forall (fun c => c <> 0) s -> forall k,
  exists k' tr, returns kernel (prints (s ++ 0 :: rest) file) k tr tt k' /\ typed k' = typed k /\ writes file s tr.
Proof.
  induction 1 as [|c s Hc Hs IH]; intros k.
  - exists k, []. split; [done|]. split; [done|apply writes_nil].
  - cbn [app prints]. rewrite (proj2 (Z.eqb_neq c 0) Hc).
    destruct (write_one c (s ++ 0 :: rest) file k) as (k1 & t1 & E1 & Ht1 & W1).
    destruct (IH k1) as (k2 & t2 & E2 & Ht2 & W2). exists k2, (t1 ++ t2).
    split; [by eapply returns_bind|]. split; [congruence|by apply (writes_app file [c] s)].
Qed.

(** [lit] of a text without NULs. *)
Lemma prints_lit s file k :
  Forall (fun c => c <> 0) (chars s) ->
  exists k' tr, returns kernel (prints (lit s) file) k tr tt k' /\ typed k' = typed k /\ writes file (chars s) tr.
Proof. intros Hs. by apply (prints_writes (chars s) []). Qed.

Lemma chars_app a b : chars (a +++ b) = chars a ++ chars b.
Proof. induction a as [|c a IH]; [done|]. exact (f_equal (cons _) IH). Qed.

Lemma chars_digit d : 0 <= d < 10 -> chars (String (digit d) EmptyString) = [48 + d].
Proof.
  intros Hd. assert (d ∈ seqZ 0 10) as Hin by (apply elem_of_seqZ; lia).
  revert Hin. generalize d. apply Forall_forall. by repeat constructor.
Qed.

(** The digits of a nonnegative number, on a depth that is enough. *)
Lemma printd_positive file : forall fuel n k,
  (0 < fuel)%nat -> 0 <= n < 10 ^ Z.of_nat fuel -> n < 2 ^ 31 ->
  exists k' tr, returns kernel (printd fuel n file) k tr tt k' /\ typed k' = typed k /\
    writes file (chars (numeral fuel 10 n)) tr.
Proof.
  induction fuel as [|fuel IH]; intros n k Hf Hn Hb; [lia|]. cbn [printd numeral].
  rewrite (proj2 (Z.ltb_ge n 0)) by lia. unfold mbind, prog_bind, prog_then at 1. fold (@prog_then unit unit).
  rewrite Z.quot_div_nonneg, Z.rem_mod_nonneg by lia.
  pose proof (Z.mod_pos_bound n 10 ltac:(lia)) as Hr.
  assert (s8 (s8 (n mod 10) + 48) = 48 + n mod 10) as -> by (apply digit_char; lia).
  destruct (Z.ltb_spec n 10) as [Hlt|Hge].
  - rewrite Z.div_small, Z.mod_small by lia. cbn [Z.eqb negb].
    destruct (write_one (48 + n) [] file k) as (k1 & t1 & E1 & Ht1 & W1). exists k1, t1.
    split; [exact E1|]. split; [done|]. rewrite chars_digit by lia. done.
  - assert (0 < n / 10) by (apply Z.div_str_pos; lia).
    rewrite (proj2 (Z.eqb_neq (n / 10) 0)) by lia. cbn [negb].
    assert (0 < fuel)%nat by (destruct fuel; [cbn in Hn; lia|lia]).
    destruct (IH (n / 10) k) as (k1 & t1 & E1 & Ht1 & W1); [done| | |].
    + rewrite Nat2Z.inj_succ, Z.pow_succ_r in Hn by lia. split; [lia|]. apply Z.div_lt_upper_bound; lia.
    + apply Z.div_lt_upper_bound; lia.
    + destruct (write_one (48 + n mod 10) [] file k1) as (k2 & t2 & E2 & Ht2 & W2).
      exists k2, (t1 ++ t2). split; [by eapply returns_bind|]. split; [congruence|].
      rewrite chars_app, chars_digit by done. by apply writes_app.
Qed.

Lemma numeral_enough : forall m f z, (f <= m)%nat -> (0 < f)%nat -> 0 <= z < 10 ^ Z.of_nat f -> numeral m 10 z = numeral f 10 z.
Proof.
  induction m as [|m IH]; intros f z Hf Hp Hz; [lia|]. destruct f as [|f]; [lia|]. cbn [numeral].
  destruct (Z.ltb_spec z 10); [done|]. destruct f as [|f]; [cbn in Hz; lia|]. rewrite (IH (S f)); [done|lia|lia|].
  rewrite (Nat2Z.inj_succ (S f)), Z.pow_succ_r in Hz by lia. split; [apply Z.div_pos; lia|]. apply Z.div_lt_upper_bound; lia.
Qed.

(** The sign of a negative number. *)
Lemma printd_sign fuel n file :
  n < 0 -> s32 (- n) >= 0 ->
  printd (S fuel) n file = (ask_do (Write (lit "-") 1 file) ;; printd (S fuel) (s32 (- n)) file).
Proof.
  intros Hn Hm. cbn [printd]. rewrite (proj2 (Z.ltb_lt n 0)), (proj2 (Z.ltb_ge (s32 (- n)) 0)) by lia. reflexivity.
Qed.

Lemma printd_int fuel n file k :
  (10 <= fuel)%nat -> - 2 ^ 31 < n < 2 ^ 31 ->
  exists k' tr, returns kernel (printd fuel n file) k tr tt k' /\ typed k' = typed k /\ writes file (chars (fmt_d n)) tr.
Proof.
  intros Hf Hn. assert (10 ^ 10 <= 10 ^ Z.of_nat fuel) as Hp by (apply Z.pow_le_mono_r; lia).
  assert (2 ^ 31 < 10 ^ 10) as H2 by done. unfold fmt_d. destruct (Z.ltb_spec n 0).
  - destruct fuel as [|fuel]; [lia|]. assert (s32 (- n) = - n) as Hm by (apply s32_id; word_lia).
    rewrite printd_sign, Hm by lia. destruct (write_one 45 [0] file k) as (k1 & t1 & E1 & Ht1 & W1).
    destruct (printd_positive file (S fuel) (- n) k1) as (k2 & t2 & E2 & Ht2 & W2); [lia|lia|lia|].
    exists k2, (t1 ++ t2). split; [by eapply returns_bind|]. split; [congruence|].
    change (writes file ([45] ++ chars (numeral 10 10 (- n))) (t1 ++ t2)).
    apply writes_app; [done|]. by rewrite (numeral_enough (S fuel) 10) in W2 by (simpl Z.of_nat; lia).
  - destruct (printd_positive file fuel n k) as (k2 & t2 & E2 & Ht2 & W2); [lia|lia|lia|].
    exists k2, t2. split; [done|]. split; [done|]. by rewrite (numeral_enough fuel 10) in W2 by (simpl Z.of_nat; lia).
Qed.
End terminal.

(** C39: printing a number ends, and prints it.  For every int, printd returns
    after at most [depth] nested calls, whatever the kernel answers, having done
    nothing but write characters to the file, one at a time: the ones that
    printf("%d") would print.  The smallest int is the exception: it is its own
    opposite, so that printd prints "--214748364(". *)
Theorem printd_correct {K} `{Terminal K} n file (k : K) :
  is_s32 n ->
  exists k' tr, returns kernel (printd depth n file) k tr tt k' /\ typed k' = typed k /\
    writes file (chars (if n =? - 2 ^ 31 then "--214748364(" else fmt_d n)) tr.
Proof.
  intros Hn. destruct (Z.eqb_spec n (- 2 ^ 31)) as [->|Hne].
  - destruct (write_one 45 [0] file k) as (k1 & t1 & E1 & Ht1 & W1).
    destruct (printd_int 10 (-214748364) file k1) as (k2 & t2 & E2 & Ht2 & W2); [lia|lia|].
    destruct (write_one 40 [] file k2) as (k3 & t3 & E3 & Ht3 & W3). exists k3, (t1 ++ (t2 ++ t3)).
    assert (printd depth (- 2 ^ 31) file = (ask_do (Write (lit "-") 1 file) ;; (printd 10 (-214748364) file ;; ask_do (Write [40] 1 file)))) as ->
      by reflexivity.
    split; [by eapply returns_bind; [|eapply returns_bind]|]. split; [congruence|].
    exact (writes_app file [45] _ _ _ W1 (writes_app file (chars "-214748364") [40] _ _ W2 W3)).
  - apply printd_int; [unfold depth; lia|]. unfold is_s32 in Hn. lia.
Qed.

(** *** Reading the keyboard *)

Section keyboard.
Context {K : Type} `{Terminal K}.

Lemma returns_key c rest k :
  typed k = c :: rest ->
  exists a k', returns kernel (ask (Read 1 ConsoleInput)) k [(Read 1 ConsoleInput, a)] a k' /\ data a = [c] /\ typed k' = rest.
Proof.
  intros Ht. pose proof (kernel_reads k) as Hr. rewrite Ht in Hr. destruct Hr as (a & k' & E & Hd & Ht').
  exists a, k'. split; [|done]. unfold returns, ask. cbn [run stops]. by rewrite E.
Qed.

Lemma no_key {A} k (f : answer -> prog A) :
  typed k = [] -> run kernel (ask (Read 1 ConsoleInput) ≫= f) k = ([], Blocked (Read 1 ConsoleInput), k).
Proof. intros Ht. pose proof (kernel_reads k) as Hr. rewrite Ht in Hr. cbn [run ask mbind prog_bind prog_then stops]. by rewrite Hr. Qed.

(** A run that goes on after a part that returns. *)
Lemma run_after {A B} (p : prog A) (f : A -> prog B) k t1 a k1 t2 o k2 :
  returns kernel p k t1 a k1 -> run kernel (f a) k1 = (t2, o, k2) -> run kernel (p ≫= f) k = (t1 ++ t2, o, k2).
Proof. intros E1 E2. by rewrite (run_bind _ _ _ _ _ _ _ E1), E2. Qed.

(** The variable of one character that a Read fills. *)
Lemma one_char (c0 c : Z) : (zwrite [c0] 0 [c] ≫= fun v => v.[0]) = Ok c.
Proof. reflexivity. Qed.

Lemma fromcons_quits cs rest : Forall (fun c => c <> 81) cs -> forall count c0 k,
  typed k = cs ++ 81 :: rest -> 0 <= count -> count + zlen cs < 2 ^ 31 ->
  exists k' tr, run kernel (fromcons_loop (S (length cs)) count c0) k = (tr, Stopped Halt, k') /\ typed k' = rest /\
    transcript tr = one_by_one ConsoleOutput
      (cs ++ [10] ++ chars (fmt_d (count + zlen cs)) ++ chars " characters seen." ++ [10]).
Proof.
  induction 1 as [|c cs Hc Hcs IH]; intros count c0 k Ht H0 Hb; cbn [length fromcons_loop].
  - destruct (returns_key 81 rest k Ht) as (a & k1 & E1 & Hd & Ht1).
    destruct (prints_lit newline ConsoleOutput k1) as (k2 & t2 & E2 & Ht2 & W2 & _); [by repeat constructor|].
    destruct (printd_int depth count ConsoleOutput k2) as (k3 & t3 & E3 & Ht3 & W3 & _); [unfold depth; lia|unfold zlen in Hb; lia|].
    destruct (prints_lit (" characters seen." +++ newline) ConsoleOutput k3) as (k4 & t4 & E4 & Ht4 & W4 & _); [by repeat constructor|].
    exists k4, ([(Read 1 ConsoleInput, a)] ++ (t2 ++ (t3 ++ (t4 ++ [])))). split; [|split].
    + eapply run_after; [exact E1|]. rewrite Hd, one_char. cbn [lift mbind prog_bind prog_then Z.eqb Pos.eqb].
      eapply run_after; [exact E2|]. eapply run_after; [exact E3|].
      eapply run_after; [exact E4|]. reflexivity.
    + congruence.
    + rewrite !transcript_app, W2, W3, W4. unfold zlen. cbn [length]. rewrite Z.add_0_r.
      cbn [app]. rewrite app_nil_r. by rewrite <- !one_by_one_app.
  - destruct (returns_key c (cs ++ 81 :: rest) k Ht) as (a & k1 & E1 & Hd & Ht1).
    destruct (write_one c [] ConsoleOutput k1) as (k2 & t2 & E2 & Ht2 & W2 & _).
    assert (zlen (c :: cs) = zlen cs + 1) as Hz by (unfold zlen; cbn [length]; lia). assert (0 <= zlen cs) by (unfold zlen; lia).
    destruct (IH (s32 (count + 1)) c k2) as (k3 & t3 & E3 & Ht3 & W3); [congruence|rewrite s32_id; word_lia..|].
    exists k3, ([(Read 1 ConsoleInput, a)] ++ (t2 ++ t3)). split; [|split].
    + eapply run_after; [exact E1|]. rewrite Hd, one_char.
      cbn [lift mbind prog_bind prog_then]. rewrite (proj2 (Z.eqb_neq c 81)) by done. eapply run_after; [exact E2|exact E3].
    + congruence.
    + rewrite !transcript_app, W2, W3, s32_id by word_lia. rewrite Hz.
      replace (count + 1 + zlen cs) with (count + (zlen cs + 1)) by lia. reflexivity.
Qed.

(** Reading a line that fits, from [i] on. *)
Lemma read_line_fits l rest : Forall (fun c => c <> 10) l -> forall fuel buffer i k,
  typed k = l ++ 10 :: rest -> 0 <= i -> i + zlen l + 1 <= zlen buffer -> (length l < fuel)%nat ->
  exists tr buffer' k', returns kernel (read_line fuel buffer i) k tr (buffer', i + zlen l + 1) k' /\ typed k' = rest /\
    zwrite buffer i (l ++ [10]) = Ok buffer' /\ Forall (fun c => c.1 = Read 1 ConsoleInput) tr.
Proof.
  induction 1 as [|c l Hc Hl IH]; intros fuel buffer i k Ht Hi Hb Hf; (destruct fuel as [|fuel]; [lia|]); cbn [read_line].
  - destruct (returns_key 10 rest k Ht) as (a & k1 & E1 & Hd & Ht1). change (zlen []) with 0 in *.
    pose proof (zwrite_Ok buffer i [10] Hi ltac:(change (zlen [10]) with 1; lia)) as Ew. rewrite Z.add_0_r.
    eexists ([(Read 1 ConsoleInput, a)] ++ []), _, k1. split.
    + eapply returns_bind; [exact E1|]. rewrite Hd, Ew. cbn [lift mbind prog_bind prog_then].
      pose proof (znth_zwrite _ _ _ _ i Ew) as Ei. change (zlen [10]) with 1 in *.
      rewrite (proj2 (Z.leb_le i i)), (proj2 (Z.ltb_lt i (i + 1))), Z.sub_diag in Ei by lia.
      rewrite (proj2 (zget_Ok _ _ _) Ei). reflexivity.
    + split; [done|]. split; [exact Ew|by repeat constructor].
  - assert (zlen (c :: l) = zlen l + 1) as Hz by (unfold zlen; cbn [length]; lia). assert (0 <= zlen l) by (unfold zlen; lia).
    destruct (returns_key c (l ++ 10 :: rest) k Ht) as (a & k1 & E1 & Hd & Ht1).
    pose proof (zwrite_Ok buffer i [c] Hi ltac:(change (zlen [c]) with 1; lia)) as Ew. set (b1 := _ ++ _) in Ew.
    destruct (IH fuel b1 (i + 1) k1) as (tr & buffer' & k2 & E2 & Ht2 & Ew2 & Hr);
      [done|lia|rewrite (zlen_zwrite _ _ _ _ Ew); lia|cbn [length] in Hf; lia|].
    exists ([(Read 1 ConsoleInput, a)] ++ tr), buffer', k2. split; [|split; [done|split]].
    + eapply returns_bind; [exact E1|]. rewrite Hd, Ew. cbn [lift mbind prog_bind prog_then].
      pose proof (znth_zwrite _ _ _ _ i Ew) as Ei. change (zlen [c]) with 1 in *.
      rewrite (proj2 (Z.leb_le i i)), (proj2 (Z.ltb_lt i (i + 1))), Z.sub_diag in Ei by lia.
      rewrite (proj2 (zget_Ok _ _ _) Ei). cbn [lift mbind prog_bind prog_then]. rewrite (proj2 (Z.eqb_neq c 10)) by done. cbn [negb].
      rewrite Hz. replace (i + (zlen l + 1) + 1) with (i + 1 + zlen l + 1) by lia. exact E2.
    + change ((c :: l) ++ [10]) with ([c] ++ (l ++ [10])). by eapply zwrite_app.
    + by apply Forall_app; split; [repeat constructor|].
Qed.

(** Reading a line that does not end, or does not fit. *)
Lemma read_line_unfinished {A} (f : list Z * Z -> prog A) l : Forall (fun c => c <> 10) l -> forall fuel buffer i k more,
  typed k = l ++ more -> 0 <= i -> i + zlen l <= zlen buffer -> (length l < fuel)%nat ->
  more = [] \/ i + zlen l = zlen buffer ->
  exists tr k', run kernel (read_line fuel buffer i ≫= f) k =
      (tr, match more with [] => Blocked (Read 1 ConsoleInput) | _ => Failed OutOfBounds end, k') /\
    Forall (fun c => c.1 = Read 1 ConsoleInput) tr.
Proof.
  induction 1 as [|c l Hc Hl IH]; intros fuel buffer i k more Ht Hi Hb Hf Hm; (destruct fuel as [|fuel]; [lia|]); cbn [read_line].
  - destruct more as [|c more].
    + exists [], k. split; [|constructor]. pose proof (kernel_reads k) as Hr. rewrite Ht in Hr. cbn in Hr |- *. by rewrite Hr.
    + destruct (returns_key c more k Ht) as (a & k1 & E1 & Hd & Ht1). destruct Hm as [|Hm]; [done|]. change (zlen []) with 0 in *.
      exists [(Read 1 ConsoleInput, a)], k1. split; [|by repeat constructor].
      assert (zwrite buffer i (data a) = Err OutOfBounds) as Ew.
      { rewrite Hd. unfold zwrite. change (zlen [c]) with 1. rewrite (proj2 (Z.leb_gt (i + 1) (zlen buffer))) by lia. by rewrite andb_false_r. }
      unfold returns in E1. cbn [run ask stops] in E1. cbn [run ask stops mbind prog_bind prog_then].
      destruct (kernel (Read 1 ConsoleInput) k) as [[a' k']|]; [|done]. injection E1 as -> _ ->. by rewrite Ew.
  - assert (zlen (c :: l) = zlen l + 1) as Hz by (unfold zlen; cbn [length]; lia). assert (0 <= zlen l) by (unfold zlen; lia).
    destruct (returns_key c (l ++ more) k Ht) as (a & k1 & E1 & Hd & Ht1).
    pose proof (zwrite_Ok buffer i [c] Hi ltac:(change (zlen [c]) with 1; lia)) as Ew. set (b1 := _ ++ _) in Ew. pose proof (zlen_zwrite _ _ _ _ Ew) as Hb1.
    destruct (IH fuel b1 (i + 1) k1 more) as (tr & k2 & E2 & Hr);
      [done|lia|lia|cbn [length] in Hf; lia|destruct Hm; [by left|right; lia]|].
    exists ((Read 1 ConsoleInput, a) :: tr), k2. split; [|by constructor].
    pose proof (znth_zwrite _ _ _ _ i Ew) as Ei. change (zlen [c]) with 1 in Ei.
    rewrite (proj2 (Z.leb_le i i)), (proj2 (Z.ltb_lt i (i + 1))), Z.sub_diag in Ei by lia.
    unfold returns in E1. cbn [run ask stops] in E1. cbn [run ask stops mbind prog_bind prog_then].
    destruct (kernel (Read 1 ConsoleInput) k) as [[a' k']|]; [|done]. injection E1 as -> _ ->.
    rewrite Hd, Ew. cbn [lift mbind prog_bind prog_then]. rewrite (proj2 (zget_Ok _ _ _) Ei). cbn [lift mbind prog_bind prog_then].
    rewrite (proj2 (Z.eqb_neq c 10)) by done. cbn [negb].
    change (prog_then (read_line fuel b1 (i + 1)) f) with (read_line fuel b1 (i + 1) ≫= f). by rewrite E2.
Qed.
End keyboard.

(** ** The shell *)

(** A line that fits into the buffer of 60, its newline included. *)
Definition short_line (l : list Z) : Prop := Forall (fun c => c <> 10 /\ c <> 0) l /\ zlen l <= 59.

Definition is_job (c : request * answer) : bool := match c.1 with Exec _ _ | Join _ => true | _ => false end.

(** The jobs for the lines: each line that is not empty is run as a program, and
    then the process that Exec has returned is waited for. *)
Inductive executed : list (list Z) -> list (request * answer) -> Prop :=
| executed_none : executed [] []
| executed_empty ls tr : executed ls tr -> executed ([] :: ls) tr
| executed_line l ls a b tr :
    l <> [] -> executed ls tr ->
    executed (l :: ls) ((Exec l [chars "Child"], a) :: (Join (value a), b) :: tr).

Definition jobs (tr : list (request * answer)) : list (request * answer) := List.filter is_job tr.

Section shell.
Context {K : Type} `{Terminal K}.

Lemma reads_silent tr : Forall (fun c => c.1 = Read 1 ConsoleInput) tr -> jobs tr = [] /\ transcript tr = [].
Proof.
  unfold jobs. induction 1 as [|[c a] tr Hc _ [IH1 IH2]]; [done|]. cbn in Hc. subst c. by split.
Qed.

Lemma jobs_app a b : jobs (a ++ b) = jobs a ++ jobs b.
Proof. apply List.filter_app. Qed.

Lemma returns_value c k :
  stops c = false -> match c with Read _ _ => False | _ => True end ->
  exists a k', returns kernel (ask_value c) k [(c, a)] (value a) k' /\ typed k' = typed k.
Proof.
  intros Hs Hc. pose proof (kernel_answers c k) as Ha. unfold returns, ask_value. cbn [run]. rewrite Hs.
  destruct c; try done; destruct Ha as (a & k' & -> & Ht); by exists a, k'.
Qed.

Lemma shell_line l rest buffer k :
  short_line l -> zlen buffer = 60 -> typed k = l ++ 10 :: rest ->
  exists tr buffer' k', returns kernel (shell_turn buffer) k tr buffer' k' /\ zlen buffer' = 60 /\ typed k' = rest /\
    transcript tr = [(ConsoleOutput, [45; 45])] /\
    forall ls tr', executed ls tr' -> executed (l :: ls) (jobs tr ++ tr').
Proof.
  intros [Hl Hn] Hb Ht. assert (0 <= zlen l) by (unfold zlen; lia). unfold shell_turn.
  destruct (returns_do (Write [45; 45] 2 ConsoleOutput) k eq_refl I) as (a0 & k0 & E0 & Ht0).
  destruct (read_line_fits l rest) with (fuel := 61%nat) (buffer := buffer) (i := 0) (k := k0) as (t1 & b1 & k1 & E1 & Ht1 & Ew & Hr).
  { eapply Forall_impl; [exact Hl|]. by intros c [? _]. } { congruence. } { lia. } { lia. } { unfold zlen in Hn. lia. }
  destruct (reads_silent _ Hr) as [Hj1 Hw1]. rewrite Z.add_0_l in E1.
  pose proof (zlen_zwrite _ _ _ _ Ew) as Hb1. rewrite zwrite_Ok in Ew by (rewrite ?zlen_app; change (zlen [10]) with 1; lia).
  apply Ok_inj in Ew. rewrite take_0, app_nil_l in Ew. set (more := drop _ _) in Ew.
  assert (b1.[zlen l := 0] = Ok (l ++ 0 :: more)) as Ez.
  { rewrite zset_Ok by lia. rewrite <- Ew, <- app_assoc. unfold zlen. by rewrite Nat2Z.id, insert_app_r_alt, Nat.sub_diag by lia. }
  pose proof (zlen_zset _ _ _ _ Ez) as Hb2. set (b2 := l ++ 0 :: more) in *.
  assert (c_string b2 = Ok l) as Ec by (apply c_string_prefix; eapply Forall_impl; [exact Hl|]; by intros c [_ ?]).
  destruct l as [|x l].
  - exists ([(Write [45; 45] 2 ConsoleOutput, a0)] ++ (t1 ++ [])), b2, k1. split_and!; [|lia|done|by rewrite !transcript_app, Hw1|].
    + eapply returns_bind; [exact E0|]. eapply returns_bind; [exact E1|]. cbn beta iota. rewrite Z.add_simpl_r, Ez. reflexivity.
    + intros ls tr' He. rewrite !jobs_app, Hj1. by constructor.
  - destruct (returns_value (Exec (x :: l) [chars "Child"]) k1 eq_refl I) as (a2 & k2 & E2 & Ht2).
    destruct (returns_value (Join (value a2)) k2 eq_refl I) as (a3 & k3 & E3 & Ht3).
    exists ([(Write [45; 45] 2 ConsoleOutput, a0)] ++ (t1 ++ ([(Exec (x :: l) [chars "Child"], a2)] ++ ([(Join (value a2), a3)] ++ [])))), b2, k3.
    split_and!; [|lia|congruence|by rewrite !transcript_app, Hw1|].
    + eapply returns_bind; [exact E0|]. eapply returns_bind; [exact E1|]. cbn beta iota. rewrite Z.add_simpl_r, Ez.
      cbn [lift mbind prog_bind prog_then].
      assert ((zlen (x :: l) >? 0) = true) as -> by (rewrite Z.gtb_ltb; apply Z.ltb_lt; unfold zlen; cbn; lia).
      rewrite Ec. cbn [lift mbind prog_bind prog_then]. eapply returns_bind; [exact E2|]. eapply returns_bind; [exact E3|]. reflexivity.
    + intros ls tr' He. rewrite !jobs_app, Hj1. by constructor.
Qed.
End shell.

(** C40: the shell runs what is typed, on a terminal as syscall.h documents it.  The
    theorem is about a kernel where a Read of one character gives the next one typed
    (the scanf of exception.cc takes a word at a time instead) and where Exec and Join
    always answer, leaving the keyboard alone and the machine running: so the lines are
    not programs that read what is typed, as fromcons does, or that halt the machine,
    as halt does.  The lines have at most 59 characters, so that they fit into the
    buffer with their newline, and no NUL.  For any number of such lines, the shell
    writes the prompt, and runs each line that is not empty as a program, with the
    argument "Child", waiting for it before it goes on; an empty line does nothing.
    When nothing more is typed it waits, even in the middle of a line; but a line of
    60 characters and more is stored past the end of the buffer. *)
Theorem shell_correct {K} `{Terminal K} lines rest buffer (k : K) :
  zlen buffer = 60 -> Forall short_line lines ->
  typed k = concat ((fun l => l ++ [10]) <$> lines) ++ rest -> Forall (fun c => c <> 10) (take 60 rest) ->
  exists tr k',
    run kernel (shell_main (S (length lines)) buffer) k =
      (tr, if zlen rest <=? 60 then Blocked (Read 1 ConsoleInput) else Failed OutOfBounds, k') /\
    executed lines (jobs tr) /\ transcript tr = replicate (S (length lines)) (ConsoleOutput, [45; 45]).
Proof.
  intros Hb Hls. revert buffer k Hb. induction Hls as [|l lines Hl Hls IH]; intros buffer k Hb Ht Hrest.
  - cbn [length shell_main]. cbn [fmap list_fmap concat app] in Ht.
    destruct (returns_do (Write [45; 45] 2 ConsoleOutput) k eq_refl I) as (a0 & k0 & E0 & Ht0).
    cbn [shell_main]. unfold shell_turn. rewrite run_assoc, (run_bind _ _ _ _ _ _ _ E0), run_assoc.
    assert (zlen (take 60 rest) = Z.min 60 (zlen rest)) as Hz by (unfold zlen; rewrite length_take; lia).
    match goal with |- context [read_line 61 buffer 0 ≫= ?f] =>
      destruct (read_line_unfinished f (take 60 rest) Hrest 61 buffer 0 k0 (drop 60 rest)) as (t1 & k1 & E1 & Hr) end;
      [by rewrite take_drop, Ht0|done|lia|rewrite length_take; lia| |].
    { destruct (Z.le_gt_cases (zlen rest) 60); [left; apply drop_ge; unfold zlen in *; lia|right; lia]. }
    destruct (reads_silent _ Hr) as [Hj Hw]. rewrite E1. exists ([(Write [45; 45] 2 ConsoleOutput, a0)] ++ t1), k1.
    split; [|split; [rewrite jobs_app, Hj; constructor|by rewrite transcript_app, Hw]].
    destruct (Z.leb_spec (zlen rest) 60).
    + by rewrite drop_ge by (unfold zlen in *; lia).
    + destruct (drop 60 rest) eqn:Ed; [|done]. apply (f_equal length) in Ed. rewrite length_drop in Ed. unfold zlen in *. cbn in Ed. lia.
  - cbn [fmap list_fmap concat] in Ht. rewrite <- !app_assoc in Ht.
    destruct (shell_line l _ buffer k Hl Hb Ht) as (t1 & b1 & k1 & E1 & Hb1 & Ht1 & Hw1 & Hex).
    destruct (IH b1 k1 Hb1 Ht1 Hrest) as (t2 & k2 & E2 & Hj & Hw).
    exists (t1 ++ t2), k2. split; [|split; [rewrite jobs_app; by apply Hex|by rewrite transcript_app, Hw1, Hw]].
    exact (run_after (shell_turn buffer) (shell_main (S (length lines))) k t1 b1 k1 t2 _ k2 E1 E2).
Qed.

(** fromcons echoes what is typed up to the first Q, then says how many
    characters it has seen and halts the machine. *)
Theorem fromcons_correct {K} `{Terminal K} cs rest c0 (k : K) :
  typed k = cs ++ 81 :: rest -> Forall (fun c => c <> 81) cs -> zlen cs < 2 ^ 31 ->
  exists k' tr, run kernel (fromcons_main (S (length cs)) c0) k = (tr, Stopped Halt, k') /\ typed k' = rest /\
    transcript tr = one_by_one ConsoleOutput (cs ++ [10] ++ chars (fmt_d (zlen cs)) ++ chars " characters seen." ++ [10]).
Proof. intros Ht Hcs Hb. by apply (fromcons_quits cs rest Hcs 0). Qed.

(** A keyboard with the characters still to come; every process has number 3. *)
Definition key_kernel (c : request) (k : list Z) : option (answer * list Z) :=
  match c, k with
  | Read 1 0, [] => None
  | Read 1 0, x :: k => Some (mkAnswer 1 [x], k)
  | _, _ => Some (mkAnswer 3 [], k)
  end.
#[local] Instance keyboard : Terminal (list Z).
Proof.
  refine {| kernel := key_kernel; typed k := k |}.
  - by intros [|c rest]; [|exists (mkAnswer 1 [c]), rest].
  - by intros [] k; try (eexists _, _; split; destruct k).
Defined.

Lemma printd_correct_witness :
  exists k' tr, returns kernel (printd depth (- 2 ^ 31) ConsoleOutput) [] tr tt k' /\
    transcript tr = one_by_one ConsoleOutput (chars "--214748364(").
Proof.
  destruct (printd_correct (- 2 ^ 31) ConsoleOutput []) as (k' & tr & E & _ & W & _); [split; [discriminate|reflexivity]|].
  exists k', tr. split; [exact E|exact W].
Defined.

Lemma shell_correct_witness :
  exists tr k',
    run kernel (shell_main 4 (replicate 60 0)) (chars "matmult" ++ [10] ++ [10] ++ chars "sort" ++ [10] ++ replicate 61 32) =
      (tr, Failed OutOfBounds, k') /\
    executed [chars "matmult"; []; chars "sort"] (jobs tr).
Proof.
  destruct (shell_correct [chars "matmult"; []; chars "sort"] (replicate 61 32) (replicate 60 0)
    (chars "matmult" ++ [10] ++ [10] ++ chars "sort" ++ [10] ++ replicate 61 32)) as (tr & k' & E & Hj & _).
  - reflexivity.
  - repeat constructor; discriminate.
  - reflexivity.
  - by repeat constructor.
  - exists tr, k'. split; [exact E|exact Hj].
Defined.

Lemma fromcons_correct_witness :
  exists k' tr, run kernel (fromcons_main 3 0) (chars "abQ") = (tr, Stopped Halt, k') /\
    transcript tr = one_by_one ConsoleOutput (chars "ab" ++ [10] ++ chars "2 characters seen." ++ [10]).
Proof.
  destruct (fromcons_correct (chars "ab") [] 0 (chars "abQ")) as (k' & tr & E & _ & W); [reflexivity|by repeat constructor|done|].
  exists k', tr. split; [exact E|exact W].
Defined.

(** ** sort.c *)

(** The numbers from [n] down to 1, which the array holds at first. *)
Definition descending (n : Z) : list Z := (fun k => n - k) <$> seqZ 0 n.

(** What the array holds at the end: the numbers of one parity downwards, then the
    others upwards. *)
Definition sort_result (n : Z) : list Z :=
  (fun k => if k <? n / 2 then n - 1 - 2 * k else 2 * k + 2 - n) <$> seqZ 0 n.

(** One element is carried to the end. *)
Lemma bubble x l : Forall (fun y => y < x) l -> forall pre post,
  for_loop (length l) (zlen pre) compare_swap (pre ++ x :: l ++ post) = Ok (pre ++ l ++ x :: post).
Proof.
  induction 1 as [|y l Hy Hl IH]; intros pre post; [done|]. cbn [length for_loop app].
  assert (compare_swap (zlen pre) (pre ++ x :: y :: l ++ post) = Ok ((pre ++ [y]) ++ x :: l ++ post)) as ->.
  { assert (forall z, znth (pre ++ z :: y :: l ++ post) (zlen pre) = Some z) as H1.
    { intros z. rewrite znth_lookup by (unfold zlen; lia). unfold zlen. by rewrite Nat2Z.id, list_lookup_middle. }
    assert (forall z w, znth (pre ++ z :: w :: l ++ post) (zlen pre + 1) = Some w) as H2.
    { intros z w. rewrite znth_lookup by (unfold zlen; lia). replace (Z.to_nat (zlen pre + 1)) with (length (pre ++ [z])) by (rewrite length_app; unfold zlen; cbn; lia).
      change (pre ++ z :: w :: l ++ post) with (pre ++ [z] ++ w :: l ++ post). by rewrite app_assoc, list_lookup_middle. }
    unfold compare_swap. rewrite (proj2 (zget_Ok _ _ _) (H1 x)), bind_Ok, (proj2 (zget_Ok _ _ _) (H2 x y)), bind_Ok.
    rewrite Z.gtb_ltb, (proj2 (Z.ltb_lt y x)) by done.
    rewrite zset_Ok, bind_Ok, zset_Ok by (rewrite ?zlen_insert, zlen_app; unfold zlen; cbn [length]; lia).
    replace (Z.to_nat (zlen pre)) with (length pre) by (unfold zlen; lia). rewrite insert_app_r_alt, Nat.sub_diag by lia.
    replace (Z.to_nat (zlen pre + 1)) with (length pre + 1)%nat by (unfold zlen; lia). rewrite insert_app_r.
    cbn. by rewrite <- app_assoc. }
  rewrite bind_Ok. replace (zlen pre + 1) with (zlen (pre ++ [y])) by (rewrite zlen_app; done).
  rewrite IH. by rewrite <- app_assoc.
Qed.

Lemma for_loop_app {A} a b i (body : Z -> A -> res A) x :
  for_loop (a + b) i body x = for_loop a i body x ≫= for_loop b (i + Z.of_nat a) body.
Proof.
  revert i x. induction a as [|a IH]; intros i x; cbn [for_loop Nat.add].
  - by rewrite Z.add_0_r.
  - destruct (body i x) as [y|e]; [|done]. rewrite !bind_Ok, IH. by replace (i + 1 + Z.of_nat a) with (i + Z.of_nat (S a)) by lia.
Qed.

Lemma for_loop_idle {A} n (body : Z -> A -> res A) x i :
  (forall j, i <= j -> body j x = Ok x) -> for_loop n i body x = Ok x.
Proof. revert i. induction n as [|n IH]; intros i Hb; [done|]. cbn [for_loop]. rewrite Hb, bind_Ok by lia. apply IH. intros j Hj. apply Hb. lia. Qed.

Lemma for_loop_fill (f : Z -> Z) n : forall i pre,
  zlen pre = i -> for_loop n i (fun i a => a.[i := f i]) (pre ++ replicate n 0) = Ok (pre ++ (f <$> seqZ i (Z.of_nat n))).
Proof.
  induction n as [|n IH]; intros i pre Hi; [done|]. cbn [for_loop replicate]. assert (0 <= zlen pre) by (unfold zlen; lia).
  rewrite zset_Ok, bind_Ok by (rewrite zlen_app; unfold zlen in *; cbn [length]; lia).
  replace (Z.to_nat i) with (length pre) by (unfold zlen in Hi; lia). rewrite insert_app_r_alt, Nat.sub_diag by lia.
  cbn [insert list_insert]. rewrite (seqZ_cons i (Z.of_nat (S n))), fmap_cons by lia.
  replace (Z.pred (Z.of_nat (S n))) with (Z.of_nat n) by lia.
  change (f i :: replicate n 0) with ([f i] ++ replicate n 0). rewrite app_assoc, IH by (rewrite zlen_app, Hi; done).
  by rewrite <- app_assoc.
Qed.

Lemma descending_2 m : 2 <= m -> descending m = m :: m - 1 :: descending (m - 2).
Proof.
  intros Hm. unfold descending. rewrite (seqZ_cons 0 m), (seqZ_cons (Z.succ 0)), !fmap_cons by lia.
  apply f_equal2; [lia|]. apply f_equal2; [lia|]. replace (Z.pred (Z.pred m)) with (m - 2) by lia.
  change (Z.succ (Z.succ 0)) with (2 + 0). rewrite <- (fmap_add_seqZ 2), <- list_fmap_compose. apply list_fmap_ext. intros _ k _. cbn. lia.
Qed.

Section sort.
Context (n : Z).

(** Before pass [i]: [i] numbers in front, the small ones in order, [i] behind. *)
Definition front (i : Z) : list Z := (fun k => n - 1 - 2 * k) <$> seqZ 0 i.
Definition back (i : Z) : list Z := (fun k => 2 * k + 2 - n) <$> seqZ (n - i) i.
Definition stage (i : Z) : list Z := front i ++ descending (n - 2 * i) ++ back i.

Lemma front_next i : 0 <= i -> front (i + 1) = front i ++ [n - 1 - 2 * i].
Proof. intros Hi. unfold front. rewrite seqZ_app, fmap_app by lia. by rewrite Z.add_0_l. Qed.

Lemma back_next i : 0 <= i -> back (i + 1) = n - 2 * i :: back i.
Proof.
  intros Hi. unfold back. rewrite (seqZ_cons _ (i + 1)), fmap_cons by lia. f_equal; [lia|].
  by replace (Z.succ (n - (i + 1))) with (n - i) by lia; replace (Z.pred (i + 1)) with i by lia.
Qed.

Lemma descending_below m : Forall (fun y => y < m + 1) (descending m).
Proof. unfold descending. apply Forall_fmap, Forall_forall. intros k Hk%elem_of_seqZ. cbn. lia. Qed.

Lemma pass_stage i : 0 <= i -> 2 * i + 2 <= n -> sort_pass n i (stage i) = Ok (stage (i + 1)).
Proof.
  intros Hi Hn. unfold sort_pass, stage. rewrite (descending_2 (n - 2 * i)), front_next, back_next by lia.
  replace (n - 2 * (i + 1)) with (n - 2 * i - 2) by lia. set (m := n - 2 * i).
  pose proof (bubble m (m - 1 :: descending (m - 2))) as Hb.
  assert (length (m - 1 :: descending (m - 2)) = Z.to_nat (n - 1 - i - i)) as Hl.
  { unfold descending. cbn [length]. rewrite length_fmap, length_seqZ. lia. }
  assert (zlen (front i) = i) as Hf by (unfold front, zlen; rewrite length_fmap, length_seqZ; lia).
  rewrite Hl in Hb. specialize (Hb ltac:(constructor; [lia|eapply Forall_impl; [apply descending_below|]; intros y Hy; cbv beta in Hy |- *; lia]) (front i) (back i)).
  rewrite Hf in Hb. rewrite <- app_assoc. replace (n - 1 - 2 * i) with (m - 1) by lia. exact Hb.
Qed.

Lemma passes j : forall i, 0 <= i -> 2 * (i + Z.of_nat j) <= n -> for_loop j i (sort_pass n) (stage i) = Ok (stage (i + Z.of_nat j)).
Proof.
  induction j as [|j IH]; intros i Hi Hn; cbn [for_loop]; [by rewrite Z.add_0_r|].
  rewrite pass_stage, bind_Ok, IH by lia. by replace (i + 1 + Z.of_nat j) with (i + Z.of_nat (S j)) by lia.
Qed.

Lemma half_way : 0 <= n -> stage (n / 2) = sort_result n.
Proof.
  intros Hn. set (h := n / 2). assert (0 <= h /\ 2 * h <= n < 2 * h + 2) as Hh by (unfold h; Z.div_mod_to_equations; lia).
  unfold stage, sort_result. fold h.
  assert (seqZ 0 n = seqZ 0 h ++ seqZ h (n - h)) as E.
  { rewrite <- (Z.add_0_l h) at 2. rewrite <- seqZ_app by lia. f_equal. lia. }
  rewrite E, fmap_app. f_equal.
  - unfold front. apply list_fmap_ext. intros i k Hk. apply lookup_seqZ in Hk. cbv beta. by rewrite (proj2 (Z.ltb_lt k h)) by lia.
  - assert (((fun k => if k <? h then n - 1 - 2 * k else 2 * k + 2 - n) <$> seqZ h (n - h)) =
            ((fun k => 2 * k + 2 - n) <$> seqZ h (n - h))) as ->.
    { apply list_fmap_ext. intros i k Hk. apply lookup_seqZ in Hk. by rewrite (proj2 (Z.ltb_ge k h)) by lia. }
    unfold back, descending. assert (n - 2 * h = 0 \/ n - 2 * h = 1) as [E2|E2] by lia; rewrite E2.
    + by replace (n - h) with h by lia.
    + rewrite (seqZ_cons h (n - h)), fmap_cons by lia. cbn [app fmap list_fmap seqZ seq Z.to_nat Pos.to_nat].
      replace (Z.succ h) with (n - h) by lia. replace (Z.pred (n - h)) with h by lia.
      change ((fun k => 1 - k) <$> seqZ 0 1) with [1]. cbn [app]. f_equal. lia.
Qed.

Lemma reverse_order_descending : reverse_order n = Ok (descending n).
Proof.
  unfold reverse_order. pose proof (for_loop_fill (fun i => n - i) (Z.to_nat n) 0 [] eq_refl) as E. cbn [app] in E.
  etransitivity; [exact E|]. unfold descending. destruct (Z.le_gt_cases 0 n); [by rewrite Z2Nat.id|].
  rewrite !seqZ_nil by lia. done.
Qed.

Lemma sort_array_result : 0 <= n -> sort_array n = Ok (sort_result n).
Proof.
  intros Hn. unfold sort_array. rewrite reverse_order_descending, bind_Ok.
  assert (descending n = stage 0) as -> by (unfold stage, back; cbn; by rewrite Z.sub_0_r, app_nil_r).
  set (h := n / 2). assert (0 <= h /\ 2 * h <= n < 2 * h + 2) as Hh by (unfold h; Z.div_mod_to_equations; lia).
  replace (Z.to_nat (n - 1)) with (Z.to_nat h + Z.to_nat (n - 1 - h))%nat by lia.
  rewrite for_loop_app, passes, bind_Ok, for_loop_idle by (try lia; intros j Hj; unfold sort_pass;
    by replace (Z.to_nat (n - 1 - j - j)) with 0%nat by lia).
  rewrite Z.add_0_l, Z2Nat.id by lia. f_equal. by apply half_way.
Qed.
End sort.

Lemma result_permutation n : 0 <= n -> sort_result n ≡ₚ descending n.
Proof.
  intros Hn. set (h := n / 2). assert (0 <= h /\ 2 * h <= n < 2 * h + 2) as Hh by (unfold h; Z.div_mod_to_equations; lia).
  apply NoDup_Permutation.
  - apply NoDup_fmap_2_strong; [|apply NoDup_seqZ]. intros x y [_ Hx]%elem_of_seqZ [_ Hy]%elem_of_seqZ. fold h.
    destruct (Z.ltb_spec x h), (Z.ltb_spec y h); lia.
  - apply NoDup_fmap_2_strong; [|apply NoDup_seqZ]. intros x y _ _. cbv beta. lia.
  - intros x. unfold sort_result, descending. rewrite !list_elem_of_fmap. fold h. split.
    + intros (k & -> & Hk%elem_of_seqZ). exists (n - (if k <? h then n - 1 - 2 * k else 2 * k + 2 - n)).
      rewrite elem_of_seqZ. destruct (Z.ltb_spec k h); lia.
    + intros (k & -> & Hk%elem_of_seqZ). exists (if Z.odd k then (k - 1) / 2 else n - 1 - k / 2).
      pose proof (Zmod_odd k) as Ho. rewrite elem_of_seqZ.
      destruct (Z.odd k); match goal with |- _ = (if ?x <? _ then _ else _) /\ _ => destruct (Z.ltb_spec x h) end;
        clearbody h; Z.div_mod_to_equations; lia.
Qed.

(** sort does not sort.  On the numbers from n down to 1, the loops leave
    the ones of one parity in descending order, followed by the others in
    ascending order, because each pass begins where the last one has: what one
    pass leaves in front is never looked at again.  On the 1024 of the program the
    first is 1023, with which it exits. *)
Theorem sort_correct n :
  0 <= n ->
  sort_array n = Ok (sort_result n) /\ sort_result n ≡ₚ descending n /\
  forall K (kernel : request -> K -> option (answer * K)) k, run kernel sort_main k = ([], Stopped (Exit 1023), k).
Proof.
  intros Hn. split; [by apply sort_array_result|]. split.
  - by apply result_permutation.
  - intros K kernel k. unfold sort_main. rewrite sort_array_result by lia. reflexivity.
Qed.

Lemma sort_correct_witness :
  sort_array 8 = Ok [7; 5; 3; 1; 2; 4; 6; 8] /\ run key_kernel sort_main [] = ([], Stopped (Exit 1023), []).
Proof.
  destruct (sort_correct 8) as (E & _ & Hr); [discriminate|]. split; [exact E|apply Hr].
Defined.

(** ** The other programs *)

(** matmult: C[i][j] is 20 * i * j, so that the program exits with 7220. *)
Lemma matmult_exits {K} kernel (k : K) : run kernel matmult_main k = ([], Stopped (Exit 7220), k).
Proof.
  assert ((matmult_init (replicate 400 0, replicate 400 0, replicate 400 0) ≫= fun '(A, B, C) => multiply A B C) =
          Ok ((fun i => 20 * (i / 20) * (i mod 20)) <$> seqZ 0 400)) as E by (vm_compute; reflexivity).
  unfold matmult_main. destruct (matmult_init _) as [[[A B] C]|]; [|done]. rewrite bind_Ok in E.
  cbn [lift mbind prog_bind prog_then]. rewrite E. reflexivity.
Qed.

(** The third argument of a call of prints in multiprog.c is its second
    parameter: the text goes to the file 32, not to the console. *)
Lemma multiprog_file {K} `{Terminal K} k : exists k' tr,
  returns kernel (prints (lit "PARENT after exec; child2 pid is ") 32) k tr tt k' /\
  writes 32 (chars "PARENT after exec; child2 pid is ") tr.
Proof.
  destruct (prints_lit "PARENT after exec; child2 pid is " 32 k) as (k' & tr & E & _ & W); [by repeat constructor|].
  by exists k', tr.
Qed.

(** child1 and child2 write parts of their texts. *)
Lemma child1_says j : omap (fun c => Some (written c)) (run key_kernel (child1_main j) []).1.1 =
  [[(ConsoleOutput, chars "Child1 exis")]; [(ConsoleOutput, chars "Child1 is about to ex")]].
Proof. reflexivity. Qed.

(** The loop of kid4.c ends at once. *)
Lemma kid4_no_delay fuel j : kid4_delay (S fuel) 0 j = Ok (1, j).
Proof. reflexivity. Qed.

(** bogus1 writes outside its array, and so does fileio, before its first call. *)
Lemma zset_outside (l : list Z) i x : zlen l <= i -> l.[i := x] = Err OutOfBounds.
Proof. intros Hi. unfold zset. fold (zlen l). by rewrite (proj2 (Z.ltb_ge i (zlen l))), andb_false_r by lia. Qed.

Lemma bogus1_fails {K} kernel arr (k : K) : zlen arr = 10 -> run kernel (bogus1_main arr) k = ([], Failed OutOfBounds, k).
Proof. intros Hl. unfold bogus1_main. by rewrite zset_outside by lia. Qed.

Lemma assign_ok s : forall a i, 0 <= i -> i + zlen s <= zlen a -> exists a', assign a i s = Ok a' /\ zlen a' = zlen a.
Proof.
  induction s as [|c s IH]; intros a i Hi Ha; cbn [assign]; [by exists a|].
  assert (zlen (c :: s) = zlen s + 1) as Hz by (unfold zlen; cbn [length]; lia). assert (0 <= zlen s) by (unfold zlen; lia).
  rewrite zset_Ok, bind_Ok by lia. destruct (IH (<[Z.to_nat i := c]> a) (i + 1)) as (a' & E & El); [lia|rewrite zlen_insert; lia|].
  exists a'. by rewrite El, zlen_insert.
Qed.

Lemma fileio_fails {K} kernel buffer buffer1 buffer2 nl notopen (k : K) :
  zlen nl = 81 -> run kernel (fileio_main buffer buffer1 buffer2 nl notopen) k = ([], Failed OutOfBounds, k).
Proof.
  intros Hl. unfold fileio_main. destruct (assign_ok (replicate 80 42) nl 0) as (a & E & El); [done|rewrite Hl; done|].
  rewrite E. cbn [lift mbind prog_bind prog_then]. by rewrite zset_outside by lia.
Qed.
